(* ===== verification/_CoqProject ===== *)
-Q . S2P
Prelude.v
Multiboot.v
Frames.v
PageTable.v
VirtPages.v
Kmalloc.v
HeapPages.v
KernelHeap.v
MemTest.v
ProcQueue.v
Processes.v
KernelThreads.v
RingBuffer.v
Ports.v
Interrupts.v
RingDev.v
Vga.v
Serial.v
Printk.v
Md5.v
Strings.v
Disk.v
Keycodes.v
Ps2.v
Echo.v
Ata.v
Ext2.v
Kmain.v
Boot.v
KernelWait.v
KeyboardWait.v
KeyboardBoot.v
DiskWait.v
DiskBoot.v
TestThreads.v
