(* ===== verification/Prelude.v ===== *)
(** * BanjOS: a verification library of the kernel

    BanjOS is a small x86-64 kernel in C: it takes the memory map from the boot loader,
    builds page tables, a heap and a scheduler, and drives a text screen, a serial
    line, a keyboard and an ATA disk with an ext2 file system, from which a thread reads
    its own kernel image and prints the MD5 digest of it. This library models the C code,
    one file per part, and proves what makes each part correct.

    ** The files

    - Prelude: machine integers, bit fields, the monad of kernel functions and its
      contracts, alignment (include/alignment.h), assertions (include/smolassert.h).
    - Multiboot: src/multiboot_tags.c - walking the tags, and the table of usable regions.
    - Frames: the frame allocator of src/page_allocator.c, over physical memory.
    - PageTable: src/page_table.c, over the same memory.
    - VirtPages: the rest of src/page_allocator.c - the heap's break, pages mapped at the
      first touch by the page fault handler, and giving them back.
    - Kmalloc: src/allocator.c, over an interface [PageSource] for the pages it takes.
    - HeapPages: VirtPages as a [PageSource], each access going through the page tables.
      KernelHeap: clients of the heap, from the boot map on. MemTest: [MMU_memtest] of
      src/page_allocator.c, and the kernel that runs it first.
    - ProcQueue, Processes: src/processes.c - the circular queues of threads, blocking and
      waking, creation and exit, and the context switch of the interrupt stubs, over an
      interface [Allocator]. KernelThreads: the scheduler on the kernel heap, and the loop
      of [kmain] (src/kmain.c).
    - RingBuffer: src/ring_buffer.c, also with the producer as an interrupt between any
      two memory accesses of the consumer. RingDev: a ring between a device and threads.
    - Ports: include/portio.h. Interrupts: src/gdt.c, src/interrupts.c.
    - Vga: src/vga.c. Serial: src/serial.c. Printk: src/printk.c, over any console and on
      the screen and the line.
    - Md5: src/md5.c, with the algorithm of RFC 1321 as its reference.
    - Strings: src/string.c. Keycodes: include/keycodes.h, src/keycodes.c.
    - Ps2: src/ps2.c, the keyboard. Echo: the keyboard's thread of src/kmain.c, which prints
      what is typed.
    - Disk: the interface [BlockDevice] (include/block_device.h), its laws, and src/mbr.c.
    - Ata: src/block_device.c; its last part shows that it keeps the laws of Disk.
    - Ext2: src/ext2.c and src/fs.c, over any [BlockDevice].
    - Kmain: the disk thread of src/kmain.c, which uses Ata, Ext2, Strings, Md5, Printk.
    - Boot: [kmain] itself - every initialization on one machine, the threads and the loop.
      KernelWait: a thread that blocks on that machine until an interrupt - the handlers,
      the halt, the queues. KeyboardWait: the thread of Echo on it, DiskWait: the thread of
      Kmain. KeyboardBoot: all of it, from power on through [ps2_initialize] to what is
      typed. DiskBoot: from power on to the digest of the kernel on the screen.
      TestThreads: the threads of src/kmain.c that nothing starts.

    ** How code is modelled

    A C function is a function from its component's state to an [outcome]: it returned;
    it printed a message and executed EXIT (the machine stops); it did something C or
    the hardware gives no meaning to, such as following a null pointer or leaving an
    array ([Fault]); or a loop used up the rounds the model gave it ([NoFuel]). Theorems
    say which of these happens: a theorem that an operation returns excludes faults
    and endless loops. An operation keeps its C name; loops are named after what
    they do. Integers are [Z] with every wrap-around of the C types written out
    ([wrap], [u8] to [u64], [sint]); a struct with bit fields is the word it is packed
    in, read and written with [get_bits] and [set_bits].

    State is explicit. Memory that matters is a map from addresses: physical memory as
    64-bit words in Frames and PageTable, the heap's blocks and headers in Kmalloc, nodes
    and stacks in ProcQueue and Processes, requests in Ata, bytes in Strings. Components
    meet in three ways: by sharing the state (Multiboot, Frames, PageTable, VirtPages have
    one machine, [mm]; the drivers have one interrupt state, [irq_state W], whose [world]
    each driver reaches through a class such as [HasRing] or [HasAta]); through an
    interface with laws, against which the client is proved and which the
    implementation is shown to keep ([BlockDevice], [PageSource], [Allocator], [Reader],
    [QuietWait]); and by [zoom], which runs an operation in a larger state.

    Hardware is not part of the program. The devices behind the ports answer reads
    by a function of all accesses made so far ([Hardware]); what a theorem needs of a
    device is a class over that function ([GoodDrive], [PataDrive], [GoodController],
    [Typing], [line_ready]), stated with a monitor that runs along the accesses, and
    each has an instance. Ports are polled with fuel, and a device that answers within
    [patience] looks needs fuel above [patience]; where the code has a timeout the fuel is
    the timeout. Other fuel: the number of frames and entries that exist (Frames,
    PageTable), the bytes mapped (Strings), one round per block, entry or byte
    (Ext2, Printk), one per read of 7000 bytes (Kmain). Each theorem states how much is
    enough, or the fuel is computed from the state.

    ** What is proved

    - The memory below everything: the region table holds usable, aligned, disjoint
      memory clear of the kernel (Multiboot); the frame allocator refines a pool and
      the boot table is one (Frames); page tables stay a tree, the boot tables are the
      identity, look-up is injective (PageTable); allocated pages are mapped at the first
      touch, others stop the machine (VirtPages); blocks of kmalloc are aligned, apart and
      keep their contents (Kmalloc); and, all of it together, a program that uses the
      heap of a booted kernel sees separate blocks that hold what it wrote (KernelHeap).
    - Threads: every scheduler operation refines an abstract machine on lists; yielding is
      round robin; creation starts a thread, exit frees it (Processes); on the heap of a
      booted kernel [kmain]'s threads and loop refine it too (KernelThreads).
    - The whole: [kmain] from power on comes up or stops with a message, and then runs its
      threads as the abstract machine does (Boot); the memory test ends as its
      assertions say and loses no frame (MemTest).
    - Interrupts: the descriptor tables after boot, dispatch, masks (Interrupts).
    - Devices: the ring is a FIFO, also under interrupts (RingBuffer); the screen refines
      a terminal (Vga); the line sends in order (Serial); printk prints numerals of the
      values it is given, on both (Printk); keys are read in the order they were typed and
      initialization leaves the controller as wanted (Ps2, Keycodes); what is typed
      appears on the screen, on any machine with a [Reader] (Echo) and, from power on, on
      the whole kernel, scheduler, halt and interrupt included (KeyboardWait, KeyboardBoot);
      disk reads return
      the sector asked for and requests are a queue (Ata), also where waiting is done by the
      whole kernel (DiskWait).
    - Files: the partition table, mounting, inodes, directories and file contents (Disk,
      Ext2); the digest is that of RFC 1321 however the message is cut up (Md5); strings
      (Strings); the disk thread prints the digest of /boot/kernel on a machine with a
      working disk that holds it (Kmain); and, end to end, from power on the digest appears
      on the screen, through boot, threads, interrupts, driver, file system, digest and
      printk (DiskBoot).

    Where the code does not do what it means to, the theorem says what it does, or has
    the condition under which it is right, and a lemma shows the case: freeing a
    page that was never touched, the second reader of the disk, reads that end in
    the last block of a file, doubly indirect blocks, [strcmp], the interrupt stacks, the
    carriage return, printk's long hexadecimal numbers and trailing percent sign, and
    some others in the comments of their files.

    ** Not modelled

    - boot.asm, long_mode_init.asm, multiboot_header.asm and the stubs of isr_handler.asm
      are assembly; the register save and the stack switch of the stubs are modelled
      with the scheduler (Processes). The build files and tools produce no kernel code
      but the stubs and the key code enumeration, which is modelled as it is.
    - invlpg and the TLB: a table entry takes effect at once. The kernel reaches frames
      and tables through the identity map, so in the model by their physical address;
      only heap addresses are translated (HeapPages), and their page faults run
      [page_fault_handler] directly. Loading the descriptor registers is recorded.
    - Both threads at work at once: what [kmain]'s two threads do is proved on the machine of
      Boot for each while the other waits - the keyboard's while the disk does not answer
      (KeyboardBoot), the disk's while nobody types (DiskBoot). Scheduling operations of
      any threads in any order are in KernelThreads and Boot. A thread's own accesses to
      its stack are not followed. Endless loops are run for any number of turns. The code
      between two waits of a thread is not interrupted, but for the ring's (RingBuffer).
    - Messages: the drivers record what they print, format (without its final newline) and
      arguments, instead of running printk inside each; the lines of the disk thread are
      shown on the console when it is done, which it has left alone till then. dprintk is
      printk (the debug build). The progress lines of the memory components, which print
      no state they change, are left out.
    - Uninitialized variables are parameters; the blocks Ext2 takes from kmalloc are values,
      and only their number is kept; on the whole kernel the request of a disk read is
      at the same address at each read, its queue known to the scheduler from boot on. *)

From Stdlib Require Export ZArith Lia Bool Sorting.Sorted.
From stdpp Require Export base numbers list list_numbers gmap strings.

#[global] Open Scope Z_scope.

(** ** Machine integers

    A value of a [w]-bit unsigned C type is a [Z] in [0, 2^w); every C
    operation that can leave the range is followed by [wrap w]. *)

Definition wrap (w x : Z) : Z := x mod 2 ^ w.
Abbreviation u8 := (wrap 8).
Abbreviation u16 := (wrap 16).
Abbreviation u32 := (wrap 32).
Abbreviation u64 := (wrap 64).

(** Two's complement reading of the low [w] bits. *)
Definition sint (w x : Z) : Z :=
  let y := wrap w x in if y <? 2 ^ (w - 1) then y else y - 2 ^ w.

Definition in_range (w x : Z) : Prop := 0 <= x < 2 ^ w.

(** ** Bit fields

    [get_bits lo n w] and [set_bits lo n v w] read and write the [n]-bit field
    of the word [w] whose lowest bit is [lo]: how a C bit-field member of a
    packed struct is read and assigned. *)

Definition get_bits (lo n w : Z) : Z := Z.land (Z.shiftr w lo) (Z.ones n).

Definition set_bits (lo n v w : Z) : Z :=
  Z.lor (Z.land w (Z.lnot (Z.shiftl (Z.ones n) lo)))
        (Z.shiftl (Z.land v (Z.ones n)) lo).

Definition get_flag (lo w : Z) : bool := negb (get_bits lo 1 w =? 0).
Definition set_flag (lo : Z) (b : bool) (w : Z) : Z := set_bits lo 1 (Z.b2z b) w.

(** ** Tactics *)

(** Linear arithmetic with division and modulo by constants. *)
Ltac zdm := Z.div_mod_to_equations; lia.

(** Case analysis on the boolean comparisons of the goal and hypotheses. *)
Ltac zcases :=
  repeat match goal with
  | |- context [?a <? ?b] => destruct (Z.ltb_spec a b)
  | |- context [?a <=? ?b] => destruct (Z.leb_spec a b)
  | |- context [?a =? ?b] => destruct (Z.eqb_spec a b)
  | H : context [?a <? ?b] |- _ => destruct (Z.ltb_spec a b)
  | H : context [?a <=? ?b] |- _ => destruct (Z.leb_spec a b)
  | H : context [?a =? ?b] |- _ => destruct (Z.eqb_spec a b)
  end.

(** Facts about closed terms, for the witnesses: evaluate them. *)
Ltac eval_fact :=
  repeat match goal with |- _ /\ _ => split end;
  solve [ vm_compute; reflexivity | vm_compute; intros; congruence | vm_compute; lia
        | vm_compute; tauto ].
Ltac eval_list :=
  repeat first [ apply Forall_cons_2 | apply Forall_nil_2 | apply SSorted_cons
               | apply SSorted_nil ]; try eval_fact.

Create Rewrite HintDb bits.
Create HintDb kernel.

Lemma testbit_wrap w x i : 0 <= w ->
  Z.testbit (wrap w x) i = (i <? w) && Z.testbit x i.
Proof.
  intros Hw. unfold wrap. zcases; simpl.
  - destruct (decide (0 <= i)).
    + apply Z.mod_pow2_bits_low; lia.
    + rewrite !Z.testbit_neg_r by lia. done.
  - apply Z.mod_pow2_bits_high; lia.
Qed.

Lemma testbit_ones n i : 0 <= n ->
  Z.testbit (Z.ones n) i = (0 <=? i) && (i <? n).
Proof. intros. by apply Z.testbit_ones. Qed.

Lemma testbit_shiftl x n i : 0 <= i ->
  Z.testbit (Z.shiftl x n) i = Z.testbit x (i - n).
Proof. intros. by apply Z.shiftl_spec. Qed.

Lemma testbit_shiftr x n i : 0 <= i ->
  Z.testbit (Z.shiftr x n) i = Z.testbit x (i + n).
Proof. intros. by apply Z.shiftr_spec. Qed.

Lemma testbit_lnot x i : 0 <= i -> Z.testbit (Z.lnot x) i = negb (Z.testbit x i).
Proof. apply Z.lnot_spec. Qed.

(** Push [Z.testbit] through the operators, split on the index tests. *)
Ltac bit_push :=
  repeat first
    [ rewrite Z.lor_spec | rewrite Z.land_spec | rewrite Z.lxor_spec
    | rewrite testbit_wrap by lia | rewrite testbit_ones by lia
    | rewrite testbit_shiftl by lia | rewrite testbit_shiftr by lia
    | rewrite testbit_lnot by lia | rewrite Z.bits_0 ].

Ltac bool_norm :=
  rewrite ?andb_true_l, ?andb_true_r, ?andb_false_l, ?andb_false_r,
    ?orb_false_l, ?orb_false_r, ?orb_true_l, ?orb_true_r; simpl.

Ltac bit_arg :=
  repeat match goal with
  | |- context [Z.testbit ?x ?i] =>
      rewrite (Z.testbit_neg_r x i) by lia
  | |- context [Z.testbit ?x ?i] =>
      match goal with
      | |- context [Z.testbit x ?j] =>
          assert_fails (constr_eq i j); replace i with j by lia
      end
  end.

Ltac bitwise :=
  apply Z.bits_inj'; intros ?i ?Hi; bit_push; zcases; bool_norm;
  try (exfalso; lia); bit_arg; bool_norm; try reflexivity;
  repeat match goal with |- context [Z.testbit ?x ?i] => destruct (Z.testbit x i) end;
  try reflexivity; try lia.

(** ** Ranges *)

Lemma wrap_range w x : 0 <= w -> in_range w (wrap w x).
Proof. intros. unfold in_range, wrap. apply Z.mod_pos_bound. lia. Qed.

Lemma wrap_small w x : in_range w x -> wrap w x = x.
Proof. unfold in_range, wrap. intros. by apply Z.mod_small. Qed.

Lemma wrap_ones w x : 0 <= w -> wrap w x = Z.land x (Z.ones w).
Proof. intros. unfold wrap. by rewrite Z.land_ones. Qed.

Lemma wrap_wrap w x : 0 <= w -> wrap w (wrap w x) = wrap w x.
Proof. intros. apply wrap_small. by apply wrap_range. Qed.

Lemma in_range_testbit w x : 0 <= w ->
  in_range w x <-> (0 <= x /\ forall i, w <= i -> Z.testbit x i = false).
Proof.
  intros Hw. split.
  - intros Hx. split; [apply Hx|]. intros i Hi.
    rewrite <- (wrap_small w x), testbit_wrap by done. zcases; [lia|done].
  - intros [H0 Hb]. replace x with (wrap w x).
    + by apply wrap_range.
    + apply Z.bits_inj'. intros i Hi. rewrite testbit_wrap by lia.
      zcases; [done|]. by rewrite Hb by lia.
Qed.

Lemma in_range_bits w x i : 0 <= w -> in_range w x -> w <= i -> Z.testbit x i = false.
Proof. intros Hw Hx. apply in_range_testbit in Hx; [|done]. by apply Hx. Qed.

(** ** Bit-field laws *)

Lemma get_bits_range lo n w : 0 <= n -> in_range n (get_bits lo n w).
Proof.
  intros. unfold get_bits. rewrite Z.land_ones by done.
  unfold in_range. apply Z.mod_pos_bound. lia.
Qed.

Lemma get_bits_arith lo n w : 0 <= lo -> 0 <= n ->
  get_bits lo n w = w / 2 ^ lo mod 2 ^ n.
Proof. intros. unfold get_bits. by rewrite Z.land_ones, Z.shiftr_div_pow2. Qed.

Lemma testbit_get_bits lo n w i : 0 <= lo -> 0 <= n -> 0 <= i ->
  Z.testbit (get_bits lo n w) i = (i <? n) && Z.testbit w (i + lo).
Proof. intros. unfold get_bits. bit_push. zcases; bool_norm; try done; lia. Qed.

Lemma testbit_set_bits lo n v w i : 0 <= lo -> 0 <= n -> 0 <= i ->
  Z.testbit (set_bits lo n v w) i =
    if (lo <=? i) && (i <? lo + n) then Z.testbit v (i - lo) else Z.testbit w i.
Proof.
  intros. unfold set_bits. bit_push.
  zcases; bool_norm; try lia; done.
Qed.

Lemma get_set_bits_same lo n v w : 0 <= lo -> 0 <= n ->
  get_bits lo n (set_bits lo n v w) = wrap n v.
Proof.
  intros. apply Z.bits_inj'. intros i Hi.
  rewrite testbit_get_bits, testbit_wrap, testbit_set_bits by lia.
  zcases; bool_norm; try done; try lia. f_equal. lia.
Qed.

Lemma get_set_bits_other lo n lo' n' v w :
  0 <= lo -> 0 <= n -> 0 <= lo' -> 0 <= n' ->
  lo + n <= lo' \/ lo' + n' <= lo ->
  get_bits lo' n' (set_bits lo n v w) = get_bits lo' n' w.
Proof.
  intros. apply Z.bits_inj'. intros i Hi.
  rewrite !testbit_get_bits, testbit_set_bits by lia.
  zcases; bool_norm; try done; lia.
Qed.

Lemma set_bits_range k lo n v w : 0 <= lo -> 0 <= n -> lo + n <= k ->
  in_range k w -> in_range k (set_bits lo n v w).
Proof.
  intros Hlo Hn Hk Hw. assert (Hw' := Hw).
  rewrite in_range_testbit in Hw by lia. destruct Hw as [Hw0 Hw].
  rewrite in_range_testbit by lia. split.
  - unfold set_bits. apply Z.lor_nonneg. split.
    + apply Z.land_nonneg. by left.
    + apply Z.shiftl_nonneg, Z.land_nonneg. right. rewrite Z.ones_equiv. lia.
  - intros i Hi. rewrite testbit_set_bits by lia.
    zcases; bool_norm; try lia; by apply Hw.
Qed.

Lemma get_bits_0_all k w : 0 <= k -> in_range k w -> get_bits 0 k w = w.
Proof.
  intros. unfold get_bits. rewrite Z.shiftr_0_r, <- wrap_ones by done.
  by apply wrap_small.
Qed.

Lemma get_flag_set_same lo b w : 0 <= lo -> get_flag lo (set_flag lo b w) = b.
Proof.
  intros. unfold get_flag, set_flag. rewrite get_set_bits_same by lia. by destruct b.
Qed.

Lemma get_flag_set_other lo lo' b w : 0 <= lo -> 0 <= lo' -> lo <> lo' ->
  get_flag lo' (set_flag lo b w) = get_flag lo' w.
Proof. intros. unfold get_flag, set_flag. rewrite get_set_bits_other by lia. done. Qed.

Lemma get_flag_set_bits lo n lo' v w : 0 <= lo -> 0 <= n -> 0 <= lo' ->
  lo + n <= lo' \/ lo' + 1 <= lo ->
  get_flag lo' (set_bits lo n v w) = get_flag lo' w.
Proof. intros. unfold get_flag. rewrite get_set_bits_other by lia. done. Qed.

Lemma get_bits_set_flag lo n lo' b w : 0 <= lo -> 0 <= n -> 0 <= lo' ->
  lo + n <= lo' \/ lo' + 1 <= lo ->
  get_bits lo n (set_flag lo' b w) = get_bits lo n w.
Proof. intros. unfold set_flag. rewrite get_set_bits_other by lia. done. Qed.

#[export] Hint Rewrite get_set_bits_same get_set_bits_other get_flag_set_same
  get_flag_set_other get_flag_set_bits get_bits_set_flag using lia : bits.

(** ** Outcomes and the kernel monad

    A C function of the kernel is a function from the component's state to an
    outcome:
    - [Ret a s]: it returned [a] in state [s];
    - [Halted msg args s]: it printed [msg] with the integer arguments [args]
      and executed EXIT ([cli; hlt]), from which the machine does not come back;
    - [Fault]: it did something C or the hardware gives no meaning to (a null
      dereference, an index out of a table);
    - [NoFuel]: a loop did not finish within the fuel given to the model. *)

Inductive outcome (S A : Type) : Type :=
| Ret (a : A) (s : S)
| Halted (msg : string) (args : list Z) (s : S)
| Fault
| NoFuel.
Arguments Ret {S A} a s.
Arguments Halted {S A} msg args s.
Arguments Fault {S A}.
Arguments NoFuel {S A}.

Definition M (S A : Type) : Type := S -> outcome S A.

#[global] Instance M_ret S : MRet (M S) := fun A a s => Ret a s.
#[global] Instance M_bind S : MBind (M S) := fun A B k m s =>
  match m s with
  | Ret a s' => k a s'
  | Halted msg args s' => Halted msg args s'
  | Fault => Fault
  | NoFuel => NoFuel
  end.

Section monad_ops.
Context {S : Type}.
Definition gets {A} (f : S -> A) : M S A := fun s => Ret (f s) s.
Definition modify (f : S -> S) : M S unit := fun s => Ret tt (f s).
(** [panic msg args]: [printk(msg, args...); EXIT]. *)
Definition panic {A} (msg : string) (args : list Z) : M S A :=
  fun s => Halted msg args s.
Definition fault {A} : M S A := fun _ => Fault.
Definition no_fuel {A} : M S A := fun _ => NoFuel.
(** [assert(cond)] of include/smolassert.h. *)
Definition kassert (cond : bool) (text : string) : M S unit :=
  if cond then mret tt
  else panic ("Assertion Failed: " +:+ text)%string [].
End monad_ops.

(** Run a component's operation inside a larger state that contains it. *)
Definition zoom {S T A} (get : T -> S) (put : S -> T -> T) (m : M S A) : M T A :=
  fun t => match m (get t) with
           | Ret a s => Ret a (put s t)
           | Halted msg args s => Halted msg args (put s t)
           | Fault => Fault
           | NoFuel => NoFuel
           end.

Section monad_laws.
Context {S A B : Type}.
Lemma bind_ret (k : A -> M S B) (m : M S A) a s s' :
  m s = Ret a s' -> (m ≫= k) s = k a s'.
Proof. unfold mbind, M_bind. by intros ->. Qed.
Lemma bind_halted (k : A -> M S B) (m : M S A) msg args s s' :
  m s = Halted msg args s' -> (m ≫= k) s = Halted msg args s'.
Proof. unfold mbind, M_bind. by intros ->. Qed.
Lemma bind_gets (k : A -> M S B) (f : S -> A) s : (gets f ≫= k) s = k (f s) s.
Proof. done. Qed.
Lemma bind_modify (k : unit -> M S B) (f : S -> S) s : (modify f ≫= k) s = k tt (f s).
Proof. done. Qed.
Lemma bind_mret (k : A -> M S B) a s : (mret a ≫= k) s = k a s.
Proof. done. Qed.
Lemma bind_assert (k : unit -> M S B) c text s :
  c = true -> (kassert c text ≫= k) s = k tt s.
Proof. by intros ->. Qed.
Lemma bind_Ret_inv (k : A -> M S B) (m : M S A) b s s2 :
  (m ≫= k) s = Ret b s2 -> exists a s1, m s = Ret a s1 /\ k a s1 = Ret b s2.
Proof. unfold mbind, M_bind. destruct (m s); naive_solver. Qed.
Lemma bind_assoc {C} (m : M S A) (k : A -> M S B) (h : B -> M S C) s :
  (m ≫= (fun x => k x ≫= h)) s = ((m ≫= k) ≫= h) s.
Proof. unfold mbind, M_bind. by destruct (m s). Qed.
End monad_laws.

Lemma zoom_ret {S T A} (get : T -> S) (put : S -> T -> T) (m : M S A) a s t :
  m (get t) = Ret a s -> zoom get put m t = Ret a (put s t).
Proof. unfold zoom. by intros ->. Qed.

(** Step through the primitive operations at the head of a program. *)
Ltac mstep :=
  repeat first [ rewrite bind_gets | rewrite bind_modify | rewrite bind_mret
               | rewrite bind_assert by done ].

(** A total contract: the run does not fault nor run out of fuel; when it
    returns [Q] holds, when it halts [H] holds. *)
Definition runs {S A} (m : M S A) (s : S) (Q : A -> S -> Prop)
    (H : string -> S -> Prop) : Prop :=
  match m s with
  | Ret a s' => Q a s'
  | Halted msg _ s' => H msg s'
  | Fault | NoFuel => False
  end.

Section runs.
Context {S A B : Type}.
Lemma runs_bind (m : M S A) (k : A -> M S B) s Q Q' H :
  runs m s Q' H -> (forall a s', Q' a s' -> runs (k a) s' Q H) ->
  runs (m ≫= k) s Q H.
Proof. unfold runs, mbind, M_bind. intros Hm Hk. destruct (m s); try done. by apply Hk. Qed.
Lemma runs_assoc {C} (m : M S A) (k : A -> M S B) (h : B -> M S C) s Q H :
  runs ((m ≫= k) ≫= h) s Q H -> runs (m ≫= (fun x => k x ≫= h)) s Q H.
Proof. unfold runs. by rewrite bind_assoc. Qed.
Lemma runs_bind_ret (m : M S A) (k : A -> M S B) a s s' Q H :
  m s = Ret a s' -> runs (k a) s' Q H -> runs (m ≫= k) s Q H.
Proof. unfold runs, mbind, M_bind. by intros ->. Qed.
Lemma runs_bind_gets (f : S -> A) (k : A -> M S B) s Q H :
  runs (k (f s)) s Q H -> runs (gets f ≫= k) s Q H.
Proof. done. Qed.
Lemma runs_ret (a : A) (s : S) (Q : A -> S -> Prop) H : Q a s -> runs (mret a) s Q H.
Proof. done. Qed.
Lemma runs_conseq (m : M S A) s (Q Q' : A -> S -> Prop) (H H' : string -> S -> Prop) :
  runs m s Q' H' -> (forall a s', Q' a s' -> Q a s') ->
  (forall msg s', H' msg s' -> H msg s') -> runs m s Q H.
Proof. unfold runs. intros. destruct (m s); auto. Qed.

(** Evaluation tells which of the two ends a run comes to. *)
Definition returns (m : M S A) (s : S) : bool :=
  match m s with Ret _ _ => true | _ => false end.
Lemma runs_returns (m : M S A) s Q H : runs m s Q H -> returns m s = true ->
  exists a s', m s = Ret a s' /\ Q a s'.
Proof. unfold runs, returns. destruct (m s); try done. eauto. Qed.
End runs.

#[export] Hint Resolve wrap_range get_bits_range : kernel.

(** ** Lists *)

Lemma StronglySorted_app_r {A} (R : A -> A -> Prop) l1 l2 :
  StronglySorted R (l1 ++ l2) -> StronglySorted R l2.
Proof.
  induction l1 as [|x l1 IH]; [done|]. intros H.
  apply IH. by apply StronglySorted_inv in H as [? _].
Qed.

(** ** Finite sets *)

Lemma size_difference_le `{Countable A} (X Y : gset A) : (size (X ∖ Y) <= size X)%nat.
Proof. apply subseteq_size, subseteq_difference_l. done. Qed.

Lemma size_list_to_set_le `{Countable A} (l : list A) :
  (size (list_to_set l : gset A) <= length l)%nat.
Proof.
  induction l as [|x l IH]; [done|]. cbn [list_to_set length].
  rewrite size_union_alt, size_singleton.
  pose proof (size_difference_le (list_to_set l) {[x]}). lia.
Qed.

(** ** Text *)

(** The format string that is a line feed alone. *)
Definition newline : string := String (Ascii.ascii_of_nat 10) EmptyString.

(** ** Alignment (include/alignment.h)

    [align_pointer] is on [uintptr_t]: the sum wraps at 2^64. *)

Definition align_pointer (addr boundary : Z) (after : bool) : Z :=
  if negb (addr mod boundary =? 0) then
    if after then u64 (addr + (boundary - addr mod boundary))
    else addr - addr mod boundary
  else addr.

Definition aligned (b x : Z) : Prop := x mod b = 0.

Lemma align_up_spec addr b : 0 < b -> in_range 64 addr -> addr + b <= 2 ^ 64 ->
  let r := align_pointer addr b true in
  r mod b = 0 /\ addr <= r < addr + b.
Proof.
  intros Hb [H0 H1] Hov r. subst r. unfold align_pointer.
  pose proof (Z.mod_pos_bound addr b Hb) as Hm.
  destruct (Z.eqb_spec (addr mod b) 0) as [E|E]; cbn [negb]; [lia|].
  rewrite wrap_small by (unfold in_range; lia). split; [|lia].
  rewrite (Z.div_mod addr b) at 1 by lia.
  replace (b * (addr / b) + addr mod b + (b - addr mod b)) with ((addr / b + 1) * b) by lia.
  apply Z.mod_mul. lia.
Qed.

Lemma align_down_spec addr b : 0 < b -> 0 <= addr ->
  let r := align_pointer addr b false in
  r mod b = 0 /\ r <= addr < r + b /\ 0 <= r.
Proof.
  intros Hb H0 r. subst r. unfold align_pointer.
  pose proof (Z.mod_pos_bound addr b Hb) as Hm.
  pose proof (Z.div_mod addr b ltac:(lia)) as Hd.
  destruct (Z.eqb_spec (addr mod b) 0) as [E|E]; cbn [negb]; [lia|].
  replace (addr - addr mod b) with (addr / b * b) by lia.
  rewrite Z.mod_mul by lia.
  assert (0 <= addr / b) by (apply Z.div_pos; lia). nia.
Qed.

Lemma multiple_le b x y : 0 < b -> x mod b = 0 -> y mod b = 0 -> x < y + b -> x <= y.
Proof.
  intros Hb Hx Hy Hlt.
  pose proof (Z.div_mod x b ltac:(lia)). pose proof (Z.div_mod y b ltac:(lia)).
  assert (x / b < y / b + 1) by (apply (Z.mul_lt_mono_pos_l b); lia).
  assert (b * (x / b) <= b * (y / b)) by (apply Z.mul_le_mono_nonneg_l; lia). lia.
Qed.

(** The two roundings are the closest multiples on each side. *)
Lemma align_up_least addr b m : 0 < b -> in_range 64 addr -> addr + b <= 2 ^ 64 ->
  m mod b = 0 -> addr <= m -> align_pointer addr b true <= m.
Proof.
  intros Hb Ha Hov Hm Hle.
  pose proof (align_up_spec addr b Hb Ha Hov) as [Hr Hr'].
  apply (multiple_le b); lia.
Qed.

Lemma align_down_greatest addr b m : 0 < b -> 0 <= addr ->
  m mod b = 0 -> m <= addr -> m <= align_pointer addr b false.
Proof.
  intros Hb Ha Hm Hle.
  pose proof (align_down_spec addr b Hb Ha) as (Hr & Hr' & _).
  apply (multiple_le b); lia.
Qed.
