(* ===== verification/Multiboot.v ===== *)
(** * Multiboot: the boot information tags and the usable memory regions
    (src/src/multiboot_tags.c, src/include/multiboot_tags.h) *)

From S2P Require Import Prelude.

Definition MMU_PAGE_SIZE : Z := 4096.

(** The page an address lies in. *)
Definition page_of (p : Z) : Z := p - p mod MMU_PAGE_SIZE.
Definition MEM_REGIONS_LEN : nat := 16.

(** ** Data *)

(** [void *] bounds of a region; [next] is where the frame allocator carves. *)
Record MemRegion := mkRegion { r_start : Z; r_end : Z; r_next : Z }.

#[export] Instance MemRegion_eq_dec : EqDecision MemRegion.
Proof. solve_decision. Defined.

Record TagMemMapEntry := mkMemEntry
  { starting_addr : Z; mem_length : Z; mem_type : Z }.

Record TagELFEntry := mkElfEntry
  { section_type : Z; segment_address : Z; segment_size : Z }.

(** The uint64_t ends the code computes. *)
Definition mem_end (e : TagMemMapEntry) : Z := u64 (starting_addr e + mem_length e).
Definition elf_end (e : TagELFEntry) : Z := u64 (segment_address e + segment_size e).

(** ** add_region

    The state is [mem_regions]: the [size] filled slots of the static table. *)

Definition add_region (start end_ : Z) : M (list MemRegion) unit :=
  n ← gets length;
  kassert (Nat.ltb n MEM_REGIONS_LEN)
    "mem_regions.size < MEM_REGIONS_LEN && Number of memory regions must fit into static regions table" ;;
  let start := align_pointer start MMU_PAGE_SIZE true in
  let end_ := align_pointer end_ MMU_PAGE_SIZE false in
  if start <? end_ then modify (fun rs => rs ++ [mkRegion start end_ start])
  else mret tt.

(** ** build_mem_regions

    The indices [i] and [j] only grow: the model carries the suffixes
    [mem_entries.d[i..]] and [elf_entries.d[j..]]. *)

(** The loop that skips the sections that end before [start]. *)
Fixpoint skip_sections (start : Z) (elfs : list TagELFEntry) : list TagELFEntry :=
  match elfs with
  | e :: elfs' =>
      if (section_type e =? 0) || (elf_end e <=? start)
      then skip_sections start elfs' else elfs
  | [] => []
  end.

(** The loop that cuts the sections out of [start, end): the final [cur_start]
    and the sections not consumed. *)
Fixpoint carve_sections (end_ cur_start : Z) (elfs : list TagELFEntry)
    : M (list MemRegion) (Z * list TagELFEntry) :=
  match elfs with
  | [] => mret (cur_start, [])
  | e :: elfs' =>
      if segment_address e <? end_ then
        (if segment_address e >? cur_start
         then add_region cur_start (segment_address e `min` end_)
         else mret tt) ;;
        let cur_start := cur_start `max` elf_end e in
        if cur_start >=? end_ then mret (cur_start, elfs)
        else carve_sections end_ cur_start elfs'
      else mret (cur_start, elfs)
  end.

(** One turn of the outer loop: the usable entry [m] against the sections left;
    the result is the sections that remain for the next entries. *)
Definition build_entry (m : TagMemMapEntry) (elfs : list TagELFEntry)
    : M (list MemRegion) (list TagELFEntry) :=
  if negb (mem_type m =? 1) then mret elfs
  else
    let start := starting_addr m in
    let start := if start =? 0 then u64 (start + 1) else start in
    let end_ := mem_end m in
    '(cur_start, elfs) ← carve_sections end_ start (skip_sections start elfs);
    (if cur_start <? u64 (starting_addr m + mem_length m)
     then add_region cur_start end_ else mret tt) ;;
    mret elfs.

Fixpoint build_mem_regions (mems : list TagMemMapEntry) (elfs : list TagELFEntry)
    : M (list MemRegion) unit :=
  match mems with
  | [] => mret tt
  | m :: mems' => elfs ← build_entry m elfs; build_mem_regions mems' elfs
  end.

(** ** The tag list in boot memory

    [boot] is the memory GRUB left behind, one byte per address; the tag list
    is read, never written. *)

Definition load (boot : Z -> Z) (addr : Z) (n : nat) : Z :=
  foldr (fun i acc => Z.lor (boot (addr + Z.of_nat i)) (Z.shiftl acc 8)) 0 (seq 0 n).
Abbreviation load32 boot addr := (load boot addr 4).
Abbreviation load64 boot addr := (load boot addr 8).

Definition TAG_MEM_MAP : Z := 6.
Definition TAG_ELF_HEADER : Z := 9.

Definition tag_type (boot : Z -> Z) (tag : Z) : Z := load32 boot tag.
Definition tag_size (boot : Z -> Z) (tag : Z) : Z := load32 boot (tag + 4).

Definition is_tags_terminator (boot : Z -> Z) (tag : Z) : bool :=
  (tag_type boot tag =? 0) && (tag_size boot tag =? 8).

(** [sizeof(struct TagMemMapEntry)], [sizeof(struct TagMemMapHeader)],
    [sizeof(struct TagELFHeader)], [sizeof(struct TagELFEntry)]. *)
Definition MEM_ENTRY_SIZE : Z := 24.
Definition MEM_HEADER_SIZE : Z := 16.
Definition ELF_HEADER_SIZE : Z := 20.
Definition ELF_ENTRY_SIZE : Z := 64.

Definition read_mem_entry (boot : Z -> Z) (p : Z) : TagMemMapEntry :=
  mkMemEntry (load64 boot p) (load64 boot (p + 8)) (load32 boot (p + 16)).

Definition read_elf_entry (boot : Z -> Z) (p : Z) : TagELFEntry :=
  mkElfEntry (load32 boot (p + 4)) (load64 boot (p + 16)) (load64 boot (p + 32)).

(** A pointer and a count: [struct TagMemMapEntries], [struct TagElfEntries].
    [None] is the uninitialised local of the C function. *)
Record TagEntries := mkEntries { te_d : Z; te_size : Z }.

Definition entries {A} (read : Z -> A) (stride : Z) (e : TagEntries) : list A :=
  (fun i => read (te_d e + stride * Z.of_nat i)) <$> seq 0 (Z.to_nat (te_size e)).

Definition next_tag (boot : Z -> Z) (tag : Z) : Z :=
  align_pointer (u64 (tag + tag_size boot tag)) 8 true.

Fixpoint parse_tags (fuel : nat) (boot : Z -> Z) (tag : Z)
    (mem_entries elf_entries : option TagEntries)
    : M (list MemRegion) (option TagEntries * option TagEntries) :=
  match fuel with
  | O => no_fuel
  | S fuel =>
      if is_tags_terminator boot tag then mret (mem_entries, elf_entries)
      else
        let next := next_tag boot tag in
        if tag_type boot tag =? TAG_MEM_MAP then
          let entry_size := load32 boot (tag + 8) in
          kassert (entry_size =? MEM_ENTRY_SIZE)
            "memheader->entry_size == sizeof(struct TagMemMapEntry) && Entry size must map entry struct size" ;;
          parse_tags fuel boot next
            (Some (mkEntries (tag + MEM_HEADER_SIZE)
                     (u64 (tag_size boot tag - MEM_HEADER_SIZE) / entry_size)))
            elf_entries
        else if tag_type boot tag =? TAG_ELF_HEADER then
          parse_tags fuel boot next mem_entries
            (Some (mkEntries (tag + ELF_HEADER_SIZE) (load32 boot (tag + 8))))
        else parse_tags fuel boot next mem_entries elf_entries
  end.

(** [multiboot_tag_addr] is the value GRUB passes in ebx (boot.asm stores it). *)
Definition multiboot_tags_parse_to_mem_regions (fuel : nat) (boot : Z -> Z)
    (multiboot_tag_addr : Z) : M (list MemRegion) unit :=
  '(mem_entries, elf_entries) ← parse_tags fuel boot (multiboot_tag_addr + 8) None None;
  match mem_entries, elf_entries with
  | Some me, Some ee =>
      build_mem_regions (entries (read_mem_entry boot) MEM_ENTRY_SIZE me)
                        (entries (read_elf_entry boot) ELF_ENTRY_SIZE ee)
  | _, _ => fault
  end.

(** ** Specification vocabulary *)

Definition page_aligned (x : Z) : Prop := x mod MMU_PAGE_SIZE = 0.

Record region_ok (r : MemRegion) : Prop := {
  ok_start : page_aligned (r_start r);
  ok_end : page_aligned (r_end r);
  ok_low : 0 <= r_start r;
  ok_nonempty : r_start r < r_end r;
  ok_next : r_next r = r_start r }.

(** Regions in increasing order, disjoint, all inside [lo, hi). *)
Fixpoint chain (lo : Z) (rs : list MemRegion) (hi : Z) : Prop :=
  match rs with
  | [] => lo <= hi
  | r :: rs' => lo <= r_start r /\ region_ok r /\ chain (r_end r) rs' hi
  end.

(** The region and the section share no address. *)
Definition avoids (r : MemRegion) (e : TagELFEntry) : Prop :=
  r_end r <= segment_address e \/ elf_end e <= r_start r.

(** What the boot loader hands over: entries of physical memory (below 2^52),
    sorted by address; sections sorted by address. *)
Definition mem_wf (m : TagMemMapEntry) : Prop :=
  0 <= starting_addr m /\ 0 < mem_length m /\ starting_addr m + mem_length m <= 2 ^ 52.
Definition elf_wf (e : TagELFEntry) : Prop :=
  0 <= segment_address e /\ 0 <= segment_size e /\
  segment_address e + segment_size e < 2 ^ 64.
Definition elf_le (e1 e2 : TagELFEntry) : Prop := segment_address e1 <= segment_address e2.
Definition mem_before (m1 m2 : TagMemMapEntry) : Prop := mem_end m1 <= starting_addr m2.

Record boot_info_ok (mems : list TagMemMapEntry) (elfs : list TagELFEntry) : Prop := {
  bi_mems : Forall mem_wf mems;
  bi_mems_sorted : StronglySorted mem_before mems;
  bi_elfs : Forall elf_wf elfs;
  bi_elfs_sorted : StronglySorted elf_le elfs }.

(** [r] covers the page at [p]. *)
Definition covers (r : MemRegion) (p : Z) : Prop :=
  r_start r <= p /\ p + MMU_PAGE_SIZE <= r_end r.

(** The page at [p] shares no address with the section. *)
Definition page_clear (p : Z) (e : TagELFEntry) : Prop :=
  p + MMU_PAGE_SIZE <= segment_address e \/ elf_end e <= p.

(** ** Lemmas *)

Lemma chain_app lo l1 mid l2 hi :
  chain lo l1 mid -> chain mid l2 hi -> chain lo (l1 ++ l2) hi.
Proof.
  revert lo. induction l1 as [|r l1 IH]; intros lo; cbn.
  - intros ? H2. destruct l2; cbn in *; [lia|]. intuition lia.
  - intuition.
Qed.

Lemma chain_bounds lo rs hi r : chain lo rs hi -> r ∈ rs ->
  lo <= r_start r /\ r_end r <= hi /\ region_ok r.
Proof.
  revert lo. induction rs as [|r' rs IH]; intros lo Hc Hr; [by apply elem_of_nil in Hr|].
  cbn in Hc. destruct Hc as (? & Hok & Hc). pose proof (ok_nonempty _ Hok).
  apply elem_of_cons in Hr as [->|Hr].
  - split; [done|]. split; [|done]. clear IH. revert Hc.
    generalize (r_end r'). induction rs as [|x rs IH]; cbn; [done|].
    intros y (Hx & Hokx & Hc). apply IH in Hc. pose proof (ok_nonempty _ Hokx). lia.
  - destruct (IH _ Hc Hr) as (? & ? & ?). split; [lia|done].
Qed.

Lemma chain_le lo rs hi : chain lo rs hi -> lo <= hi.
Proof.
  revert lo. induction rs as [|r rs IH]; cbn; [done|]. intros lo (? & Hok & Hc).
  apply IH in Hc. pose proof (ok_nonempty _ Hok). lia.
Qed.

Lemma chain_weaken lo lo' rs hi hi' : chain lo rs hi -> lo' <= lo -> hi <= hi' -> chain lo' rs hi'.
Proof.
  revert lo lo'. induction rs as [|r rs IH]; cbn; [lia|].
  intros lo lo' (? & ? & ?) ??. split; [lia|]. split; [done|]. eapply IH; [done| |done]. lia.
Qed.

Lemma elf_end_eq e : elf_wf e -> elf_end e = segment_address e + segment_size e.
Proof. intros (?&?&?). apply wrap_small. unfold in_range. lia. Qed.

Lemma mem_end_eq m : mem_wf m -> mem_end m = starting_addr m + mem_length m.
Proof. intros (?&?&?). apply wrap_small. unfold in_range. lia. Qed.

(** What one call of [add_region] appends. *)
Definition added (start end_ : Z) : list MemRegion :=
  let s := align_pointer start MMU_PAGE_SIZE true in
  let e := align_pointer end_ MMU_PAGE_SIZE false in
  if s <? e then [mkRegion s e s] else [].

Lemma add_region_runs start end_ rs (Q : unit -> list MemRegion -> Prop) H :
  Q tt (rs ++ added start end_) ->
  ((MEM_REGIONS_LEN <= length rs)%nat -> forall msg, H msg rs) ->
  runs (add_region start end_) rs Q H.
Proof.
  intros HQ HH. unfold runs, add_region, added in *. mstep. unfold kassert.
  destruct (Nat.ltb_spec (length rs) MEM_REGIONS_LEN) as [|Hf]; [|by apply HH].
  mstep. destruct (_ <? _); cbn; [done|]. by rewrite app_nil_r in HQ.
Qed.

Lemma added_chain start end_ : 0 <= start -> start <= end_ -> end_ <= 2 ^ 52 ->
  chain start (added start end_) end_.
Proof.
  intros H0 Hle Hb. unfold added.
  pose proof (align_up_spec start MMU_PAGE_SIZE ltac:(done)) as Hs.
  ospecialize* Hs; [unfold in_range; lia|unfold MMU_PAGE_SIZE; lia|].
  pose proof (align_down_spec end_ MMU_PAGE_SIZE ltac:(done) ltac:(lia)) as He.
  cbn zeta in Hs, He. zcases; cbn; [|lia].
  destruct Hs as [? ?], He as (?&?&?). split; [lia|]. split; [|lia].
  split; cbn; unfold page_aligned; try done; lia.
Qed.

Lemma added_covers start end_ p :
  0 <= start -> end_ <= 2 ^ 52 -> page_aligned p -> start <= p ->
  p + MMU_PAGE_SIZE <= end_ -> exists r, r ∈ added start end_ /\ covers r p.
Proof.
  intros H0 Hb Hp Hs He. unfold added.
  assert (align_pointer start MMU_PAGE_SIZE true <= p) as H1.
  { apply align_up_least; try done; unfold in_range, MMU_PAGE_SIZE in *; lia. }
  assert (p + MMU_PAGE_SIZE <= align_pointer end_ MMU_PAGE_SIZE false) as H2.
  { apply align_down_greatest; try done; [unfold MMU_PAGE_SIZE in *; lia|].
    unfold page_aligned in Hp. rewrite <- Z.add_mod_idemp_l, Hp by done. done. }
  unfold MMU_PAGE_SIZE in *. zcases; [|lia].
  eexists. split; [by apply list_elem_of_singleton|]. done.
Qed.

(** ** The carving loop *)

(** What [carve_sections] establishes from the sections [elfs] on: it consumed
    the prefix [pre], appended the regions [new], and ended at [cs']. *)
Record carved (end_ cs : Z) (elfs : list TagELFEntry) (rs : list MemRegion)
    (cs' : Z) (elfs' : list TagELFEntry) (rs' : list MemRegion)
    (pre : list TagELFEntry) (new : list MemRegion) : Prop := {
  cv_elfs : elfs = pre ++ elfs';
  cv_regions : rs' = rs ++ new;
  cv_cs : cs <= cs';
  cv_from : cs' = cs \/ end_ <= cs' \/ exists e, e ∈ pre /\ cs' = elf_end e;
  cv_pre : Forall (fun e => elf_end e <= cs' /\ elf_end e <= end_) pre;
  cv_rest : cs' < end_ -> Forall (fun e => end_ <= segment_address e) elfs';
  cv_chain : chain cs new (cs `max` (cs' `min` end_));
  cv_avoid : Forall (fun r => Forall (avoids r) elfs) new;
  cv_cover : forall p, page_aligned p -> cs <= p ->
    p + MMU_PAGE_SIZE <= cs' `min` end_ -> Forall (page_clear p) elfs ->
    exists r, r ∈ new /\ covers r p }.

Lemma carved_stop end_ cs elfs rs :
  (cs < end_ -> Forall (fun e => end_ <= segment_address e) elfs) ->
  carved end_ cs elfs rs cs elfs rs [] [].
Proof.
  intros. split; try done; cbn; try lia.
  - by rewrite app_nil_r.
  - unfold MMU_PAGE_SIZE. intros. lia.
Qed.

Lemma sorted_rest_ge e elfs (b : Z) :
  StronglySorted elf_le (e :: elfs) -> b <= segment_address e ->
  Forall (fun e => b <= segment_address e) (e :: elfs).
Proof.
  intros Hs Hb. apply StronglySorted_inv in Hs as [_ Hs].
  constructor; [done|]. eapply Forall_impl; [done|]. unfold elf_le. cbn. lia.
Qed.

Lemma carved_cons end_ cs e elfs rs mid cs1 elfs1 rs1 pre new :
  0 <= cs -> end_ <= 2 ^ 52 -> Forall elf_wf (e :: elfs) ->
  StronglySorted elf_le (e :: elfs) -> segment_address e < end_ ->
  mid = (if segment_address e >? cs then added cs (segment_address e `min` end_) else []) ->
  cs `max` elf_end e < end_ ->
  carved end_ (cs `max` elf_end e) elfs (rs ++ mid) cs1 elfs1 rs1 pre new ->
  carved end_ cs (e :: elfs) rs cs1 elfs1 rs1 (e :: pre) (mid ++ new).
Proof.
  intros H0 Hb Hwf Hsort Hlt Hmid Hcont [].
  assert (chain cs mid (cs `max` elf_end e)) as Hchain.
  { apply Forall_cons in Hwf as [Hwf _]. rewrite (elf_end_eq e) by done.
    destruct Hwf as (?&?&?). rewrite Z.gtb_ltb in Hmid.
    destruct (Z.ltb_spec cs (segment_address e)); subst mid; [|cbn; lia].
    eapply chain_weaken; [apply added_chain|..]; lia. }
  assert (chain cs (mid ++ new) (cs `max` (cs1 `min` end_))) as Hchain2.
  { eapply chain_app; [done|]. eapply chain_weaken; [done|lia..]. }
  split.
  - by subst.
  - subst. by rewrite app_assoc.
  - lia.
  - destruct cv_from0 as [->|[?|(e' & ? & ->)]]; [|by right; left|].
    + destruct (decide (cs <= elf_end e)).
      * right; right. exists e. split; [by left|lia].
      * left. lia.
    + right; right. exists e'. split; [by right|done].
  - constructor; [lia|done].
  - done.
  - done.
  - apply Forall_app. split.
    + rewrite Z.gtb_ltb in Hmid.
      destruct (Z.ltb_spec cs (segment_address e)); subst mid; [|constructor].
      apply Forall_forall. intros r Hr.
      pose proof (sorted_rest_ge e elfs (segment_address e) Hsort ltac:(lia)) as Hge.
      eapply Forall_impl; [exact Hge|]. cbn. intros x Hx. left.
      eapply (chain_bounds cs _ (segment_address e `min` end_)) in Hr; [|apply added_chain; lia].
      lia.
    + apply Forall_forall. intros r Hr. constructor.
      * right. eapply chain_bounds in Hr; [|done]. lia.
      * rewrite Forall_forall in cv_avoid0. by apply cv_avoid0.
  - intros p Hp Hle Hup Hcl. apply Forall_cons in Hcl as [He Hcl].
    destruct He as [He|He].
    + rewrite Z.gtb_ltb in Hmid. pose proof (eq_refl MMU_PAGE_SIZE) as _.
      assert (0 < MMU_PAGE_SIZE) by done.
      destruct (Z.ltb_spec cs (segment_address e)); [|lia]. subst mid.
      destruct (added_covers cs (segment_address e `min` end_) p) as (r & ? & ?);
        [lia..|done|lia|lia|].
      exists r. split; [|done]. apply elem_of_app. by left.
    + destruct (cv_cover0 p) as (r & ? & ?); [done|lia|done|done|].
      exists r. split; [|done]. apply elem_of_app. by right.
Qed.

Lemma carved_break end_ cs e elfs rs mid :
  0 <= cs -> end_ <= 2 ^ 52 -> Forall elf_wf (e :: elfs) ->
  StronglySorted elf_le (e :: elfs) -> segment_address e < end_ ->
  mid = (if segment_address e >? cs then added cs (segment_address e `min` end_) else []) ->
  end_ <= cs `max` elf_end e ->
  carved end_ cs (e :: elfs) rs (cs `max` elf_end e) (e :: elfs) (rs ++ mid) [] mid.
Proof.
  intros H0 Hb Hwf Hsort Hlt -> Hend. rewrite Z.gtb_ltb.
  destruct (Z.ltb_spec cs (segment_address e)); cycle 1.
  { rewrite app_nil_r. split; try done; cbn; try lia.
    - by rewrite app_nil_r.
    - intros p _ Hp1 Hp2 Hcl. apply Forall_cons in Hcl as [[|] _]; unfold MMU_PAGE_SIZE in *; lia. }
  pose proof (added_chain cs (segment_address e `min` end_)) as Hch.
  ospecialize* Hch; [lia..|].
  split; try done; cbn; try lia.
  - eapply chain_weaken; [exact Hch|lia..].
  - apply Forall_forall. intros r Hr.
    pose proof (sorted_rest_ge e elfs (segment_address e) Hsort ltac:(lia)) as Hge.
    eapply Forall_impl; [exact Hge|]. cbn. intros x Hx. left.
    eapply chain_bounds in Hr; [|done]. lia.
  - intros p Hp Hle Hup Hcl. apply Forall_cons in Hcl as [He _].
    assert (0 < MMU_PAGE_SIZE) by done. destruct He; [|lia].
    apply added_covers; [lia..|done|lia|lia].
Qed.

Lemma carve_runs end_ elfs cs rs :
  0 <= cs -> end_ <= 2 ^ 52 -> Forall elf_wf elfs -> StronglySorted elf_le elfs ->
  runs (carve_sections end_ cs elfs) rs
    (fun '(cs', elfs') rs' => exists pre new, carved end_ cs elfs rs cs' elfs' rs' pre new)
    (fun _ rs' => (MEM_REGIONS_LEN <= length rs')%nat).
Proof.
  revert cs rs. induction elfs as [|e elfs IH]; intros cs rs H0 Hb Hwf Hsort; cbn [carve_sections].
  { apply runs_ret. exists [], []. by apply carved_stop. }
  destruct (Z.ltb_spec (segment_address e) end_) as [Hlt|Hge]; cycle 1.
  { apply runs_ret. exists [], []. apply carved_stop. intros _. by apply sorted_rest_ge. }
  set (mid := if segment_address e >? cs then added cs (segment_address e `min` end_) else []).
  apply runs_bind with (fun _ rs1 => rs1 = rs ++ mid).
  { subst mid. destruct (segment_address e >? cs).
    - by apply add_region_runs.
    - apply runs_ret. by rewrite app_nil_r. }
  intros [] ? ->. rewrite Z.geb_leb.
  destruct (Z.leb_spec end_ (cs `max` elf_end e)).
  { apply runs_ret. exists [], mid. by apply carved_break. }
  assert (Hwf' := Hwf). assert (Hsort' := Hsort).
  apply Forall_cons in Hwf' as [_ Hwf']. apply StronglySorted_inv in Hsort' as [Hsort' _].
  eapply runs_conseq; [apply IH; try done; lia| |done].
  intros [cs1 elfs1] rs1 (pre & new & Hc). exists (e :: pre), (mid ++ new).
  eapply carved_cons; done.
Qed.

(** ** The whole table *)

Definition used (e : TagELFEntry) : Prop := section_type e <> 0.
Definition usable (m : TagMemMapEntry) : Prop := mem_type m = 1.

(** The regions [new] built for the entries [mems] and the sections [elfs]. *)
Record built (lo : Z) (mems : list TagMemMapEntry) (elfs : list TagELFEntry)
    (new : list MemRegion) : Prop := {
  bt_chain : chain lo new (2 ^ 52);
  bt_avoid : forall r e, r ∈ new -> e ∈ elfs -> used e -> avoids r e;
  bt_within : forall r, r ∈ new -> exists m, m ∈ mems /\ usable m /\
    starting_addr m <= r_start r /\ r_end r <= mem_end m;
  bt_nonnull : forall r, r ∈ new -> MMU_PAGE_SIZE <= r_start r;
  bt_cover : forall m p, m ∈ mems -> usable m -> page_aligned p -> 0 < p ->
    starting_addr m <= p -> p + MMU_PAGE_SIZE <= mem_end m ->
    Forall (page_clear p) elfs -> exists r, r ∈ new /\ covers r p }.

Lemma skip_sections_split start elfs :
  exists sk, elfs = sk ++ skip_sections start elfs /\
    Forall (fun e => section_type e = 0 \/ elf_end e <= start) sk.
Proof.
  induction elfs as [|e elfs (sk & IH & Hsk)]; cbn; [by exists []|].
  destruct ((section_type e =? 0) || (elf_end e <=? start)) eqn:E.
  - exists (e :: sk). split; [cbn; by rewrite <- IH|]. constructor; [|done]. lia.
  - exists []. split; [done|constructor].
Qed.

(** One usable entry: the carved regions and the rest of the entry. *)
Lemma entry_runs m elfs rs :
  let start := if starting_addr m =? 0 then u64 (starting_addr m + 1) else starting_addr m in
  usable m -> mem_wf m -> Forall elf_wf elfs -> StronglySorted elf_le elfs ->
  runs (build_entry m elfs) rs
    (fun elfs' rs' => exists sk pre new, elfs = sk ++ pre ++ elfs' /\ rs' = rs ++ new /\
       Forall (fun e => section_type e = 0 \/ elf_end e <= start) sk /\
       Forall (fun e => elf_end e <= mem_end m) pre /\
       chain start new (mem_end m) /\
       Forall (fun r => Forall (avoids r) (pre ++ elfs')) new /\
       (forall p, page_aligned p -> start <= p -> p + MMU_PAGE_SIZE <= mem_end m ->
          Forall (page_clear p) (pre ++ elfs') -> exists r, r ∈ new /\ covers r p))
    (fun _ rs' => (MEM_REGIONS_LEN <= length rs')%nat).
Proof.
  intros start Hu Hm Hwf Hsort. unfold build_entry. rewrite Hu. cbn [Z.eqb Pos.eqb negb].
  fold start. destruct (skip_sections_split start elfs) as (sk & Hsplit & Hsk).
  revert Hsplit. generalize (skip_sections start elfs). intros elfs1 ->.
  apply Forall_app in Hwf as [_ Hwf]. apply StronglySorted_app_r in Hsort.
  assert (Hm' := Hm). destruct Hm' as (?&?&?).
  change (u64 (starting_addr m + mem_length m)) with (mem_end m).
  assert (start = starting_addr m \/ starting_addr m = 0 /\ start = 1) as Hst.
  { subst start. destruct (Z.eqb_spec (starting_addr m) 0) as [->|]; auto. }
  pose proof (mem_end_eq m Hm) as Hend.
  eapply runs_bind; [apply carve_runs; try done; lia|].
  intros [cs elfs'] rs' (pre & new & [-> -> ? Hfrom Hpre Hrest Hch Hav Hcov]).
  set (tail := if cs <? mem_end m then added cs (mem_end m) else []).
  apply runs_bind with (fun _ rs1 => rs1 = (rs ++ new) ++ tail).
  { subst tail. destruct (cs <? mem_end m); [by apply add_region_runs|].
    apply runs_ret. by rewrite app_nil_r. }
  intros [] ? ->. apply runs_ret. exists sk, pre, (new ++ tail).
  assert (cs < mem_end m -> chain cs tail (mem_end m)) as Htail.
  { intros. subst tail. zcases; [apply added_chain; lia|lia]. }
  split; [done|]. split; [by rewrite app_assoc|]. split; [done|].
  split; [eapply Forall_impl; [exact Hpre|cbn; lia]|].
  split; [|split].
  - subst tail. zcases.
    + eapply chain_app; [exact Hch|]. rewrite Z.min_l, Z.max_r by lia. by apply Htail.
    + rewrite app_nil_r. eapply chain_weaken; [exact Hch|lia..].
  - apply Forall_app. split; [done|]. apply Forall_forall. intros r Hr.
    assert (cs < mem_end m) by (subst tail; zcases; [lia|by apply elem_of_nil in Hr]).
    eapply chain_bounds in Hr; [|by apply Htail]. apply Forall_app. split.
    + eapply Forall_impl; [exact Hpre|]. intros e [? _]. right. lia.
    + eapply Forall_impl; [by apply Hrest|]. cbn. intros e ?. left. lia.
  - intros p Hp Hle Hup Hcl. assert (0 < MMU_PAGE_SIZE) by done.
    destruct (decide (cs <= p)) as [Hcs|Hcs].
    + destruct (added_covers cs (mem_end m) p) as (r & ? & ?); [lia..|done|lia|lia|].
      exists r. split; [|done]. apply elem_of_app. right. subst tail. zcases; [done|lia].
    + destruct (decide (p + MMU_PAGE_SIZE <= cs)).
      * destruct (Hcov p) as (r & ? & ?); [done|done|lia|done|].
        exists r. split; [|done]. apply elem_of_app. by left.
      * exfalso. destruct Hfrom as [->|[?|(e & He & ->)]]; [lia..|].
        apply Forall_app in Hcl as [Hcl _]. apply Forall_app in Hwf as [Hwf _].
        rewrite Forall_forall in Hcl, Hwf. specialize (Hcl e He). specialize (Hwf e He).
        pose proof (elf_end_eq e Hwf) as Hee. destruct Hcl, Hwf as (?&?&?); lia.
Qed.

Lemma avoids_below r e : elf_end e <= r_start r -> avoids r e.
Proof. by right. Qed.

Lemma built_skip lo m mems elfs new :
  ~ usable m -> lo <= starting_addr m -> built lo mems elfs new -> built lo (m :: mems) elfs new.
Proof.
  intros Hm Hlo []. split; try done.
  - intros r Hr. destruct (bt_within0 r Hr) as (m' & ? & ?). exists m'. split; [by right|done].
  - intros m' p Hm' Hu. apply elem_of_cons in Hm' as [->|?]; [done|]. by apply bt_cover0.
Qed.

Lemma built_cons lo m mems elfs sk pre elfs' new1 new2 :
  let start := if starting_addr m =? 0 then u64 (starting_addr m + 1) else starting_addr m in
  mem_wf m -> usable m -> 0 <= lo -> lo <= starting_addr m ->
  elfs = sk ++ pre ++ elfs' ->
  Forall (fun e => section_type e = 0 \/ elf_end e <= start) sk ->
  Forall (fun e => elf_end e <= mem_end m) pre ->
  chain start new1 (mem_end m) ->
  Forall (fun r => Forall (avoids r) (pre ++ elfs')) new1 ->
  (forall p, page_aligned p -> start <= p -> p + MMU_PAGE_SIZE <= mem_end m ->
     Forall (page_clear p) (pre ++ elfs') -> exists r, r ∈ new1 /\ covers r p) ->
  built (mem_end m) mems elfs' new2 ->
  built lo (m :: mems) elfs (new1 ++ new2).
Proof.
  intros start Hm Hu H0 Hlo -> Hsk Hpre Hch Hav Hcov [].
  assert (lo <= start /\ starting_addr m <= start /\ start <= starting_addr m `max` 1 /\ 0 < start) as (?&?&?&?).
  { subst start. destruct Hm. destruct (Z.eqb_spec (starting_addr m) 0) as [E|]; [|lia].
    rewrite E in *. change (u64 (0 + 1)) with 1. lia. }
  assert (start <= mem_end m) as Hsm by (by eapply chain_le).
  split.
  - eapply chain_app; [eapply (chain_weaken _ _ _ _ (mem_end m)); [exact Hch|lia|lia]|done].
  - intros r e Hr He Hused. apply elem_of_app in Hr as [Hr|Hr].
    + apply elem_of_app in He as [He|He].
      * rewrite Forall_forall in Hsk. destruct (Hsk e He); [done|].
        eapply chain_bounds in Hr; [|exact Hch]. apply avoids_below. lia.
      * rewrite Forall_forall in Hav. specialize (Hav r Hr).
        rewrite Forall_forall in Hav. by apply Hav.
    + assert (mem_end m <= r_start r) by (eapply chain_bounds in Hr; [|done]; lia).
      apply elem_of_app in He as [He|He]; [|apply elem_of_app in He as [He|He]; [|by apply bt_avoid0]].
      * rewrite Forall_forall in Hsk. destruct (Hsk e He); [done|]. apply avoids_below. lia.
      * rewrite Forall_forall in Hpre. specialize (Hpre e He). cbn in Hpre. apply avoids_below. lia.
  - intros r Hr. apply elem_of_app in Hr as [Hr|Hr].
    + exists m. eapply chain_bounds in Hr; [|exact Hch]. split; [by left|]. split; [done|lia].
    + destruct (bt_within0 r Hr) as (m' & ? & ?). exists m'. split; [by right|done].
  - intros r Hr. apply elem_of_app in Hr as [Hr|Hr]; [|by apply bt_nonnull0].
    eapply chain_bounds in Hr; [|exact Hch]. destruct Hr as (Hs & _ & [Hal _ _ _ _]).
    unfold page_aligned in Hal. apply (multiple_le MMU_PAGE_SIZE); try done; unfold MMU_PAGE_SIZE in *; lia.
  - intros m' p Hm' Hu' Hp Hp0 Hlow Hup Hcl.
    apply Forall_app in Hcl as [_ Hcl].
    apply elem_of_cons in Hm' as [->|Hm'].
    + destruct (Hcov p) as (r & ? & ?); [done|lia|done|done|].
      exists r. split; [|done]. apply elem_of_app. by left.
    + apply Forall_app in Hcl as [_ Hcl].
      destruct (bt_cover0 m' p) as (r & ? & ?); try done.
      exists r. split; [|done]. apply elem_of_app. by right.
Qed.

Lemma build_runs mems : forall elfs lo rs,
  Forall mem_wf mems -> StronglySorted mem_before mems ->
  Forall (fun m => lo <= starting_addr m) mems ->
  Forall elf_wf elfs -> StronglySorted elf_le elfs -> 0 <= lo -> lo <= 2 ^ 52 ->
  runs (build_mem_regions mems elfs) rs
    (fun _ rs' => exists new, rs' = rs ++ new /\ built lo mems elfs new)
    (fun _ rs' => (MEM_REGIONS_LEN <= length rs')%nat).
Proof.
  induction mems as [|m mems IH]; intros elfs lo rs Hm Hms Hlo He Hes H0 H1; cbn [build_mem_regions].
  { apply runs_ret. exists []. rewrite app_nil_r. split; [done|].
    split; cbn; try done; intros; exfalso; eapply not_elem_of_nil; eassumption. }
  apply Forall_cons in Hm as [Hm Hm']. apply Forall_cons in Hlo as [Hlo Hlo'].
  apply StronglySorted_inv in Hms as [Hms Hbefore].
  destruct (decide (mem_type m = 1)) as [Hu|Hu]; cycle 1.
  { unfold build_entry. rewrite (proj2 (Z.eqb_neq _ _) Hu). cbn [negb].
    apply runs_bind with (fun e s => e = elfs /\ s = rs); [by apply runs_ret|].
    intros ? ? [-> ->]. eapply runs_conseq; [by apply (IH elfs lo)| |done].
    intros _ rs' (new & ? & ?). exists new. split; [done|]. by apply built_skip. }
  pose proof (mem_end_eq m Hm) as Hend. assert (Hm2 := Hm). destruct Hm2 as (?&?&?).
  eapply runs_bind; [by apply entry_runs|].
  intros elfs2 rs1 (sk & pre & new1 & -> & -> & Hsk & Hpre & Hch & Hav & Hcov).
  apply Forall_app in He as [_ [_ He]%Forall_app]. do 2 apply StronglySorted_app_r in Hes.
  eapply runs_conseq; [apply (IH elfs2 (mem_end m)); try done; lia| |done].
  intros _ rs' (new2 & -> & Hb2). exists (new1 ++ new2). split; [by rewrite app_assoc|].
  by eapply built_cons.
Qed.

(** ** Walking the tag list *)

(** The tags at [addr], up to the terminator. *)
Inductive tag_list (boot : Z -> Z) : Z -> list Z -> Prop :=
| tag_list_end addr :
    is_tags_terminator boot addr = true -> tag_list boot addr []
| tag_list_cons addr tags :
    is_tags_terminator boot addr = false ->
    tag_list boot (next_tag boot addr) tags -> tag_list boot addr (addr :: tags).

Definition is_mem_tag boot tag := tag_type boot tag = TAG_MEM_MAP.
Definition is_elf_tag boot tag := tag_type boot tag = TAG_ELF_HEADER.
#[export] Instance is_mem_tag_dec boot tag : Decision (is_mem_tag boot tag).
Proof. unfold is_mem_tag. apply _. Defined.
#[export] Instance is_elf_tag_dec boot tag : Decision (is_elf_tag boot tag).
Proof. unfold is_elf_tag. apply _. Defined.

Definition mem_entries_of boot tag : TagEntries :=
  mkEntries (tag + MEM_HEADER_SIZE)
    (u64 (tag_size boot tag - MEM_HEADER_SIZE) / load32 boot (tag + 8)).
Definition elf_entries_of boot tag : TagEntries :=
  mkEntries (tag + ELF_HEADER_SIZE) (load32 boot (tag + 8)).

(** The last tag of a kind wins; [o] is what was seen before. *)
Definition pick {A} (f : Z -> A) (o : option A) (tags : list Z) : option A :=
  match last tags with Some t => Some (f t) | None => o end.

Lemma pick_cons {A} (f : Z -> A) o t tags : pick f o (t :: tags) = pick f (Some (f t)) tags.
Proof. unfold pick. rewrite last_cons. by destruct (last tags). Qed.

Lemma parse_tags_ret boot addr tags fuel me ee rs :
  tag_list boot addr tags -> (length tags < fuel)%nat ->
  Forall (fun t => is_mem_tag boot t -> load32 boot (t + 8) = MEM_ENTRY_SIZE) tags ->
  parse_tags fuel boot addr me ee rs =
    Ret (pick (mem_entries_of boot) me (filter (is_mem_tag boot) tags),
         pick (elf_entries_of boot) ee (filter (is_elf_tag boot) tags)) rs.
Proof.
  intros Ht. revert fuel me ee. induction Ht as [addr Hend|addr tags Hend _ IH];
    intros [|fuel] me ee Hf Hall; cbn [length] in Hf; try lia; cbn [parse_tags]; rewrite Hend.
  { done. }
  apply Forall_cons in Hall as [Hhd Hall].
  destruct (Z.eqb_spec (tag_type boot addr) TAG_MEM_MAP) as [Hm|Hm].
  - rewrite Hhd by done. mstep. rewrite IH by (done || lia). rewrite <- (Hhd Hm).
    rewrite !filter_cons. rewrite decide_True by done. rewrite pick_cons.
    rewrite decide_False by (unfold is_elf_tag; rewrite Hm; done). done.
  - destruct (Z.eqb_spec (tag_type boot addr) TAG_ELF_HEADER) as [He|He];
      rewrite IH by (done || lia); rewrite !filter_cons, (decide_False (P := is_mem_tag _ _)) by done.
    + by rewrite decide_True, pick_cons.
    + by rewrite decide_False.
Qed.

(** The boot information at [addr] has a memory map [mems] and sections [elfs]: [fuel]
    rounds see the terminator, and the last tag of each kind has these entries. *)
Record boot_tags (boot : Z -> Z) (addr : Z) (fuel : nat) (mems : list TagMemMapEntry)
    (elfs : list TagELFEntry) : Prop := {
  bg_tags : exists tags mt et, tag_list boot (addr + 8) tags /\ (length tags < fuel)%nat /\
    Forall (fun t => is_mem_tag boot t -> load32 boot (t + 8) = MEM_ENTRY_SIZE) tags /\
    last (filter (is_mem_tag boot) tags) = Some mt /\ last (filter (is_elf_tag boot) tags) = Some et /\
    mems = entries (read_mem_entry boot) MEM_ENTRY_SIZE (mem_entries_of boot mt) /\
    elfs = entries (read_elf_entry boot) ELF_ENTRY_SIZE (elf_entries_of boot et) }.

Lemma parse_boot_tags boot addr fuel mems elfs rs : boot_tags boot addr fuel mems elfs ->
  multiboot_tags_parse_to_mem_regions fuel boot addr rs = build_mem_regions mems elfs rs.
Proof.
  intros [(tags & mt & et & Ht & Hf & Hall & Hm & He & -> & ->)]. unfold multiboot_tags_parse_to_mem_regions.
  erewrite bind_ret by (by apply parse_tags_ret). unfold pick. by rewrite Hm, He.
Qed.

(** ** Properties *)

(** C9: from a sorted memory map and sorted ELF sections, the regions the
    kernel builds are page aligned, non-empty, sorted and pairwise disjoint,
    lie inside usable memory above page 0, share no address with a loaded
    section, and cover every page of usable memory that no section touches; the
    only way not to return is the assertion that the 16-slot table is full. *)
Theorem build_mem_regions_correct mems elfs :
  boot_info_ok mems elfs ->
  runs (build_mem_regions mems elfs) []
    (fun _ rs => built 0 mems elfs rs)
    (fun _ rs => (MEM_REGIONS_LEN <= length rs)%nat).
Proof.
  intros [Hm Hms He Hes]. eapply runs_conseq; [apply (build_runs mems elfs 0 [])|..]; try done.
  - eapply Forall_impl; [done|]. by intros ? [? _].
  - by intros [] ? (new & -> & ?).
Qed.

(** C31: parsing terminates on every terminated tag list, with any fuel above the
    number of tags, and hands [build_mem_regions] the entries of the last memory
    map tag and of the last ELF tag. *)
Theorem parse_reaches_build boot addr tags mt et fuel rs :
  tag_list boot (addr + 8) tags -> (length tags < fuel)%nat ->
  Forall (fun t => is_mem_tag boot t -> load32 boot (t + 8) = MEM_ENTRY_SIZE) tags ->
  last (filter (is_mem_tag boot) tags) = Some mt ->
  last (filter (is_elf_tag boot) tags) = Some et ->
  multiboot_tags_parse_to_mem_regions fuel boot addr rs =
    build_mem_regions
      (entries (read_mem_entry boot) MEM_ENTRY_SIZE (mem_entries_of boot mt))
      (entries (read_elf_entry boot) ELF_ENTRY_SIZE (elf_entries_of boot et)) rs.
Proof.
  intros Ht Hf Hall Hm He. apply parse_boot_tags. split. by exists tags, mt, et.
Qed.

(** ** Witnesses *)

Definition bytes_at (base : Z) (bs : list Z) (a : Z) : Z := default 0 (bs !! Z.to_nat (a - base)).
Definition le (n : nat) (x : Z) : list Z := (fun i => get_bits (8 * Z.of_nat i) 8 x) <$> seq 0 n.

Definition demo_mems : list TagMemMapEntry :=
  [mkMemEntry 0 654336 1; mkMemEntry 983040 65536 2; mkMemEntry 1048576 133038080 1].
Definition demo_elfs : list TagELFEntry :=
  [mkElfEntry 0 0 0; mkElfEntry 1 1048576 24; mkElfEntry 1 1052672 40960; mkElfEntry 1 1097728 8192].

Definition demo_tags : list Z :=
  le 4 200 ++ le 4 0 ++
  le 4 6 ++ le 4 64 ++ le 4 24 ++ le 4 0 ++
  le 8 0 ++ le 8 654336 ++ le 4 1 ++ le 4 0 ++
  le 8 1048576 ++ le 8 133038080 ++ le 4 1 ++ le 4 0 ++
  le 4 9 ++ le 4 84 ++ le 4 1 ++ le 4 64 ++ le 4 0 ++
  le 4 0 ++ le 4 1 ++ le 8 0 ++ le 8 1048576 ++ le 8 0 ++ le 8 40960 ++ le 4 0 ++ le 4 0 ++ le 8 0 ++ le 8 0 ++
  le 4 0 ++ le 4 0 ++ le 4 8.

Example demo_regions_built :
  build_mem_regions demo_mems demo_elfs [] =
    Ret tt [mkRegion 4096 651264 4096; mkRegion 1093632 1097728 1093632;
            mkRegion 1105920 134086656 1105920].
Proof. vm_compute. reflexivity. Qed.

Example demo_parse :
  multiboot_tags_parse_to_mem_regions 3 (bytes_at 4096 demo_tags) 4096 [] =
    Ret tt [mkRegion 4096 651264 4096; mkRegion 1089536 134086656 1089536].
Proof. vm_compute. reflexivity. Qed.

Lemma demo_info_ok : boot_info_ok demo_mems demo_elfs.
Proof.
  unfold demo_mems, demo_elfs, mem_wf, elf_wf, mem_before, elf_le. split; unfold mem_wf, elf_wf; eval_list.
Qed.

Lemma build_mem_regions_correct_witness :
  boot_info_ok demo_mems demo_elfs /\
  runs (build_mem_regions demo_mems demo_elfs) []
    (fun _ rs => built 0 demo_mems demo_elfs rs)
    (fun _ rs => (MEM_REGIONS_LEN <= length rs)%nat).
Proof.
  split; [apply demo_info_ok|]. apply build_mem_regions_correct, demo_info_ok.
Defined.

Lemma demo_tag_list : tag_list (bytes_at 4096 demo_tags) 4104 [4104; 4168].
Proof.
  do 2 (apply tag_list_cons; [vm_compute; reflexivity|]; vm_compute (next_tag _ _)).
  apply tag_list_end. vm_compute. reflexivity.
Qed.

Lemma parse_reaches_build_witness :
  multiboot_tags_parse_to_mem_regions 3 (bytes_at 4096 demo_tags) 4096 [] =
    build_mem_regions
      (entries (read_mem_entry (bytes_at 4096 demo_tags)) MEM_ENTRY_SIZE
         (mem_entries_of (bytes_at 4096 demo_tags) 4104))
      (entries (read_elf_entry (bytes_at 4096 demo_tags)) ELF_ENTRY_SIZE
         (elf_entries_of (bytes_at 4096 demo_tags) 4168)) [].
Proof.
  apply (parse_reaches_build _ 4096 [4104; 4168]).
  - apply demo_tag_list.
  - cbn. lia.
  - repeat constructor; vm_compute; done.
  - vm_compute. reflexivity.
  - vm_compute. reflexivity.
Defined.
