(* ===== verification/Frames.v ===== *)
(** * Frames: physical memory and the page frame allocator
    (the frame half of src/src/page_allocator.c) *)

From S2P Require Import Prelude Multiboot.

(** ** State

    [mem] is physical memory seen through the identity mapping the kernel runs
    on, one 64-bit word per 8-byte aligned address; every access of
    page_allocator.c and page_table.c is such a word ([FreeNode.next], a page
    table entry) or a page-wide [memset]. A word never written reads as 0 here,
    no theorem depends on it. The control registers and [brk] belong to the same
    state because the later files run on it too. *)
Record mm := mkMM {
  mem : gmap Z Z;
  free_list : Z;
  regions : list MemRegion;
  brk : Z;
  cr2 : Z;
  cr3 : Z }.

Definition set_mem (m : gmap Z Z) (s : mm) : mm :=
  mkMM m (free_list s) (regions s) (brk s) (cr2 s) (cr3 s).
Definition set_free_list (p : Z) (s : mm) : mm :=
  mkMM (mem s) p (regions s) (brk s) (cr2 s) (cr3 s).
Definition set_regions (rs : list MemRegion) (s : mm) : mm :=
  mkMM (mem s) (free_list s) rs (brk s) (cr2 s) (cr3 s).
Definition set_brk (b : Z) (s : mm) : mm :=
  mkMM (mem s) (free_list s) (regions s) b (cr2 s) (cr3 s).
Definition set_cr2 (a : Z) (s : mm) : mm :=
  mkMM (mem s) (free_list s) (regions s) (brk s) a (cr3 s).
Definition set_cr3 (a : Z) (s : mm) : mm :=
  mkMM (mem s) (free_list s) (regions s) (brk s) (cr2 s) a.

(** ** Words *)

Definition rd (m : gmap Z Z) (a : Z) : Z := default 0 (m !! a).

(** Page 0 is never mapped, and the model has no misaligned access. *)
Definition word_ok (a : Z) : bool := (MMU_PAGE_SIZE <=? a) && (a mod 8 =? 0).

Definition ld (a : Z) : M mm Z :=
  if word_ok a then gets (fun s => rd (mem s) a) else fault.
Definition st (a v : Z) : M mm unit :=
  if word_ok a then modify (fun s => set_mem (<[a := v]> (mem s)) s) else fault.

(** [memset(page, 0, MMU_PAGE_SIZE)]: 512 words of zeros. *)
Definition WORDS_PER_PAGE : nat := 512.
Definition zero_page (a : Z) (m : gmap Z Z) : gmap Z Z :=
  foldr (fun i m => <[a + 8 * Z.of_nat i := 0]> m) m (seq 0 WORDS_PER_PAGE).
Definition memset_page (a : Z) : M mm unit :=
  if word_ok a then modify (fun s => set_mem (zero_page a (mem s)) s) else fault.

(** ** The allocator *)

(** The loop of [MMU_pf_alloc]: the first region with a frame left gives its
    [next] frame. *)
Fixpoint carve_frame (rs : list MemRegion) : option (Z * list MemRegion) :=
  match rs with
  | [] => None
  | r :: rs' =>
      if r_next r <? r_end r
      then Some (r_next r, mkRegion (r_start r) (r_end r) (r_next r + MMU_PAGE_SIZE) :: rs')
      else match carve_frame rs' with
           | Some (a, rs'') => Some (a, r :: rs'')
           | None => None
           end
  end.

Definition MMU_pf_alloc : M mm Z :=
  fl ← gets free_list;
  if negb (fl =? 0) then
    next ← ld fl;
    modify (set_free_list next) ;;
    mret fl
  else
    rs ← gets regions;
    match carve_frame rs with
    | Some (addr, rs') => modify (set_regions rs') ;; mret addr
    | None => panic "ALLOCATOR OUT OF MEMORY!!!" []
    end.

Definition MMU_pf_free (pf : Z) : M mm unit :=
  fl ← gets free_list;
  st pf fl ;;
  modify (set_free_list pf).

Definition get_free_memory (rs : list MemRegion) : Z :=
  foldl (fun free r => u64 (free + (r_end r - r_next r))) 0 rs.

(** ** What the allocator holds *)

Record frame_ok (a : Z) : Prop := {
  fr_aligned : page_aligned a;
  fr_low : MMU_PAGE_SIZE <= a;
  fr_high : a + MMU_PAGE_SIZE <= 2 ^ 52 }.

(** The list threaded through the first word of each free frame. *)
Fixpoint free_chain (m : gmap Z Z) (p : Z) (l : list Z) : Prop :=
  match l with
  | [] => p = 0
  | a :: l' => p = a /\ frame_ok a /\ free_chain m (rd m a) l'
  end.

(** The frames a region still has. *)
Definition region_frames (r : MemRegion) : list Z :=
  (fun i => r_next r + MMU_PAGE_SIZE * Z.of_nat i) <$>
    seq 0 (Z.to_nat ((r_end r - r_next r) / MMU_PAGE_SIZE)).

Record region_wf (r : MemRegion) : Prop := {
  rw_next : page_aligned (r_next r);
  rw_end : page_aligned (r_end r);
  rw_low : MMU_PAGE_SIZE <= r_next r;
  rw_le : r_next r <= r_end r;
  rw_high : r_end r <= 2 ^ 52 }.

(** [fs] is the pool of free frames of [s], in the order they will be handed
    out. *)
Record pool (s : mm) (fs : list Z) : Prop := {
  pl_split : exists l, free_chain (mem s) (free_list s) l /\
    fs = l ++ mjoin (region_frames <$> regions s);
  pl_regions : Forall region_wf (regions s);
  pl_nodup : NoDup fs }.

(** ** Arithmetic of pages *)

Lemma page_aligned_add a b : page_aligned a -> page_aligned b -> page_aligned (a + b).
Proof.
  unfold page_aligned. intros Ha Hb. rewrite Z.add_mod, Ha, Hb by done. done.
Qed.

Lemma page_aligned_mul i : page_aligned (MMU_PAGE_SIZE * i).
Proof. unfold page_aligned. rewrite Z.mul_comm. by apply Z.mod_mul. Qed.

Lemma page_gap a b : page_aligned a -> page_aligned b -> a < b -> a + MMU_PAGE_SIZE <= b.
Proof.
  intros Ha Hb Hlt. pose proof (page_aligned_add a (MMU_PAGE_SIZE * 1) Ha ltac:(apply page_aligned_mul)).
  apply (multiple_le MMU_PAGE_SIZE); try done. lia.
Qed.

Lemma page_words a : page_aligned a -> MMU_PAGE_SIZE <= a ->
  forall i, 0 <= i -> word_ok (a + 8 * i) = true.
Proof.
  unfold page_aligned, word_ok, MMU_PAGE_SIZE. intros Ha Hl i Hi.
  apply andb_true_iff. split; [lia|]. apply Z.eqb_eq. zdm.
Qed.

Lemma frame_word_ok a : frame_ok a -> word_ok a = true.
Proof.
  intros [Ha Hl _]. replace a with (a + 8 * 0) by lia. by apply page_words.
Qed.

Lemma frame_nonzero a : frame_ok a -> a <> 0.
Proof. intros [_ H _]. unfold MMU_PAGE_SIZE in H. lia. Qed.

(** ** Memory lemmas *)

Lemma rd_insert m a v b : rd (<[a := v]> m) b = if decide (a = b) then v else rd m b.
Proof. unfold rd. rewrite lookup_insert. by case_decide. Qed.

Lemma rd_insert_eq m a v : rd (<[a := v]> m) a = v.
Proof. rewrite rd_insert. by rewrite decide_True. Qed.

Lemma rd_insert_ne m a v b : a <> b -> rd (<[a := v]> m) b = rd m b.
Proof. intros. rewrite rd_insert. by rewrite decide_False. Qed.

Lemma rd_zero_words m a n b :
  rd (foldr (fun i m => <[a + 8 * Z.of_nat i := 0]> m) m (seq 0 n)) b =
    if decide (a <= b < a + 8 * Z.of_nat n /\ (b - a) mod 8 = 0) then 0 else rd m b.
Proof.
  assert (forall k, rd (foldr (fun i m => <[a + 8 * Z.of_nat i := 0]> m) m (seq k n)) b =
    if decide (a + 8 * Z.of_nat k <= b < a + 8 * Z.of_nat (k + n) /\ (b - a) mod 8 = 0)
    then 0 else rd m b) as H.
  { induction n as [|n IH]; intros k; cbn [seq foldr].
    - rewrite decide_False; [done|]. lia.
    - rewrite rd_insert. destruct (decide (a + 8 * Z.of_nat k = b)) as [E1|E1].
      + rewrite decide_True; [done|]. rewrite <- E1. split; [lia|]. zdm.
      + rewrite IH. apply decide_ext. split; intros [? ?]; (split; [|done]); [lia|]. zdm. }
  rewrite H. apply decide_ext. by rewrite Nat.add_0_l, Z.add_0_r.
Qed.

(** The word [b] lies in the page at [a]. *)
Definition in_page (a b : Z) : Prop := a <= b < a + MMU_PAGE_SIZE /\ b mod 8 = 0.

Lemma rd_zero_page_in m a i : 0 <= i < 512 -> rd (zero_page a m) (a + 8 * i) = 0.
Proof.
  intros Hi. unfold zero_page. rewrite rd_zero_words, decide_True; [done|].
  unfold WORDS_PER_PAGE. split; [lia|]. zdm.
Qed.

Lemma rd_zero_page_out m a b : b < a \/ a + MMU_PAGE_SIZE <= b ->
  rd (zero_page a m) b = rd m b.
Proof.
  intros Hb. unfold zero_page. rewrite rd_zero_words, decide_False; [done|].
  unfold WORDS_PER_PAGE, MMU_PAGE_SIZE in *. lia.
Qed.

(** ** Frames of the regions *)

Lemma region_frames_cons r : region_wf r -> r_next r < r_end r ->
  region_frames r =
    r_next r :: region_frames (mkRegion (r_start r) (r_end r) (r_next r + MMU_PAGE_SIZE)).
Proof.
  intros [Hn He Hl _ _] Hlt. unfold region_frames. cbn [r_next r_end].
  pose proof (page_gap _ _ Hn He Hlt).
  replace (Z.to_nat ((r_end r - r_next r) / MMU_PAGE_SIZE)) with
    (S (Z.to_nat ((r_end r - (r_next r + MMU_PAGE_SIZE)) / MMU_PAGE_SIZE))).
  - cbn [seq fmap list_fmap]. f_equal; [lia|]. rewrite <- fmap_S_seq, <- list_fmap_compose.
    apply list_fmap_ext. intros i x _. cbn. lia.
  - unfold MMU_PAGE_SIZE in *. zdm.
Qed.

Lemma region_frames_nil r : r_end r <= r_next r -> region_frames r = [].
Proof.
  intros. unfold region_frames.
  replace (Z.to_nat _) with O; [done|]. unfold MMU_PAGE_SIZE. zdm.
Qed.

Lemma region_wf_step r : region_wf r -> r_next r < r_end r ->
  region_wf (mkRegion (r_start r) (r_end r) (r_next r + MMU_PAGE_SIZE)).
Proof.
  intros [] Hlt. split; cbn; try done.
  - apply page_aligned_add; [done|]. apply (page_aligned_mul 1).
  - unfold MMU_PAGE_SIZE in *. lia.
  - by apply page_gap.
Qed.

Lemma region_frames_bounds r a : region_wf r -> a ∈ region_frames r ->
  frame_ok a /\ r_next r <= a /\ a + MMU_PAGE_SIZE <= r_end r.
Proof.
  intros [] Ha. unfold region_frames in Ha. apply list_elem_of_fmap in Ha as (i & -> & Hi).
  apply elem_of_seq in Hi.
  assert (r_next r + MMU_PAGE_SIZE * Z.of_nat i + MMU_PAGE_SIZE <= r_end r).
  { unfold MMU_PAGE_SIZE in *. zdm. }
  split; [|unfold MMU_PAGE_SIZE in *; lia]. split.
  - apply page_aligned_add; [done|apply page_aligned_mul].
  - unfold MMU_PAGE_SIZE in *. lia.
  - lia.
Qed.

Lemma join_frames_cons r rs :
  mjoin (region_frames <$> (r :: rs)) = region_frames r ++ mjoin (region_frames <$> rs).
Proof. done. Qed.

Lemma carve_frame_spec rs : Forall region_wf rs ->
  match carve_frame rs with
  | Some (a, rs') => mjoin (region_frames <$> rs) = a :: mjoin (region_frames <$> rs') /\
                     Forall region_wf rs'
  | None => mjoin (region_frames <$> rs) = []
  end.
Proof.
  induction 1 as [|r rs Hr Hrs IH]; [done|]. cbn [carve_frame].
  destruct (Z.ltb_spec (r_next r) (r_end r)) as [Hlt|Hge].
  - rewrite !join_frames_cons, (region_frames_cons r) by done. split; [done|].
    constructor; [by apply region_wf_step|done].
  - destruct (carve_frame rs) as [[a rs']|]; rewrite !join_frames_cons, (region_frames_nil r) by done;
      rewrite !app_nil_l; [|done].
    destruct IH as [-> Hrs']. split; [done|]. by constructor.
Qed.

(** ** The pool and the operations *)

Lemma free_chain_agree m m' p l :
  free_chain m p l -> (forall a, a ∈ l -> rd m' a = rd m a) -> free_chain m' p l.
Proof.
  revert p. induction l as [|a l IH]; intros p; cbn; [done|]. intros (-> & Hok & Hc) Hag.
  split; [done|]. split; [done|]. rewrite Hag by (by left).
  apply IH; [done|]. intros b Hb. apply Hag. by right.
Qed.

Lemma free_chain_ok m p l : free_chain m p l -> Forall frame_ok l.
Proof.
  revert p. induction l as [|a l IH]; intros p; cbn; [constructor|].
  intros (_ & ? & ?). constructor; [done|by eapply IH].
Qed.

Lemma pool_frames_ok s fs : pool s fs -> Forall frame_ok fs.
Proof.
  intros [(l & Hc & ->) Hrs _]. apply Forall_app. split; [by eapply free_chain_ok|].
  apply Forall_forall. intros a Ha. apply list_elem_of_join in Ha as (fs & Ha & Hf).
  apply list_elem_of_fmap in Hf as (r & -> & Hr). rewrite Forall_forall in Hrs.
  by eapply region_frames_bounds; [apply Hrs|].
Qed.

Lemma pool_frame s fs a : pool s fs -> a ∈ fs -> frame_ok a.
Proof. intros Hp. pose proof (pool_frames_ok _ _ Hp) as H. rewrite Forall_forall in H. apply H. Qed.

(** Only the first word of each free frame matters. *)
Lemma pool_agree s s' fs :
  pool s fs -> free_list s' = free_list s -> regions s' = regions s ->
  (forall a, a ∈ fs -> rd (mem s') a = rd (mem s) a) -> pool s' fs.
Proof.
  intros [(l & Hc & ->) Hrs Hnd] Hf Hr Hag. split.
  - exists l. rewrite Hf, Hr. split; [|done]. eapply free_chain_agree; [done|].
    intros a Ha. apply Hag, elem_of_app. by left.
  - by rewrite Hr.
  - done.
Qed.

Lemma alloc_pop s a fs : pool s (a :: fs) ->
  exists s', MMU_pf_alloc s = Ret a s' /\ pool s' fs /\
    mem s' = mem s /\ brk s' = brk s /\ cr2 s' = cr2 s /\ cr3 s' = cr3 s.
Proof.
  intros [([|b l] & Hc & Hfs) Hrs Hnd]; apply NoDup_cons in Hnd as [_ Hnd];
    unfold MMU_pf_alloc; mstep; cbn in Hc.
  - rewrite Hc. cbn [Z.eqb negb]. mstep. cbn in Hfs.
    pose proof (carve_frame_spec _ Hrs) as Hcf.
    destruct (carve_frame (regions s)) as [[a' rs']|]; [|congruence].
    destruct Hcf as [Hcf Hrs']. rewrite Hcf in Hfs. simplify_eq.
    mstep. eexists. split; [done|]. split; [|done]. split; [|done|done].
    exists []. done.
  - destruct Hc as (Hfl & Hok & Hc). injection Hfs as -> ->.
    pose proof (frame_nonzero _ Hok) as Hnz. rewrite Hfl.
    rewrite (proj2 (Z.eqb_neq b 0) Hnz). cbn [negb].
    unfold ld. rewrite frame_word_ok by done. mstep.
    eexists. split; [done|]. split; [|done]. split; [|done|done].
    by exists l.
Qed.

Lemma carve_frame_ends rs a rs' : carve_frame rs = Some (a, rs') -> r_end <$> rs' = r_end <$> rs.
Proof.
  revert rs'. induction rs as [|r rs IH]; intros rs'; cbn; [done|].
  destruct (r_next r <? r_end r); [intros [= <- <-]; done|].
  destruct (carve_frame rs) as [[a' rs'']|]; [|done]. intros [= -> <-]. cbn. by rewrite IH.
Qed.

(** Allocation moves [next], never the bounds of a region. *)
Lemma alloc_ends s a s' : MMU_pf_alloc s = Ret a s' -> r_end <$> regions s' = r_end <$> regions s.
Proof.
  unfold MMU_pf_alloc. mstep. destruct (negb _).
  - unfold ld. destruct (word_ok _); [|done]. mstep. by intros [= _ <-].
  - mstep. destruct (carve_frame (regions s)) as [[a' rs']|] eqn:E; [|done].
    mstep. intros [= _ <-]. by apply carve_frame_ends in E.
Qed.

Lemma alloc_empty s : pool s [] ->
  MMU_pf_alloc s = Halted "ALLOCATOR OUT OF MEMORY!!!" [] s.
Proof.
  intros [([|b l] & Hc & Hfs) Hrs _]; cbn in Hc, Hfs; [|done].
  unfold MMU_pf_alloc. mstep. rewrite Hc. cbn [Z.eqb negb]. mstep.
  pose proof (carve_frame_spec _ Hrs) as Hcf.
  destruct (carve_frame (regions s)) as [[a rs']|]; [|done].
  destruct Hcf as [Hcf _]. by rewrite Hcf in Hfs.
Qed.

Lemma free_push s a fs : pool s fs -> frame_ok a -> a ∉ fs ->
  exists s', MMU_pf_free a s = Ret tt s' /\ pool s' (a :: fs) /\
    mem s' = <[a := free_list s]> (mem s) /\
    brk s' = brk s /\ cr2 s' = cr2 s /\ cr3 s' = cr3 s.
Proof.
  intros Hp Hok Hni. unfold MMU_pf_free, st. mstep. rewrite frame_word_ok by done. mstep.
  eexists. split; [done|]. split; [|done].
  destruct Hp as [(l & Hc & ->) Hrs Hnd]. split.
  - exists (a :: l). cbn. split; [|done]. split; [done|]. split; [done|].
    rewrite rd_insert_eq. eapply free_chain_agree; [done|]. intros b Hb.
    rewrite rd_insert_ne; [done|]. intros <-. apply Hni, elem_of_app. by left.
  - done.
  - by constructor.
Qed.

(** ** The abstract pool

    What the rest of the kernel relies on: a stack of free frames and the set of
    frames that were handed out. [None] is a request the clients must not make
    (freeing or writing a frame they do not own) or the empty pool. *)

Inductive pf_op := OpAlloc | OpFree (a : Z) | OpWrite (f i v : Z).

Abbreviation apool := (list Z * gset Z)%type.

Definition pool_op (op : pf_op) (p : apool) : option (option Z * apool) :=
  let '(fs, own) := p in
  match op, fs with
  | OpAlloc, a :: fs' => Some (Some a, (fs', {[a]} ∪ own))
  | OpAlloc, [] => None
  | OpFree a, _ => if decide (a ∈ own) then Some (None, (a :: fs, own ∖ {[a]})) else None
  | OpWrite f i _, _ =>
      if decide (f ∈ own /\ 0 <= i < 512) then Some (None, (fs, own)) else None
  end.

Fixpoint pool_run (ops : list pf_op) (p : apool) : option (list (option Z) * apool) :=
  match ops with
  | [] => Some ([], p)
  | op :: ops => '(o, p) ← pool_op op p; '(os, p) ← pool_run ops p; Some (o :: os, p)
  end.

(** The same operations on the machine: a client writes word [i] of frame [f]. *)
Definition mm_op (op : pf_op) : M mm (option Z) :=
  match op with
  | OpAlloc => a ← MMU_pf_alloc; mret (Some a)
  | OpFree a => MMU_pf_free a ;; mret None
  | OpWrite f i v => st (f + 8 * i) v ;; mret None
  end.

Fixpoint mm_run (ops : list pf_op) : M mm (list (option Z)) :=
  match ops with
  | [] => mret []
  | op :: ops => o ← mm_op op; os ← mm_run ops; mret (o :: os)
  end.

(** The concrete state implements the abstract pool. *)
Record implements (s : mm) (p : apool) : Prop := {
  im_pool : pool s p.1;
  im_own : forall a, a ∈ p.2 -> frame_ok a /\ a ∉ p.1 }.

Lemma frames_word_inj a b i : frame_ok a -> frame_ok b -> 0 <= i < 512 ->
  a + 8 * i = b -> a = b.
Proof.
  intros [Ha _ _] [Hb _ _] Hi <-. unfold page_aligned, MMU_PAGE_SIZE in *.
  assert (8 * i = 0) by zdm. lia.
Qed.

Lemma mm_op_implements op s p o p' :
  implements s p -> pool_op op p = Some (o, p') ->
  exists s', mm_op op s = Ret o s' /\ implements s' p'.
Proof.
  destruct p as [fs own]. intros [Hp Hown] Hop; cbn in *. destruct op as [|a|f i v]; cbn in Hop.
  - destruct fs as [|a fs]; simplify_eq.
    destruct (alloc_pop _ _ _ Hp) as (s' & Hs & Hp' & _).
    exists s'. cbn. erewrite bind_ret by done. split; [done|]. split; [done|]. cbn.
    intros b Hb. apply elem_of_union in Hb as [->%elem_of_singleton|Hb].
    + split; [by apply (pool_frame s (a :: fs)), elem_of_cons; [|left]|].
      pose proof (pl_nodup _ _ Hp) as Hnd. by apply NoDup_cons in Hnd as [? _].
    + destruct (Hown b Hb) as [? Hni]. split; [done|]. intros ?. apply Hni. by right.
  - case_decide as Ha; simplify_eq. destruct (Hown a Ha) as [Hok Hni].
    destruct (free_push _ _ _ Hp Hok Hni) as (s' & Hs & Hp' & _).
    exists s'. cbn. erewrite bind_ret by done. split; [done|]. split; [done|]. cbn.
    intros b Hb. apply elem_of_difference in Hb as [Hb Hne].
    destruct (Hown b Hb). split; [done|]. intros [->|?]%elem_of_cons; [|done].
    by apply Hne, elem_of_singleton.
  - case_decide as Hd; simplify_eq. destruct Hd as [Hf Hi]. destruct (Hown f Hf) as [Hok Hni].
    cbn. unfold st. rewrite page_words by (apply Hok || lia). mstep.
    eexists. split; [done|]. split; [|done]. cbn.
    eapply pool_agree; [done..|]. intros b Hb. cbn. apply rd_insert_ne. intros E.
    apply Hni. replace f with b; [done|]. symmetry.
    eapply frames_word_inj; [done| |done|done]. by eapply pool_frame.
Qed.

(** ** From the boot regions to the pool *)

Definition boot_mm (rs : list MemRegion) : mm :=
  mkMM ∅ 0 rs 0x8000000000 0 0.

Lemma built_region_wf lo mems elfs rs : 0 <= lo -> built lo mems elfs rs -> Forall region_wf rs.
Proof.
  intros Hlo [Hch _ _ Hnn _]. apply Forall_forall. intros r Hr.
  pose proof (chain_bounds _ _ _ _ Hch Hr) as (? & ? & [? ? ? ? Hn]).
  specialize (Hnn r Hr). split; rewrite ?Hn; try done; lia.
Qed.

Lemma region_frames_nodup r : NoDup (region_frames r).
Proof.
  unfold region_frames. apply NoDup_fmap_2_strong; [|apply NoDup_seq].
  intros x y _ _. unfold MMU_PAGE_SIZE. lia.
Qed.

Lemma chain_frames_nodup lo rs hi : chain lo rs hi -> Forall region_wf rs ->
  NoDup (mjoin (region_frames <$> rs)).
Proof.
  revert lo. induction rs as [|r rs IH]; intros lo Hch Hwf; [constructor|].
  cbn in Hch. destruct Hch as (_ & _ & Hch). apply Forall_cons in Hwf as [Hr Hwf].
  rewrite join_frames_cons. apply NoDup_app. split; [apply region_frames_nodup|].
  split; [|by eapply IH].
  intros a Ha Hb. apply list_elem_of_join in Hb as (fs & Hb & Hf).
  apply list_elem_of_fmap in Hf as (r' & -> & Hr').
  apply region_frames_bounds in Ha as (_ & _ & Ha); [|done].
  pose proof (chain_bounds _ _ _ _ Hch Hr') as (Hs & _ & [_ _ _ _ Hn]).
  rewrite Forall_forall in Hwf. apply region_frames_bounds in Hb as (_ & Hb & _); [|by apply Hwf].
  unfold MMU_PAGE_SIZE in *. lia.
Qed.

(** The regions of the boot map are a well-formed pool. *)
Lemma boot_mm_pool mems elfs rs :
  boot_info_ok mems elfs -> build_mem_regions mems elfs [] = Ret tt rs ->
  built 0 mems elfs rs /\ pool (boot_mm rs) (mjoin (region_frames <$> rs)).
Proof.
  intros [Hm Hms He Hes] Hrun. assert (built 0 mems elfs rs) as Hbuilt.
  { pose proof (build_runs mems elfs 0 []) as H. unfold runs in H. rewrite Hrun in H.
    destruct H as (new & -> & H); try done.
    eapply Forall_impl; [exact Hm|]. by intros ? [? _]. }
  split; [done|]. pose proof (built_region_wf _ _ _ _ ltac:(done) Hbuilt) as Hwf.
  split; [by exists []|done|]. eapply chain_frames_nodup; [by eapply bt_chain|done].
Qed.

(** ** Properties *)

(** C29: boot refines the frame pool: the regions [build_mem_regions] makes give the
    allocator a well-formed pool, without duplicates, that contains exactly the
    frames of the regions; in particular every page of usable memory that no
    kernel section touches can be handed out. *)
Theorem boot_pool mems elfs rs :
  boot_info_ok mems elfs -> build_mem_regions mems elfs [] = Ret tt rs ->
  pool (boot_mm rs) (mjoin (region_frames <$> rs)) /\
  forall m p, m ∈ mems -> usable m -> page_aligned p -> 0 < p ->
    starting_addr m <= p -> p + MMU_PAGE_SIZE <= mem_end m ->
    Forall (page_clear p) elfs -> p ∈ mjoin (region_frames <$> rs).
Proof.
  intros Hb Hrun. destruct (boot_mm_pool mems elfs rs Hb Hrun) as [Hbuilt Hpool]. split; [done|].
  intros m p Hin Hu Hp H0 Hlo Hhi Hcl.
  destruct (bt_cover _ _ _ _ Hbuilt m p Hin Hu Hp H0 Hlo Hhi Hcl) as (r & Hr & Hc1 & Hc2).
  pose proof (chain_bounds _ _ _ _ (bt_chain _ _ _ _ Hbuilt) Hr) as (_ & _ & [Hal _ _ _ Hn]).
  apply list_elem_of_join. exists (region_frames r). split; [|by apply list_elem_of_fmap_2].
  apply list_elem_of_fmap. exists (Z.to_nat ((p - r_start r) / MMU_PAGE_SIZE)).
  unfold page_aligned, MMU_PAGE_SIZE in *. rewrite Hn. split; [zdm|].
  apply elem_of_seq. zdm.
Qed.

(** C8: refinement: any run of allocations, frees of owned frames and writes into
    owned frames that the abstract pool allows behaves on the machine exactly as
    on the pool: same frames returned, in the same (last freed first) order, and
    the machine still implements the pool afterwards, so no frame is ever handed
    out twice while it is owned. *)
Theorem allocator_refines_pool ops s p os p' :
  implements s p -> pool_run ops p = Some (os, p') ->
  exists s', mm_run ops s = Ret os s' /\ implements s' p' /\ NoDup p'.1.
Proof.
  revert s p os. induction ops as [|op ops IH]; intros s p os Him Hrun; cbn in Hrun.
  - simplify_eq. exists s. split; [done|]. split; [done|]. apply (pl_nodup _ _ (im_pool _ _ Him)).
  - destruct (pool_op op p) as [[o p1]|] eqn:Hop; [|done]. cbn in Hrun.
    destruct (pool_run ops p1) as [[os1 p2]|] eqn:Hops; [|done]. cbn in Hrun. simplify_eq.
    destruct (mm_op_implements _ _ _ _ _ Him Hop) as (s1 & Hs1 & Him1).
    destruct (IH s1 p1 os1 Him1 Hops) as (s2 & Hs2 & Him2 & Hnd).
    exists s2. cbn. erewrite bind_ret by done. erewrite bind_ret by done. done.
Qed.

(** The only failure of the allocator: with an empty pool it prints the
    out-of-memory message and halts, leaving memory untouched; otherwise it
    returns the head of the pool. *)
Theorem pf_alloc_total s fs :
  pool s fs ->
  MMU_pf_alloc s = Halted "ALLOCATOR OUT OF MEMORY!!!" [] s /\ fs = [] \/
  exists a fs' s', fs = a :: fs' /\ MMU_pf_alloc s = Ret a s' /\ pool s' fs' /\ mem s' = mem s.
Proof.
  intros Hp. destruct fs as [|a fs]; [left; by rewrite alloc_empty|right].
  destruct (alloc_pop _ _ _ Hp) as (s' & ? & ? & ? & _). by exists a, fs, s'.
Qed.

(** ** Witnesses *)

Definition demo_regions : list MemRegion :=
  [mkRegion 4096 12288 4096; mkRegion 1093632 1097728 1093632].
Definition demo_info : list TagMemMapEntry :=
  [mkMemEntry 0 12500 1; mkMemEntry 1048576 49152 1].
Definition demo_sections : list TagELFEntry := [mkElfEntry 1 1048576 45000].

Lemma demo_info_is_ok : boot_info_ok demo_info demo_sections.
Proof.
  unfold demo_info, demo_sections. split; unfold mem_wf, elf_wf, mem_before, elf_le; eval_list.
Qed.

Lemma boot_pool_witness :
  pool (boot_mm demo_regions) [4096; 8192; 1093632] /\
  8192 ∈ mjoin (region_frames <$> demo_regions).
Proof.
  destruct (boot_pool demo_info demo_sections demo_regions) as [H1 H2].
  - apply demo_info_is_ok.
  - vm_compute. reflexivity.
  - split; [exact H1|]. apply (H2 (mkMemEntry 0 12500 1)); [by left|eval_fact..|].
    unfold demo_sections. constructor; [|constructor]. left. eval_fact.
Defined.

Lemma demo_pool : pool (boot_mm demo_regions) [4096; 8192; 1093632].
Proof.
  split.
  - by exists [].
  - unfold demo_regions, boot_mm. repeat constructor; vm_compute; congruence.
  - apply (bool_decide_unpack _). vm_compute. exact I.
Qed.

Lemma allocator_refines_pool_witness :
  exists s', mm_run [OpAlloc; OpAlloc; OpWrite 4096 0 7; OpFree 4096; OpFree 8192; OpAlloc; OpAlloc]
      (boot_mm demo_regions) = Ret [Some 4096; Some 8192; None; None; None; Some 8192; Some 4096] s' /\
    implements s' ([1093632], {[4096]} ∪ ({[8192]} ∪ (({[8192]} ∪ ({[4096]} ∪ ∅)) ∖ {[4096]} ∖ {[8192]}))) /\
    NoDup [1093632].
Proof.
  apply (allocator_refines_pool _ _ ([4096; 8192; 1093632], ∅) _
    ([1093632], {[4096]} ∪ ({[8192]} ∪ (({[8192]} ∪ ({[4096]} ∪ ∅)) ∖ {[4096]} ∖ {[8192]})))).
  - split; [exact demo_pool|]. intros a Ha. exfalso. revert Ha. apply not_elem_of_empty.
  - vm_compute. reflexivity.
Defined.

Lemma pf_alloc_total_witness :
  exists a fs' s', [4096; 8192; 1093632] = a :: fs' /\ MMU_pf_alloc (boot_mm demo_regions) = Ret a s' /\
    pool s' fs' /\ mem s' = mem (boot_mm demo_regions).
Proof.
  destruct (pf_alloc_total (boot_mm demo_regions) _ demo_pool) as [[_ H]|H]; [discriminate H|exact H].
Defined.
