(* ===== verification/PageTable.v ===== *)
(** * PageTable: the four-level page tables
    (src/src/page_table.c, src/include/page_table.h) *)

From S2P Require Import Prelude Multiboot Frames.

(** ** Addresses *)

Definition PAGE_TABLE_NUM_LEVELS : nat := 4.

(** [indices[l]] of [split_virt_addr]. *)
Definition index (l : nat) (virt_addr : Z) : Z :=
  Z.land (Z.shiftr virt_addr (9 * Z.of_nat l + 12)) 0x1FF.

(** The array [indices] and [*offset]. *)
Definition split_virt_addr (virt_addr : Z) : list Z * Z :=
  ((fun l => index l virt_addr) <$> seq 0 PAGE_TABLE_NUM_LEVELS,
   Z.land virt_addr 0xFFF).

(** ** Entries

    A [struct PageEntry] (or [PTEntry]: the same word, the last level) is one
    64-bit word; its members are bit fields. *)

Definition e_present (w : Z) : bool := get_flag 0 w.
Definition e_read_write (w : Z) : bool := get_flag 1 w.
Definition e_available1 (w : Z) : Z := get_bits 9 3 w.
Definition e_addr (w : Z) : Z := get_bits 12 40 w.

Definition entry_at (table i : Z) : Z := table + 8 * i.

(** Assignment to members of the entry at address [e]: read, modify, write. *)
Definition upd (e : Z) (f : Z -> Z) : M mm unit := w ← ld e; st e (f w).

Definition set_present (b : bool) : Z -> Z := set_flag 0 b.
Definition set_read_write (b : bool) : Z -> Z := set_flag 1 b.
Definition set_available1 (v : Z) : Z -> Z := set_bits 9 3 v.
Definition set_addr (v : Z) : Z -> Z := set_bits 12 40 v.

(** ** page_table_get_entry

    The loop [for (l = 3; l > 0; --l)]; [None] is the NULL result. *)

Definition add_table (e : Z) : M mm unit :=
  next_table ← MMU_pf_alloc;
  memset_page next_table ;;
  upd e (set_present true) ;;
  upd e (set_read_write true) ;;
  upd e (set_addr (Z.shiftr next_table 12)).

Fixpoint get_entry_from (l : nat) (table virt_addr : Z) (allocate : bool)
    : M mm (option Z) :=
  match l with
  | O => mret (Some (entry_at table (index 0 virt_addr)))
  | S l' =>
      let e := entry_at table (index l virt_addr) in
      let descend := w ← ld e;
        get_entry_from l' (u64 (Z.shiftl (e_addr w) 12)) virt_addr allocate in
      w ← ld e;
      if negb (e_present w) then
        if allocate then add_table e ;; descend
        else mret None
      else descend
  end.

Definition page_table_get_entry (table virt_addr : Z) (allocate : bool) : M mm (option Z) :=
  get_entry_from 3 table virt_addr allocate.

Definition page_table_virt_to_phys_addr (table virt_addr : Z) : M mm Z :=
  oe ← page_table_get_entry table virt_addr false;
  match oe with
  | None => mret 0
  | Some e => w ← ld e;
      mret (u64 (u64 (Z.shiftl (e_addr w) 12) + (split_virt_addr virt_addr).2))
  end.

(** The callback receives the entry it may dereference; a NULL entry would be a
    null dereference. *)
Definition with_entry (oe : option Z) (k : Z -> M mm unit) : M mm unit :=
  match oe with Some e => k e | None => fault end.

Definition direct_map_callback (addr entry : Z) : M mm unit :=
  upd entry (set_present true) ;;
  upd entry (set_read_write true) ;;
  upd entry (set_addr (Z.shiftr addr 12)).

(** [for (addr = start; addr < end; addr += MMU_PAGE_SIZE)]. *)
Fixpoint page_table_walk (fuel : nat) (table addr end_addr : Z)
    (callback : Z -> Z -> M mm unit) : M mm unit :=
  if addr <? end_addr then
    match fuel with
    | O => no_fuel
    | S fuel =>
        oe ← page_table_get_entry table addr true;
        with_entry oe (callback addr) ;;
        page_table_walk fuel table (u64 (addr + MMU_PAGE_SIZE)) end_addr callback
    end
  else mret tt.

(** [regions->d[regions->size - 1].end]: with no region the index wraps, out of
    the table. *)
Definition last_region_end : M mm Z :=
  rs ← gets regions;
  match last rs with Some r => mret (r_end r) | None => fault end.

Definition init_page_table (fuel : nat) : M mm Z :=
  pml4_table ← MMU_pf_alloc;
  memset_page pml4_table ;;
  mem_end ← last_region_end;
  page_table_walk fuel pml4_table MMU_PAGE_SIZE mem_end direct_map_callback ;;
  (* the "translation test" line prints this value *)
  _ ← page_table_virt_to_phys_addr pml4_table 0x69420;
  modify (set_cr3 pml4_table) ;;
  mret pml4_table.

(** ** The tables as a map

    Ghost view: [P] sends the path of indices from the root (top level first) to
    the frame of the table found there; [ [] ] is the PML4, a path of length 3 a
    page table. *)

Abbreviation tables := (gmap (list Z) Z).

(** The path of the table of level [l] on the way to [va]. *)
Definition path_at (l : nat) (va : Z) : list Z :=
  match l with
  | O => [index 3 va; index 2 va; index 1 va]
  | 1%nat => [index 3 va; index 2 va]
  | 2%nat => [index 3 va]
  | _ => []
  end.

Definition link_ok (P : tables) (p : list Z) (i w : Z) : Prop :=
  match P !! (p ++ [i]) with
  | Some g => e_present w = true /\ Z.shiftl (e_addr w) 12 = g
  | None => e_present w = false
  end.

Record pt_rep (m : gmap Z Z) (root : Z) (P : tables) : Prop := {
  pr_root : P !! [] = Some root;
  pr_frame : forall p f, P !! p = Some f -> frame_ok f;
  pr_inj : forall p q f, P !! p = Some f -> P !! q = Some f -> p = q;
  pr_closed : forall p i g, P !! (p ++ [i]) = Some g ->
    is_Some (P !! p) /\ (length p < 3)%nat /\ 0 <= i < 512;
  pr_links : forall p f i, P !! p = Some f -> (length p < 3)%nat -> 0 <= i < 512 ->
    link_ok P p i (rd m (entry_at f i)) }.

(** The last-level entry of [va]: 0 where there is no page table yet. *)
Definition pte (m : gmap Z Z) (P : tables) (va : Z) : Z :=
  match P !! path_at 0 va with
  | Some f => rd m (entry_at f (index 0 va))
  | None => 0
  end.

(** The tables are disjoint from the free frames. *)
Record pt_inv (s : mm) (root : Z) (P : tables) (fs : list Z) : Prop := {
  pi_pool : pool s fs;
  pi_rep : pt_rep (mem s) root P;
  pi_sep : forall p f, P !! p = Some f -> f ∉ fs }.

(** The tables needed to reach [va], and whether the pool has a frame for each
    one of [X] that is missing. *)
Definition prefixes (va : Z) : gset (list Z) := {[path_at 2 va; path_at 1 va; path_at 0 va]}.
Definition enough (X : gset (list Z)) (P : tables) (fs : list Z) : Prop :=
  (size (X ∖ dom P) <= length fs)%nat.

(** Halting for want of a frame, which [enough] excludes. *)
Definition out_of_frames (X : gset (list Z)) (P : tables) (fs : list Z) (msg : string) (s : mm) : Prop :=
  msg = "ALLOCATOR OUT OF MEMORY!!!"%string /\ ~ enough X P fs.

(** [a] is a word of some table. *)
Definition table_word (P : tables) (a : Z) : Prop :=
  exists p f, P !! p = Some f /\ f <= a < f + MMU_PAGE_SIZE.

(** What growing the tables, or writing last-level entries, preserves. *)
Record grows (X : gset (list Z)) (s : mm) (P : tables) (fs : list Z)
    (s' : mm) (P' : tables) (fs' : list Z) : Prop := {
  gr_sub : P ⊆ P';
  gr_enough : enough X P fs -> enough X P' fs';
  gr_suffix : fs' `suffix_of` fs;
  gr_mem : forall a, ~ table_word P' a -> rd (mem s') a = rd (mem s) a;
  gr_regs : brk s' = brk s /\ cr2 s' = cr2 s /\ cr3 s' = cr3 s;
  gr_dom : dom P' ⊆ dom P ∪ X;
  gr_new : forall q f, P' !! q = Some f -> P !! q = Some f \/ f ∈ fs }.

(** ** Index and entry arithmetic *)

Lemma index_range l va : 0 <= index l va < 512.
Proof.
  unfold index. change 0x1FF with (Z.ones 9). rewrite Z.land_ones by lia.
  by apply Z.mod_pos_bound.
Qed.

Lemma path_step l va : (l < 3)%nat -> path_at l va = path_at (S l) va ++ [index (S l) va].
Proof. intros. destruct l as [|[|[|l]]]; [done..|lia]. Qed.

Lemma path_length l va : (l <= 3)%nat -> length (path_at l va) = (3 - l)%nat.
Proof. intros. destruct l as [|[|[|[|l]]]]; [done..|lia]. Qed.

Lemma path_in_prefixes l va : (l < 3)%nat -> path_at l va ∈ prefixes va.
Proof. intros. unfold prefixes. destruct l as [|[|[|l]]]; [set_solver..|lia]. Qed.

Lemma entry_word_ok f i : frame_ok f -> 0 <= i < 512 -> word_ok (entry_at f i) = true.
Proof. intros [Ha Hl _] Hi. unfold entry_at. apply page_words; [done..|lia]. Qed.

Lemma entry_in_page f i : 0 <= i < 512 -> f <= entry_at f i < f + MMU_PAGE_SIZE.
Proof. unfold entry_at, MMU_PAGE_SIZE. lia. Qed.

Lemma frames_disjoint f g a : frame_ok f -> frame_ok g ->
  f <= a < f + MMU_PAGE_SIZE -> g <= a < g + MMU_PAGE_SIZE -> f = g.
Proof.
  intros [Hf _ _] [Hg _ _] ??. destruct (Z.lt_trichotomy f g) as [Hlt|[Hlt|Hlt]]; [|done|].
  - pose proof (page_gap f g Hf Hg Hlt). lia.
  - pose proof (page_gap g f Hg Hf Hlt). lia.
Qed.

Lemma entry_at_inj f g i j : frame_ok f -> frame_ok g -> 0 <= i < 512 -> 0 <= j < 512 ->
  entry_at f i = entry_at g j -> f = g /\ i = j.
Proof.
  intros Hf Hg Hi Hj E.
  assert (f = g) as <-.
  { apply (frames_disjoint f g (entry_at f i)); [done|done|by apply entry_in_page|].
    rewrite E. by apply entry_in_page. }
  split; [done|]. unfold entry_at in E. lia.
Qed.

(** A frame address survives the trip through the 40-bit field. *)
Lemma addr_roundtrip f : frame_ok f -> Z.shiftl (wrap 40 (Z.shiftr f 12)) 12 = f.
Proof.
  intros [Ha Hl Hh]. unfold page_aligned, MMU_PAGE_SIZE in *.
  rewrite Z.shiftr_div_pow2, wrap_small by (unfold in_range; zdm).
  rewrite Z.shiftl_mul_pow2 by lia. zdm.
Qed.

Lemma u64_frame f : frame_ok f -> u64 f = f.
Proof. intros [_ Hl Hh]. apply wrap_small. unfold in_range, MMU_PAGE_SIZE in *. lia. Qed.

(** The entry [add_table] and [direct_map_callback] leave behind. *)
Definition link (g w : Z) : Z :=
  set_addr (Z.shiftr g 12) (set_read_write true (set_present true w)).

Lemma link_present g w : e_present (link g w) = true.
Proof.
  unfold link, e_present, set_addr, set_read_write, set_present.
  rewrite get_flag_set_bits, get_flag_set_other, get_flag_set_same by lia. done.
Qed.

Lemma link_read_write g w : e_read_write (link g w) = true.
Proof.
  unfold link, e_read_write, set_addr, set_read_write, set_present.
  by rewrite get_flag_set_bits, get_flag_set_same by lia.
Qed.

Lemma link_addr g w : e_addr (link g w) = wrap 40 (Z.shiftr g 12).
Proof. unfold link, e_addr, set_addr. by rewrite get_set_bits_same by lia. Qed.

Lemma link_available1 g w : e_available1 (link g w) = e_available1 w.
Proof.
  unfold link, e_available1, set_addr, set_read_write, set_present.
  by rewrite get_set_bits_other, !get_bits_set_flag by lia.
Qed.

(** ** Loads and stores of entries *)

Lemma bind_ld {B} a (k : Z -> M mm B) s : word_ok a = true -> (ld a ≫= k) s = k (rd (mem s) a) s.
Proof. unfold ld. by intros ->. Qed.

Lemma bind_upd {B} a f (k : unit -> M mm B) s : word_ok a = true ->
  (upd a f ≫= k) s = k tt (set_mem (<[a := f (rd (mem s) a)]> (mem s)) s).
Proof. intros H. unfold upd, ld, st. by rewrite H. Qed.

Lemma upd_ret a f s : word_ok a = true ->
  upd a f s = Ret tt (set_mem (<[a := f (rd (mem s) a)]> (mem s)) s).
Proof. intros H. unfold upd, ld, st. by rewrite H. Qed.

(** The three member assignments together. *)
Lemma link_upd g e s : word_ok e = true ->
  exists m, (upd e (set_present true) ;; upd e (set_read_write true) ;;
     upd e (set_addr (Z.shiftr g 12))) s = Ret tt (set_mem m s) /\
    rd m e = link g (rd (mem s) e) /\ forall a, a <> e -> rd m a = rd (mem s) a.
Proof.
  intros He. rewrite !bind_upd, upd_ret by done. eexists. split; [done|].
  cbn [mem set_mem]. rewrite !rd_insert_eq. split; [done|].
  intros a Ha. by rewrite !rd_insert_ne.
Qed.

(** ** Growing by one table *)

Lemma lookup_insert_path (P : tables) p i g q f :
  <[p ++ [i] := g]> P !! q = Some f ->
  (q = p ++ [i] /\ f = g) \/ (q <> p ++ [i] /\ P !! q = Some f).
Proof. rewrite lookup_insert. case_decide; naive_solver. Qed.

Lemma app_single_inj {A} (p q : list A) (i j : A) : p ++ [i] = q ++ [j] -> p = q /\ i = j.
Proof. intros H. apply app_inj_2 in H as [-> H]; [|done]. by simplify_eq. Qed.

(** [m'] is [m] with frame [g] zeroed and the entry [i] of table [f] linked to
    it. *)
Record linked (m m' : gmap Z Z) (f i g : Z) : Prop := {
  lk_entry : exists w, rd m' (entry_at f i) = link g w;
  lk_zero : forall j, 0 <= j < 512 -> rd m' (entry_at g j) = 0;
  lk_other : forall a, a <> entry_at f i -> ~ (g <= a < g + MMU_PAGE_SIZE) -> rd m' a = rd m a }.

Lemma linked_rep m m' root P p i f g :
  pt_rep m root P -> linked m m' f i g ->
  P !! p = Some f -> (length p < 3)%nat -> 0 <= i < 512 -> P !! (p ++ [i]) = None ->
  frame_ok g -> (forall q f', P !! q = Some f' -> f' <> g) ->
  pt_rep m' root (<[p ++ [i] := g]> P).
Proof.
  intros [Hroot Hfr Hinj Hcl Hlk] [[w Hw] Hz Hoth] Hp Hlen Hi Hnone Hg Hfresh.
  assert (p ++ [i] <> []) by (by destruct p).
  split.
  - by rewrite lookup_insert_ne.
  - intros q f' [[-> ->]|[_ Hq]]%lookup_insert_path; [done|by eapply Hfr].
  - intros q1 q2 f' [[-> ->]|[? H1]]%lookup_insert_path [[-> E]|[? H2]]%lookup_insert_path;
      simplify_eq; try done; [by apply Hfresh in H2|by apply Hfresh in H1|by eapply Hinj].
  - intros q j h [[E ->]|[? Hq]]%lookup_insert_path.
    + apply app_single_inj in E as [-> ->]. rewrite lookup_insert_is_Some'. eauto.
    + destruct (Hcl q j h Hq) as (? & ? & ?). rewrite lookup_insert_is_Some'. eauto.
  - intros q f' j [[-> ->]|[Hne Hq]]%lookup_insert_path Hlen' Hj; unfold link_ok.
    + rewrite lookup_insert_ne; [|intros E; apply (f_equal length) in E; rewrite !length_app in E; cbn in E; lia].
      destruct (P !! ((p ++ [i]) ++ [j])) as [h|] eqn:E.
      * apply Hcl in E as ([? ?] & _). congruence.
      * by rewrite Hz.
    + destruct (decide (q ++ [j] = p ++ [i])) as [E|E].
      * rewrite E, lookup_insert_eq. apply app_single_inj in E as [-> ->].
        assert (f' = f) as -> by congruence. rewrite Hw, link_addr. split; [apply link_present|].
        by apply addr_roundtrip.
      * rewrite lookup_insert_ne by done. rewrite Hoth; [by apply Hlk|..].
        -- intros [-> ->]%entry_at_inj; [|by eapply Hfr..|done|done].
           apply E. f_equal. by eapply Hinj.
        -- intros Hin. eapply Hfresh; [exact Hq|].
           eapply frames_disjoint; [by eapply Hfr|exact Hg|by apply entry_in_page|exact Hin].
Qed.

Lemma linked_pte m m' root P p i f g :
  pt_rep m root P -> linked m m' f i g ->
  P !! p = Some f -> (length p < 3)%nat -> 0 <= i < 512 -> P !! (p ++ [i]) = None ->
  frame_ok g -> (forall q f', P !! q = Some f' -> f' <> g) ->
  forall va, pte m' (<[p ++ [i] := g]> P) va = pte m P va.
Proof.
  intros [Hroot Hfr Hinj Hcl Hlk] [_ Hz Hoth] Hp Hlen Hi Hnone Hg Hfresh va.
  unfold pte. pose proof (index_range 0 va) as Hidx.
  destruct (decide (p ++ [i] = path_at 0 va)) as [E|E].
  - rewrite <- E, lookup_insert_eq, Hnone. by apply Hz.
  - rewrite lookup_insert_ne by done. destruct (P !! path_at 0 va) as [f'|] eqn:Hf'; [|done].
    apply Hoth.
    + intros [-> _]%entry_at_inj; [|by eapply Hfr..|done|done].
      assert (path_at 0 va = p) as <- by (by eapply Hinj). cbn in Hlen. lia.
    + intros Hin. eapply Hfresh; [exact Hf'|].
      eapply frames_disjoint; [by eapply Hfr|exact Hg|by apply entry_in_page|exact Hin].
Qed.

Lemma enough_step (X : gset (list Z)) (P : tables) q g fs :
  q ∈ X -> P !! q = None -> enough X P (g :: fs) -> enough X (<[q := g]> P) fs.
Proof.
  unfold enough. intros Hq Hn. rewrite dom_insert_L.
  replace (X ∖ ({[q]} ∪ dom P)) with ((X ∖ dom P) ∖ {[q]}) by set_solver.
  rewrite (size_difference (X ∖ dom P) {[q]}).
  - rewrite size_singleton. cbn. lia.
  - apply singleton_subseteq_l, elem_of_difference. split; [done|]. by apply not_elem_of_dom.
Qed.

Lemma out_of_frames_back (X : gset (list Z)) (P P' : tables) fs fs' msg s s' :
  (enough X P fs -> enough X P' fs') -> out_of_frames X P' fs' msg s' -> out_of_frames X P fs msg s.
Proof. intros He [-> Hn]. split; [done|]. auto. Qed.

Lemma enough_nil X P q : q ∈ X -> P !! q = None -> ~ enough X P [].
Proof.
  unfold enough. intros Hq Hn Hle. cbn in Hle.
  assert (X ∖ dom P ≡ ∅) as E by (apply size_empty_inv; lia).
  apply not_elem_of_dom in Hn. set_solver.
Qed.

Lemma table_word_mono P P' a : P ⊆ P' -> table_word P a -> table_word P' a.
Proof. intros Hs (p & f & Hp & ?). exists p, f. split; [by eapply lookup_weaken|done]. Qed.

Lemma grows_refl X s P fs : grows X s P fs s P fs.
Proof. split; [done|done|by exists []|done|done|set_solver|by left]. Qed.

Lemma grows_trans X s P fs s1 P1 fs1 s2 P2 fs2 :
  grows X s P fs s1 P1 fs1 -> grows X s1 P1 fs1 s2 P2 fs2 -> grows X s P fs s2 P2 fs2.
Proof.
  intros [S1 E1 F1 M1 R1 D1 N1] [S2 E2 F2 M2 R2 D2 N2]. split.
  - by etrans.
  - auto.
  - by etrans.
  - intros a Ha. rewrite M2 by done. apply M1. intros ?. apply Ha. by eapply table_word_mono.
  - intuition congruence.
  - set_solver.
  - intros q f [Hq|Hq]%N2; [by apply N1|]. right. destruct F1 as [k ->]. apply elem_of_app. by right.
Qed.

Lemma add_table_linked e g fs s :
  pool s (g :: fs) -> word_ok e = true -> ~ (g <= e < g + MMU_PAGE_SIZE) ->
  exists s', add_table e s = Ret tt s' /\ pool (set_mem (mem s) s') fs /\
    rd (mem s') e = link g (rd (mem s) e) /\
    (forall j, 0 <= j < 512 -> rd (mem s') (entry_at g j) = 0) /\
    (forall a, a <> e -> ~ (g <= a < g + MMU_PAGE_SIZE) -> rd (mem s') a = rd (mem s) a) /\
    (brk s' = brk s /\ cr2 s' = cr2 s /\ cr3 s' = cr3 s).
Proof.
  intros Hp He Hge. pose proof (pool_frame s (g :: fs) g Hp ltac:(left)) as Hg.
  destruct (alloc_pop _ _ _ Hp) as (s1 & Hs1 & Hp1 & Hm1 & Hb1 & H2 & H3).
  unfold add_table. erewrite bind_ret by done. unfold memset_page.
  rewrite frame_word_ok by done. mstep.
  destruct (link_upd g e (set_mem (zero_page g (mem s1)) s1) He) as (m & Hm & Hme & Hmo).
  rewrite Hm. eexists. split; [done|]. cbn [mem set_mem brk cr2 cr3] in *. rewrite Hm1 in *.
  split; [|split; [|split; [|split]]].
  - eapply pool_agree; [exact Hp1|done..|]. intros. cbn. by rewrite Hm1.
  - rewrite Hme. f_equal. apply rd_zero_page_out. lia.
  - intros j Hj. rewrite Hmo; [by apply rd_zero_page_in|].
    intros <-. apply Hge. by apply entry_in_page.
  - intros a Ha Hga. rewrite Hmo by done. apply rd_zero_page_out. lia.
  - done.
Qed.

Lemma add_table_grows X s root P fs g l va f :
  pt_inv s root P (g :: fs) -> (l < 3)%nat -> P !! path_at (S l) va = Some f ->
  P !! path_at l va = None -> path_at l va ∈ X ->
  let P' := <[path_at l va := g]> P in
  exists s', add_table (entry_at f (index (S l) va)) s = Ret tt s' /\
    pt_inv s' root P' fs /\ grows X s P (g :: fs) s' P' fs /\
    forall va, pte (mem s') P' va = pte (mem s) P va.
Proof.
  intros [Hpool Hrep Hsep] Hl Hf Hnone HX P'.
  pose proof (index_range (S l) va) as Hi.
  pose proof (pr_frame _ _ _ Hrep _ _ Hf) as Hfok.
  pose proof (pool_frame s (g :: fs) g Hpool ltac:(left)) as Hg.
  assert (Hfresh : forall q f', P !! q = Some f' -> f' <> g).
  { intros q f' Hq ->. eapply Hsep; [exact Hq|by left]. }
  assert (Hlen : (length (path_at (S l) va) < 3)%nat) by (rewrite path_length by lia; lia).
  destruct (add_table_linked (entry_at f (index (S l) va)) g fs s) as
    (s' & Hs' & Hp' & He & Hz & Ho & Hr); [done|by apply entry_word_ok|..].
  { intros Hin. eapply Hfresh; [exact Hf|].
    eapply frames_disjoint; [done|exact Hg|by apply entry_in_page|exact Hin]. }
  assert (Hlk : linked (mem s) (mem s') f (index (S l) va) g) by (split; eauto).
  rewrite (path_step l) in Hnone by lia.
  exists s'. split; [done|]. subst P'. rewrite (path_step l) in HX |- * by lia.
  pose proof (pl_nodup _ _ Hpool) as Hnd. apply NoDup_cons in Hnd as [Hgfs _].
  split; [|split; [|by eapply linked_pte]].
  - split.
    + eapply pool_agree; [exact Hp'|done..|]. intros a Ha. cbn.
      assert (frame_ok a) as Hao by (eapply pool_frame; [exact Hpool|by right]).
      apply Ho.
      * intros ->. eapply Hsep; [exact Hf|]. right.
        replace f with (entry_at f (index (S l) va)); [done|].
        symmetry. by eapply frames_word_inj.
      * intros Hin. apply Hgfs. replace g with a; [done|].
        eapply frames_disjoint; [done..| |exact Hin]. unfold MMU_PAGE_SIZE. lia.
    + by eapply linked_rep.
    + intros q f' [[-> ->]|[_ Hq]]%lookup_insert_path; [done|].
      intros ?. eapply Hsep; [exact Hq|by right].
  - split.
    + by apply insert_subseteq.
    + by apply enough_step.
    + by exists [g].
    + intros a Ha. apply Ho.
      * intros ->. apply Ha. exists (path_at (S l) va), f. split; [|by apply entry_in_page].
        rewrite lookup_insert_ne; [done|]. intros E. apply (f_equal length) in E.
        rewrite length_app in E. cbn in E. lia.
      * intros Hin. apply Ha. eexists _, g. split; [by apply lookup_insert_eq|done].
    + done.
    + rewrite dom_insert_L. clear -HX. set_solver.
    + intros q f' [[-> ->]|[_ Hq]]%lookup_insert_path; [right; by left|by left].
Qed.

(** ** page_table_get_entry *)

(** The outcome of a successful look-up that may allocate. *)
Definition entry_found (X : gset (list Z)) (s : mm) (root : Z) (P : tables) (fs : list Z)
    (va : Z) (oe : option Z) (s' : mm) : Prop :=
  exists P' fs' f, oe = Some (entry_at f (index 0 va)) /\ P' !! path_at 0 va = Some f /\
    pt_inv s' root P' fs' /\ grows X s P fs s' P' fs' /\
    forall va, pte (mem s') P' va = pte (mem s) P va.

Lemma pr_descend m root P l va f g :
  pt_rep m root P -> (l < 3)%nat -> P !! path_at (S l) va = Some f ->
  P !! path_at l va = Some g ->
  let w := rd m (entry_at f (index (S l) va)) in
  e_present w = true /\ u64 (Z.shiftl (e_addr w) 12) = g.
Proof.
  intros Hrep Hl Hf Hg w. subst w. rewrite (path_step l) in Hg by done.
  pose proof (pr_links _ _ _ Hrep (path_at (S l) va) f (index (S l) va) Hf) as Hlk.
  ospecialize* Hlk; [rewrite path_length by lia; lia|apply index_range|].
  unfold link_ok in Hlk. rewrite Hg in Hlk. destruct Hlk as [-> ->]. split; [done|].
  apply u64_frame. by eapply pr_frame.
Qed.

Lemma pr_missing m root P l va f :
  pt_rep m root P -> (l < 3)%nat -> P !! path_at (S l) va = Some f ->
  P !! path_at l va = None ->
  e_present (rd m (entry_at f (index (S l) va))) = false.
Proof.
  intros Hrep Hl Hf Hg. rewrite (path_step l) in Hg by done.
  pose proof (pr_links _ _ _ Hrep (path_at (S l) va) f (index (S l) va) Hf) as Hlk.
  ospecialize* Hlk; [rewrite path_length by lia; lia|apply index_range|].
  unfold link_ok in Hlk. by rewrite Hg in Hlk.
Qed.

Lemma get_entry_runs X l : (l <= 3)%nat -> forall s root P fs va table,
  pt_inv s root P fs -> P !! path_at l va = Some table -> prefixes va ⊆ X ->
  runs (get_entry_from l table va true) s
    (fun oe s' => entry_found X s root P fs va oe s') (out_of_frames X P fs).
Proof.
  induction l as [|l IH]; intros Hl s root P fs va table Hinv Hp HX; cbn [get_entry_from].
  { apply runs_ret. exists P, fs, table. split; [done|]. split; [done|]. split; [done|].
    split; [apply grows_refl|done]. }
  pose proof (pr_frame _ _ _ (pi_rep _ _ _ _ Hinv) _ _ Hp) as Hok.
  pose proof (entry_word_ok _ _ Hok (index_range (S l) va)) as Hwok.
  assert (path_at l va ∈ X) as HlX by (apply HX, path_in_prefixes; lia).
  unfold runs. rewrite bind_ld by done.
  destruct (P !! path_at l va) as [g|] eqn:Hg.
  - pose proof (pr_descend _ _ _ l va _ _ (pi_rep _ _ _ _ Hinv) ltac:(lia) Hp Hg) as [-> Hu].
    cbn [negb]. rewrite bind_ld, Hu by done. by apply IH; [lia|..].
  - rewrite (pr_missing _ _ _ l va _ (pi_rep _ _ _ _ Hinv) ltac:(lia) Hp Hg). cbn [negb].
    destruct fs as [|g fs].
    { unfold add_table. rewrite (bind_halted _ _ "ALLOCATOR OUT OF MEMORY!!!" [] s s).
      - split; [done|]. by eapply enough_nil.
      - apply bind_halted, alloc_empty. apply Hinv. }
    destruct (add_table_grows X s root P fs g l va table Hinv ltac:(lia) Hp Hg HlX)
      as (s1 & Hs1 & Hinv1 & Hgr1 & Hpte1).
    erewrite bind_ret by done. rewrite bind_ld by done.
    assert (<[path_at l va:=g]> P !! path_at (S l) va = Some table) as Hp1.
    { apply (lookup_weaken P); [done|]. by apply insert_subseteq. }
    pose proof (pr_descend _ _ _ l va _ _ (pi_rep _ _ _ _ Hinv1) ltac:(lia) Hp1
      (lookup_insert_eq _ _ _)) as [_ Hu]. rewrite Hu.
    pose proof (IH ltac:(lia) s1 root _ fs va g Hinv1 (lookup_insert_eq _ _ _) HX) as Hrec.
    unfold runs in Hrec. destruct (get_entry_from l g va true s1); try done.
    + destruct Hrec as (P' & fs' & f & -> & Hf & Hinv' & Hgr' & Hpte').
      exists P', fs', f. split; [done|]. split; [done|]. split; [done|].
      split; [by eapply grows_trans|]. intros. by rewrite Hpte'.
    + eapply out_of_frames_back; [apply Hgr1|exact Hrec].
Qed.

Lemma page_table_get_entry_runs X s root P fs va :
  pt_inv s root P fs -> prefixes va ⊆ X ->
  runs (page_table_get_entry root va true) s
    (fun oe s' => entry_found X s root P fs va oe s') (out_of_frames X P fs).
Proof.
  intros Hinv HX. apply get_entry_runs; [lia|done| |done].
  apply (pr_root _ _ _ (pi_rep _ _ _ _ Hinv)).
Qed.

(** The tables above a page table exist. *)
Lemma path_parents m root P l va f : pt_rep m root P -> (l <= 3)%nat ->
  P !! path_at 0 va = Some f -> is_Some (P !! path_at l va).
Proof.
  intros Hrep Hl Hf. induction l as [|l IH]; [by eexists|].
  destruct IH as [h Hh]; [lia|]. rewrite (path_step l) in Hh by lia.
  by apply (pr_closed _ _ _ Hrep) in Hh as (? & _).
Qed.

(** A page that has its page table is found without any allocation. *)
Lemma get_entry_hit s root P l va allocate table f : pt_rep (mem s) root P -> (l <= 3)%nat ->
  P !! path_at l va = Some table -> P !! path_at 0 va = Some f ->
  get_entry_from l table va allocate s = Ret (Some (entry_at f (index 0 va))) s.
Proof.
  intros Hrep Hl Hp Hf. revert table Hp. induction l as [|l IH]; intros table Hp; cbn [get_entry_from].
  { by replace table with f by congruence. }
  pose proof (pr_frame _ _ _ Hrep _ _ Hp) as Hok.
  pose proof (entry_word_ok _ _ Hok (index_range (S l) va)) as Hwok.
  destruct (path_parents _ _ _ l _ _ Hrep ltac:(lia) Hf) as [g Hg].
  rewrite bind_ld by done. pose proof (pr_descend _ _ _ l va _ _ Hrep ltac:(lia) Hp Hg) as [-> Hu].
  cbn [negb]. rewrite bind_ld, Hu by done. apply IH; [lia|done].
Qed.

(** Without [allocate] nothing changes and the result follows the tables. *)
Lemma get_entry_lookup l : (l <= 3)%nat -> forall s root P va table,
  pt_rep (mem s) root P -> P !! path_at l va = Some table ->
  get_entry_from l table va false s =
    Ret ((fun f => entry_at f (index 0 va)) <$> P !! path_at 0 va) s.
Proof.
  induction l as [|l IH]; intros Hl s root P va table Hrep Hp; cbn [get_entry_from].
  { by rewrite Hp. }
  pose proof (pr_frame _ _ _ Hrep _ _ Hp) as Hok.
  pose proof (entry_word_ok _ _ Hok (index_range (S l) va)) as Hwok.
  rewrite bind_ld by done. destruct (P !! path_at l va) as [g|] eqn:Hg.
  - pose proof (pr_descend _ _ _ l va _ _ Hrep ltac:(lia) Hp Hg) as [-> Hu].
    cbn [negb]. rewrite bind_ld, Hu by done. apply (IH ltac:(lia) _ root); done.
  - rewrite (pr_missing _ _ _ l va _ Hrep ltac:(lia) Hp Hg). cbn [negb].
    replace (P !! path_at 0 va) with (@None Z); [done|]. symmetry.
    destruct (P !! path_at 0 va) as [f|] eqn:Hf; [|done]. exfalso.
    destruct (path_parents _ _ _ l _ _ Hrep ltac:(lia) Hf) as [? ?]. congruence.
Qed.

(** ** Writing a last-level entry *)

(** The virtual page of an address: the indices of all four levels. *)
Definition vpage (va : Z) : list Z := path_at 0 va ++ [index 0 va].

Lemma leaf_length va : length (path_at 0 va) = 3%nat.
Proof. done. Qed.

(** Storing [w] in the entry of [va] changes the map at that page only. *)
Lemma pte_store m root P va f w :
  pt_rep m root P -> P !! path_at 0 va = Some f ->
  let m' := <[entry_at f (index 0 va) := w]> m in
  pt_rep m' root P /\ forall va', pte m' P va' = if decide (vpage va' = vpage va) then w else pte m P va'.
Proof.
  intros Hrep Hf m'. pose proof Hrep as [Hroot Hfr Hinj Hcl Hlk].
  pose proof (index_range 0 va) as Hi. split.
  - split; try done. intros p g i Hp Hlen Hir. unfold link_ok. subst m'.
    rewrite rd_insert_ne; [by apply Hlk|]. intros [-> _]%entry_at_inj; [|by eapply Hfr..|done|done].
    assert (p = path_at 0 va) as -> by (by eapply Hinj). rewrite leaf_length in Hlen. lia.
  - intros va'. unfold pte. destruct (P !! path_at 0 va') as [g|] eqn:Hg.
    + subst m'. rewrite rd_insert. pose proof (index_range 0 va') as Hi'.
      apply decide_ext. split.
      * intros [-> E]%entry_at_inj; [|by eapply Hfr..|done|done]. unfold vpage. rewrite E.
        f_equal. by eapply Hinj.
      * unfold vpage. intros [E1 E2]%app_single_inj. rewrite E1 in Hg. by simplify_eq; rewrite E2.
    + rewrite decide_False; [done|]. unfold vpage. intros [E _]%app_single_inj. congruence.
Qed.

Lemma pt_inv_store s root P fs va f w :
  pt_inv s root P fs -> P !! path_at 0 va = Some f ->
  pt_inv (set_mem (<[entry_at f (index 0 va) := w]> (mem s)) s) root P fs.
Proof.
  intros [Hpool Hrep Hsep] Hf. split; [|by eapply pte_store|done].
  eapply pool_agree; [exact Hpool|done..|]. intros a Ha. cbn. apply rd_insert_ne. intros E.
  eapply Hsep; [exact Hf|]. replace f with a; [done|]. symmetry.
  eapply frames_word_inj; [by eapply pr_frame|by eapply pool_frame|apply (index_range 0 va)|done].
Qed.

(** ** Walking a range *)

(** A callback that rewrites the entry it is given, from its old value and the
    address. *)
Definition rewrites_entry (cb : Z -> Z -> M mm unit) (upd_f : Z -> Z -> Z) : Prop :=
  forall addr e s, word_ok e = true -> exists m,
    cb addr e s = Ret tt (set_mem m s) /\
    forall a, rd m a = if decide (a = e) then upd_f addr (rd (mem s) e) else rd (mem s) a.

Lemma direct_map_rewrites : rewrites_entry direct_map_callback link.
Proof.
  intros addr e s He. destruct (link_upd addr e s He) as (m & Hm & Hme & Hmo).
  exists m. split; [exact Hm|]. intros a. case_decide as E; [by subst|by apply Hmo].
Qed.

(** The addresses the loop visits. *)
Definition walk_len (addr end_ : Z) : nat := Z.to_nat ((end_ - addr + (MMU_PAGE_SIZE - 1)) / MMU_PAGE_SIZE).
Definition walk_addrs (addr end_ : Z) : list Z :=
  (fun i => addr + MMU_PAGE_SIZE * Z.of_nat i) <$> seq 0 (walk_len addr end_).

(** The last-level entry of [va] after the entries of [addrs] were rewritten. *)
Definition rewritten (upd_f : Z -> Z -> Z) (addrs : list Z) (va w : Z) : Z :=
  foldl (fun w a => if decide (vpage va = vpage a) then upd_f a w else w) w addrs.

Definition prefixes_of (addrs : list Z) : gset (list Z) := ⋃ (prefixes <$> addrs).

Lemma walk_len_0 addr end_ : end_ <= addr -> walk_len addr end_ = 0%nat.
Proof. intros. unfold walk_len, MMU_PAGE_SIZE. zdm. Qed.

Lemma walk_len_S addr end_ : addr < end_ ->
  walk_len addr end_ = S (walk_len (addr + MMU_PAGE_SIZE) end_).
Proof. intros. unfold walk_len, MMU_PAGE_SIZE. zdm. Qed.

Lemma walk_addrs_cons addr end_ : addr < end_ ->
  walk_addrs addr end_ = addr :: walk_addrs (addr + MMU_PAGE_SIZE) end_.
Proof.
  intros. unfold walk_addrs. rewrite walk_len_S by done. cbn [seq fmap list_fmap].
  f_equal; [lia|]. rewrite <- fmap_S_seq, <- list_fmap_compose.
  apply list_fmap_ext. intros i x _. cbn. lia.
Qed.

Lemma pt_inv_ext s m root P fs : pt_inv s root P fs ->
  (forall a, rd m a = rd (mem s) a) -> pt_inv (set_mem m s) root P fs.
Proof.
  intros [Hpool [] Hsep] Hm. split; [eapply pool_agree; done| |done].
  split; try done. intros p f i. cbn. rewrite Hm. auto.
Qed.

Lemma pte_ext m m' P va : (forall a, rd m' a = rd m a) -> pte m' P va = pte m P va.
Proof. intros H. unfold pte. destruct (P !! path_at 0 va); [apply H|done]. Qed.

(** One turn: find the entry of [addr], rewrite it. *)
Lemma visit_runs X cb upd_f s root P fs addr :
  rewrites_entry cb upd_f -> pt_inv s root P fs -> prefixes addr ⊆ X ->
  runs (oe ← page_table_get_entry root addr true; with_entry oe (cb addr)) s
    (fun _ s' => exists P' fs', pt_inv s' root P' fs' /\ grows X s P fs s' P' fs' /\
       is_Some (P' !! path_at 0 addr) /\
       forall va, pte (mem s') P' va = rewritten upd_f [addr] va (pte (mem s) P va))
    (out_of_frames X P fs).
Proof.
  intros Hcb Hinv HX. eapply runs_bind; [by apply page_table_get_entry_runs|].
  intros oe s1 (P1 & fs1 & f & -> & Hf & Hinv1 & Hgr1 & Hpte1). cbn [with_entry].
  pose proof (pi_rep _ _ _ _ Hinv1) as Hrep1.
  assert (Hok : word_ok (entry_at f (index 0 addr)) = true).
  { apply entry_word_ok; [by eapply pr_frame|apply index_range]. }
  destruct (Hcb addr _ s1 Hok) as (m & Hm & Hrd). unfold runs. rewrite Hm.
  set (w := upd_f addr (rd (mem s1) (entry_at f (index 0 addr)))) in *.
  assert (Hext : forall a, rd m a = rd (<[entry_at f (index 0 addr) := w]> (mem s1)) a).
  { intros a. rewrite Hrd, rd_insert. apply decide_ext. naive_solver. }
  exists P1, fs1. split; [|split; [|split; [by eexists|]]].
  - replace (set_mem m s1) with (set_mem m (set_mem (<[entry_at f (index 0 addr) := w]> (mem s1)) s1)) by done.
    apply pt_inv_ext; [by apply pt_inv_store|done].
  - eapply grows_trans; [exact Hgr1|]. split; [done|done|by exists []| |done|set_solver|by left].
    intros a Ha. cbn. rewrite Hrd, decide_False; [done|]. intros ->. apply Ha.
    exists (path_at 0 addr), f. split; [done|]. by apply entry_in_page, index_range.
  - intros va. cbn [mem set_mem]. rewrite (pte_ext _ _ _ _ Hext).
    destruct (pte_store _ _ _ addr f w Hrep1 Hf) as [_ ->]. unfold rewritten. cbn [foldl].
    case_decide as E; [|by rewrite Hpte1].
    subst w. f_equal. rewrite <- Hpte1. unfold vpage in E. apply app_single_inj in E as [E1 E2].
    unfold pte. by rewrite E1, E2, Hf.
Qed.

Lemma rewritten_app upd_f l1 l2 va w :
  rewritten upd_f (l1 ++ l2) va w = rewritten upd_f l2 va (rewritten upd_f l1 va w).
Proof. apply foldl_app. Qed.

Lemma prefixes_of_cons a l : prefixes_of (a :: l) = prefixes a ∪ prefixes_of l.
Proof. done. Qed.

Lemma walk_runs cb upd_f X root end_ : rewrites_entry cb upd_f -> end_ <= 2 ^ 48 ->
  forall fuel s P fs addr,
  pt_inv s root P fs -> prefixes_of (walk_addrs addr end_) ⊆ X -> 0 <= addr ->
  (walk_len addr end_ <= fuel)%nat ->
  runs (page_table_walk fuel root addr end_ cb) s
    (fun _ s' => exists P' fs', pt_inv s' root P' fs' /\ grows X s P fs s' P' fs' /\
       Forall (fun a => is_Some (P' !! path_at 0 a)) (walk_addrs addr end_) /\
       forall va, pte (mem s') P' va = rewritten upd_f (walk_addrs addr end_) va (pte (mem s) P va))
    (out_of_frames X P fs).
Proof.
  intros Hcb Hend. induction fuel as [|fuel IH]; intros s P fs addr Hinv HX H0 Hf;
    cbn [page_table_walk]; destruct (Z.ltb_spec addr end_) as [Hlt|Hge];
    try (unfold walk_addrs; rewrite walk_len_0 by done; apply runs_ret; exists P, fs;
         split; [done|]; split; [apply grows_refl|]; done).
  { rewrite walk_len_S in Hf by done. lia. }
  rewrite walk_addrs_cons in * by done. rewrite prefixes_of_cons in HX.
  apply union_subseteq in HX as [HX1 HX2].
  apply runs_assoc. eapply runs_bind.
  { apply (visit_runs X cb upd_f); done. }
  intros _ s1 (P1 & fs1 & Hinv1 & Hgr1 & Hsome & Hpte1).
  rewrite wrap_small by (unfold in_range, MMU_PAGE_SIZE; lia).
  eapply runs_conseq; [apply IH; [done|done|unfold MMU_PAGE_SIZE; lia|]|..].
  - rewrite walk_len_S in Hf by done. lia.
  - intros _ s2 (P2 & fs2 & Hinv2 & Hgr2 & Hall & Hpte2). exists P2, fs2.
    split; [done|]. split; [by eapply grows_trans|]. split.
    + constructor; [|done]. destruct Hsome as [f Hf1]. exists f.
      eapply lookup_weaken; [done|]. apply Hgr2.
    + intros va. rewrite Hpte2, Hpte1. by rewrite <- (rewritten_app _ [addr]).
  - intros ? ?. apply out_of_frames_back, Hgr1.
Qed.

(** ** Pages as numbers *)

Lemma index_arith l va : 0 <= va -> index l va = va / 2 ^ (9 * Z.of_nat l + 12) mod 512.
Proof.
  intros. unfold index. change 0x1FF with (Z.ones 9).
  rewrite Z.land_ones, Z.shiftr_div_pow2 by lia. done.
Qed.

(** Below 2^48 two addresses have the same four indices exactly when they lie in
    the same 4 KiB page. *)
Lemma vpage_eq a b : in_range 48 a -> in_range 48 b ->
  vpage a = vpage b <-> a / MMU_PAGE_SIZE = b / MMU_PAGE_SIZE.
Proof.
  unfold in_range, MMU_PAGE_SIZE. intros Ha Hb.
  assert (forall x, 0 <= x < 2 ^ 48 ->
    x / 4096 = ((index 3 x * 512 + index 2 x) * 512 + index 1 x) * 512 + index 0 x) as Hsum.
  { intros x Hx. rewrite !index_arith by lia. cbn. zdm. }
  unfold vpage. cbn [path_at app]. split.
  - intros E. injection E as E3 E2 E1 E0. rewrite !Hsum by done. by rewrite E0, E1, E2, E3.
  - intros E. rewrite !Hsum in E by done.
    pose proof (index_range 0 a). pose proof (index_range 1 a). pose proof (index_range 2 a).
    pose proof (index_range 0 b). pose proof (index_range 1 b). pose proof (index_range 2 b).
    assert (index 0 a = index 0 b) as -> by lia. assert (index 1 a = index 1 b) as -> by lia.
    assert (index 2 a = index 2 b) as -> by lia. assert (index 3 a = index 3 b) as -> by lia. done.
Qed.

(** Walking an aligned range rewrites each of its pages once. *)
Lemma rewritten_walk upd_f end_ va : page_aligned end_ -> end_ <= 2 ^ 48 -> in_range 48 va ->
  forall n addr w, walk_len addr end_ = n -> page_aligned addr -> 0 <= addr ->
  rewritten upd_f (walk_addrs addr end_) va w =
    if decide (addr <= va < end_) then upd_f (va - va mod MMU_PAGE_SIZE) w else w.
Proof.
  intros He Hb Hva. induction n as [|n IH]; intros addr w Hn Ha H0.
  - unfold walk_addrs. rewrite Hn. cbn. rewrite decide_False; [done|].
    intros ?. rewrite walk_len_S in Hn by lia. done.
  - destruct (decide (addr < end_)) as [Hlt|Hge]; [|rewrite walk_len_0 in Hn by lia; done].
    rewrite walk_len_S in Hn by done. injection Hn as Hn.
    pose proof (page_gap _ _ Ha He Hlt) as Hgap.
    rewrite walk_addrs_cons by done. change (addr :: ?l) with ([addr] ++ l).
    rewrite rewritten_app, IH; [|done|apply page_aligned_add; [done|apply (page_aligned_mul 1)]|
      unfold MMU_PAGE_SIZE; lia].
    cbn [rewritten foldl]. unfold rewritten. cbn [foldl].
    assert (vpage va = vpage addr <-> addr <= va < addr + MMU_PAGE_SIZE) as Hiff.
    { rewrite vpage_eq; [|done|unfold in_range, MMU_PAGE_SIZE in *; lia].
      unfold page_aligned, in_range, MMU_PAGE_SIZE in *. zdm. }
    destruct (decide (vpage va = vpage addr)) as [E|E]; rewrite Hiff in E.
    + rewrite decide_False, (decide_True (P := addr <= va < end_)) by (unfold MMU_PAGE_SIZE in *; lia).
      f_equal. unfold page_aligned, in_range, MMU_PAGE_SIZE in *. zdm.
    + apply decide_ext. unfold MMU_PAGE_SIZE in *. lia.
Qed.

(** ** How many tables a range needs *)

Definition span (k addr end_ : Z) : nat := Z.to_nat (end_ / 2 ^ k - addr / 2 ^ k + 1).
Definition tables_bound (addr end_ : Z) : nat :=
  span 21 addr end_ + span 30 addr end_ + span 39 addr end_.

Lemma index_block l k va : 0 <= va -> 0 <= k <= 9 * Z.of_nat l + 12 ->
  index l (va / 2 ^ k * 2 ^ k) = index l va.
Proof.
  intros H0 Hk. unfold index. f_equal. rewrite <- Z.shiftl_mul_pow2, <- Z.shiftr_div_pow2 by lia.
  apply Z.bits_inj'. intros i Hi. rewrite !Z.shiftr_spec, Z.shiftl_spec, Z.shiftr_spec by lia.
  f_equal. lia.
Qed.

Lemma path_block l va : (l < 3)%nat -> 0 <= va ->
  let k := 9 * Z.of_nat l + 21 in path_at l (va / 2 ^ k * 2 ^ k) = path_at l va.
Proof.
  intros Hl H0 k. destruct l as [|[|[|l]]]; [..|lia]; subst k; cbn [path_at];
    by rewrite !index_block by lia.
Qed.

Definition level_set (l : nat) (k addr end_ : Z) : gset (list Z) :=
  list_to_set ((fun i => path_at l ((addr / 2 ^ k + Z.of_nat i) * 2 ^ k)) <$> seq 0 (span k addr end_)).

Lemma level_set_size l k addr end_ : (size (level_set l k addr end_) <= span k addr end_)%nat.
Proof.
  unfold level_set. etrans; [apply size_list_to_set_le|]. rewrite length_fmap, length_seq. done.
Qed.

Lemma level_set_in l addr end_ a : (l < 3)%nat -> 0 <= addr -> addr <= a -> a <= end_ ->
  path_at l a ∈ level_set l (9 * Z.of_nat l + 21) addr end_.
Proof.
  intros Hl H0 H1 H2. set (k := 9 * Z.of_nat l + 21). apply elem_of_list_to_set, list_elem_of_fmap.
  assert (addr / 2 ^ k <= a / 2 ^ k <= end_ / 2 ^ k) by (split; apply Z.div_le_mono; lia).
  exists (Z.to_nat (a / 2 ^ k - addr / 2 ^ k)). split.
  - rewrite Z2Nat.id by lia. replace (addr / 2 ^ k + _) with (a / 2 ^ k) by lia.
    symmetry. apply path_block; lia.
  - apply elem_of_seq. unfold span. lia.
Qed.

Lemma walk_addrs_bounds addr end_ a : a ∈ walk_addrs addr end_ -> addr <= a < end_.
Proof.
  unfold walk_addrs. intros (i & -> & Hi)%list_elem_of_fmap. apply elem_of_seq in Hi.
  unfold walk_len, MMU_PAGE_SIZE in *. zdm.
Qed.

Lemma tables_bound_enough (addr end_ : Z) (P : tables) (fs : list Z) : 0 <= addr ->
  (tables_bound addr end_ <= length fs)%nat -> enough (prefixes_of (walk_addrs addr end_)) P fs.
Proof.
  intros H0 Hb. unfold enough. etrans; [|exact Hb].
  set (U := level_set 0 21 addr end_ ∪ level_set 1 30 addr end_ ∪ level_set 2 39 addr end_).
  assert (prefixes_of (walk_addrs addr end_) ∖ dom P ⊆ U) as Hsub.
  { intros p [Hp _]%elem_of_difference. unfold prefixes_of in Hp.
    apply elem_of_union_list in Hp as (Y & HY & Hp).
    apply list_elem_of_fmap in HY as (a & -> & Ha). apply walk_addrs_bounds in Ha.
    unfold prefixes in Hp. unfold U. rewrite !elem_of_union. rewrite !elem_of_union, !elem_of_singleton in Hp.
    destruct Hp as [[->| ->]| ->];
      [right|left; right|left; left]; [apply (level_set_in 2)|apply (level_set_in 1)|apply (level_set_in 0)]; lia. }
  apply subseteq_size in Hsub. etrans; [exact Hsub|]. unfold U, tables_bound.
  rewrite !size_union_alt.
  pose proof (level_set_size 0 21 addr end_). pose proof (level_set_size 1 30 addr end_).
  pose proof (level_set_size 2 39 addr end_).
  pose proof (size_difference_le (level_set 1 30 addr end_) (level_set 0 21 addr end_)).
  pose proof (size_difference_le (level_set 2 39 addr end_) (level_set 0 21 addr end_ ∪ level_set 1 30 addr end_)).
  lia.
Qed.

(** ** Translation *)

Definition phys (m : gmap Z Z) (P : tables) (va : Z) : Z :=
  match P !! path_at 0 va with
  | Some f => u64 (u64 (Z.shiftl (e_addr (rd m (entry_at f (index 0 va)))) 12) + Z.land va 0xFFF)
  | None => 0
  end.

Lemma virt_to_phys_ret s root P va : pt_rep (mem s) root P ->
  page_table_virt_to_phys_addr root va s = Ret (phys (mem s) P va) s.
Proof.
  intros Hrep. unfold page_table_virt_to_phys_addr, page_table_get_entry.
  erewrite bind_ret; [|eapply (get_entry_lookup 3); [lia|done|apply (pr_root _ _ _ Hrep)]].
  unfold phys. destruct (P !! path_at 0 va) as [f|] eqn:Hf; cbn [fmap option_fmap option_map]; [|done].
  by rewrite bind_ld by (apply entry_word_ok; [by eapply pr_frame|apply index_range]).
Qed.

Lemma page_offset va : Z.land va 0xFFF = va mod MMU_PAGE_SIZE.
Proof. change 0xFFF with (Z.ones 12). by rewrite Z.land_ones. Qed.

Lemma phys_link m P va w : is_Some (P !! path_at 0 va) -> in_range 48 va -> MMU_PAGE_SIZE <= va ->
  pte m P va = link (va - va mod MMU_PAGE_SIZE) w -> phys m P va = va.
Proof.
  intros [f Hf] Hva Hlo Hpte. unfold phys, pte in *. rewrite Hf in *.
  rewrite Hpte, link_addr, page_offset.
  assert (frame_ok (va - va mod MMU_PAGE_SIZE)) as Hok.
  { unfold in_range in Hva. split; unfold page_aligned, MMU_PAGE_SIZE in *; zdm. }
  rewrite addr_roundtrip, (u64_frame (va - va mod MMU_PAGE_SIZE)) by done.
  rewrite wrap_small; unfold in_range, MMU_PAGE_SIZE in *; zdm.
Qed.

(** ** A new root *)

Lemma fresh_root s root fs : pool s (root :: fs) ->
  exists s0 s1, MMU_pf_alloc s = Ret root s0 /\ memset_page root s0 = Ret tt s1 /\
    pt_inv s1 root {[ [] := root ]} fs /\ r_end <$> regions s1 = r_end <$> regions s /\
    (forall va, pte (mem s1) {[ [] := root ]} va = 0) /\
    (brk s1 = brk s /\ cr2 s1 = cr2 s /\ cr3 s1 = cr3 s).
Proof.
  intros Hp. pose proof (pool_frame s (root :: fs) root Hp ltac:(left)) as Hok.
  destruct (alloc_pop _ _ _ Hp) as (s1 & Hs1 & Hp1 & Hm1 & Hr1).
  unfold memset_page. rewrite frame_word_ok by done.
  do 2 eexists. split; [exact Hs1|]. split; [done|].
  pose proof (pl_nodup _ _ Hp) as Hnd. apply NoDup_cons in Hnd as [Hni _].
  assert (Hpath : forall p f, ({[ [] := root ]} : tables) !! p = Some f -> p = [] /\ f = root).
  { intros p f [<- <-]%lookup_singleton_Some. done. }
  split; [|split; [by apply alloc_ends in Hs1|split; [|done]]].
  - split.
    + eapply pool_agree; [exact Hp1|done..|]. intros a Ha. cbn. apply rd_zero_page_out.
      assert (frame_ok a) as Hao by (by eapply pool_frame).
      destruct (decide (a < root \/ root + MMU_PAGE_SIZE <= a)); [done|]. exfalso. apply Hni.
      replace root with a; [done|].
      apply (frames_disjoint a root a); [done|done| |lia]. unfold MMU_PAGE_SIZE. lia.
    + split.
      * apply lookup_singleton_eq.
      * by intros p f [-> ->]%Hpath.
      * by intros p q f [-> ->]%Hpath [-> _]%Hpath.
      * intros p i g [E _]%Hpath. by destruct p.
      * intros p f i [-> ->]%Hpath _ Hi. unfold link_ok. rewrite lookup_singleton_ne by done.
        cbn [mem set_mem]. unfold entry_at. by rewrite rd_zero_page_in.
    + by intros p f [-> ->]%Hpath.
  - intros va. unfold pte. by rewrite lookup_singleton_ne.
Qed.

(** The run of [init_page_table] and the last-level entries it leaves. *)
Lemma init_page_table_runs s root fs r fuel :
  pool s (root :: fs) -> last (regions s) = Some r -> r_end r <= 2 ^ 48 ->
  (tables_bound MMU_PAGE_SIZE (r_end r) <= length fs)%nat ->
  (walk_len MMU_PAGE_SIZE (r_end r) <= fuel)%nat ->
  exists s' P fs', init_page_table fuel s = Ret root s' /\ cr3 s' = root /\ brk s' = brk s /\
    pt_inv s' root P fs' /\
    forall va, in_range 48 va -> pte (mem s') P va =
      if decide (MMU_PAGE_SIZE <= va < r_end r) then link (va - va mod MMU_PAGE_SIZE) 0 else 0.
Proof.
  intros Hpool Hlast Hend Hb Hfuel.
  destruct (fresh_root s root fs Hpool) as (s0 & s1 & Hs0 & Hs1 & Hinv1 & Hends & Hpte1 & Hbrk1 & _).
  pose proof (pl_regions _ _ Hpool) as Hrs. rewrite Forall_forall in Hrs.
  pose proof (Hrs r ltac:(by apply last_Some_elem_of)) as [_ Hre _ _ _].
  assert (Hme : last_region_end s1 = Ret (r_end r) s1).
  { unfold last_region_end. mstep. apply (f_equal last) in Hends.
    rewrite !fmap_last, Hlast in Hends. destruct (last (regions s1)); cbn in Hends; [|done].
    by injection Hends as ->. }
  pose proof (walk_runs direct_map_callback link (prefixes_of (walk_addrs MMU_PAGE_SIZE (r_end r)))
    root (r_end r) direct_map_rewrites Hend fuel
    s1 _ fs MMU_PAGE_SIZE Hinv1 ltac:(done) ltac:(done) Hfuel) as Hwalk.
  unfold runs in Hwalk. destruct (page_table_walk _ _ _ _ _ s1) as [[] s2|msg args s2| |] eqn:Hw;
    [|by destruct Hwalk as [_ []]; apply tables_bound_enough|done|done].
  destruct Hwalk as (P2 & fs2 & Hinv2 & Hgr & Hsome & Hpte2).
  exists (set_cr3 root s2), P2, fs2. split.
  { unfold init_page_table. rewrite (bind_ret _ _ _ _ _ Hs0), (bind_ret _ _ _ _ _ Hs1),
      (bind_ret _ _ _ _ _ Hme), (bind_ret _ _ _ _ _ Hw).
    by rewrite (bind_ret _ _ _ _ _ (virt_to_phys_ret _ _ _ _ (pi_rep _ _ _ _ Hinv2))). }
  split; [done|]. split; [cbn; by destruct (gr_regs _ _ _ _ _ _ _ Hgr) as [-> _]|].
  split; [destruct Hinv2 as [? [] ?]; by split; [eapply pool_agree|split|]|].
  intros va Hva. cbn [mem set_cr3]. rewrite Hpte2, Hpte1. by eapply rewritten_walk.
Qed.

(** ** Properties *)

(** C30: [page_table_get_entry] with [allocate]: as long as the pool can provide the
    tables missing on the path, it returns the entry of the page, keeps the tables
    a well-formed tree disjoint from the free frames, changes no last-level entry
    and no memory outside the tables, and a later look-up without [allocate] finds
    the same entry and changes nothing; otherwise it halts for lack of memory. *)
Theorem get_entry_allocates s root P fs va :
  pt_inv s root P fs ->
  runs (page_table_get_entry root va true) s
    (fun oe s' => exists e P' fs', oe = Some e /\ pt_inv s' root P' fs' /\
       P ⊆ P' /\ fs' `suffix_of` fs /\
       page_table_get_entry root va false s' = Ret (Some e) s' /\
       (forall va', pte (mem s') P' va' = pte (mem s) P va') /\
       forall a, ~ table_word P' a -> rd (mem s') a = rd (mem s) a)
    (out_of_frames (prefixes va) P fs).
Proof.
  intros Hinv. eapply runs_conseq; [by apply (page_table_get_entry_runs (prefixes va))| |done].
  intros oe s' (P' & fs' & f & -> & Hf & Hinv' & Hgr & Hpte).
  exists (entry_at f (index 0 va)), P', fs'. split; [done|]. split; [done|].
  split; [apply Hgr|]. split; [apply Hgr|]. split; [|split; [done|apply Hgr]].
  unfold page_table_get_entry.
  rewrite (get_entry_lookup 3 ltac:(lia) s' root P'); [by rewrite Hf|apply Hinv'|].
  apply (pr_root _ _ _ (pi_rep _ _ _ _ Hinv')).
Qed.

(** Two addresses get the same entry exactly when they lie in the same 4 KiB
    page: no two pages share a last-level entry. *)
Theorem get_entry_injective s root P fs a b ea eb :
  pt_inv s root P fs -> in_range 48 a -> in_range 48 b ->
  page_table_get_entry root a false s = Ret (Some ea) s ->
  page_table_get_entry root b false s = Ret (Some eb) s ->
  ea = eb <-> a / MMU_PAGE_SIZE = b / MMU_PAGE_SIZE.
Proof.
  intros [_ Hrep _] Ha Hb. unfold page_table_get_entry.
  rewrite !(get_entry_lookup 3 ltac:(lia) s root P) by (done || apply (pr_root _ _ _ Hrep)).
  intros [= Ea] [= Eb]. apply fmap_Some in Ea as (f & Hf & ->). apply fmap_Some in Eb as (g & Hg & ->).
  rewrite <- vpage_eq by done. unfold vpage. split.
  - intros [-> E]%entry_at_inj; [|by eapply pr_frame..|apply index_range|apply index_range].
    rewrite E. f_equal. by eapply pr_inj.
  - intros [E1 E2]%app_single_inj. change (P !! path_at 0 a = Some f) in Hf.
    change (P !! path_at 0 b = Some g) in Hg. rewrite E1 in Hf. rewrite E2. congruence.
Qed.

(** C10: [init_page_table] builds the identity map: with enough frames for the
    tables of the range (the first is the root) it returns the root, loads it in
    cr3, and every address from the first page up to the end of the last region is
    present, writable and translates to itself, while every other address below
    2^48 has no mapping. *)
Theorem init_page_table_identity s root fs r fuel :
  pool s (root :: fs) -> last (regions s) = Some r -> r_end r <= 2 ^ 48 ->
  (tables_bound MMU_PAGE_SIZE (r_end r) <= length fs)%nat ->
  (walk_len MMU_PAGE_SIZE (r_end r) <= fuel)%nat ->
  exists s' P fs', init_page_table fuel s = Ret root s' /\ cr3 s' = root /\
    pt_inv s' root P fs' /\
    (forall va, MMU_PAGE_SIZE <= va < r_end r ->
       e_present (pte (mem s') P va) = true /\ e_read_write (pte (mem s') P va) = true /\
       page_table_virt_to_phys_addr root va s' = Ret va s') /\
    (forall va, in_range 48 va -> ~ MMU_PAGE_SIZE <= va < r_end r -> pte (mem s') P va = 0).
Proof.
  intros Hpool Hlast Hend Hb Hfuel.
  destruct (init_page_table_runs s root fs r fuel Hpool Hlast Hend Hb Hfuel)
    as (s' & P & fs' & Hrun & Hc & _ & Hinv & Hval).
  exists s', P, fs'. split; [done|]. split; [done|]. split; [done|]. split.
  - intros va Hr. assert (in_range 48 va) as Hva by (unfold in_range, MMU_PAGE_SIZE in *; lia).
    pose proof (Hval va Hva) as E. rewrite decide_True in E by done.
    rewrite E. split; [apply link_present|]. split; [apply link_read_write|].
    rewrite (virt_to_phys_ret s' root P) by apply Hinv.
    f_equal. eapply phys_link; [|done|apply Hr|exact E].
    destruct (P !! path_at 0 va) eqn:Hn; [done|]. unfold pte in E. rewrite Hn in E.
    exfalso. pose proof (link_present (va - va mod MMU_PAGE_SIZE) 0) as Hpr.
    rewrite <- E in Hpr. discriminate Hpr.
  - intros va Hva Hout. rewrite (Hval va Hva). by rewrite decide_False.
Qed.

(** ** Witnesses *)

Definition demo_mm : mm := boot_mm [mkRegion 4096 65536 4096].
Definition demo_frames : list Z := Eval vm_compute in region_frames (mkRegion 4096 65536 4096).

Lemma demo_mm_pool : pool demo_mm demo_frames.
Proof.
  split.
  - by exists [].
  - repeat constructor; vm_compute; congruence.
  - apply (bool_decide_unpack _). vm_compute. exact I.
Qed.

Lemma demo_root : exists s, pt_inv s 4096 {[ [] := 4096 ]} (tail demo_frames).
Proof.
  destruct (fresh_root demo_mm 4096 (tail demo_frames)) as (_ & s1 & _ & _ & H & _);
    [apply demo_mm_pool|by exists s1].
Qed.

Lemma demo_enough va : enough (prefixes va) {[ [] := 4096 ]} (tail demo_frames).
Proof.
  unfold enough. etrans; [apply size_difference_le|]. unfold prefixes.
  rewrite !size_union_alt. rewrite size_singleton.
  pose proof (size_difference_le ({[path_at 1 va]} : gset (list Z)) {[path_at 2 va]}) as H1.
  pose proof (size_difference_le ({[path_at 0 va]} : gset (list Z)) ({[path_at 2 va]} ∪ {[path_at 1 va]})) as H2.
  rewrite size_singleton in H1, H2. cbn [tail demo_frames length]. lia.
Qed.

Lemma get_entry_allocates_witness :
  exists s, pt_inv s 4096 {[ [] := 4096 ]} (tail demo_frames) /\
    enough (prefixes 0x8000001000) {[ [] := 4096 ]} (tail demo_frames) /\
    runs (page_table_get_entry 4096 0x8000001000 true) s
      (fun oe s' => exists e P' fs', oe = Some e /\ pt_inv s' 4096 P' fs' /\
         {[ [] := 4096 ]} ⊆ P' /\ fs' `suffix_of` tail demo_frames /\
         page_table_get_entry 4096 0x8000001000 false s' = Ret (Some e) s' /\
         (forall va', pte (mem s') P' va' = pte (mem s) {[ [] := 4096 ]} va') /\
         forall a, ~ table_word P' a -> rd (mem s') a = rd (mem s) a)
      (out_of_frames (prefixes 0x8000001000) {[ [] := 4096 ]} (tail demo_frames)).
Proof.
  destruct demo_root as [s Hs]. exists s. split; [exact Hs|]. split; [apply demo_enough|].
  apply get_entry_allocates. exact Hs.
Defined.

Lemma get_entry_injective_witness :
  exists s ea eb, page_table_get_entry 4096 0x5000 false s = Ret (Some ea) s /\
    page_table_get_entry 4096 0x6008 false s = Ret (Some eb) s /\
    (ea = eb <-> 0x5000 / MMU_PAGE_SIZE = 0x6008 / MMU_PAGE_SIZE).
Proof.
  destruct demo_root as [s Hs].
  pose proof (page_table_get_entry_runs (prefixes 0x5000) s 4096 _ _ 0x5000 Hs ltac:(done)) as Hrun.
  unfold runs in Hrun. destruct (page_table_get_entry 4096 0x5000 true s) as [oe s1| | |];
    [|exfalso; destruct Hrun as [_ []]; apply demo_enough|destruct Hrun|destruct Hrun].
  destruct Hrun as (P & fs & f & _ & Hf & Hinv & _).
  pose proof (pi_rep _ _ _ _ Hinv) as Hrep.
  assert (L : forall va, P !! path_at 0 va = Some f ->
    page_table_get_entry 4096 va false s1 = Ret (Some (entry_at f (index 0 va))) s1).
  { intros va Hva. unfold page_table_get_entry.
    rewrite (get_entry_lookup 3 ltac:(lia) s1 4096 P) by (exact Hrep || apply (pr_root _ _ _ Hrep)).
    by rewrite Hva. }
  exists s1, (entry_at f (index 0 0x5000)), (entry_at f (index 0 0x6008)).
  assert (L1 := L 0x5000 Hf). assert (L2 := L 0x6008 Hf).
  split; [exact L1|]. split; [exact L2|].
  apply (get_entry_injective s1 4096 P fs 0x5000 0x6008);
    [exact Hinv|unfold in_range; eval_fact|unfold in_range; eval_fact|exact L1|exact L2].
Defined.

Lemma init_page_table_identity_witness :
  exists s' P fs', init_page_table 16 demo_mm = Ret 4096 s' /\ cr3 s' = 4096 /\
    pt_inv s' 4096 P fs' /\
    (forall va, MMU_PAGE_SIZE <= va < 65536 ->
       e_present (pte (mem s') P va) = true /\ e_read_write (pte (mem s') P va) = true /\
       page_table_virt_to_phys_addr 4096 va s' = Ret va s') /\
    (forall va, in_range 48 va -> ~ MMU_PAGE_SIZE <= va < 65536 -> pte (mem s') P va = 0).
Proof.
  apply (init_page_table_identity demo_mm 4096 (tail demo_frames) (mkRegion 4096 65536 4096) 16).
  - exact demo_mm_pool.
  - reflexivity.
  - eval_fact.
  - apply Nat.leb_le. vm_compute. reflexivity.
  - apply Nat.leb_le. vm_compute. reflexivity.
Defined.

(** The model runs: after initialisation 0xABCD maps to itself. *)
Example demo_translation :
  match init_page_table 16 demo_mm with
  | Ret root s => match page_table_virt_to_phys_addr root 0xABCD s with
                  | Ret pa _ => pa
                  | _ => 0
                  end
  | _ => 0
  end = 0xABCD.
Proof. vm_compute. reflexivity. Qed.
