(* ===== verification/VirtPages.v ===== *)
(** * VirtPages: the kernel heap's virtual pages and demand paging
    (the virtual half of src/src/page_allocator.c) *)

From S2P Require Import Prelude Multiboot Frames PageTable.

(** ** Operations *)

(** [brk] starts at ADDR_SPACE_KERNEL_HEAP_BASE. *)
Definition KERNEL_HEAP_BASE : Z := Z.shiftl 1 39.

Definition sbrk (increment : Z) : M mm Z :=
  last_brk ← gets brk;
  modify (set_brk (u64 (last_brk + increment))) ;;
  mret last_brk.

Definition INVALID_NO_TABLE : string :=
  "Invalid page access. Virtual addr: %lx. Out of range of page table".
Definition INVALID_NOT_AVAILABLE : string :=
  "Invalid page access. Virtual addr: %lx. Entry not marked as available".

Definition page_fault_handler : M mm unit :=
  addr ← gets cr2;
  root ← gets cr3;
  entry ← page_table_get_entry root addr false;
  match entry with
  | None => panic INVALID_NO_TABLE [addr]
  | Some e =>
      w ← ld e;
      if e_available1 w =? 0 then panic INVALID_NOT_AVAILABLE [addr]
      else
        pf ← MMU_pf_alloc;
        upd e (set_addr (Z.shiftr pf 12)) ;;
        upd e (set_read_write true) ;;
        upd e (set_present true)
  end.

Definition mark_available_callback (virt_addr entry : Z) : M mm unit :=
  upd entry (set_available1 1).

Definition MMU_alloc_page : M mm Z :=
  virt_addr ← sbrk MMU_PAGE_SIZE;
  root ← gets cr3;
  pt_entry ← page_table_get_entry root virt_addr true;
  with_entry pt_entry (mark_available_callback virt_addr) ;;
  mret virt_addr.

(** [MMU_PAGE_SIZE * num] is an int product: overflow has no meaning in C. *)
Definition int_ok (x : Z) : bool := (- 2 ^ 31 <=? x) && (x <? 2 ^ 31).

Definition MMU_alloc_pages (fuel : nat) (num : Z) : M mm Z :=
  if negb (int_ok (MMU_PAGE_SIZE * num)) then fault
  else
    virt_addr ← sbrk (MMU_PAGE_SIZE * num);
    root ← gets cr3;
    page_table_walk fuel root virt_addr (u64 (virt_addr + MMU_PAGE_SIZE * num))
      mark_available_callback ;;
    mret virt_addr.

Definition MMU_free_page (virt_addr : Z) : M mm unit :=
  root ← gets cr3;
  pt_entry ← page_table_get_entry root virt_addr true;
  with_entry pt_entry (fun e =>
    w ← ld e;
    MMU_pf_free (u64 (Z.shiftl (e_addr w) 12)) ;;
    upd e (set_present false)).

(** [for (page = virt_addr; page < virt_addr + MMU_PAGE_SIZE * num; ...)]. *)
Fixpoint free_pages_from (fuel : nat) (page end_ : Z) : M mm unit :=
  if page <? end_ then
    match fuel with
    | O => no_fuel
    | S fuel => MMU_free_page page ;; free_pages_from fuel (u64 (page + MMU_PAGE_SIZE)) end_
    end
  else mret tt.

Definition MMU_free_pages (fuel : nat) (virt_addr num : Z) : M mm unit :=
  if negb (int_ok (MMU_PAGE_SIZE * num)) then fault
  else free_pages_from fuel virt_addr (u64 (virt_addr + MMU_PAGE_SIZE * num)).

(** ** The invariant of the heap

    A heap page is one whose entry has [available1] set; [D] sends the heap pages
    in memory to their frames. The identity-mapped pages have [available1] clear
    and alias every frame; they are not in [D]. *)

Abbreviation residents := (gmap (list Z) Z).

Record vm_inv (s : mm) (root : Z) (P : tables) (fs : list Z) (D : residents) : Prop := {
  vi_pt : pt_inv s root P fs;
  vi_cr3 : cr3 s = root;
  vi_resident : forall va g, D !! vpage va = Some g ->
    let w := pte (mem s) P va in
    e_available1 w <> 0 /\ e_present w = true /\ (Z.shiftl (e_addr w) 12) = g;
  vi_absent : forall va, e_available1 (pte (mem s) P va) <> 0 -> D !! vpage va = None ->
    e_present (pte (mem s) P va) = false;
  vi_frame : forall p g, D !! p = Some g -> frame_ok g /\ (g ∉ fs) /\
    forall q f, P !! q = Some f -> f <> g;
  vi_inj : forall p q g, D !! p = Some g -> D !! q = Some g -> p = q;
  vi_brk : page_aligned (brk s) /\ KERNEL_HEAP_BASE <= brk s;
  vi_fresh : forall va, brk s <= va < 2 ^ 48 -> pte (mem s) P va = 0;
  vi_vpage : forall p g, D !! p = Some g -> exists va, p = vpage va /\ KERNEL_HEAP_BASE <= va < brk s }.

(** ** Entry arithmetic *)

Lemma heap_base_eq : KERNEL_HEAP_BASE = 549755813888.
Proof. reflexivity. Qed.

Lemma available_set v w : e_available1 (set_available1 v w) = wrap 3 v.
Proof. unfold e_available1, set_available1. by rewrite get_set_bits_same by lia. Qed.

Lemma present_set_available v w : e_present (set_available1 v w) = e_present w.
Proof. unfold e_present, set_available1. by rewrite get_flag_set_bits by lia. Qed.

Lemma addr_set_available v w : e_addr (set_available1 v w) = e_addr w.
Proof. unfold e_addr, set_available1. by rewrite get_set_bits_other by lia. Qed.

Lemma mark_available_rewrites : rewrites_entry mark_available_callback (fun _ w => set_available1 1 w).
Proof.
  intros addr e s He. unfold mark_available_callback. rewrite upd_ret by done.
  eexists. split; [done|]. intros a. rewrite rd_insert. apply decide_ext. naive_solver.
Qed.

(** The entry the fault handler leaves. *)
Definition mapped (g w : Z) : Z :=
  set_present true (set_read_write true (set_addr (Z.shiftr g 12) w)).

Lemma mapped_present g w : e_present (mapped g w) = true.
Proof. unfold e_present, mapped, set_present. by rewrite get_flag_set_same by lia. Qed.

Lemma mapped_read_write g w : e_read_write (mapped g w) = true.
Proof.
  unfold e_read_write, mapped, set_present, set_read_write.
  by rewrite get_flag_set_other, get_flag_set_same by lia.
Qed.

Lemma mapped_addr g w : e_addr (mapped g w) = wrap 40 (Z.shiftr g 12).
Proof.
  unfold e_addr, mapped, set_present, set_read_write, set_addr.
  by rewrite !get_bits_set_flag, get_set_bits_same by lia.
Qed.

Lemma mapped_available g w : e_available1 (mapped g w) = e_available1 w.
Proof.
  unfold e_available1, mapped, set_present, set_read_write, set_addr.
  by rewrite !get_bits_set_flag, get_set_bits_other by lia.
Qed.

Lemma unmapped_available w : e_available1 (set_present false w) = e_available1 w.
Proof. unfold e_available1, set_present. by rewrite get_bits_set_flag by lia. Qed.

Lemma unmapped_present w : e_present (set_present false w) = false.
Proof. unfold e_present, set_present. by rewrite get_flag_set_same by lia. Qed.

(** ** Steps of the operations on the invariant *)

Lemma pte_path m P va : pte m P va <> 0 -> exists f, P !! path_at 0 va = Some f.
Proof. unfold pte. destruct (P !! path_at 0 va); [by eexists|done]. Qed.

Lemma available_nonzero w : e_available1 w <> 0 -> w <> 0.
Proof. by intros H ->. Qed.

Lemma pt_inv_alloc s root P g fs : pt_inv s root P (g :: fs) ->
  exists s', MMU_pf_alloc s = Ret g s' /\ pt_inv s' root P fs /\ mem s' = mem s /\
    brk s' = brk s /\ cr2 s' = cr2 s /\ cr3 s' = cr3 s.
Proof.
  intros [Hpool Hrep Hsep]. destruct (alloc_pop _ _ _ Hpool) as (s' & Hs & Hp & Hm & Hr).
  exists s'. split; [done|]. split; [|done]. split; [done|by rewrite Hm|].
  intros p f Hp' Hf. by eapply Hsep; [|right].
Qed.

Lemma map_upd pf e s : word_ok e = true ->
  exists m, (upd e (set_addr (Z.shiftr pf 12)) ;; upd e (set_read_write true) ;;
     upd e (set_present true)) s = Ret tt (set_mem m s) /\
    forall a, rd m a = rd (<[e := mapped pf (rd (mem s) e)]> (mem s)) a.
Proof.
  intros He. rewrite !bind_upd, upd_ret by done. eexists. split; [done|].
  cbn [mem set_mem]. intros a. rewrite !rd_insert_eq, !rd_insert. by repeat case_decide.
Qed.

(** Storing [w] in the entry of [va], up to the reads of the memory. *)
Lemma pt_inv_rewrite s m root P fs va f w :
  pt_inv s root P fs -> P !! path_at 0 va = Some f ->
  (forall a, rd m a = rd (<[entry_at f (index 0 va) := w]> (mem s)) a) ->
  pt_inv (set_mem m s) root P fs /\
  forall va', pte m P va' = if decide (vpage va' = vpage va) then w else pte (mem s) P va'.
Proof.
  intros Hinv Hf Hm. split.
  - replace (set_mem m s) with (set_mem m (set_mem (<[entry_at f (index 0 va) := w]> (mem s)) s)) by done.
    apply pt_inv_ext; [by apply pt_inv_store|done].
  - intros va'. rewrite (pte_ext _ _ _ _ Hm). eapply pte_store; [apply Hinv|done].
Qed.

Lemma heap_page_ne s root P fs D va g : vm_inv s root P fs D ->
  D !! vpage va = Some g -> pte (mem s) P va <> 0.
Proof.
  intros Hinv Hd. apply available_nonzero. by apply (vi_resident _ _ _ _ _ Hinv) in Hd as [? _].
Qed.

(** A page in memory translates into its frame. *)
Lemma resident_phys s root P fs D va g : vm_inv s root P fs D -> D !! vpage va = Some g ->
  page_table_virt_to_phys_addr root va s = Ret (g + va mod MMU_PAGE_SIZE) s.
Proof.
  intros Hinv Hd. rewrite (virt_to_phys_ret s root P _ (pi_rep _ _ _ _ (vi_pt _ _ _ _ _ Hinv))). f_equal.
  destruct (vi_resident _ _ _ _ _ Hinv va g Hd) as (Hav & _ & Hga).
  destruct (vi_frame _ _ _ _ _ Hinv _ _ Hd) as ([_ Hlo Hhi] & _ & _).
  destruct (pte_path _ _ _ (available_nonzero _ Hav)) as [f Hf].
  unfold phys, pte in *. rewrite Hf in *. rewrite Hga, page_offset.
  rewrite (wrap_small 64 g) by (unfold in_range, MMU_PAGE_SIZE in *; lia). apply wrap_small.
  unfold in_range, MMU_PAGE_SIZE in *. zdm.
Qed.

(** Page fault on a heap page that is not in memory. *)
Lemma fault_maps s root P g fs D va :
  vm_inv s root P (g :: fs) D -> cr2 s = va -> va < brk s -> KERNEL_HEAP_BASE <= va ->
  e_available1 (pte (mem s) P va) <> 0 -> D !! vpage va = None ->
  exists s', page_fault_handler s = Ret tt s' /\
    vm_inv s' root P fs (<[vpage va := g]> D) /\
    (forall va', pte (mem s') P va' =
       if decide (vpage va' = vpage va) then mapped g (pte (mem s) P va) else pte (mem s) P va') /\
    brk s' = brk s /\ forall a, ~ table_word P a -> rd (mem s') a = rd (mem s) a.
Proof.
  intros [Hpt Hcr3 Hres Habs Hfr Hinj Hbrk Hfresh Hvp] Hcr2 Hva Hlo Hav Hnone.
  destruct (pte_path _ _ _ (available_nonzero _ Hav)) as [f Hf].
  pose proof (pi_rep _ _ _ _ Hpt) as Hrep.
  assert (Hok : word_ok (entry_at f (index 0 va)) = true)
    by (apply entry_word_ok; [by eapply pr_frame|apply index_range]).
  assert (Hpte : rd (mem s) (entry_at f (index 0 va)) = pte (mem s) P va) by (unfold pte; by rewrite Hf).
  destruct (pt_inv_alloc _ _ _ _ _ Hpt) as (s1 & Hs1 & Hpt1 & Hm1 & Hb1 & Hc2 & Hc3).
  destruct (map_upd g (entry_at f (index 0 va)) s1 Hok) as (m & Hm & Hrd).
  rewrite Hm1 in Hrd. rewrite Hpte in Hrd.
  destruct (pt_inv_rewrite s1 m root P fs va f (mapped g (pte (mem s) P va)) Hpt1 Hf) as [Hpt2 Hval];
    [by rewrite Hm1|]. rewrite Hm1 in Hval.
  exists (set_mem m s1). split; [|split; [|split; [done|split; [done|]]]].
  3:{ intros a Ha. cbn [mem set_mem]. rewrite Hrd, rd_insert_ne; [done|]. intros <-. apply Ha.
      exists (path_at 0 va), f. split; [done|]. by apply entry_in_page, index_range. }
  { unfold page_fault_handler. mstep. rewrite Hcr2, Hcr3. unfold page_table_get_entry.
    erewrite bind_ret; [|by apply (get_entry_hit _ root P);
      [|lia|apply (pr_root _ _ _ Hrep)|]].
    cbv beta iota. rewrite bind_ld, Hpte by done. rewrite (proj2 (Z.eqb_neq _ _) Hav).
    by rewrite (bind_ret _ _ _ _ _ Hs1). }
  pose proof (pool_frame s (g :: fs) g (pi_pool _ _ _ _ Hpt) ltac:(left)) as Hg.
  pose proof (pl_nodup _ _ (pi_pool _ _ _ _ Hpt)) as Hnd. apply NoDup_cons in Hnd as [Hgfs _].
  split; cbn [mem set_mem brk cr3].
  - exact Hpt2.
  - by rewrite Hc3.
  - intros va' g'. rewrite Hval, lookup_insert. case_decide as E1; case_decide as E2; try congruence.
    + intros [= <-]. rewrite mapped_available, mapped_present, mapped_addr, addr_roundtrip by done. done.
    + apply Hres.
  - intros va'. rewrite Hval, lookup_insert. case_decide as E1; case_decide as E2; try congruence.
    apply Habs.
  - intros p g'. rewrite lookup_insert. case_decide.
    + intros [= <-]. split; [done|]. split; [done|]. intros q f' Hq ->.
      eapply (pi_sep _ _ _ _ Hpt); [exact Hq|by left].
    + intros (? & Hni & ?)%Hfr. split; [done|]. split; [|done]. intros ?. apply Hni. by right.
  - assert (Hng : forall p, D !! p = Some g -> False).
    { intros p (_ & Hni & _)%Hfr. apply Hni. by left. }
    intros p q g'. rewrite !lookup_insert.
    case_decide as E1; case_decide as E2; intros H1 H2; [congruence| | |by eapply Hinj];
      exfalso; simplify_eq; by eapply Hng.
  - by rewrite Hb1.
  - intros va' Hva'. rewrite Hb1 in Hva'. rewrite Hval, decide_False; [by apply Hfresh|].
    intros E. apply Hav. replace (pte (mem s) P va) with 0; [done|].
    rewrite <- (Hfresh va') by done. unfold pte, vpage in *. apply app_single_inj in E as [-> ->]. done.
  - rewrite Hb1. intros p g'. rewrite lookup_insert. case_decide as E; [|apply Hvp].
    intros _. exists va. done.
Qed.

(** Nor can a fault be served without a frame. *)
Lemma fault_empty s root P D va : vm_inv s root P [] D -> cr2 s = va ->
  e_available1 (pte (mem s) P va) <> 0 ->
  page_fault_handler s = Halted "ALLOCATOR OUT OF MEMORY!!!" [] s.
Proof.
  intros Hinv Hcr2 Hav. pose proof (vi_pt _ _ _ _ _ Hinv) as Hpt. pose proof (pi_rep _ _ _ _ Hpt) as Hrep.
  destruct (pte_path _ _ _ (available_nonzero _ Hav)) as [f Hf].
  unfold page_fault_handler. mstep. rewrite Hcr2, (vi_cr3 _ _ _ _ _ Hinv). unfold page_table_get_entry.
  erewrite bind_ret; [|by apply (get_entry_hit _ root P); [|lia|apply (pr_root _ _ _ Hrep)|]].
  cbv beta iota. rewrite bind_ld by (apply entry_word_ok; [by eapply pr_frame|apply index_range]).
  unfold pte in Hav. rewrite Hf in Hav. rewrite (proj2 (Z.eqb_neq _ _) Hav).
  by rewrite (bind_halted _ _ _ _ _ _ (alloc_empty s (pi_pool _ _ _ _ Hpt))).
Qed.

(** Growing the tables keeps the residents apart from them. *)
Lemma residents_grow (X : gset (list Z)) (s : mm) (P : tables) (fs : list Z) (s' : mm)
    (P' : tables) (fs' : list Z) (D : residents) :
  grows X s P fs s' P' fs' ->
  (forall p g, D !! p = Some g -> frame_ok g /\ (g ∉ fs) /\ forall q f, P !! q = Some f -> f <> g) ->
  forall p g, D !! p = Some g -> frame_ok g /\ (g ∉ fs') /\ forall q f, P' !! q = Some f -> f <> g.
Proof.
  intros Hgr Hfr p g (Hok & Hni & Hne)%Hfr. destruct (gr_suffix _ _ _ _ _ _ _ Hgr) as [k Hk].
  split; [done|]. split; [intros ?; apply Hni; subst; apply elem_of_app; by right|].
  intros q f [Hq|Hq]%(gr_new _ _ _ _ _ _ _ Hgr); [by eapply Hne|]. by intros ->.
Qed.

Lemma sbrk_ret inc s : sbrk inc s = Ret (brk s) (set_brk (u64 (brk s + inc)) s).
Proof. done. Qed.

Lemma index_wrap l va : (l <= 3)%nat -> index l (wrap 48 va) = index l va.
Proof.
  intros Hl. unfold index. change 0x1FF with (Z.ones 9).
  apply Z.bits_inj'. intros i Hi. rewrite !Z.land_spec, !Z.shiftr_spec, testbit_wrap by lia.
  rewrite !testbit_ones by lia. zcases; bool_norm; try done; lia.
Qed.

(** Only the low 48 bits of an address matter. *)
Lemma vpage_wrap va : vpage va = vpage (wrap 48 va).
Proof. unfold vpage. cbn [path_at]. by rewrite !index_wrap by lia. Qed.

Lemma pte_wrap m P va : pte m P va = pte m P (wrap 48 va).
Proof. unfold pte. cbn [path_at]. by rewrite !index_wrap by lia. Qed.

(** Marking the pages of [brk s, brk s') available keeps the invariant. *)
Lemma vm_inv_mark X s s0 s' root P P' fs fs' D :
  vm_inv s root P fs D ->
  pt_inv s' root P' fs' -> grows X s0 P fs s' P' fs' -> cr3 s' = cr3 s ->
  page_aligned (brk s') -> brk s <= brk s' -> brk s' <= 2 ^ 48 ->
  (forall va', pte (mem s') P' va' =
     if decide (brk s <= wrap 48 va' < brk s') then set_available1 1 0 else pte (mem s) P va') ->
  vm_inv s' root P' fs' D.
Proof.
  intros [Hpt Hcr3 Hres Habs Hfr Hinj [Hba Hbl] Hfresh Hvp] Hpt' Hgr Hc Hal Hle Hend Hval.
  split.
  - done.
  - congruence.
  - intros va' g Hd. rewrite Hval, decide_False; [by apply Hres|].
    intros ?. apply Hres in Hd as [Hav _]. rewrite pte_wrap, Hfresh in Hav; [done|lia].
  - intros va'. rewrite Hval. case_decide; [done|apply Habs].
  - by eapply residents_grow.
  - done.
  - split; [done|lia].
  - intros va' Hva'. rewrite Hval, decide_False; [apply Hfresh; lia|].
    pose proof heap_base_eq. rewrite wrap_small; unfold in_range; lia.
  - intros p g (va' & -> & ?)%Hvp. exists va'. split; [done|lia].
Qed.

(** One heap page handed out: only its [available1] changes. *)
Lemma alloc_page_runs s root P fs D :
  vm_inv s root P fs D -> brk s + MMU_PAGE_SIZE <= 2 ^ 48 ->
  runs MMU_alloc_page s
    (fun va s' => va = brk s /\ brk s' = brk s + MMU_PAGE_SIZE /\
       exists P' fs', vm_inv s' root P' fs' D /\ fs' `suffix_of` fs /\
       (forall va', pte (mem s') P' va' =
         if decide (vpage va' = vpage (brk s)) then set_available1 1 0 else pte (mem s) P va') /\
       forall a, ~ table_word P' a -> rd (mem s') a = rd (mem s) a)
    (out_of_frames (prefixes (brk s)) P fs).
Proof.
  intros [Hpt Hcr3 Hres Habs Hfr Hinj [Hba Hbl] Hfresh Hvp] Hend.
  assert (0 < MMU_PAGE_SIZE) as Hpos by done.
  assert (0 <= KERNEL_HEAP_BASE) as Hb0 by done.
  set (s0 := set_brk (u64 (brk s + MMU_PAGE_SIZE)) s).
  assert (pt_inv s0 root P fs) as Hpt0.
  { destruct Hpt as [? [] ?]. by split; [eapply pool_agree|split|]. }
  pose proof (visit_runs (prefixes (brk s)) mark_available_callback (fun _ w => set_available1 1 w)
    s0 root P fs (brk s) mark_available_rewrites Hpt0 ltac:(done)) as Hrun.
  unfold MMU_alloc_page. eapply runs_bind_ret; [apply sbrk_ret|]. fold s0.
  apply runs_bind_gets. change (cr3 s0) with (cr3 s). rewrite Hcr3. apply runs_assoc.
  eapply runs_bind; [exact Hrun|]. intros _ s' (P' & fs' & Hpt' & Hgr & _ & Hpte).
  apply runs_ret. destruct (gr_regs _ _ _ _ _ _ _ Hgr) as (Hb & _ & Hc).
  cbn [brk s0 set_brk] in Hb. rewrite wrap_small in Hb by (unfold in_range; lia).
  assert (Hval : forall va', pte (mem s') P' va' =
    if decide (vpage va' = vpage (brk s)) then set_available1 1 0 else pte (mem s) P va').
  { intros va'. rewrite Hpte. unfold rewritten. cbn [foldl]. case_decide as E; [|done].
    change (mem s0) with (mem s). f_equal.
    rewrite <- (Hfresh (brk s)) by lia. apply app_single_inj in E as [E1 E2].
    unfold pte. by rewrite E1, E2. }
  split; [done|]. split; [done|]. exists P', fs'.
  split; [|split; [apply Hgr|split; [done|apply (gr_mem _ _ _ _ _ _ _ Hgr)]]].
  eapply (vm_inv_mark (prefixes (brk s)) s s0); [by split|exact Hpt'|exact Hgr|exact Hc| | | |].
  - rewrite Hb. apply page_aligned_add; [done|apply (page_aligned_mul 1)].
  - lia.
  - lia.
  - intros va'. rewrite Hval. apply decide_ext. rewrite vpage_wrap, Hb.
    rewrite vpage_eq; [|by apply wrap_range|unfold in_range; lia].
    unfold page_aligned, MMU_PAGE_SIZE in *. zdm.
Qed.

(** Freeing a resident page returns its frame to the pool. *)
Lemma free_page_returns s root P fs D va g :
  vm_inv s root P fs D -> D !! vpage va = Some g ->
  exists s', MMU_free_page va s = Ret tt s' /\
    vm_inv s' root P (g :: fs) (delete (vpage va) D) /\
    (forall va', pte (mem s') P va' =
       if decide (vpage va' = vpage va) then set_present false (pte (mem s) P va)
       else pte (mem s) P va') /\ brk s' = brk s /\
    forall a, ~ table_word P a -> a <> g -> rd (mem s') a = rd (mem s) a.
Proof.
  intros [Hpt Hcr3 Hres Habs Hfr Hinj Hbrk Hfresh Hvp] Hd.
  destruct (Hres va g Hd) as (Hav & Hpr & Hga). destruct (Hfr _ _ Hd) as (Hgok & Hgfs & Hgt).
  destruct (pte_path _ _ _ (available_nonzero _ Hav)) as [f Hf].
  pose proof (pi_rep _ _ _ _ Hpt) as Hrep.
  assert (Hfok : frame_ok f) by (by eapply pr_frame).
  assert (Hok : word_ok (entry_at f (index 0 va)) = true) by (apply entry_word_ok; [done|apply index_range]).
  assert (Hpte : rd (mem s) (entry_at f (index 0 va)) = pte (mem s) P va) by (unfold pte; by rewrite Hf).
  destruct (free_push s g fs (pi_pool _ _ _ _ Hpt) Hgok Hgfs) as (s1 & Hs1 & Hp1 & Hm1 & Hb1 & _ & Hc1).
  assert (Hent : forall q h i, P !! q = Some h -> 0 <= i < 512 -> rd (mem s1) (entry_at h i) = rd (mem s) (entry_at h i)).
  { intros q h i Hq Hi. rewrite Hm1, rd_insert_ne; [done|]. intros E. eapply Hgt; [exact Hq|].
    assert (frame_ok h) by (by eapply pr_frame).
    apply (frames_disjoint h g g); [done|done| |unfold MMU_PAGE_SIZE; lia].
    rewrite E. by apply entry_in_page. }
  assert (Hpt1 : pt_inv s1 root P (g :: fs)).
  { split; [done| |].
    - destruct Hrep as [H1 H2 H3 H4 H5]. split; try done. intros p h i Hp Hl Hi. unfold link_ok.
      rewrite (Hent p) by done. by apply H5.
    - intros p h Hp [->|Hin]%elem_of_cons; [by eapply Hgt|by eapply (pi_sep _ _ _ _ Hpt)]. }
  assert (Hpte1 : forall va', pte (mem s1) P va' = pte (mem s) P va').
  { intros va'. unfold pte. destruct (P !! path_at 0 va') eqn:E; [|done]. by apply (Hent _ _ _ E), index_range. }
  set (m2 := <[entry_at f (index 0 va) := set_present false (pte (mem s) P va)]> (mem s1)).
  destruct (pt_inv_rewrite s1 m2
    root P (g :: fs) va f _ Hpt1 Hf ltac:(done)) as [Hpt2 Hval].
  exists (set_mem m2 s1).
  split; [|split; [|split; [intros va'; cbn [mem set_mem]; by rewrite Hval, Hpte1|split; [exact Hb1|]]]].
  3:{ intros a Ha Hag. cbn [mem set_mem]. unfold m2. rewrite rd_insert_ne, Hm1, rd_insert_ne; [done|done|].
      intros <-. apply Ha. exists (path_at 0 va), f. split; [done|]. by apply entry_in_page, index_range. }
  { unfold MMU_free_page. mstep. rewrite Hcr3. unfold page_table_get_entry.
    erewrite bind_ret; [|by apply (get_entry_hit _ root P); [|lia|apply (pr_root _ _ _ Hrep)|]].
    cbn [with_entry]. rewrite bind_ld, Hpte, Hga, u64_frame by done.
    rewrite (bind_ret _ _ _ _ _ Hs1), upd_ret by done.
    by rewrite (Hent _ _ _ Hf), Hpte by apply index_range. }
  split; cbn [mem set_mem brk cr3].
  - exact Hpt2.
  - by rewrite Hc1.
  - intros va' g'. rewrite lookup_delete, Hval, Hpte1. case_decide as E; [done|].
    intros Hd'. rewrite decide_False by congruence. by apply Hres.
  - intros va'. rewrite lookup_delete, Hval, Hpte1.
    destruct (decide (vpage va' = vpage va)) as [E|E]; [intros; apply unmapped_present|].
    rewrite decide_False by congruence. apply Habs.
  - intros p g'. rewrite lookup_delete. case_decide as E; [done|]. intros Hd'.
    destruct (Hfr _ _ Hd') as (? & Hni & ?). split; [done|]. split; [|done].
    intros [->|?]%elem_of_cons; [|done]. apply E. by eapply Hinj.
  - intros p q g'. rewrite !lookup_delete. case_decide; [done|]. case_decide; [done|]. apply Hinj.
  - by rewrite Hb1.
  - intros va' Hva'. rewrite Hb1 in Hva'. rewrite Hval, Hpte1, decide_False; [by apply Hfresh|].
    intros E. apply Hav. replace (pte (mem s) P va) with 0; [done|].
    rewrite <- (Hfresh va') by done. unfold pte. apply app_single_inj in E as [-> ->]. done.
  - rewrite Hb1. intros p g'. rewrite lookup_delete. case_decide; [done|]. apply Hvp.
Qed.

(** Marking a range through [page_table_walk]. *)
Lemma alloc_pages_runs s root P fs D n fuel :
  vm_inv s root P fs D -> 0 <= n -> int_ok (MMU_PAGE_SIZE * n) = true ->
  brk s + MMU_PAGE_SIZE * n <= 2 ^ 48 -> (Z.to_nat n <= fuel)%nat ->
  let end_ := brk s + MMU_PAGE_SIZE * n in
  runs (MMU_alloc_pages fuel n) s
    (fun va s' => va = brk s /\ brk s' = end_ /\
       exists P' fs', vm_inv s' root P' fs' D /\ fs' `suffix_of` fs /\
       (forall va', pte (mem s') P' va' =
         if decide (brk s <= wrap 48 va' < end_) then set_available1 1 0 else pte (mem s) P va') /\
       forall a, ~ table_word P' a -> rd (mem s') a = rd (mem s) a)
    (out_of_frames (prefixes_of (walk_addrs (brk s) end_)) P fs).
Proof.
  intros Hinv Hn Hint Hend Hfuel end_. pose proof heap_base_eq as Hkb.
  pose proof Hinv as [Hpt Hcr3 _ _ _ _ [Hba Hbl] Hfresh _].
  assert (Hea : page_aligned end_) by (apply page_aligned_add; [done|apply page_aligned_mul]).
  assert (brk s <= end_ <= 2 ^ 48) as Hle by (unfold end_, MMU_PAGE_SIZE in *; lia).
  assert (Hu : u64 end_ = end_) by (apply wrap_small; unfold in_range; lia).
  set (s0 := set_brk end_ s).
  assert (pt_inv s0 root P fs) as Hpt0.
  { destruct Hpt as [? [] ?]. by split; [eapply pool_agree|split|]. }
  unfold MMU_alloc_pages. rewrite Hint. cbn [negb].
  eapply runs_bind_ret; [apply sbrk_ret|]. fold end_. rewrite Hu. fold s0.
  apply runs_bind_gets. change (cr3 s0) with (cr3 s). rewrite Hcr3.
  eapply runs_bind.
  { apply (walk_runs mark_available_callback _ (prefixes_of (walk_addrs (brk s) end_)) root end_
      mark_available_rewrites); [lia|exact Hpt0|done|lia|].
    unfold walk_len, end_, MMU_PAGE_SIZE. zdm. }
  intros _ s' (P' & fs' & Hpt' & Hgr & _ & Hpte). apply runs_ret.
  destruct (gr_regs _ _ _ _ _ _ _ Hgr) as (Hb & _ & Hc). change (brk s0) with end_ in Hb.
  assert (Hval : forall va', pte (mem s') P' va' =
    if decide (brk s <= wrap 48 va' < end_) then set_available1 1 0 else pte (mem s) P va').
  { intros va'. rewrite pte_wrap, Hpte. change (mem s0) with (mem s).
    rewrite (rewritten_walk _ end_ (wrap 48 va')) with (n := walk_len (brk s) end_);
      [|done|lia|by apply wrap_range|done|done|lia].
    rewrite (pte_wrap (mem s) P va'). case_decide as E; [|done]. by rewrite Hfresh by lia. }
  split; [done|]. split; [done|]. exists P', fs'.
  split; [|split; [apply Hgr|split; [done|apply (gr_mem _ _ _ _ _ _ _ Hgr)]]].
  eapply vm_inv_mark; [exact Hinv|exact Hpt'|exact Hgr|exact Hc| | | |]; rewrite ?Hb; try done; lia.
Qed.

(** What a page fault at [cr2 s] must lead to. *)
Definition fault_outcome (s : mm) (root : Z) (P : tables) (fs : list Z) (D : residents)
    (out : outcome mm unit) : Prop :=
  match out with
  | Ret _ s' => exists g fs', fs = g :: fs' /\ e_available1 (pte (mem s) P (cr2 s)) <> 0 /\
      vm_inv s' root P fs' (<[vpage (cr2 s) := g]> D) /\
      e_read_write (pte (mem s') P (cr2 s)) = true /\
      page_table_virt_to_phys_addr root (cr2 s) s' = Ret (g + cr2 s mod MMU_PAGE_SIZE) s' /\
      forall va, vpage va <> vpage (cr2 s) -> pte (mem s') P va = pte (mem s) P va
  | Halted msg args s' =>
      (msg = INVALID_NO_TABLE /\ args = [cr2 s] /\ P !! path_at 0 (cr2 s) = None) \/
      (msg = INVALID_NOT_AVAILABLE /\ args = [cr2 s] /\ e_available1 (pte (mem s) P (cr2 s)) = 0) \/
      (msg = "ALLOCATOR OUT OF MEMORY!!!"%string /\ fs = [])
  | _ => False
  end.

(** ** Properties *)



(** [MMU_alloc_pages] on [n] pages returns the old break, moves it by exactly
    [n] pages, marks those pages available and no other, and keeps the invariant;
    it can only stop for lack of frames for the missing tables. *)
Theorem alloc_pages_correct s root P fs D n fuel :
  vm_inv s root P fs D -> 0 <= n -> int_ok (MMU_PAGE_SIZE * n) = true ->
  brk s + MMU_PAGE_SIZE * n <= 2 ^ 48 -> (Z.to_nat n <= fuel)%nat ->
  runs (MMU_alloc_pages fuel n) s
    (fun va s' => va = brk s /\ brk s' = brk s + MMU_PAGE_SIZE * n /\
       exists P' fs', vm_inv s' root P' fs' D /\ fs' `suffix_of` fs /\
       forall va', in_range 48 va' -> pte (mem s') P' va' =
         if decide (va <= va' < va + MMU_PAGE_SIZE * n) then set_available1 1 0 else pte (mem s) P va')
    (out_of_frames (prefixes_of (walk_addrs (brk s) (brk s + MMU_PAGE_SIZE * n))) P fs).
Proof.
  intros. eapply runs_conseq; [by apply alloc_pages_runs| |done].
  intros va s' (-> & Hb & P' & fs' & Hinv & Hsuf & Hval & _). split; [done|]. split; [done|].
  exists P', fs'. split; [done|]. split; [done|]. intros va' Hr. by rewrite Hval, wrap_small.
Qed.

(** C32: freeing a page that was allocated but never touched: its entry still has
    address 0, so [MMU_free_page] passes a null frame to [MMU_pf_free], whose store
    to it is a null dereference. *)
Theorem free_untouched_faults s root P fs D va :
  vm_inv s root P fs D -> pte (mem s) P va = set_available1 1 0 ->
  MMU_free_page va s = Fault.
Proof.
  intros Hinv Hp. pose proof (pi_rep _ _ _ _ (vi_pt _ _ _ _ _ Hinv)) as Hrep.
  destruct (pte_path (mem s) P va) as [f Hf]; [by rewrite Hp|].
  unfold MMU_free_page. mstep. rewrite (vi_cr3 _ _ _ _ _ Hinv). unfold page_table_get_entry.
  erewrite bind_ret; [|by apply (get_entry_hit _ root P); [|lia|apply (pr_root _ _ _ Hrep)|]].
  cbn [with_entry]. rewrite bind_ld by (apply entry_word_ok; [by eapply pr_frame|apply index_range]).
  replace (rd (mem s) (entry_at f (index 0 va))) with (set_available1 1 0); [done|].
  rewrite <- Hp. unfold pte. by rewrite Hf.
Qed.

(** ** Witnesses *)

Lemma demo_vm : exists s, vm_inv s 4096 {[ [] := 4096 ]} (tail demo_frames) ∅ /\ brk s = KERNEL_HEAP_BASE.
Proof.
  destruct (fresh_root demo_mm 4096 (tail demo_frames) demo_mm_pool)
    as (_ & s1 & _ & _ & Hpt & _ & Hpte & Hb & _).
  exists (set_cr3 4096 s1). split; [|exact Hb]. split; cbn [mem set_cr3 cr3 brk].
  - destruct Hpt as [? [] ?]. by split; [eapply pool_agree|split|].
  - done.
  - by intros.
  - intros va. rewrite Hpte. done.
  - by intros.
  - by intros.
  - rewrite Hb. split; reflexivity || (vm_compute; congruence).
  - intros. apply Hpte.
  - by intros.
Qed.

Lemma demo_heap_page : exists s P fs, vm_inv s 4096 P fs ∅ /\
  cr2 s = KERNEL_HEAP_BASE + 24 /\ brk s = KERNEL_HEAP_BASE + MMU_PAGE_SIZE /\
  pte (mem s) P (KERNEL_HEAP_BASE + 24) = set_available1 1 0.
Proof.
  destruct demo_vm as (s & Hs & Hb).
  pose proof (alloc_page_runs s 4096 _ _ ∅ Hs) as Hrun. ospecialize* Hrun.
  { rewrite Hb. eval_fact. }
  unfold runs in Hrun. destruct (MMU_alloc_page s) as [va s1| | |]; [|exfalso; destruct Hrun as [_ []]; apply demo_enough|done|done].
  destruct Hrun as (-> & Hb1 & P & fs & Hinv & _ & Hval & _).
  exists (set_cr2 (KERNEL_HEAP_BASE + 24) s1), P, fs. split; [|split; [done|]].
  - destruct Hinv as [[? [] ?] ]. split; try done. by split; [eapply pool_agree|split|].
  - cbn [brk set_cr2 mem]. rewrite Hb1, Hb, Hval, Hb. done.
Qed.



Lemma alloc_pages_correct_witness : exists s, brk s = KERNEL_HEAP_BASE /\
  runs (MMU_alloc_pages 3 3) s
    (fun va s' => va = brk s /\ brk s' = brk s + MMU_PAGE_SIZE * 3 /\
       exists P' fs', vm_inv s' 4096 P' fs' ∅ /\ fs' `suffix_of` tail demo_frames /\
       forall va', in_range 48 va' -> pte (mem s') P' va' =
         if decide (va <= va' < va + MMU_PAGE_SIZE * 3) then set_available1 1 0
         else pte (mem s) {[ [] := 4096 ]} va')
    (out_of_frames (prefixes_of (walk_addrs (brk s) (brk s + MMU_PAGE_SIZE * 3))) {[ [] := 4096 ]} (tail demo_frames)).
Proof.
  destruct demo_vm as (s & Hs & Hb). exists s. split; [exact Hb|].
  apply alloc_pages_correct; [exact Hs|lia|reflexivity|rewrite Hb; eval_fact|lia].
Defined.

Lemma free_untouched_faults_witness : exists s P fs,
  vm_inv s 4096 P fs ∅ /\ MMU_free_page (KERNEL_HEAP_BASE + 24) s = Fault.
Proof.
  destruct demo_heap_page as (s & P & fs & Hinv & _ & _ & Hp).
  exists s, P, fs. split; [exact Hinv|]. exact (free_untouched_faults s 4096 P fs ∅ _ Hinv Hp).
Defined.

(** The whole cycle on a concrete machine: boot tables, one heap page, a fault at
    offset 8 of it, the translation of that address, and the page freed. *)
Definition demo_cycle : M mm (Z * Z) :=
  _ ← init_page_table 16;
  va ← MMU_alloc_page;
  modify (set_cr2 (va + 8)) ;;
  page_fault_handler ;;
  root ← gets cr3;
  pa ← page_table_virt_to_phys_addr root (va + 8);
  MMU_free_page va ;;
  fl ← gets free_list;
  mret (pa, fl).

Example demo_cycle_runs :
  match demo_cycle demo_mm with Ret r _ => r | _ => (0, 0) end = (32776, 32768).
Proof. vm_compute. reflexivity. Qed.
