(* ===== verification/Kmalloc.v ===== *)
(** * Kmalloc: the kernel's block allocator (src/src/allocator.c)

    The allocator is written against an interface, [PageSource], that states what
    src/src/page_allocator.c and the memory behind it promise; HeapPages.v shows
    that the modelled page allocator keeps that promise. *)

From S2P Require Import Prelude Multiboot Frames VirtPages.

(** ** The page source *)

(** What allocator.c calls: loads and stores of 64-bit words at heap addresses,
    and the three page operations. *)
Class PageSource (S : Type) := {
  ps_load : Z -> M S Z;
  ps_store : Z -> Z -> M S unit;
  ps_alloc_page : M S Z;
  ps_alloc_pages : Z -> M S Z;
  ps_free_pages : Z -> Z -> M S unit }.

Record page_ok (a : Z) : Prop := {
  po_aligned : a mod MMU_PAGE_SIZE = 0;
  po_low : 0 < a;
  po_high : a + MMU_PAGE_SIZE <= 2 ^ 48 }.

(** The [n] pages from [va]. *)
Definition page_range (va n : Z) : gset Z :=
  list_to_set ((fun k => va + MMU_PAGE_SIZE * k) <$> seqZ 0 n).

(** The promise. [ps_holds s A V]: the pages [A] are allocated and the words [V]
    (addresses to values) are known to be in memory; [ps_room s] is the address
    space left. An operation that takes pages or touches memory may instead halt
    with one of the [ps_oom] messages. *)
Class PageSourceLaws (S : Type) `{PageSource S} := {
  ps_holds : S -> gset Z -> gmap Z Z -> Prop;
  ps_room : S -> Z;
  ps_oom : string -> Prop;
  ps_pages : forall s A V p, ps_holds s A V -> p ∈ A -> page_ok p;
  ps_load_law : forall s A V p w, ps_holds s A V -> V !! p = Some w ->
    ps_load p s = Ret w s;
  ps_store_law : forall s A V p w, ps_holds s A V -> page_of p ∈ A -> p mod 8 = 0 ->
    in_range 64 w ->
    runs (ps_store p w) s
      (fun _ s' => ps_holds s' A (<[p := w]> V) /\ ps_room s' = ps_room s)
      (fun msg _ => ps_oom msg);
  ps_alloc_page_law : forall s A V, ps_holds s A V -> MMU_PAGE_SIZE <= ps_room s ->
    runs ps_alloc_page s
      (fun va s' => page_ok va /\ (va ∉ A) /\ ps_holds s' ({[va]} ∪ A) V /\
         ps_room s' = ps_room s - MMU_PAGE_SIZE)
      (fun msg _ => ps_oom msg);
  ps_alloc_pages_law : forall s A V n, ps_holds s A V -> 0 < n ->
    int_ok (MMU_PAGE_SIZE * n) = true -> MMU_PAGE_SIZE * n <= ps_room s ->
    runs (ps_alloc_pages n) s
      (fun va s' => page_range va n ## A /\ ps_holds s' (page_range va n ∪ A) V /\
         ps_room s' = ps_room s - MMU_PAGE_SIZE * n)
      (fun msg _ => ps_oom msg);
  ps_free_pages_law : forall s A V va n, ps_holds s A V ->
    0 < n -> int_ok (MMU_PAGE_SIZE * n) = true ->
    (forall p, p ∈ page_range (page_of va) n -> p ∈ A /\ exists q w, page_of q = p /\ V !! q = Some w) ->
    exists s', ps_free_pages va n s = Ret tt s' /\ ps_room s' = ps_room s /\
      ps_holds s' (A ∖ page_range (page_of va) n)
        (filter (fun e => page_of e.1 ∉ page_range (page_of va) n) V) }.

(** ** Data *)

Record KmallocPool := mkPool { max_size : Z; head : Z }.

(** [sizeof(struct KmallocHeader)]: the [pool] pointer, then [size]. *)
Definition HEADER_SIZE : Z := 16.

Definition block_sizes : list Z := [32; 64; 128; 512; 1024; 2048].
Definition BLOCK_SIZES_LEN : nat := 6.

Record heap (S : Type) := mkHeap { pools : list KmallocPool; vm : S }.
Arguments mkHeap {S} pools vm.
Arguments pools {S} h.
Arguments vm {S} h.

(** Where the linker puts the array [pools]. *)
Class PoolsAt := {
  pools_addr : Z;
  pools_addr_low : 0 < pools_addr;
  pools_addr_high : pools_addr + 16 * Z.of_nat BLOCK_SIZES_LEN <= 2 ^ 64 }.

(** [&pools[i]] and back. *)
Definition pool_ptr `{PoolsAt} (i : nat) : Z := pools_addr + 16 * Z.of_nat i.
Definition pool_index `{PoolsAt} (p : Z) : option nat :=
  if (pools_addr <=? p) && ((p - pools_addr) mod 16 =? 0)
  then Some (Z.to_nat ((p - pools_addr) / 16)) else None.

(** ** Operations *)

Section operations.
Context {S : Type} `{PageSource S} `{PoolsAt}.

Definition vmop {A} (op : M S A) : M (heap S) A :=
  zoom vm (fun v h => mkHeap (pools h) v) op.

Definition get_pool (i : nat) : M (heap S) KmallocPool :=
  ps ← gets pools;
  match ps !! i with Some p => mret p | None => fault end.
Definition set_head (i : nat) (h : Z) : M (heap S) unit :=
  modify (fun s => mkHeap (alter (fun p => mkPool (max_size p) h) i (pools s)) (vm s)).

(** [free_node->next = pool->head; pool->head = free_node]. *)
Definition push_block (i : nat) (block : Z) : M (heap S) unit :=
  p ← get_pool i;
  vmop (ps_store block (head p)) ;;
  set_head i block.

Fixpoint carve_blocks (fuel : nat) (i : nat) (block end_ : Z) : M (heap S) unit :=
  if block <? end_ then
    match fuel with
    | O => no_fuel
    | Datatypes.S fuel =>
        push_block i block ;;
        p ← get_pool i;
        carve_blocks fuel i (u64 (block + (max_size p + HEADER_SIZE))) end_
    end
  else mret tt.

(** The smallest block takes 128 rounds. *)
Definition CARVE_FUEL : nat := 128.

Definition pool_allocate_page (i : nat) : M (heap S) unit :=
  page ← vmop ps_alloc_page;
  p ← get_pool i;
  kassert (MMU_PAGE_SIZE mod (max_size p + HEADER_SIZE) =? 0)
    "MMU_PAGE_SIZE % (pool->max_size + sizeof(struct KmallocHeader)) == 0 && pool size must be a multiple of block size" ;;
  carve_blocks CARVE_FUEL i page (u64 (page + MMU_PAGE_SIZE)).

Definition init_alloc : M (heap S) unit :=
  modify (fun s => mkHeap ((fun b => mkPool (b - HEADER_SIZE) 0) <$> block_sizes) (vm s)).

(** The first pool whose blocks are large enough, or the number of pools. *)
Fixpoint find_pool (ps : list KmallocPool) (size : Z) : nat :=
  match ps with
  | [] => O
  | p :: ps => if size >? max_size p then Datatypes.S (find_pool ps size) else O
  end.

(** [size / MMU_PAGE_SIZE + !!(size % MMU_PAGE_SIZE)]. *)
Definition pages_for (size : Z) : Z :=
  size / MMU_PAGE_SIZE + Z.b2z (negb (size mod MMU_PAGE_SIZE =? 0)).

Definition kmalloc (size : Z) : M (heap S) Z :=
  ps ← gets pools;
  let i := find_pool ps size in
  if (i <? BLOCK_SIZES_LEN)%nat then
    pool ← get_pool i;
    (if head pool =? 0 then pool_allocate_page i else mret tt) ;;
    pool ← get_pool i;
    let addr := head pool in
    next ← vmop (ps_load addr);
    set_head i next ;;
    vmop (ps_store addr (pool_ptr i)) ;;
    vmop (ps_store (addr + 8) 0) ;;
    mret (u64 (addr + HEADER_SIZE))
  else
    let size := u64 (size + HEADER_SIZE) in
    addr ← vmop (ps_alloc_pages (sint 32 (pages_for size)));
    vmop (ps_store addr 0) ;;
    vmop (ps_store (addr + 8) size) ;;
    mret (u64 (addr + HEADER_SIZE)).

Definition kfree (addr : Z) : M (heap S) unit :=
  let block := u64 (addr - HEADER_SIZE) in
  pool ← vmop (ps_load block);
  size ← vmop (ps_load (block + 8));
  if negb (pool =? 0) then
    match pool_index pool with
    | Some i => push_block i block
    | None => fault
    end
  else vmop (ps_free_pages addr (sint 32 (pages_for size))).

End operations.

(** ** The heap

    Every allocated page belongs to a pool or to one large block; a pool's
    blocks are the multiples of its block size in its pages, each either on the
    free list or live. *)

Inductive owner := OPool (i : nat) | OLarge (b : Z).

Record ghost := mkGhost {
  frees : list (list Z);        (* the free list of each pool *)
  live : gmap Z nat;            (* live pool blocks and their pools *)
  large : gmap Z Z;             (* live large blocks and their header sizes *)
  owners : gmap Z owner;        (* the allocated pages *)
  words : gmap Z Z }.           (* the known words *)

Definition bsize (i : nat) : Z := default 4096 (block_sizes !! i).

(** [b] is where a block of pool [i] may start. *)
Record block_at (O : gmap Z owner) (i : nat) (b : Z) : Prop := {
  ba_pool : (i < BLOCK_SIZES_LEN)%nat;
  ba_aligned : b mod bsize i = 0;
  ba_page : O !! page_of b = Some (OPool i) }.

Fixpoint chain (V : gmap Z Z) (l : list Z) : Prop :=
  match l with
  | [] => True
  | b :: l => V !! b = Some (hd 0 l) /\ chain V l
  end.

Record large_at (O : gmap Z owner) (b sz : Z) : Prop := {
  la_size : 2048 < sz;
  la_int : int_ok (MMU_PAGE_SIZE * pages_for sz) = true;
  la_pages : forall p, p ∈ page_range b (pages_for sz) -> O !! p = Some (OLarge b) }.

Section invariant.
Context {S : Type} `{PageSourceLaws S} `{PoolsAt}.

Record heap_inv (s : heap S) (g : ghost) : Prop := {
  hi_pools : pools s = zip_with (fun b l => mkPool (b - HEADER_SIZE) (hd 0 l)) block_sizes (frees g);
  hi_frees : length (frees g) = BLOCK_SIZES_LEN;
  hi_holds : ps_holds (vm s) (dom (owners g)) (words g);
  hi_chain : forall i l, frees g !! i = Some l -> chain (words g) l /\ NoDup l;
  hi_free : forall i l b, frees g !! i = Some l -> b ∈ l ->
    block_at (owners g) i b /\ live g !! b = None;
  hi_live : forall b i, live g !! b = Some i -> block_at (owners g) i b /\
    words g !! b = Some (pool_ptr i) /\ words g !! (b + 8) = Some 0;
  hi_large : forall b sz, large g !! b = Some sz -> large_at (owners g) b sz /\
    words g !! b = Some 0 /\ words g !! (b + 8) = Some sz }.

End invariant.

(** The address and the capacity of the live blocks, as the callers see them. *)
Inductive allocated (g : ghost) : Z -> Z -> Prop :=
| allocated_pool b i : live g !! b = Some i ->
    allocated g (b + HEADER_SIZE) (bsize i - HEADER_SIZE)
| allocated_large b sz : large g !! b = Some sz ->
    allocated g (b + HEADER_SIZE) (MMU_PAGE_SIZE * pages_for sz - HEADER_SIZE).

(** ** Arithmetic of blocks *)

Lemma page_of_page p : page_of p mod MMU_PAGE_SIZE = 0.
Proof. unfold page_of, MMU_PAGE_SIZE. zdm. Qed.

Lemma page_of_bounds p : page_of p <= p < page_of p + MMU_PAGE_SIZE.
Proof. unfold page_of, MMU_PAGE_SIZE. zdm. Qed.

Lemma page_of_unique p q : q mod MMU_PAGE_SIZE = 0 -> q <= p < q + MMU_PAGE_SIZE -> page_of p = q.
Proof. unfold page_of, MMU_PAGE_SIZE. intros. zdm. Qed.

Lemma page_of_id q : q mod MMU_PAGE_SIZE = 0 -> page_of q = q.
Proof. intros. apply page_of_unique; unfold MMU_PAGE_SIZE in *; lia. Qed.

Lemma elem_page_range p va n :
  p ∈ page_range va n <-> exists k, 0 <= k < n /\ p = va + MMU_PAGE_SIZE * k.
Proof.
  unfold page_range. rewrite elem_of_list_to_set, list_elem_of_fmap.
  split; intros (k & Hk1 & Hk2); exists k.
  - apply elem_of_seqZ in Hk2. lia.
  - rewrite elem_of_seqZ. lia.
Qed.

Lemma bsize_cases i : (i < BLOCK_SIZES_LEN)%nat ->
  bsize i = 32 \/ bsize i = 64 \/ bsize i = 128 \/ bsize i = 512 \/ bsize i = 1024 \/ bsize i = 2048.
Proof. unfold BLOCK_SIZES_LEN. do 6 (destruct i as [|i]; [cbn; tauto|]). lia. Qed.

Lemma bsize_bounds i : (i < BLOCK_SIZES_LEN)%nat -> 32 <= bsize i <= 2048.
Proof. intros Hi. pose proof (bsize_cases i Hi). lia. Qed.

Lemma bsize_divides i : (i < BLOCK_SIZES_LEN)%nat -> MMU_PAGE_SIZE mod bsize i = 0.
Proof.
  intros Hi. destruct (bsize_cases i Hi) as [->|[->|[->|[->|[->| ->]]]]]; reflexivity.
Qed.

(** Aligned to its size, a block is 16-aligned and stays inside its page. *)
Lemma block_fits i b : (i < BLOCK_SIZES_LEN)%nat -> b mod bsize i = 0 ->
  b mod 16 = 0 /\ b + bsize i <= page_of b + MMU_PAGE_SIZE.
Proof.
  intros Hi Hb. unfold page_of, MMU_PAGE_SIZE.
  destruct (bsize_cases i Hi) as [E|[E|[E|[E|[E|E]]]]]; rewrite E in *; zdm.
Qed.

Lemma multiples_apart bs b b' : 0 < bs -> b mod bs = 0 -> b' mod bs = 0 -> b <> b' ->
  b + bs <= b' \/ b' + bs <= b.
Proof.
  intros Hp Hb Hb' Hne. destruct (decide (b + bs <= b')); [by left|].
  destruct (decide (b' + bs <= b)); [by right|]. exfalso. apply Hne.
  assert (b <= b') by (apply (multiple_le bs); lia).
  assert (b' <= b) by (apply (multiple_le bs); lia). lia.
Qed.

Lemma block_at_apart O i j b b' : block_at O i b -> block_at O j b' -> b <> b' ->
  b + bsize i <= b' \/ b' + bsize j <= b.
Proof.
  intros [Hi Ha Hp] [Hj Ha' Hp'] Hne.
  destruct (decide (page_of b = page_of b')) as [E|E].
  - rewrite E, Hp' in Hp. injection Hp as ->.
    apply multiples_apart; try done. pose proof (bsize_bounds i Hi). lia.
  - pose proof (block_fits i b Hi Ha). pose proof (block_fits j b' Hj Ha').
    pose proof (page_of_bounds b). pose proof (page_of_bounds b').
    pose proof (page_of_page b). pose proof (page_of_page b').
    destruct (multiples_apart MMU_PAGE_SIZE (page_of b) (page_of b')); try done; lia.
Qed.

Lemma block_at_page O i b k : block_at O i b -> 0 <= k < bsize i -> page_of (b + k) = page_of b.
Proof.
  intros [Hi Ha _] Hk. apply page_of_unique; [apply page_of_page|].
  pose proof (block_fits i b Hi Ha). pose proof (page_of_bounds b). lia.
Qed.

Lemma pages_for_bounds sz : 0 < sz -> 0 < pages_for sz /\
  sz <= MMU_PAGE_SIZE * pages_for sz < sz + MMU_PAGE_SIZE.
Proof.
  intros Hsz. unfold pages_for, MMU_PAGE_SIZE.
  destruct (Z.eqb_spec (sz mod 4096) 0); cbn [negb Z.b2z]; zdm.
Qed.

Lemma sint32_pages n : 0 <= n -> int_ok (MMU_PAGE_SIZE * n) = true -> sint 32 n = n.
Proof.
  unfold int_ok, sint, MMU_PAGE_SIZE. rewrite andb_true_iff, !Z.leb_le, Z.ltb_lt. intros.
  rewrite wrap_small by (unfold in_range; lia). zcases; lia.
Qed.

Lemma pool_index_ptr `{PoolsAt} i : pool_index (pool_ptr i) = Some i.
Proof.
  unfold pool_index, pool_ptr. replace (pools_addr + 16 * Z.of_nat i - pools_addr) with (Z.of_nat i * 16) by lia.
  rewrite (proj2 (Z.leb_le _ _)) by lia. rewrite Z.mod_mul, Z.div_mul by lia.
  cbn. by rewrite Nat2Z.id.
Qed.

Lemma pool_ptr_range `{PoolsAt} i : (i < BLOCK_SIZES_LEN)%nat ->
  pool_ptr i <> 0 /\ in_range 64 (pool_ptr i).
Proof.
  intros Hi. pose proof pools_addr_low. pose proof pools_addr_high.
  unfold pool_ptr, in_range, BLOCK_SIZES_LEN in *. lia.
Qed.

(** ** The pools array *)

Lemma six_lists {A} (l : list A) : length l = BLOCK_SIZES_LEN ->
  exists a b c d e f, l = [a; b; c; d; e; f].
Proof.
  do 6 (destruct l as [|? l]; [done|]). destruct l; [|done]. intros _. by repeat eexists.
Qed.

Definition pools_of (F : list (list Z)) : list KmallocPool :=
  zip_with (fun b l => mkPool (b - HEADER_SIZE) (hd 0 l)) block_sizes F.

Lemma pools_of_lookup F i l : length F = BLOCK_SIZES_LEN -> F !! i = Some l ->
  pools_of F !! i = Some (mkPool (bsize i - HEADER_SIZE) (hd 0 l)).
Proof.
  intros HF Hi. destruct (six_lists F HF) as (?&?&?&?&?&?& ->).
  do 6 (destruct i as [|i]; [by injection Hi as ->|]). done.
Qed.

Lemma pools_of_insert F i l : length F = BLOCK_SIZES_LEN -> (i < BLOCK_SIZES_LEN)%nat ->
  pools_of (<[i := l]> F) = alter (fun p => mkPool (max_size p) (hd 0 l)) i (pools_of F).
Proof.
  intros HF Hi. destruct (six_lists F HF) as (?&?&?&?&?&?& ->).
  do 6 (destruct i as [|i]; [done|]). unfold BLOCK_SIZES_LEN in Hi. lia.
Qed.

Lemma find_pool_spec F size : length F = BLOCK_SIZES_LEN -> 0 <= size ->
  let i := find_pool (pools_of F) size in
  (i < BLOCK_SIZES_LEN)%nat /\ size <= bsize i - HEADER_SIZE \/
  i = BLOCK_SIZES_LEN /\ 2032 < size.
Proof.
  intros HF Hs. destruct (six_lists F HF) as (?&?&?&?&?&?& ->).
  unfold BLOCK_SIZES_LEN, HEADER_SIZE. cbn. rewrite !Z.gtb_ltb. unfold HEADER_SIZE.
  zcases; cbn; lia.
Qed.

(** ** The invariant under the allocator's steps *)

(** The addresses whose words the allocator relies on. *)
Inductive bookkeeping (g : ghost) (p : Z) : Prop :=
| bk_free i l : frees g !! i = Some l -> p ∈ l -> bookkeeping g p
| bk_live b i : live g !! b = Some i -> p = b \/ p = b + 8 -> bookkeeping g p
| bk_large b sz : large g !! b = Some sz -> p = b \/ p = b + 8 -> bookkeeping g p.

Definition set_words (V : gmap Z Z) (g : ghost) : ghost :=
  mkGhost (frees g) (live g) (large g) (owners g) V.
Definition set_frees (F : list (list Z)) (g : ghost) : ghost :=
  mkGhost F (live g) (large g) (owners g) (words g).

Lemma chain_keep V V' l : (forall b, b ∈ l -> V' !! b = V !! b) -> chain V l -> chain V' l.
Proof.
  induction l as [|b l IH]; [done|]. intros Hk [Hb Hl]. split.
  - rewrite Hk by left. done.
  - apply IH; [|done]. intros. apply Hk. by right.
Qed.

Section steps.
Context {S : Type} `{PageSourceLaws S} `{PoolsAt}.
Implicit Types (s : heap S) (g : ghost).

Lemma runs_vmop {A} (op : M S A) s Q Hm :
  runs op (vm s) (fun a v => Q a (mkHeap (pools s) v)) (fun m v => Hm m (mkHeap (pools s) v)) ->
  runs (vmop op) s Q Hm.
Proof. unfold runs, vmop, zoom. by destruct (op (vm s)). Qed.

Lemma runs_vmop_bind {A B} (op : M S A) (k : A -> M (heap S) B) s Q Q' (F : string -> Prop) :
  runs op (vm s) Q' (fun msg _ => F msg) ->
  (forall a v, Q' a v -> runs (k a) (mkHeap (pools s) v) Q (fun msg _ => F msg)) ->
  runs (vmop op ≫= k) s Q (fun msg _ => F msg).
Proof.
  unfold runs, vmop, zoom, mbind, M_bind. intros Hop Hk. destruct (op (vm s)); try done.
  by apply Hk.
Qed.

Lemma inv_page s g p : heap_inv s g -> p ∈ dom (owners g) -> page_ok p.
Proof. intros Hi. by apply (ps_pages _ _ _ _ (hi_holds _ _ Hi)). Qed.

Lemma block_at_ok s g i b : heap_inv s g -> block_at (owners g) i b ->
  b mod 16 = 0 /\ 0 < b /\ b + bsize i <= 2 ^ 48.
Proof.
  intros Hi [Hp Ha Ho]. destruct (block_fits i b Hp Ha) as [H16 Hfit].
  assert (page_ok (page_of b)) as [_ Hlo Hhi] by (apply (inv_page s g); [done|by eapply elem_of_dom_2]).
  pose proof (page_of_bounds b). lia.
Qed.

Lemma large_at_ok s g b sz : heap_inv s g -> large_at (owners g) b sz ->
  page_of b = b /\ owners g !! b = Some (OLarge b) /\ b mod 16 = 0 /\ 0 < b < 2 ^ 48.
Proof.
  intros Hi [Hs _ Hp]. pose proof (pages_for_bounds sz ltac:(lia)) as [Hn _].
  assert (Ho : owners g !! b = Some (OLarge b)).
  { apply Hp, elem_page_range. exists 0. lia. }
  assert (page_ok b) as [Ha Hlo Hhi] by (apply (inv_page s g); [done|by eapply elem_of_dom_2]).
  split; [by apply page_of_id|]. split; [done|]. unfold MMU_PAGE_SIZE in *. zdm.
Qed.

(** A header or a free block, and the block that has it. *)
Lemma bookkeeping_block s g p : heap_inv s g -> bookkeeping g p ->
  exists b, (p = b \/ p = b + 8) /\ b mod 16 = 0 /\
    ((exists i, block_at (owners g) i b /\
        (live g !! b = Some i \/ exists l, frees g !! i = Some l /\ b ∈ l)) \/
     exists sz, large g !! b = Some sz).
Proof.
  intros Hi [i l Hl Hp|b i Hb Hp|b sz Hb Hp].
  - destruct (hi_free _ _ Hi i l p Hl Hp) as [Hba _]. exists p. split; [by left|].
    split; [by eapply block_at_ok|]. left. exists i. eauto.
  - destruct (hi_live _ _ Hi b i Hb) as [Hba _]. exists b. split; [done|].
    split; [by eapply block_at_ok|]. left. exists i. eauto.
  - destruct (hi_large _ _ Hi b sz Hb) as [Hla _]. exists b. split; [done|].
    split; [by eapply large_at_ok|]. right. eauto.
Qed.

(** Storing anywhere else keeps the heap. *)
Lemma inv_store s g v p w : heap_inv s g -> ~ bookkeeping g p ->
  ps_holds v (dom (owners g)) (<[p := w]> (words g)) ->
  heap_inv (mkHeap (pools s) v) (set_words (<[p := w]> (words g)) g).
Proof.
  intros Hi Hbk Hv. split; cbn.
  - apply (hi_pools _ _ Hi).
  - apply (hi_frees _ _ Hi).
  - done.
  - intros i l Hl. destruct (hi_chain _ _ Hi i l Hl) as [Hc Hnd]. split; [|done].
    eapply chain_keep; [|done]. intros b Hb. rewrite lookup_insert_ne; [done|].
    intros ->. apply Hbk. by eapply bk_free.
  - apply (hi_free _ _ Hi).
  - intros b i Hb. destruct (hi_live _ _ Hi b i Hb) as (Hba & Hw0 & Hw8). split; [done|].
    rewrite !lookup_insert_ne; [done| |]; intros ->; apply Hbk; eapply bk_live; eauto.
  - intros b sz Hb. destruct (hi_large _ _ Hi b sz Hb) as (Hla & Hw0 & Hw8). split; [done|].
    rewrite !lookup_insert_ne; [done| |]; intros ->; apply Hbk; eapply bk_large; eauto.
Qed.

Lemma store_runs s g p w : heap_inv s g -> ~ bookkeeping g p ->
  is_Some (owners g !! page_of p) -> p mod 8 = 0 -> in_range 64 w ->
  runs (vmop (ps_store p w)) s
    (fun _ s' => heap_inv s' (set_words (<[p := w]> (words g)) g) /\
       pools s' = pools s /\ ps_room (vm s') = ps_room (vm s))
    (fun msg _ => ps_oom msg).
Proof.
  intros Hi Hbk Ho Hp Hw. apply runs_vmop. eapply runs_conseq.
  - apply (ps_store_law _ _ _ p w (hi_holds _ _ Hi)); [by apply elem_of_dom|done..].
  - cbn. intros _ v [Hv Hr]. split; [by apply inv_store|done].
  - done.
Qed.

Lemma load_ret s g p w : heap_inv s g -> words g !! p = Some w ->
  vmop (ps_load p) s = Ret w s.
Proof.
  intros Hi Hw. unfold vmop. erewrite zoom_ret by (by apply (ps_load_law _ _ _ _ _ (hi_holds _ _ Hi))).
  by destruct s.
Qed.

Lemma get_pool_ret s g i l : heap_inv s g -> frees g !! i = Some l ->
  get_pool i s = Ret (mkPool (bsize i - HEADER_SIZE) (hd 0 l)) s.
Proof.
  intros Hi Hl. unfold get_pool. mstep. rewrite (hi_pools _ _ Hi).
  rewrite (pools_of_lookup _ _ l); [done|apply (hi_frees _ _ Hi)|done].
Qed.

Lemma frees_lookup s g i : heap_inv s g -> (i < BLOCK_SIZES_LEN)%nat ->
  exists l, frees g !! i = Some l.
Proof. intros Hi Hlt. apply lookup_lt_is_Some_2. by rewrite (hi_frees _ _ Hi). Qed.

(** Changing one free list. *)
Lemma inv_set_head s g i l : heap_inv s g -> (i < BLOCK_SIZES_LEN)%nat ->
  chain (words g) l -> NoDup l ->
  (forall b, b ∈ l -> block_at (owners g) i b /\ live g !! b = None) ->
  heap_inv (mkHeap (alter (fun p => mkPool (max_size p) (hd 0 l)) i (pools s)) (vm s))
    (set_frees (<[i := l]> (frees g)) g).
Proof.
  intros Hi Hlt Hc Hnd Hl. pose proof (hi_frees _ _ Hi) as HF. split; cbn.
  - rewrite (hi_pools _ _ Hi). symmetry. by apply pools_of_insert.
  - by rewrite length_insert.
  - apply (hi_holds _ _ Hi).
  - intros j l' Hj. destruct (decide (i = j)) as [->|Hne].
    + rewrite list_lookup_insert_eq in Hj by lia. by injection Hj as <-.
    + rewrite list_lookup_insert_ne in Hj by done. by apply (hi_chain _ _ Hi j).
  - intros j l' b Hj Hb. destruct (decide (i = j)) as [->|Hne].
    + rewrite list_lookup_insert_eq in Hj by lia. injection Hj as <-. by apply Hl.
    + rewrite list_lookup_insert_ne in Hj by done. by apply (hi_free _ _ Hi j l').
  - apply (hi_live _ _ Hi).
  - apply (hi_large _ _ Hi).
Qed.

(** A block of pool [i] that is neither free nor live. *)
Record limbo g (i : nat) (b : Z) : Prop := {
  lb_at : block_at (owners g) i b;
  lb_live : live g !! b = None;
  lb_free : forall l, frees g !! i = Some l -> b ∉ l }.

Lemma limbo_header s g i b : heap_inv s g -> limbo g i b ->
  ~ bookkeeping g b /\ ~ bookkeeping g (b + 8).
Proof.
  intros Hi [Hba Hl Hf]. destruct (block_at_ok s g i b Hi Hba) as (H16 & _ & _).
  assert (Hone : forall p, (p = b \/ p = b + 8) -> ~ bookkeeping g p).
  { intros p Hp Hbk. destruct (bookkeeping_block s g p Hi Hbk) as (b' & Hp' & H16' & Hb').
    assert (b' = b) as -> by (clear - Hp Hp' H16 H16'; destruct Hp, Hp'; zdm).
    destruct Hb' as [(j & Hbj & Hj)|[sz Hsz] ].
    - destruct Hj as [Hj|(l & Hj & Hin)]; [congruence|].
      pose proof (ba_page _ _ _ Hba) as E1. pose proof (ba_page _ _ _ Hbj) as E2.
      rewrite E1 in E2. injection E2 as <-. by apply (Hf l).
    - destruct (hi_large _ _ Hi b sz Hsz) as [Hla _].
      destruct (large_at_ok s g b sz Hi Hla) as (Hpg & Ho & _).
      pose proof (ba_page _ _ _ Hba) as E1. congruence. }
  split; apply Hone; auto.
Qed.

(** [push_block] frees such a block. *)
Lemma push_runs s g i b l : heap_inv s g -> limbo g i b -> frees g !! i = Some l ->
  runs (push_block i b) s
    (fun _ s' => heap_inv s' (set_frees (<[i := b :: l]> (frees g))
                               (set_words (<[b := hd 0 l]> (words g)) g)) /\
       ps_room (vm s') = ps_room (vm s))
    (fun msg _ => ps_oom msg).
Proof.
  intros Hi Hlb Hl. destruct (limbo_header s g i b Hi Hlb) as [Hb0 _].
  destruct Hlb as [Hba Hlive Hfree]. destruct (block_at_ok s g i b Hi Hba) as (H16 & _ & _).
  destruct (hi_chain _ _ Hi i l Hl) as [Hc Hnd].
  unfold push_block. eapply runs_bind_ret; [by apply (get_pool_ret s g i l)|]. cbn [head].
  eapply runs_bind; [apply (store_runs s g b (hd 0 l))|]; [done|done| |zdm| |].
  - rewrite (ba_page _ _ _ Hba). eauto.
  - destruct l as [|c l]; [unfold in_range; cbn; lia|]. cbn [hd].
    destruct (hi_free _ _ Hi i (c :: l) c Hl ltac:(left)) as [Hbc _].
    destruct (block_at_ok s g i c Hi Hbc). pose proof (bsize_bounds i (ba_pool _ _ _ Hba)).
    unfold in_range. lia.
  - cbn. intros _ s1 (Hi1 & Hp1 & Hr1). unfold set_head.
    pose proof (inv_set_head s1 _ i (b :: l) Hi1 (ba_pool _ _ _ Hba)) as Hfin.
    split; [|done]. apply Hfin; cbn.
    + split; [apply lookup_insert_eq|]. eapply chain_keep; [|done].
      intros c Hin. rewrite lookup_insert_ne; [done|]. intros <-. by apply (Hfree l).
    + constructor; [by apply (Hfree l)|done].
    + intros c Hin. apply elem_of_cons in Hin as [->|Hin]; [done|].
      by apply (hi_free _ _ Hi i l).
Qed.

End steps.

Section pages.
Context {S : Type} `{PageSourceLaws S} `{PoolsAt}.
Implicit Types (s : heap S) (g : ghost).

Definition set_owners (O : gmap Z owner) (g : ghost) : ghost :=
  mkGhost (frees g) (live g) (large g) O (words g).

Lemma block_at_mono O O' i b : O ⊆ O' -> block_at O i b -> block_at O' i b.
Proof. intros Hsub [Hi Ha Ho]. split; [done..|]. by eapply lookup_weaken. Qed.

Lemma large_at_mono O O' b sz : O ⊆ O' -> large_at O b sz -> large_at O' b sz.
Proof.
  intros Hsub [Hs Hn Hp]. split; [done..|]. intros p Hin. eapply lookup_weaken; [|done]. by apply Hp.
Qed.

Lemma inv_grow s g v O : heap_inv s g -> owners g ⊆ O -> ps_holds v (dom O) (words g) ->
  heap_inv (mkHeap (pools s) v) (set_owners O g).
Proof.
  intros Hi Hsub Hv. split; cbn.
  - apply (hi_pools _ _ Hi).
  - apply (hi_frees _ _ Hi).
  - done.
  - apply (hi_chain _ _ Hi).
  - intros i l b Hl Hb. destruct (hi_free _ _ Hi i l b Hl Hb). split; [|done]. by eapply block_at_mono.
  - intros b i Hb. destruct (hi_live _ _ Hi b i Hb) as (?&?&?). split; [|done]. by eapply block_at_mono.
  - intros b sz Hb. destruct (hi_large _ _ Hi b sz Hb) as (?&?&?). split; [|done]. by eapply large_at_mono.
Qed.

(** The loop of [pool_allocate_page]: every block of the page goes on the list. *)
Lemma carve_blocks_runs fuel : forall s g i block page l,
  heap_inv s g -> frees g !! i = Some l -> (i < BLOCK_SIZES_LEN)%nat ->
  owners g !! page = Some (OPool i) -> block mod bsize i = 0 ->
  page <= block <= page + MMU_PAGE_SIZE ->
  (forall b, b ∈ l -> page_of b = page -> b < block) ->
  (forall b j, live g !! b = Some j -> page_of b <> page) ->
  page + MMU_PAGE_SIZE - block <= bsize i * Z.of_nat fuel ->
  runs (carve_blocks fuel i block (page + MMU_PAGE_SIZE)) s
    (fun _ s' => exists l' V',
       heap_inv s' (set_frees (<[i := l']> (frees g)) (set_words V' g)) /\
       ps_room (vm s') = ps_room (vm s) /\ (l' = [] -> l = [] /\ block = page + MMU_PAGE_SIZE) /\
       forall p, page_of p <> page -> V' !! p = words g !! p)
    (fun msg _ => ps_oom msg).
Proof.
  induction fuel as [|fuel IH]; intros s g i block page l Hi Hl Hlt Ho Hal Hle Hbelow Hlive Hfuel;
    pose proof (bsize_bounds i Hlt) as Hbs;
    assert (Hpo : page_ok page) by (apply (inv_page s g); [done|by eapply elem_of_dom_2]);
    destruct Hpo as [Hpa Hplo Hphi].
  - assert (block = page + MMU_PAGE_SIZE) as -> by lia. cbn.
    rewrite Z.ltb_irrefl. apply runs_ret. exists l, (words g).
    rewrite list_insert_id by done. by destruct g.
  - cbn [carve_blocks]. destruct (Z.ltb_spec block (page + MMU_PAGE_SIZE)) as [Hb|Hb]; cycle 1.
    { apply runs_ret. exists l, (words g). rewrite list_insert_id by done.
      split; [by destruct g|]. split; [done|]. split; [intros ->; split; [done|lia]|done]. }
    assert (Hpg : page_of block = page) by (apply page_of_unique; [done|lia]).
    assert (Hlb : limbo g i block).
    { split; [split; [done..|by rewrite Hpg]| |].
      - destruct (live g !! block) as [j|] eqn:E; [|done]. by destruct (Hlive block j E).
      - intros l2 Hl2 Hin. rewrite Hl in Hl2. injection Hl2 as <-.
        pose proof (Hbelow block Hin Hpg). lia. }
    eapply runs_bind; [by apply (push_runs s g i block l)|].
    intros _ s1 [Hi1 Hr1]. set (g1 := set_frees _ _) in Hi1.
    assert (Hl1 : frees g1 !! i = Some (block :: l)).
    { cbn. apply list_lookup_insert_eq. by rewrite (hi_frees _ _ Hi). }
    eapply runs_bind_ret; [by apply (get_pool_ret s1 g1 i (block :: l))|]. cbn [max_size].
    replace (bsize i - HEADER_SIZE + HEADER_SIZE) with (bsize i) by lia.
    pose proof (block_fits i block Hlt Hal) as [_ Hfit]. rewrite Hpg in Hfit.
    rewrite wrap_small by (unfold in_range, MMU_PAGE_SIZE in *; lia).
    eapply runs_conseq; [apply (IH s1 g1 i (block + bsize i) page (block :: l)); try done| |done].
    + rewrite Z.add_mod, Hal, Z.mod_same, Z.add_0_l by lia. apply Z.mod_0_l. lia.
    + lia.
    + intros b Hin Hbp. apply elem_of_cons in Hin as [->|Hin]; [lia|].
      pose proof (Hbelow b Hin Hbp). lia.
    + lia.
    + cbn. intros _ s' (l' & V' & Hi' & Hr' & Hne & Hkeep). exists l', V'.
      rewrite list_insert_insert_eq in Hi'. split; [done|]. split; [congruence|].
      split; [intros E; by destruct (Hne E)|]. intros p Hp. rewrite Hkeep by done.
      rewrite lookup_insert_ne; [done|]. intros <-. done.
Qed.

Lemma pool_allocate_page_runs s g i l : heap_inv s g -> frees g !! i = Some l ->
  (i < BLOCK_SIZES_LEN)%nat -> MMU_PAGE_SIZE <= ps_room (vm s) ->
  runs (pool_allocate_page i) s
    (fun _ s' => exists l' V' page, owners g !! page = None /\
       heap_inv s' (mkGhost (<[i := l']> (frees g)) (live g) (large g) (<[page := OPool i]> (owners g)) V') /\
       l' <> [] /\ ps_room (vm s') = ps_room (vm s) - MMU_PAGE_SIZE /\
       forall p, page_of p <> page -> V' !! p = words g !! p)
    (fun msg _ => ps_oom msg).
Proof.
  intros Hi Hl Hlt Hroom. unfold pool_allocate_page. eapply runs_vmop_bind.
  { apply (ps_alloc_page_law _ _ _ (hi_holds _ _ Hi) Hroom). }
  cbn beta. intros page v ([Hpa Hplo Hphi] & Hnew & Hh & Hr).
  apply not_elem_of_dom in Hnew. pose proof (bsize_bounds i Hlt) as Hbs.
  assert (Hi1 : heap_inv (mkHeap (pools s) v) (set_owners (<[page := OPool i]> (owners g)) g)).
  { apply inv_grow; [done|by apply insert_subseteq|by rewrite dom_insert_L]. }
  eapply runs_bind_ret; [by apply (get_pool_ret _ _ i l Hi1)|]. cbn [max_size].
  replace (bsize i - HEADER_SIZE + HEADER_SIZE) with (bsize i) by lia.
  rewrite bsize_divides by done. eapply runs_bind_ret; [done|].
  rewrite wrap_small by (unfold in_range, MMU_PAGE_SIZE in *; lia).
  eapply runs_conseq; [apply (carve_blocks_runs CARVE_FUEL _ _ i page page l Hi1); try done| |done].
  - cbn. apply lookup_insert_eq.
  - unfold MMU_PAGE_SIZE in *. destruct (bsize_cases i Hlt) as [E|[E|[E|[E|[E|E]]]]]; rewrite E; zdm.
  - unfold MMU_PAGE_SIZE. lia.
  - intros b Hb Hpg. destruct (hi_free _ _ Hi i l b Hl Hb) as [[_ _ Hbp] _]. congruence.
  - intros b j Hb Hpg. destruct (hi_live _ _ Hi b j Hb) as [[_ _ Hbp] _]. congruence.
  - unfold CARVE_FUEL, MMU_PAGE_SIZE. lia.
  - cbn. intros _ s' (l' & V' & Hi' & Hr' & Hne & Hkeep). exists l', V', page.
    split; [done|]. split; [done|]. split; [|split; [congruence|done]].
    intros E. destruct (Hne E) as [_ Habs]. unfold MMU_PAGE_SIZE in Habs. lia.
Qed.
End pages.

(** ** Taking and giving back blocks *)

Section blocks.
Context {S : Type} `{PageSourceLaws S} `{PoolsAt}.
Implicit Types (s : heap S) (g : ghost).

Definition set_live (L : gmap Z nat) (g : ghost) : ghost :=
  mkGhost (frees g) L (large g) (owners g) (words g).
Definition set_large (B : gmap Z Z) (g : ghost) : ghost :=
  mkGhost (frees g) (live g) B (owners g) (words g).

Lemma inv_live s g i b : heap_inv s g -> limbo g i b ->
  words g !! b = Some (pool_ptr i) -> words g !! (b + 8) = Some 0 ->
  heap_inv s (set_live (<[b := i]> (live g)) g).
Proof.
  intros Hi [Hba Hl Hf] Hw Hw8. destruct Hi as [? ? ? ? Hfr Hlv Hlg]. split; try done; cbn.
  - intros j l c Hj Hc. destruct (Hfr j l c Hj Hc) as [Hbc Hlc]. split; [done|].
    rewrite lookup_insert_ne; [done|]. intros <-.
    pose proof (ba_page _ _ _ Hba) as E. rewrite (ba_page _ _ _ Hbc) in E. injection E as ->. by eapply Hf.
  - intros c j Hc. rewrite lookup_insert_Some in Hc. destruct Hc as [[<- <-]|[_ Hc]]; [done|].
    by apply Hlv.
Qed.

Lemma inv_unlive s g i b : heap_inv s g -> live g !! b = Some i ->
  heap_inv s (set_live (delete b (live g)) g) /\ limbo (set_live (delete b (live g)) g) i b.
Proof.
  intros Hi Hb. destruct (hi_live _ _ Hi b i Hb) as [Hba _]. split.
  - destruct Hi as [? ? ? ? Hfr Hlv Hlg]. split; try done; cbn.
    + intros j l c Hj Hc. destruct (Hfr j l c Hj Hc) as [Hbc Hlc]. split; [done|].
      rewrite lookup_delete_None. by right.
    + intros c j Hc. apply lookup_delete_Some in Hc as [_ Hc]. by apply Hlv.
  - split; cbn; [done|apply lookup_delete_eq|]. intros l Hl Hin.
    destruct (hi_free _ _ Hi i l b Hl Hin). congruence.
Qed.

Lemma pop_limbo s g i b l : heap_inv s g -> frees g !! i = Some (b :: l) ->
  heap_inv (mkHeap (alter (fun p => mkPool (max_size p) (hd 0 l)) i (pools s)) (vm s))
    (set_frees (<[i := l]> (frees g)) g) /\ limbo (set_frees (<[i := l]> (frees g)) g) i b.
Proof.
  intros Hi Hl. destruct (hi_free _ _ Hi i _ b Hl ltac:(left)) as [Hba Hlv].
  destruct (hi_chain _ _ Hi i _ Hl) as [[_ Hc] Hnd]. apply NoDup_cons in Hnd as [Hnin Hnd].
  split.
  - apply (inv_set_head _ _ i l Hi (ba_pool _ _ _ Hba)); try done.
    intros c Hc'. apply (hi_free _ _ Hi i (b :: l) c Hl). by right.
  - split; cbn; [done..|]. intros l2 Hl2. rewrite list_lookup_insert_eq in Hl2.
    + by injection Hl2 as <-.
    + rewrite (hi_frees _ _ Hi). apply Hba.
Qed.

(** The second half of [kmalloc]'s pool branch. *)
Definition take_block (i : nat) : M (heap S) Z :=
  pool ← get_pool i;
  next ← vmop (ps_load (head pool));
  set_head i next ;;
  vmop (ps_store (head pool) (pool_ptr i)) ;;
  vmop (ps_store (head pool + 8) 0) ;;
  mret (u64 (head pool + HEADER_SIZE)).

Definition header_words (b w0 w8 : Z) (V : gmap Z Z) : gmap Z Z := <[b + 8 := w8]> (<[b := w0]> V).

Lemma take_runs s g i b l : heap_inv s g -> frees g !! i = Some (b :: l) ->
  runs (take_block i) s
    (fun a s' => a = b + HEADER_SIZE /\
       heap_inv s' (mkGhost (<[i := l]> (frees g)) (<[b := i]> (live g)) (large g) (owners g)
                      (header_words b (pool_ptr i) 0 (words g))) /\
       ps_room (vm s') = ps_room (vm s))
    (fun msg _ => ps_oom msg).
Proof.
  intros Hi Hl. destruct (hi_free _ _ Hi i _ b Hl ltac:(left)) as [Hba _].
  pose proof (ba_pool _ _ _ Hba) as Hlt. pose proof (bsize_bounds i Hlt) as Hbs.
  destruct (block_at_ok s g i b Hi Hba) as (H16 & Hpos & Hhi).
  destruct (hi_chain _ _ Hi i _ Hl) as [[Hnext _] _].
  destruct (pop_limbo s g i b l Hi Hl) as [Hi1 Hlb]. destruct (pool_ptr_range i Hlt) as [_ Hrng].
  unfold take_block. eapply runs_bind_ret; [by apply (get_pool_ret s g i (b :: l))|]. cbn [head hd].
  eapply runs_bind_ret; [by apply (load_ret s g)|]. unfold set_head.
  eapply runs_bind_ret; [done|]. destruct (limbo_header _ _ i b Hi1 Hlb) as [Hb0 Hb8].
  eapply runs_bind; [apply (store_runs _ _ b (pool_ptr i) Hi1 Hb0)|].
  { cbn. rewrite (ba_page _ _ _ Hba). eauto. } { zdm. } { done. }
  cbn beta. intros _ s2 (Hi2 & _ & Hr2). set (g2 := set_words _ _) in Hi2.
  assert (Hlb2 : limbo g2 i b) by (by destruct Hlb).
  destruct (limbo_header _ _ i b Hi2 Hlb2) as [_ Hb8'].
  eapply runs_bind; [apply (store_runs _ _ (b + 8) 0 Hi2 Hb8')|].
  { cbn. rewrite (block_at_page _ i) by (done || lia). rewrite (ba_page _ _ _ Hba). eauto. }
  { zdm. } { by unfold in_range. }
  cbn beta. intros _ s3 (Hi3 & _ & Hr3). apply runs_ret. split; [|split; [|by rewrite Hr3, Hr2]].
  - unfold HEADER_SIZE. rewrite wrap_small; [done|unfold in_range; lia].
  - eapply (inv_live s3 _ i b) in Hi3; [exact Hi3|by destruct Hlb2| |].
    + cbn. rewrite lookup_insert_ne by lia. apply lookup_insert_eq.
    + cbn. apply lookup_insert_eq.
Qed.

(** *** What the callers see *)

Lemma allocated_owner s g a n p : heap_inv s g -> allocated g a n ->
  a - HEADER_SIZE <= p < a + n ->
  (exists j, live g !! (a - HEADER_SIZE) = Some j /\ block_at (owners g) j (a - HEADER_SIZE) /\
     n = bsize j - HEADER_SIZE /\ owners g !! page_of p = Some (OPool j)) \/
  owners g !! page_of p = Some (OLarge (a - HEADER_SIZE)).
Proof.
  intros Hi Ha Hp. destruct Ha as [b j Hb|b sz Hb];
    replace (b + HEADER_SIZE - HEADER_SIZE) with b in * by lia.
  - left. exists j. destruct (hi_live _ _ Hi b j Hb) as [Hba _]. split; [done|]. split; [done|].
    split; [done|]. replace p with (b + (p - b)) by lia.
    rewrite (block_at_page _ j) by (done || lia). apply Hba.
  - right. destruct (hi_large _ _ Hi b sz Hb) as [Hla _].
    destruct (large_at_ok s g b sz Hi Hla) as (Hpg & _). apply Hla, elem_page_range.
    exists ((p - b) / MMU_PAGE_SIZE). unfold page_of, MMU_PAGE_SIZE in *. split; zdm.
Qed.

Lemma allocated_size s g a n : heap_inv s g -> allocated g a n -> 0 < n.
Proof.
  intros Hi [b j Hb|b sz Hb]; unfold HEADER_SIZE.
  - destruct (hi_live _ _ Hi b j Hb) as [Hba _].
    pose proof (bsize_bounds j (ba_pool _ _ _ Hba)). lia.
  - destruct (hi_large _ _ Hi b sz Hb) as [Hla _]. pose proof (la_size _ _ _ Hla).
    pose proof (pages_for_bounds sz). unfold MMU_PAGE_SIZE in *. lia.
Qed.

(** Two live blocks, headers included, do not overlap. *)
Lemma allocated_apart s g a n a' n' : heap_inv s g -> allocated g a n -> allocated g a' n' ->
  a <> a' -> a + n <= a' - HEADER_SIZE \/ a' + n' <= a - HEADER_SIZE.
Proof.
  intros Hi Ha Ha' Hne.
  destruct (decide (a + n <= a' - HEADER_SIZE)) as [|H1']; [by left|].
  destruct (decide (a' + n' <= a - HEADER_SIZE)) as [|H2']; [by right|]. exfalso.
  pose proof (allocated_size s g a n Hi Ha). pose proof (allocated_size s g a' n' Hi Ha').
  set (p := Z.max (a - HEADER_SIZE) (a' - HEADER_SIZE)).
  destruct (allocated_owner s g a n p Hi Ha) as [(j & _ & Hb & -> & Ho)|Ho]; [unfold HEADER_SIZE in *; lia| |];
  (destruct (allocated_owner s g a' n' p Hi Ha') as [(j' & _ & Hb' & -> & Ho')|Ho']; [unfold HEADER_SIZE in *; lia| |]);
  rewrite Ho in Ho'; try done; injection Ho' as Heq; [subst j'|lia].
  destruct (block_at_apart _ _ _ _ _ Hb Hb'); lia.
Qed.

(** Nor does a live block overlap a block in limbo. *)
Lemma allocated_limbo s g a n i b : heap_inv s g -> allocated g a n -> limbo g i b ->
  b + bsize i <= a - HEADER_SIZE \/ a + n <= b.
Proof.
  intros Hi Ha Hlb. destruct (decide (b + bsize i <= a - HEADER_SIZE)) as [|H1']; [by left|].
  destruct (decide (a + n <= b)) as [|H2']; [by right|]. exfalso. destruct Hlb as [Hba Hlv _].
  pose proof (bsize_bounds i (ba_pool _ _ _ Hba)) as Hbs.
  destruct (decide (a - HEADER_SIZE <= b)) as [Hle|Hle].
  - destruct (allocated_owner s g a n b Hi Ha) as [(j & Hj & Hb & -> & Ho)|Ho]; [unfold HEADER_SIZE in *; lia| |].
    + destruct (block_at_apart _ _ _ _ _ Hb Hba) as [?|?]; [congruence|unfold HEADER_SIZE in *; lia..].
    + rewrite (ba_page _ _ _ Hba) in Ho. done.
  - assert (Hpg : page_of (a - HEADER_SIZE) = page_of b).
    { replace (a - HEADER_SIZE) with (b + (a - HEADER_SIZE - b)) by lia. apply (block_at_page (owners g) i); [done|lia]. }
    pose proof (allocated_size s g a n Hi Ha).
    destruct (allocated_owner s g a n (a - HEADER_SIZE) Hi Ha) as [(j & Hj & Hb & -> & Ho)|Ho]; [unfold HEADER_SIZE in *; lia| |].
    + destruct (block_at_apart _ _ _ _ _ Hb Hba) as [?|?]; [congruence|unfold HEADER_SIZE in *; lia..].
    + rewrite Hpg, (ba_page _ _ _ Hba) in Ho. done.
Qed.

End blocks.

(** ** [kmalloc] and [kfree] *)

Section contracts.
Context {S : Type} `{PageSourceLaws S} `{PoolsAt}.
Implicit Types (s : heap S) (g : ghost).

(** [g'] is [g] with one more live block, of capacity [cap] at [a], apart from the
    others, whose contents it leaves alone. *)
Record adds_block (g g' : ghost) (a cap : Z) : Prop := {
  ab_aligned : a mod 16 = 0 /\ 0 < a;
  ab_allocated : forall a' n, allocated g' a' n <-> (a' = a /\ n = cap) \/ allocated g a' n;
  ab_apart : forall a' n, allocated g a' n -> a + cap <= a' - HEADER_SIZE \/ a' + n <= a - HEADER_SIZE;
  ab_words : forall a' n p, allocated g a' n -> a' <= p < a' + n -> words g' !! p = words g !! p }.

Lemma allocated_insert_live g i b F O V : live g !! b = None ->
  forall a n, allocated (mkGhost F (<[b := i]> (live g)) (large g) O V) a n <->
    (a = b + HEADER_SIZE /\ n = bsize i - HEADER_SIZE) \/ allocated g a n.
Proof.
  intros Hb a n. split.
  - intros [c j Hc|c sz Hc]; cbn in Hc.
    + apply lookup_insert_Some in Hc as [[<- <-]|[_ Hc]]; [by left|]. right. by apply allocated_pool.
    + right. by apply allocated_large.
  - intros [[-> ->]|[c j Hc|c sz Hc]].
    + apply allocated_pool. cbn. apply lookup_insert_eq.
    + apply allocated_pool. cbn. rewrite lookup_insert_ne; [done|]. intros ->. congruence.
    + by apply allocated_large.
Qed.

Lemma take_adds s g i b l : heap_inv s g -> frees g !! i = Some (b :: l) ->
  runs (take_block i) s
    (fun a s' => a = b + HEADER_SIZE /\ exists g', heap_inv s' g' /\
       adds_block g g' a (bsize i - HEADER_SIZE) /\ ps_room (vm s') = ps_room (vm s))
    (fun msg _ => ps_oom msg).
Proof.
  intros Hi Hl. unfold HEADER_SIZE. eapply runs_conseq; [by apply (take_runs s g i b l)| |done].
  cbn beta. intros a s' (-> & Hi' & Hr'). split; [done|]. eexists. split; [exact Hi'|]. split; [|done].
  destruct (hi_free _ _ Hi i _ b Hl ltac:(left)) as [Hba Hlv].
  destruct (pop_limbo s g i b l Hi Hl) as [Hi1 Hlb].
  pose proof (bsize_bounds i (ba_pool _ _ _ Hba)) as Hbs.
  destruct (block_at_ok s g i b Hi Hba) as (H16 & Hpos & _).
  assert (Hap : forall a' n, allocated g a' n -> b + bsize i <= a' - HEADER_SIZE \/ a' + n <= b).
  { intros a' n Ha'. eapply (allocated_limbo _ _ a' n i b Hi1); [|done].
    destruct Ha'; [by apply allocated_pool|by apply allocated_large]. }
  unfold HEADER_SIZE in *. split.
  - split; [zdm|lia].
  - by apply allocated_insert_live.
  - intros a' n Ha'. unfold HEADER_SIZE. destruct (Hap a' n Ha'); lia.
  - intros a' n p Ha' Hp. cbn. unfold header_words.
    destruct (Hap a' n Ha'); rewrite !lookup_insert_ne; done || lia.
Qed.

Lemma kmalloc_pool s g i : heap_inv s g -> (i < BLOCK_SIZES_LEN)%nat -> MMU_PAGE_SIZE <= ps_room (vm s) ->
  runs (pool ← get_pool i;
        (if head pool =? 0 then pool_allocate_page i else mret tt) ;;
        take_block i) s
    (fun a s' => exists g', heap_inv s' g' /\ adds_block g g' a (bsize i - HEADER_SIZE) /\
       ps_room (vm s) - MMU_PAGE_SIZE <= ps_room (vm s'))
    (fun msg _ => ps_oom msg).
Proof.
  intros Hi Hlt Hroom. destruct (frees_lookup s g i Hi Hlt) as [l Hl].
  eapply runs_bind_ret; [by apply (get_pool_ret s g i l)|]. cbn [head].
  destruct l as [|b l]; cbn [hd].
  - eapply runs_bind; [by apply (pool_allocate_page_runs s g i [])|].
    cbn beta. intros _ s1 (l' & V' & page & Hnew & Hi1 & Hne & Hr1 & Hkeep).
    destruct l' as [|b l']; [done|].
    eapply runs_conseq; [apply (take_adds _ _ i b l' Hi1)| |done].
    { cbn. apply list_lookup_insert_eq. by rewrite (hi_frees _ _ Hi). }
    cbn beta. intros a s' (_ & g' & Hi' & Hadd & Hr'). exists g'. split; [done|].
    destruct Hadd as [Ha Hal Hap Hwd]. split; [|lia].
    assert (Heq : forall a' n, allocated g a' n <-> allocated (mkGhost (<[i := b :: l']> (frees g)) (live g)
        (large g) (<[page := OPool i]> (owners g)) V') a' n).
    { intros a' n. split; intros []; (by apply allocated_pool) || (by apply allocated_large). }
    split.
    + done.
    + intros a' n. by rewrite Hal, Heq.
    + intros a' n Ha'. apply Hap. by apply Heq.
    + intros a' n p Ha' Hp. rewrite (Hwd a' n p) by (done || by apply Heq). cbn. apply Hkeep. intros E.
      destruct (allocated_owner s g a' n p Hi Ha') as [(?&_&_&_&Ho)|Ho];
        [unfold HEADER_SIZE; lia|rewrite E in Ho; congruence..].
  - destruct (hi_free _ _ Hi i _ b Hl ltac:(left)) as [Hba _].
    destruct (block_at_ok s g i b Hi Hba) as (_ & Hpos & _). rewrite (proj2 (Z.eqb_neq _ _)) by lia.
    eapply runs_bind_ret; [done|]. eapply runs_conseq; [by apply (take_adds s g i b l)| |done].
    cbn beta. intros a s' (_ & g' & Hi' & Hadd & Hr'). exists g'. unfold MMU_PAGE_SIZE. split_and!; [done..|lia].
Qed.

(** Allocating a large block. *)
Lemma inv_large s g b sz : heap_inv s g -> large_at (owners g) b sz ->
  words g !! b = Some 0 -> words g !! (b + 8) = Some sz -> heap_inv s (set_large (<[b := sz]> (large g)) g).
Proof.
  intros Hi Hla Hw Hw8. destruct Hi as [? ? ? ? ? ? Hlg]. split; try done; cbn.
  intros c z Hc. apply lookup_insert_Some in Hc as [[<- <-]|[_ Hc]]; [done|]. by apply Hlg.
Qed.

Definition own_pages (b n : Z) (O : gmap Z owner) : gmap Z owner :=
  set_to_map (fun p => (p, OLarge b)) (page_range b n) ∪ O.

Lemma lookup_own_pages b n O p : own_pages b n O !! p =
  if decide (p ∈ page_range b n) then Some (OLarge b) else O !! p.
Proof.
  unfold own_pages. destruct (decide (p ∈ page_range b n)) as [Hp|Hp].
  - apply lookup_union_Some_l. apply lookup_set_to_map; [done|]. by exists p.
  - rewrite lookup_union_r; [done|]. apply eq_None_not_Some. intros [w Hw].
    apply lookup_set_to_map in Hw as (q & Hq & [= -> _]); done.
Qed.

Lemma dom_own_pages b n O : dom (own_pages b n O) = page_range b n ∪ dom O.
Proof.
  apply set_eq. intros p. rewrite elem_of_dom, lookup_own_pages, elem_of_union, elem_of_dom.
  case_decide; split; [by left|by eexists|by right|by intros []].
Qed.

Lemma new_large g b n sz F O V : b mod 16 = 0 -> 0 < b -> 16 <= n -> n = MMU_PAGE_SIZE * pages_for sz ->
  large g !! b = None ->
  (forall a m p, allocated g a m -> a - HEADER_SIZE <= p < a + m -> ~ b <= p < b + n) ->
  (forall a m, allocated g a m -> 0 < m) ->
  (forall p, ~ b <= p < b + n -> V !! p = words g !! p) ->
  adds_block g (mkGhost F (live g) (<[b := sz]> (large g)) O V) (b + HEADER_SIZE) (n - HEADER_SIZE).
Proof.
  intros H16 Hpos Hn16 -> Hnone Hfar Hsize HV. unfold HEADER_SIZE in *. split.
  - split; [zdm|lia].
  - intros a m. split.
    + intros [c j Hc|c z Hc]; cbn in Hc; [right; by apply allocated_pool|].
      apply lookup_insert_Some in Hc as [[<- <-]|[_ Hc]]; [by left|]. right. by apply allocated_large.
    + intros [[-> ->]|[c j Hc|c z Hc]]; [|by apply allocated_pool|]; apply allocated_large; cbn.
      * apply lookup_insert_eq.
      * rewrite lookup_insert_ne; [done|]. intros ->. congruence.
  - intros a m Ha. pose proof (Hsize a m Ha). unfold HEADER_SIZE.
    pose proof (Hfar a m (Z.max b (a - 16)) Ha). lia.
  - intros a m p Ha Hp. apply HV, (Hfar a m p Ha). lia.
Qed.

Lemma kmalloc_large s g size : heap_inv s g -> 2032 < size ->
  int_ok (size + HEADER_SIZE + MMU_PAGE_SIZE) = true ->
  size + HEADER_SIZE + MMU_PAGE_SIZE <= ps_room (vm s) ->
  let sz := size + HEADER_SIZE in
  runs (addr ← vmop (ps_alloc_pages (sint 32 (pages_for sz)));
        vmop (ps_store addr 0) ;;
        vmop (ps_store (addr + 8) sz) ;;
        mret (u64 (addr + HEADER_SIZE))) s
    (fun a s' => exists g', heap_inv s' g' /\ adds_block g g' a (MMU_PAGE_SIZE * pages_for sz - HEADER_SIZE) /\
       ps_room (vm s') = ps_room (vm s) - MMU_PAGE_SIZE * pages_for sz)
    (fun msg _ => ps_oom msg).
Proof.
  intros Hi Hsz Hint Hroom sz. unfold HEADER_SIZE in *.
  destruct (pages_for_bounds sz ltac:(lia)) as [Hn Hfit].
  assert (Hok : int_ok (MMU_PAGE_SIZE * pages_for sz) = true).
  { unfold int_ok in *. rewrite andb_true_iff, Z.leb_le, Z.ltb_lt in *. lia. }
  rewrite sint32_pages by (done || lia).
  eapply runs_vmop_bind; [apply (ps_alloc_pages_law _ _ _ _ (hi_holds _ _ Hi) Hn Hok); lia|].
  cbn beta. intros b v (Hdisj & Hh & Hr1).
  set (O := own_pages b (pages_for sz) (owners g)).
  assert (HO : forall p, p ∈ page_range b (pages_for sz) -> O !! p = Some (OLarge b)).
  { intros p Hp. subst O. by rewrite lookup_own_pages, decide_True. }
  assert (Hold : forall p w, owners g !! p = Some w -> p ∉ page_range b (pages_for sz)).
  { intros p w Hp Hin. apply (Hdisj p Hin). by eapply elem_of_dom_2. }
  assert (Hi1 : heap_inv (mkHeap (pools s) v) (set_owners O g)).
  { apply inv_grow; [done| |by subst O; rewrite dom_own_pages].
    apply map_subseteq_spec. intros p w Hp. subst O.
    rewrite lookup_own_pages, decide_False; [done|by eapply Hold]. }
  assert (Hla : large_at O b sz) by (split; [unfold sz; lia|done|exact HO]).
  destruct (large_at_ok _ (set_owners O g) b sz Hi1 Hla) as (Hpg & Hob & H16 & Hpos & Hhi).
  assert (Hb8 : page_of (b + 8) = b).
  { rewrite <- Hpg at 2. apply page_of_unique; [apply page_of_page|].
    rewrite Hpg. unfold MMU_PAGE_SIZE. lia. }
  assert (Hbk : forall p, p = b \/ p = b + 8 -> ~ bookkeeping (set_owners O g) p).
  { intros p Hp Hk. destruct (bookkeeping_block s g p Hi) as (c & Hpc & Hc16 & Hc).
    { destruct Hk; [by eapply bk_free|by eapply bk_live|by eapply bk_large]. }
    assert (c = b) as -> by (clear - Hp Hpc H16 Hc16; destruct Hp, Hpc; zdm).
    destruct Hc as [(i & [_ _ Hbo] & _)|[z Hz] ].
    - rewrite Hpg in Hbo. apply (Hold _ _ Hbo), elem_page_range. exists 0. lia.
    - destruct (hi_large _ _ Hi b z Hz) as [Hlz _].
      destruct (large_at_ok s g b z Hi Hlz) as (_ & Hoz & _).
      apply (Hold _ _ Hoz), elem_page_range. exists 0. lia. }
  eapply runs_bind; [apply (store_runs _ _ b 0 Hi1)|];
    [by apply Hbk; left|by rewrite Hpg; cbn; eauto|zdm|by unfold in_range|].
  cbn beta. intros _ s2 (Hi2 & _ & Hr2).
  eapply runs_bind; [apply (store_runs _ _ (b + 8) sz Hi2)|];
    [|by rewrite Hb8; cbn; eauto|zdm| |].
  { intros Hk. apply (Hbk (b + 8)); [by right|].
    destruct Hk; [by eapply bk_free|by eapply bk_live|by eapply bk_large]. }
  { unfold int_ok in Hint. rewrite andb_true_iff, Z.leb_le, Z.ltb_lt in Hint.
    unfold in_range, MMU_PAGE_SIZE, sz in *. lia. }
  cbn beta. intros _ s3 (Hi3 & _ & Hr3). apply runs_ret.
  rewrite wrap_small by (unfold in_range; lia).
  eapply (inv_large s3 _ b sz) in Hi3;
    [|done|cbn; rewrite lookup_insert_ne by lia; apply lookup_insert_eq|cbn; apply lookup_insert_eq].
  eexists. split; [exact Hi3|]. split; [|by rewrite Hr3, Hr2].
  assert (Hin : forall p, b <= p < b + MMU_PAGE_SIZE * pages_for sz -> page_of p ∈ page_range b (pages_for sz)).
  { intros p Hp. apply elem_page_range. exists ((p - b) / MMU_PAGE_SIZE).
    unfold page_of, MMU_PAGE_SIZE in *. split; zdm. }
  apply (new_large g b (MMU_PAGE_SIZE * pages_for sz) sz (frees g) O (header_words b 0 sz (words g))); [done..|unfold MMU_PAGE_SIZE in *; lia|done| | | |].
  - destruct (large g !! b) as [z|] eqn:E; [|done]. exfalso.
    destruct (Hbk b); [by left|]. eapply bk_large; [exact E|by left].
  - intros a n p Ha Hp Hpb.
    destruct (allocated_owner s g a n p Hi Ha Hp) as [(?&_&_&_&Ho)|Ho]; by apply (Hold _ _ Ho), Hin.
  - intros a n. by apply (allocated_size s).
  - intros p Hp. unfold header_words, MMU_PAGE_SIZE in *. rewrite !lookup_insert_ne by lia. done.
Qed.

End contracts.

Section theorems.
Context {S : Type} `{PageSourceLaws S} `{PoolsAt}.
Implicit Types (s : heap S) (g : ghost).

(** After [init_alloc] the heap is empty. *)
Definition empty_ghost : ghost := mkGhost (repeat [] BLOCK_SIZES_LEN) ∅ ∅ ∅ ∅.

Lemma init_alloc_heap s : ps_holds (vm s) ∅ ∅ ->
  exists s', init_alloc s = Ret tt s' /\ vm s' = vm s /\ heap_inv s' empty_ghost.
Proof.
  intros Hh. eexists. split; [done|]. split; [done|]. split; cbn; try done.
  - intros i l Hl. repeat (destruct i as [|i]; [injection Hl as <-; split; [done|constructor]|]). done.
  - intros i l b Hl Hb. repeat (destruct i as [|i]; [injection Hl as <-; by apply not_elem_of_nil in Hb|]). done.
Qed.

(** A block of [cap] bytes serves a request for [size]; small requests get blocks of
    the pools. *)
Definition fits (size cap : Z) : Prop :=
  size <= cap < size + MMU_PAGE_SIZE /\ (size <= 2032 -> cap <= 2032).

(** The address space a request may take. *)
Definition room_for (size : Z) : Z := size + HEADER_SIZE + MMU_PAGE_SIZE.

Lemma kmalloc_runs s g size :
  heap_inv s g -> 0 <= size -> int_ok (room_for size) = true -> room_for size <= ps_room (vm s) ->
  runs (kmalloc size) s
    (fun a s' => exists g' cap, heap_inv s' g' /\ fits size cap /\ adds_block g g' a cap /\
       ps_room (vm s) - room_for size <= ps_room (vm s'))
    (fun msg _ => ps_oom msg).
Proof.
  intros Hi Hsz Hint Hroom. unfold room_for in *. unfold kmalloc. apply runs_bind_gets.
  rewrite (hi_pools _ _ Hi). change (zip_with _ _ _) with (pools_of (frees g)).
  destruct (find_pool_spec _ size (hi_frees _ _ Hi) Hsz) as [[Hlt Hfit]|[-> Hbig]].
  - rewrite (proj2 (Nat.ltb_lt _ _) Hlt).
    eapply runs_conseq; [apply (kmalloc_pool s g _ Hi Hlt)| |done].
    + unfold HEADER_SIZE, MMU_PAGE_SIZE in *. lia.
    + intros a s' (g' & Hi' & Hadd & Hr). pose proof (bsize_bounds _ Hlt). unfold HEADER_SIZE, MMU_PAGE_SIZE in *.
      eexists _, _. split; [done|]. split; [|split; [exact Hadd|lia]]. unfold fits, MMU_PAGE_SIZE. lia.
  - rewrite Nat.ltb_irrefl.
    rewrite (wrap_small 64 (size + HEADER_SIZE)).
    + eapply runs_conseq; [by apply (kmalloc_large s g size)| |done].
      intros a s' (g' & Hi' & Hadd & Hr). eexists g', _. split; [done|]. split; [|split; [exact Hadd|]];
        unfold fits, HEADER_SIZE in *; pose proof (pages_for_bounds (size + 16)); lia.
    + unfold int_ok in Hint. rewrite andb_true_iff, Z.leb_le, Z.ltb_lt in Hint.
      unfold in_range, HEADER_SIZE, MMU_PAGE_SIZE in *. lia.
Qed.

(** C7: [kmalloc] of any size whose page count fits an int halts only when the
    page source does; otherwise it returns a 16-aligned non-null address with room
    for the request, adds exactly that block to the live ones, apart from every
    other block and its header, leaves the contents of all of them alone, and keeps
    the heap invariant. *)
Theorem kmalloc_correct s g size :
  heap_inv s g -> 0 <= size -> int_ok (size + HEADER_SIZE + MMU_PAGE_SIZE) = true ->
  size + HEADER_SIZE + MMU_PAGE_SIZE <= ps_room (vm s) ->
  runs (kmalloc size) s
    (fun a s' => exists g' cap, heap_inv s' g' /\ size <= cap /\ adds_block g g' a cap)
    (fun msg _ => ps_oom msg).
Proof.
  intros Hi Hsz Hint Hroom. eapply runs_conseq; [by apply (kmalloc_runs s g size)| |done].
  intros a s' (g' & cap & ? & [[? _] _] & ? & _). eauto.
Qed.

End theorems.

Section release.
Context {S : Type} `{PageSourceLaws S} `{PoolsAt}.
Implicit Types (s : heap S) (g : ghost).

(** [g'] is [g] without its live block at [a]; the others keep their contents. *)
Record removes_block (g g' : ghost) (a : Z) : Prop := {
  rb_allocated : forall a' n, allocated g' a' n <-> a' <> a /\ allocated g a' n;
  rb_words : forall a' n p, allocated g a' n -> a' <> a -> a' <= p < a' + n ->
    words g' !! p = words g !! p }.

Lemma live_not_large s g b i : heap_inv s g -> live g !! b = Some i -> large g !! b = None.
Proof.
  intros Hi Hb. destruct (large g !! b) as [sz|] eqn:E; [|done].
  destruct (hi_live _ _ Hi b i Hb) as [[_ _ Ho] _]. destruct (hi_large _ _ Hi b sz E) as [Hla _].
  destruct (large_at_ok s g b sz Hi Hla) as (Hpg & Ho' & _). congruence.
Qed.

Lemma u64_header b : 0 < b < 2 ^ 48 -> u64 (b + HEADER_SIZE - HEADER_SIZE) = b.
Proof. intros. rewrite Z.add_simpl_r. apply wrap_small. unfold in_range. lia. Qed.

(** Freeing a pool block pushes it on its pool's list. *)
Lemma kfree_pool s g b i l : heap_inv s g -> live g !! b = Some i -> frees g !! i = Some l ->
  runs (kfree (b + HEADER_SIZE)) s
    (fun _ s' => exists g', heap_inv s' g' /\ removes_block g g' (b + HEADER_SIZE) /\
       frees g' !! i = Some (b :: l) /\ ps_room (vm s') = ps_room (vm s))
    (fun msg _ => ps_oom msg).
Proof.
  intros Hi Hb Hl. destruct (hi_live _ _ Hi b i Hb) as (Hba & Hw & Hw8).
  pose proof (ba_pool _ _ _ Hba) as Hlt. destruct (block_at_ok s g i b Hi Hba) as (H16 & Hpos & Hhi).
  pose proof (bsize_bounds i Hlt) as Hbs. unfold kfree. rewrite u64_header by lia.
  eapply runs_bind_ret; [by apply (load_ret s g)|]. eapply runs_bind_ret; [by apply (load_ret s g)|].
  destruct (pool_ptr_range i Hlt) as [Hnz _]. rewrite (proj2 (Z.eqb_neq _ _) Hnz). cbn [negb].
  rewrite pool_index_ptr. destruct (inv_unlive s g i b Hi Hb) as [Hi1 Hlb].
  eapply runs_conseq; [by apply (push_runs s _ i b l Hi1 Hlb)| |done].
  cbn beta. intros _ s' [Hi' Hr']. eexists. split; [exact Hi'|]. split; [|split; [|done]].
  - split.
    + intros a n. split.
      * intros [c j Hc|c sz Hc]; cbn in Hc.
        -- apply lookup_delete_Some in Hc as [Hne Hc]. split; [lia|]. by apply allocated_pool.
        -- split; [|by apply allocated_large]. intros E. assert (c = b) as -> by lia.
           rewrite (live_not_large s g b i) in Hc; done.
      * intros [Hne Ha]; destruct Ha as [c j Hc|c sz Hc]; [|by apply allocated_large].
        apply allocated_pool. cbn. rewrite lookup_delete_ne; [done|]. intros E. apply Hne. lia.
    + intros a n p Ha Hne Hp. cbn. apply lookup_insert_ne. intros <-.
      destruct (allocated_apart s g _ _ _ _ Hi (allocated_pool g b i Hb) Ha (not_eq_sym Hne)) as [?|?];
        unfold HEADER_SIZE in *; lia.
  - cbn. apply list_lookup_insert_eq. by rewrite (hi_frees _ _ Hi).
Qed.

(** A large block at [b] has been touched in each of its pages. *)
Definition touched (g : ghost) (b : Z) : Prop :=
  forall sz p, large g !! b = Some sz -> p ∈ page_range b (pages_for sz) ->
    exists q w, page_of q = p /\ words g !! q = Some w.

(** Dropping the pages of a large block. *)
Lemma inv_drop s g b sz v : heap_inv s g -> large g !! b = Some sz ->
  let pgs := page_range b (pages_for sz) in
  let O := filter (fun e => e.1 ∉ pgs) (owners g) in
  let V := filter (fun e => page_of e.1 ∉ pgs) (words g) in
  ps_holds v (dom (owners g) ∖ pgs) V ->
  heap_inv (mkHeap (pools s) v) (mkGhost (frees g) (live g) (delete b (large g)) O V).
Proof.
  intros Hi Hb pgs O V Hv. destruct (hi_large _ _ Hi b sz Hb) as [Hlb _].
  assert (HO : forall p o, owners g !! p = Some o -> o <> OLarge b -> O !! p = Some o).
  { intros p o Hp Hne. apply map_lookup_filter_Some. split; [done|]. cbn. intros Hin.
    rewrite (la_pages _ _ _ Hlb p Hin) in Hp. congruence. }
  assert (HV : forall p o w, owners g !! page_of p = Some o -> o <> OLarge b ->
    words g !! p = Some w -> V !! p = Some w).
  { intros p o w Hp Hne Hw. apply map_lookup_filter_Some. split; [done|]. cbn. intros Hin.
    rewrite (la_pages _ _ _ Hlb _ Hin) in Hp. congruence. }
  assert (Hblk : forall i c, block_at (owners g) i c -> block_at O i c).
  { intros i c [Hi1 Ha Ho]. split; [done..|]. by apply HO. }
  split; cbn.
  - apply (hi_pools _ _ Hi).
  - apply (hi_frees _ _ Hi).
  - replace (dom O) with (dom (owners g) ∖ pgs); [done|]. apply set_eq. intros p.
    rewrite elem_of_difference, !elem_of_dom. subst O. split.
    + intros [[o Ho] Hp]. exists o. by apply map_lookup_filter_Some.
    + intros [o Ho]. apply map_lookup_filter_Some in Ho as [Ho Hp]. by split; [exists o|].
  - intros i l Hl. destruct (hi_chain _ _ Hi i l Hl) as [Hc Hnd]. split; [|done].
    assert (Hall : forall c, c ∈ l -> block_at (owners g) i c) by (intros c Hc'; by apply (hi_free _ _ Hi i l c)).
    clear Hl Hnd. induction l as [|c l IH]; [done|]. destruct Hc as [Hw Hc]. split.
    + eapply HV; [apply (Hall c); left|done|done].
    + apply IH; [done|]. intros d Hd. apply Hall. by right.
  - intros i l c Hl Hc. destruct (hi_free _ _ Hi i l c Hl Hc). eauto.
  - intros c i Hc. destruct (hi_live _ _ Hi c i Hc) as (Hba & Hw & Hw8). split; [by apply Hblk|].
    pose proof (bsize_bounds i (ba_pool _ _ _ Hba)).
    split; apply (HV _ (OPool i)); try done; [apply Hba|].
    rewrite (block_at_page (owners g) i) by (done || lia). apply Hba.
  - intros c z Hc. apply lookup_delete_Some in Hc as [Hne Hc].
    destruct (hi_large _ _ Hi c z Hc) as (Hla & Hw & Hw8).
    destruct (large_at_ok s g c z Hi Hla) as (Hpg & Ho & _).
    assert (Hne' : OLarge c <> OLarge b) by congruence. split; [|split].
    + destruct Hla as [Hs Hn Hp]. split; [done..|]. intros p Hin. apply HO; [by apply Hp|done].
    + eapply HV; [rewrite Hpg; exact Ho|done..].
    + apply (HV _ (OLarge c)); [|done..]. rewrite <- Ho. f_equal. rewrite <- Hpg at 2.
      apply page_of_unique; [apply page_of_page|]. rewrite Hpg. unfold MMU_PAGE_SIZE. lia.
Qed.

Lemma kfree_large s g b sz : heap_inv s g -> large g !! b = Some sz -> touched g b ->
  exists s' g', kfree (b + HEADER_SIZE) s = Ret tt s' /\ heap_inv s' g' /\
    removes_block g g' (b + HEADER_SIZE) /\ ps_room (vm s') = ps_room (vm s).
Proof.
  intros Hi Hb Ht. destruct (hi_large _ _ Hi b sz Hb) as (Hla & Hw & Hw8).
  destruct (large_at_ok s g b sz Hi Hla) as (Hpg & Ho & H16 & Hpos & Hhi).
  pose proof (la_size _ _ _ Hla) as Hsz. destruct (pages_for_bounds sz ltac:(lia)) as [Hn _].
  unfold kfree. rewrite u64_header by lia.
  rewrite (bind_ret _ _ _ _ _ (load_ret s g b 0 Hi Hw)), (bind_ret _ _ _ _ _ (load_ret s g _ _ Hi Hw8)).
  cbn [negb Z.eqb]. rewrite sint32_pages by (apply Hla || lia).
  assert (Hpa : page_of (b + HEADER_SIZE) = b).
  { rewrite <- Hpg at 2. apply page_of_unique; [apply page_of_page|]. rewrite Hpg. unfold HEADER_SIZE, MMU_PAGE_SIZE. lia. }
  destruct (ps_free_pages_law (vm s) _ _ (b + HEADER_SIZE) (pages_for sz) (hi_holds _ _ Hi) Hn) as (v & Hv & Hr & Hh).
  { apply Hla. }
  { rewrite Hpa. intros p Hp. pose proof (la_pages _ _ _ Hla p Hp) as Hop.
    split; [by eapply elem_of_dom_2|by eapply Ht]. }
  rewrite Hpa in Hh. unfold vmop. erewrite zoom_ret by exact Hv.
  eexists _, _. split; [done|]. split; [by eapply (inv_drop s g b sz)|]. split; [|done]. split.
  - intros a n. split.
    + intros [c j Hc|c z Hc]; cbn in Hc.
      * split; [|by apply allocated_pool]. intros E. assert (c = b) as -> by lia.
        rewrite (live_not_large s g b j) in Hb; done.
      * apply lookup_delete_Some in Hc as [Hne Hc]. split; [lia|]. by apply allocated_large.
    + intros [Hne Ha]; destruct Ha as [c j Hc|c z Hc]; [by apply allocated_pool|].
      apply allocated_large. cbn. rewrite lookup_delete_ne; [done|]. intros E. apply Hne. lia.
  - intros a n p Ha Hne Hp. cbn.
    assert (Hnin : page_of p ∉ page_range b (pages_for sz)).
    { intros Hin. pose proof (la_pages _ _ _ Hla _ Hin) as Hop.
      destruct (allocated_owner s g a n p Hi Ha) as [(?&_&_&_&Ho')|Ho']; [unfold HEADER_SIZE; lia|congruence|].
      rewrite Hop in Ho'. injection Ho' as Ho'. unfold HEADER_SIZE in *. lia. }
    destruct (words g !! p) as [w|] eqn:E.
    + by apply map_lookup_filter_Some.
    + apply map_lookup_filter_None. by left.
Qed.

Lemma kfree_runs s g a n :
  heap_inv s g -> allocated g a n ->
  touched g (a - HEADER_SIZE) ->
  runs (kfree a) s
    (fun _ s' => exists g', heap_inv s' g' /\ removes_block g g' a /\ ps_room (vm s') = ps_room (vm s))
    (fun msg _ => ps_oom msg).
Proof.
  intros Hi [b i Hb|b sz Hb] Ht.
  - destruct (hi_live _ _ Hi b i Hb) as [Hba _].
    destruct (frees_lookup s g i Hi (ba_pool _ _ _ Hba)) as [l Hl].
    eapply runs_conseq; [by apply (kfree_pool s g b i l)| |done].
    intros _ s' (g' & Hi' & Hr & _ & Hroom). eauto.
  - rewrite Z.add_simpl_r in Ht. destruct (kfree_large s g b sz Hi Hb Ht) as (s' & g' & Hs & Hi' & Hr & Hroom).
    unfold runs. rewrite Hs. eauto.
Qed.


(** A pool block that was freed is the one the next request of its size class
    gets. *)
Theorem kfree_kmalloc_reuse s g a i size :
  heap_inv s g -> live g !! (a - HEADER_SIZE) = Some i ->
  find_pool (pools s) size = i ->
  runs (kfree a ;; kmalloc size) s (fun a' _ => a' = a) (fun msg _ => ps_oom msg).
Proof.
  intros Hi Hb Hfind. destruct (hi_live _ _ Hi _ i Hb) as [Hba _].
  pose proof (ba_pool _ _ _ Hba) as Hlt.
  destruct (frees_lookup s g i Hi Hlt) as [l Hl].
  pose proof (kfree_pool s g _ i l Hi Hb Hl) as Hk. rewrite Z.sub_add in Hk.
  eapply runs_bind; [exact Hk|].
  cbn beta. intros _ s' (g' & Hi' & _ & Hl' & _). unfold kmalloc. apply runs_bind_gets.
  assert (Hsame : find_pool (pools s') size = i).
  { rewrite (hi_pools _ _ Hi) in Hfind. rewrite (hi_pools _ _ Hi').
    rewrite <- Hfind. pose proof (hi_frees _ _ Hi) as E. pose proof (hi_frees _ _ Hi') as E'.
    destruct (six_lists _ E) as (?&?&?&?&?&?& ->), (six_lists _ E') as (?&?&?&?&?&?& ->). done. }
  rewrite Hsame, (proj2 (Nat.ltb_lt _ _) Hlt).
  destruct (hi_free _ _ Hi' i _ _ Hl' ltac:(left)) as [Hba' _].
  destruct (block_at_ok s' g' i _ Hi' Hba') as (_ & Hpos & _).
  eapply runs_bind_ret; [by apply (get_pool_ret s' g' i (a - HEADER_SIZE :: l) Hi')|]. cbn [head hd].
  rewrite (proj2 (Z.eqb_neq _ _)) by lia. eapply runs_bind_ret; [done|].
  eapply runs_conseq; [by apply (take_adds s' g' i (a - HEADER_SIZE) l)| |done].
  cbn beta. intros a' s'' [-> _]. lia.
Qed.

End release.

(** ** A page source for the witnesses: pages cut off a break, never reclaimed *)

Module Flat.

Record flat := mkFlat { f_brk : Z; f_pages : gset Z; f_words : gmap Z Z }.

Definition f_limit : Z := 2 ^ 40.

Definition f_take (n : Z) : M flat Z := fun s =>
  if f_brk s + MMU_PAGE_SIZE * n <=? f_limit
  then Ret (f_brk s) (mkFlat (f_brk s + MMU_PAGE_SIZE * n) (page_range (f_brk s) n ∪ f_pages s) (f_words s))
  else Halted "out of memory" [] s.

Definition f_free (va n : Z) : M flat unit := fun s =>
  Ret tt (mkFlat (f_brk s) (f_pages s ∖ page_range (page_of va) n)
            (filter (fun e => page_of e.1 ∉ page_range (page_of va) n) (f_words s))).

#[export] Instance flat_source : PageSource flat := {|
  ps_load p := fun s => match f_words s !! p with Some w => Ret w s | None => Fault end;
  ps_store p w := fun s =>
    if decide (page_of p ∈ f_pages s) then Ret tt (mkFlat (f_brk s) (f_pages s) (<[p := w]> (f_words s)))
    else Fault;
  ps_alloc_page := f_take 1;
  ps_alloc_pages := f_take;
  ps_free_pages := f_free |}.

Record flat_holds (s : flat) (A : gset Z) (V : gmap Z Z) : Prop := {
  fh_brk : f_brk s mod MMU_PAGE_SIZE = 0 /\ 0 < f_brk s <= f_limit;
  fh_pages : f_pages s = A;
  fh_words : f_words s = V;
  fh_ok : forall p, p ∈ A -> page_ok p /\ p < f_brk s }.

Lemma f_take_runs s A V n : flat_holds s A V -> 0 < n ->
  runs (f_take n) s
    (fun va s' => va = f_brk s /\ page_range va n ## A /\ flat_holds s' (page_range va n ∪ A) V /\
       f_limit - f_brk s' = f_limit - f_brk s - MMU_PAGE_SIZE * n)
    (fun msg _ => msg = "out of memory"%string).
Proof.
  intros [[Ha Hb] Hp Hw Hok] Hn. unfold runs, f_take. destruct (Z.leb_spec (f_brk s + MMU_PAGE_SIZE * n) f_limit); [|done].
  subst A V. split; [done|]. split.
  { intros p Hin Hold. apply elem_page_range in Hin as (k & Hk & ->). destruct (Hok _ Hold).
    unfold MMU_PAGE_SIZE in *. lia. }
  split; [|cbn; lia]. split; cbn; [|done..|].
  - unfold MMU_PAGE_SIZE in *. split; [zdm|lia].
  - intros p Hin. apply elem_of_union in Hin as [Hin|Hin].
    + apply elem_page_range in Hin as (k & Hk & ->). unfold f_limit, MMU_PAGE_SIZE in *.
      split; [split; unfold MMU_PAGE_SIZE|]; [zdm|lia..].
    + destruct (Hok p Hin). split; [done|]. unfold MMU_PAGE_SIZE in *. lia.
Qed.

#[export] Instance flat_laws : PageSourceLaws flat.
Proof.
  refine {| ps_holds := flat_holds; ps_room s := f_limit - f_brk s;
            ps_oom msg := msg = "out of memory"%string |}.
  - intros s A V p Hh Hp. by apply (fh_ok _ _ _ Hh).
  - intros s A V p w [_ _ <- _] Hw. cbn. by rewrite Hw.
  - intros s A V p w [Hb <- <- Hok] Hp _ _. unfold runs. cbn. rewrite decide_True by done.
    split; [|done]. by split.
  - intros s A V Hh _. eapply runs_conseq; [by apply (f_take_runs s A V 1)| |done].
    intros va s' (-> & Hd & Hh' & Hr).
    assert (E : page_range (f_brk s) 1 = {[f_brk s]}).
    { apply set_eq. intros p. rewrite elem_page_range, elem_of_singleton. split.
      - intros (k & Hk & ->). unfold MMU_PAGE_SIZE. lia.
      - intros ->. exists 0. lia. }
    rewrite E in *. split; [|split; [|split; [done|lia] ] ].
    + apply (fh_ok _ _ _ Hh'), elem_of_union. left. by apply elem_of_singleton.
    + intros Hin. eapply Hd; [|exact Hin]. by apply elem_of_singleton.
  - intros s A V n Hh Hn _ _. eapply runs_conseq; [by apply (f_take_runs s A V n)| |done].
    intros va s' (-> & Hd & Hh' & Hr). done.
  - intros s A V va n [Hb <- <- Hok] Hn _ _. eexists. split; [done|]. split; [done|].
    split; [done..|]. intros p Hp. apply Hok. by apply elem_of_difference in Hp as [Hp _].
Defined.

#[export] Instance flat_pools_at : PoolsAt.
Proof. refine {| pools_addr := 1048576 |}; by unfold BLOCK_SIZES_LEN. Defined.

Definition flat_boot : heap flat := mkHeap [] (mkFlat 4194304 ∅ ∅).

Lemma flat_boot_holds : ps_holds (vm flat_boot) ∅ ∅.
Proof. by split. Qed.

(** The heap after [init_alloc] and one [kmalloc(40)]: the 64-byte pool got a page,
    its highest block is live. *)
Definition after_init : heap flat := 
  mkHeap ((fun b => mkPool (b - HEADER_SIZE) 0) <$> block_sizes) (vm flat_boot).
Definition block40 : Z := 4194304 + 4096 - 64.

Lemma after_init_inv : heap_inv after_init empty_ghost.
Proof. destruct (init_alloc_heap flat_boot flat_boot_holds) as (s' & [= <-] & _ & Hi). exact Hi. Qed.

Definition alloc_demo : M (heap flat) (Z * Z * Z * Z) :=
  init_alloc ;; a ← kmalloc 40; b ← kmalloc 41; kfree a ;; c ← kmalloc 20000; d ← kmalloc 48;
  mret (a, b, c, d).

Example alloc_demo_runs :
  match alloc_demo flat_boot with
  | Ret r _ => r = (block40 + 16, block40 - 64 + 16, 4194304 + 4096 + 16, block40 + 16)
  | _ => False
  end.
Proof. by vm_compute. Qed.

End Flat.

Import Flat.

Lemma kmalloc_correct_witness :
  int_ok (40 + HEADER_SIZE + MMU_PAGE_SIZE) = true /\
  runs (kmalloc 40) after_init
    (fun a s' => exists g' cap, heap_inv s' g' /\ 40 <= cap /\ adds_block empty_ghost g' a cap)
    (fun msg _ => ps_oom msg).
Proof.
  split; [reflexivity|]. apply (kmalloc_correct after_init empty_ghost 40 after_init_inv);
    [lia|reflexivity|by vm_compute].
Defined.

(** A heap with one live block, of the 64-byte pool. *)
Lemma one_block : exists s g b, heap_inv s g /\ live g !! b = Some 1%nat /\
  allocated g (b + HEADER_SIZE) 48 /\ find_pool (pools s) 40 = 1%nat.
Proof.
  assert (Hlt : (1 < BLOCK_SIZES_LEN)%nat) by (unfold BLOCK_SIZES_LEN; lia).
  assert (Hruns : runs (pool_allocate_page 1 ;; take_block 1) after_init
    (fun _ s => exists g b, heap_inv s g /\ live g !! b = Some 1%nat) (fun msg _ => ps_oom msg)).
  { eapply runs_bind; [by apply (pool_allocate_page_runs after_init empty_ghost 1 [] after_init_inv)|].
    cbn beta. intros _ s1 (l' & V' & page & _ & Hi1 & Hne & _). destruct l' as [|b l']; [done|].
    eapply runs_conseq; [by apply (take_runs s1 _ 1 b l' Hi1)| |done].
    cbn beta. intros a s2 (_ & Hi2 & _). eexists _, b. split; [exact Hi2|]. apply lookup_insert_eq. }
  assert (Hret : returns (pool_allocate_page 1 ;; take_block 1) after_init = true) by (by vm_compute).
  destruct (runs_returns _ _ _ _ Hruns Hret) as (a & s & _ & g & b & Hi & Hb).
  exists s, g, b. split; [done|]. split; [done|]. split; [by apply (allocated_pool g b 1)|].
  rewrite (hi_pools _ _ Hi). pose proof (hi_frees _ _ Hi) as E.
  by destruct (six_lists _ E) as (?&?&?&?&?&?& ->).
Qed.


Lemma kfree_kmalloc_reuse_witness : exists (s : heap flat) b,
  runs (kfree (b + HEADER_SIZE) ;; kmalloc 40) s
    (fun a' _ => a' = b + HEADER_SIZE) (fun msg _ => ps_oom msg).
Proof.
  destruct one_block as (s & g & b & Hi & Hl & _ & Hf). exists s, b.
  apply (kfree_kmalloc_reuse s g _ 1 40 Hi); [by rewrite Z.add_simpl_r|done].
Defined.
