(* ===== verification/HeapPages.v ===== *)
(** * HeapPages: the kernel heap as memory
    (src/src/page_allocator.c behind src/src/allocator.c)

    The virtual pages of VirtPages.v are memory to their users: an access walks
    the page tables, a missing page traps into [page_fault_handler], which maps a
    frame, and the access is tried again. This file shows that the page allocator
    and that access path keep the promise [PageSource] of Kmalloc.v. *)

From S2P Require Import Prelude Multiboot Frames PageTable VirtPages Kmalloc.

(** ** Accesses through the page tables *)

(** What the processor finds: whether the entry of [p] is there and present. *)
Definition present_at (p : Z) : M mm bool :=
  root ← gets cr3;
  entry ← page_table_get_entry root p false;
  match entry with
  | None => mret false
  | Some e => w ← ld e; mret (e_present w)
  end.

(** The physical address of an access: a page that is not present sets CR2 and
    raises the page fault, after which the instruction is tried again; [tries]
    bounds the faults of one access. *)
Fixpoint translate (tries : nat) (p : Z) : M mm Z :=
  here ← present_at p;
  if (here : bool) then root ← gets cr3; page_table_virt_to_phys_addr root p
  else
    match tries with
    | O => no_fuel
    | S tries => modify (set_cr2 p) ;; page_fault_handler ;; translate tries p
    end.

(** One fault per access is enough. *)
Definition TRIES : nat := 1.

Definition vload (p : Z) : M mm Z := a ← translate TRIES p; ld a.
Definition vstore (p w : Z) : M mm unit := a ← translate TRIES p; st a w.

#[export] Instance mm_source : PageSource mm := {|
  ps_load := vload;
  ps_store := vstore;
  ps_alloc_page := MMU_alloc_page;
  ps_alloc_pages n := MMU_alloc_pages (Z.to_nat n) n;
  ps_free_pages va n := MMU_free_pages (Z.to_nat n) va n |}.

(** ** What the heap's pages hold *)

(** The pages [A] are allocated, the words [V] are in memory. *)
Record heap_view (s : mm) (root : Z) (P : tables) (fs : list Z) (D : residents)
    (A : gset Z) (V : gmap Z Z) : Prop := {
  hv_inv : vm_inv s root P fs D;
  hv_top : brk s <= 2 ^ 48;
  hv_pages : forall p, p ∈ A ->
    page_ok p /\ KERNEL_HEAP_BASE <= p < brk s /\ e_available1 (pte (mem s) P p) <> 0;
  hv_words : forall p w, V !! p = Some w -> page_of p ∈ A /\ p mod 8 = 0 /\
    exists g, D !! vpage p = Some g /\ rd (mem s) (g + p mod MMU_PAGE_SIZE) = w }.

Definition heap_holds (s : mm) (A : gset Z) (V : gmap Z Z) : Prop :=
  exists root P fs D, heap_view s root P fs D A V.

(** ** Addresses *)

Lemma in_page_range p q : page_ok q -> page_of p = q -> in_range 48 p /\ 0 < q <= p.
Proof. intros [_ Hlo Hhi] <-. pose proof (page_of_bounds p). unfold in_range. lia. Qed.

Lemma vpage_page_of p q : page_ok q -> page_of p = q -> vpage p = vpage q.
Proof.
  intros Hq Hp. destruct (in_page_range p q Hq Hp) as [Hr Hpos].
  apply vpage_eq; [done|unfold in_range in *; lia|]. subst q. unfold page_of, MMU_PAGE_SIZE in *. zdm.
Qed.

Lemma vpage_inj p q : in_range 48 p -> in_range 48 q -> vpage p = vpage q -> page_of p = page_of q.
Proof. intros Hp Hq E. apply vpage_eq in E; [|done..]. unfold page_of, MMU_PAGE_SIZE in *. zdm. Qed.

Lemma pte_vpage m P a b : vpage a = vpage b -> pte m P a = pte m P b.
Proof. unfold vpage, pte. intros [-> ->]%app_single_inj. done. Qed.

(** A word of a resident frame is no word of a table. *)
Lemma resident_no_table s root P fs D p g o : vm_inv s root P fs D -> D !! p = Some g ->
  0 <= o < MMU_PAGE_SIZE -> ~ table_word P (g + o).
Proof.
  intros Hinv Hd Ho (q & f & Hf & Hin). destruct (vi_frame _ _ _ _ _ Hinv _ _ Hd) as (Hg & _ & Hne).
  apply (Hne q f Hf). apply (frames_disjoint f g (g + o)); [|done..|lia].
  by eapply pr_frame; [apply (vi_pt _ _ _ _ _ Hinv)|].
Qed.

Lemma resident_word_ok s root P fs D p q g : vm_inv s root P fs D -> D !! p = Some g ->
  q mod 8 = 0 -> word_ok (g + q mod MMU_PAGE_SIZE) = true.
Proof.
  intros Hinv Hd Hq. destruct (vi_frame _ _ _ _ _ Hinv _ _ Hd) as ([Ha Hlo _] & _).
  unfold word_ok, page_aligned, MMU_PAGE_SIZE in *. apply andb_true_iff. split; [zdm|]. apply Z.eqb_eq. zdm.
Qed.

(** ** Translation *)

Lemma present_at_ret s root P fs D p : vm_inv s root P fs D ->
  present_at p s = Ret (e_present (pte (mem s) P p)) s.
Proof.
  intros Hinv. pose proof (pi_rep _ _ _ _ (vi_pt _ _ _ _ _ Hinv)) as Hrep.
  unfold present_at. mstep. rewrite (vi_cr3 _ _ _ _ _ Hinv). unfold page_table_get_entry.
  rewrite (bind_ret _ _ _ _ _ (get_entry_lookup 3 ltac:(lia) s root P _ _ Hrep (pr_root _ _ _ Hrep))).
  unfold pte. destruct (P !! path_at 0 p) as [f|] eqn:Hf; cbn [fmap option_fmap option_map]; [|done].
  by rewrite bind_ld by (apply entry_word_ok; [by eapply pr_frame|apply index_range]).
Qed.

Lemma translate_resident n s root P fs D p g : vm_inv s root P fs D -> D !! vpage p = Some g ->
  translate n p s = Ret (g + p mod MMU_PAGE_SIZE) s.
Proof.
  intros Hinv Hd. destruct n as [|n]; cbn [translate];
    rewrite (bind_ret _ _ _ _ _ (present_at_ret _ _ _ _ _ p Hinv));
    destruct (vi_resident _ _ _ _ _ Hinv p g Hd) as (_ & -> & _); mstep;
    rewrite (vi_cr3 _ _ _ _ _ Hinv); by eapply resident_phys.
Qed.

Lemma translate_fault n p s : present_at p s = Ret false s ->
  translate (S n) p s = (page_fault_handler ;; translate n p) (set_cr2 p s).
Proof. intros E. cbn [translate]. by rewrite (bind_ret _ _ _ _ _ E). Qed.

Lemma vm_inv_cr2 a s root P fs D : vm_inv s root P fs D -> vm_inv (set_cr2 a s) root P fs D.
Proof.
  intros [[? [] ?] ]. split; try done. by split; [eapply pool_agree|split|].
Qed.

(** The words seen before are the words seen after, when the frames agree. *)
Lemma words_keep (s s' : mm) (D D' : residents) (A : gset Z) (V : gmap Z Z) :
  (forall p w, V !! p = Some w -> page_of p ∈ A /\ p mod 8 = 0 /\
    exists g, D !! vpage p = Some g /\ rd (mem s) (g + p mod MMU_PAGE_SIZE) = w) ->
  (forall p g o, D !! p = Some g -> 0 <= o < MMU_PAGE_SIZE ->
     D' !! p = Some g /\ rd (mem s') (g + o) = rd (mem s) (g + o)) ->
  forall p w, V !! p = Some w -> page_of p ∈ A /\ p mod 8 = 0 /\
    exists g, D' !! vpage p = Some g /\ rd (mem s') (g + p mod MMU_PAGE_SIZE) = w.
Proof.
  intros HV Hk p w Hp. destruct (HV p w Hp) as (HA & H8 & g & Hg & <-).
  destruct (Hk _ g (p mod MMU_PAGE_SIZE) Hg) as [Hg' Hr]; [apply Z.mod_pos_bound; done|]. eauto.
Qed.

(** An access to an allocated page: the page is in memory afterwards. *)
Lemma translate_runs s root P fs D A V p : heap_view s root P fs D A V -> page_of p ∈ A ->
  runs (translate TRIES p) s
    (fun a s' => exists g fs' D', a = g + p mod MMU_PAGE_SIZE /\ D' !! vpage p = Some g /\
       heap_view s' root P fs' D' A V /\ brk s' = brk s)
    (fun msg _ => msg = "ALLOCATOR OUT OF MEMORY!!!"%string).
Proof.
  intros Hv Hp. pose proof Hv as [Hinv Htop Hpg HV]. destruct (Hpg _ Hp) as (Hok & Hrange & Hav).
  destruct (in_page_range p _ Hok eq_refl) as [Hr Hlo].
  assert (Hvp : vpage p = vpage (page_of p)) by (by apply vpage_page_of).
  rewrite <- (pte_vpage _ _ _ _ Hvp) in Hav.
  destruct (D !! vpage p) as [g|] eqn:Hd.
  { unfold runs. rewrite (translate_resident _ _ _ _ _ _ _ g Hinv Hd). exists g, fs, D. done. }
  pose proof (present_at_ret s root P fs D p Hinv) as Hmiss.
  rewrite (vi_absent _ _ _ _ _ Hinv p Hav Hd) in Hmiss. unfold runs, TRIES. rewrite translate_fault by done.
  set (s1 := set_cr2 p s). pose proof (vm_inv_cr2 p _ _ _ _ _ Hinv) as Hinv1. fold s1 in Hinv1.
  assert (page_of p + MMU_PAGE_SIZE <= brk s) as Hb.
  { destruct (vi_brk _ _ _ _ _ Hinv) as [Hba _]. apply page_gap; [apply page_of_page|done|lia]. }
  pose proof (page_of_bounds p) as Hpb.
  assert (KERNEL_HEAP_BASE <= p < brk s1) as Hrange1 by (cbn; lia).
  destruct fs as [|g fs].
  - pose proof (fault_empty s1 root P D p Hinv1 eq_refl Hav) as E.
    by rewrite (bind_halted _ _ _ _ _ _ E).
  - destruct (fault_maps s1 root P g fs D p Hinv1 eq_refl) as (s2 & Hs2 & Hinv2 & Hval & Hb2 & Hm2); [lia|lia|done|done|].
    rewrite (bind_ret _ _ _ _ _ Hs2).
    assert (Hd2 : <[vpage p := g]> D !! vpage p = Some g) by apply lookup_insert_eq.
    rewrite (translate_resident 0 _ _ _ _ _ p g Hinv2 Hd2).
    exists g, fs, (<[vpage p := g]> D). split; [done|]. split; [done|]. split; [|by rewrite Hb2].
    split; [done|by rewrite Hb2| |].
    + intros q Hq. destruct (Hpg q Hq) as (Hqo & Hqr & Hqa). split; [done|]. rewrite Hb2. split; [done|].
      rewrite Hval. case_decide as E'; [rewrite mapped_available|done].
      by rewrite <- (pte_vpage _ _ _ _ E').
    + eapply words_keep; [exact HV|]. intros q h o Hq Ho. rewrite lookup_insert_ne by congruence. split; [done|].
      apply Hm2. by apply (resident_no_table s root P (g :: fs) D q h o Hinv).
Qed.

(** ** Loads and stores *)

Lemma vload_ret s root P fs D A V p w : heap_view s root P fs D A V -> V !! p = Some w ->
  vload p s = Ret w s.
Proof.
  intros Hv Hp. destruct (hv_words _ _ _ _ _ _ _ Hv p w Hp) as (_ & H8 & g & Hd & <-).
  pose proof (hv_inv _ _ _ _ _ _ _ Hv) as Hinv. unfold vload.
  rewrite (bind_ret _ _ _ _ _ (translate_resident TRIES _ _ _ _ _ p g Hinv Hd)).
  unfold ld. by rewrite (resident_word_ok _ _ _ _ _ _ _ _ Hinv Hd H8).
Qed.

(** Writing into a frame of the heap. *)
Lemma vm_inv_write s root P fs D p g o w : vm_inv s root P fs D -> D !! p = Some g ->
  0 <= o < MMU_PAGE_SIZE ->
  vm_inv (set_mem (<[g + o := w]> (mem s)) s) root P fs D /\
  forall va, pte (<[g + o := w]> (mem s)) P va = pte (mem s) P va.
Proof.
  intros Hinv Hd Ho. pose proof (resident_no_table _ _ _ _ _ _ _ _ Hinv Hd Ho) as Hnt.
  destruct Hinv as [[Hpool [? ? ? ? Hlinks] Hsep] Hcr3 Hres Habs Hfr Hinj Hbrk Hfresh Hvp].
  assert (Hent : forall q f i, P !! q = Some f -> 0 <= i < 512 ->
    rd (<[g + o := w]> (mem s)) (entry_at f i) = rd (mem s) (entry_at f i)).
  { intros q f i Hq Hi. apply rd_insert_ne. intros E. apply Hnt. rewrite E.
    exists q, f. split; [done|]. by apply entry_in_page. }
  assert (Hpte : forall va, pte (<[g + o := w]> (mem s)) P va = pte (mem s) P va).
  { intros va. unfold pte. destruct (P !! path_at 0 va) eqn:E; [|done]. by apply (Hent _ _ _ E), index_range. }
  split; [|exact Hpte]. split; cbn [mem set_mem brk cr3]; try done.
  - split; [|split; try done|done].
    + eapply pool_agree; [exact Hpool|done..|]. intros a Ha. apply rd_insert_ne. intros E.
      destruct (Hfr _ _ Hd) as (Hg & Hni & _). apply Hni. replace g with a; [done|]. symmetry.
      apply (frames_disjoint g a (g + o)); [done|by eapply pool_frame|lia|unfold MMU_PAGE_SIZE; lia].
    + intros q f i Hq Hl Hi. unfold link_ok. cbn [mem set_mem]. rewrite (Hent q f i) by done. by apply Hlinks.
  - intros va h. rewrite Hpte. apply Hres.
  - intros va. rewrite Hpte. apply Habs.
  - intros va Hva. rewrite Hpte. by apply Hfresh.
Qed.

Lemma vstore_runs s root P fs D A V p w : heap_view s root P fs D A V -> page_of p ∈ A -> p mod 8 = 0 ->
  runs (vstore p w) s
    (fun _ s' => exists fs' D', heap_view s' root P fs' D' A (<[p := w]> V) /\ brk s' = brk s)
    (fun msg _ => msg = "ALLOCATOR OUT OF MEMORY!!!"%string).
Proof.
  intros Hv Hp H8. unfold vstore. eapply runs_bind; [by apply (translate_runs s root P fs D A V p)|].
  intros a s1 (g & fs' & D' & -> & Hd & Hv1 & Hb). pose proof Hv1 as [Hinv Htop Hpg HV].
  pose proof (resident_word_ok _ _ _ _ _ _ p g Hinv Hd H8) as Hok.
  set (o := p mod MMU_PAGE_SIZE) in *. assert (Ho : 0 <= o < MMU_PAGE_SIZE) by (by apply Z.mod_pos_bound).
  destruct (vm_inv_write _ _ _ _ _ _ _ o w Hinv Hd Ho) as [Hinv2 Hpte].
  unfold runs, st. rewrite Hok. exists fs', D'. split; [|done]. split; cbn [mem set_mem brk]; [done..| |].
  - intros q Hq. rewrite Hpte. by apply Hpg.
  - intros q x. rewrite lookup_insert. case_decide as E; [subst q|].
    + intros [= <-]. split; [done|]. split; [done|]. exists g. split; [done|]. apply rd_insert_eq.
    + intros Hq. destruct (HV q x Hq) as (HqA & Hq8 & h & Hh & <-). split; [done|]. split; [done|].
      exists h. split; [done|]. apply rd_insert_ne. intros Eq. apply E.
      destruct (vi_frame _ _ _ _ _ Hinv _ _ Hd) as (Hg & _), (vi_frame _ _ _ _ _ Hinv _ _ Hh) as (Hho & _).
      assert (g = h) as <- by (apply (frames_disjoint g h (g + o)); [done..|lia|rewrite Eq; unfold MMU_PAGE_SIZE; zdm]).
      pose proof (vi_inj _ _ _ _ _ Hinv _ _ _ Hd Hh) as Evp.
      destruct (in_page_range p _ (proj1 (Hpg _ Hp)) eq_refl) as [Hpr _].
      destruct (in_page_range q _ (proj1 (Hpg _ HqA)) eq_refl) as [Hqr _].
      apply vpage_inj in Evp; [|done..]. unfold page_of, o in *. lia.
Qed.

(** ** Taking pages *)

Lemma heap_end s root P fs D : vm_inv s root P fs D -> 0 < brk s /\ brk s mod MMU_PAGE_SIZE = 0.
Proof. intros Hinv. destruct (vi_brk _ _ _ _ _ Hinv) as [? ?]. pose proof heap_base_eq. split; [lia|done]. Qed.

(** New pages above the break leave the view of the old ones alone. *)
Lemma view_grow s root P fs D A V s' P' fs' N :
  heap_view s root P fs D A V -> vm_inv s' root P' fs' D -> brk s <= brk s' <= 2 ^ 48 ->
  (forall a, ~ table_word P' a -> rd (mem s') a = rd (mem s) a) ->
  (forall p, in_range 48 p -> p < brk s -> pte (mem s') P' p = pte (mem s) P p) ->
  (forall p, p ∈ N -> p mod MMU_PAGE_SIZE = 0 /\ brk s <= p < brk s' /\ e_available1 (pte (mem s') P' p) <> 0) ->
  heap_view s' root P' fs' D (N ∪ A) V.
Proof.
  intros [Hinv Htop Hpg HV] Hinv' Hbrk Hmem Hold Hnew.
  destruct (heap_end _ _ _ _ _ Hinv) as [Hb0 _]. destruct (heap_end _ _ _ _ _ Hinv') as [_ Hba].
  pose proof (vi_brk _ _ _ _ _ Hinv) as [_ Hbase].
  split; [done|lia| |].
  - intros p [Hp|Hp]%elem_of_union.
    + destruct (Hnew p Hp) as (Hal & Hr & Hav). split; [|split; [lia|done]]. split; [done|lia|].
      pose proof (page_gap p (brk s') Hal Hba). unfold MMU_PAGE_SIZE in *. lia.
    + destruct (Hpg p Hp) as (Hok & Hr & Hav). split; [done|]. split; [lia|]. rewrite Hold; [done| |lia].
      destruct Hok. unfold in_range, MMU_PAGE_SIZE in *. lia.
  - intros p w Hp. destruct (HV p w Hp) as (HA & H8 & g & Hg & <-).
    split; [apply elem_of_union; by right|]. split; [done|]. exists g. split; [done|].
    apply Hmem. eapply resident_no_table; [exact Hinv'|exact Hg|]. by apply Z.mod_pos_bound.
Qed.

Lemma view_below s root P fs D A V p : heap_view s root P fs D A V -> p ∈ A -> p < brk s.
Proof. intros Hv Hp. by apply (hv_pages _ _ _ _ _ _ _ Hv). Qed.

Lemma alloc_page_view s root P fs D A V :
  heap_view s root P fs D A V -> brk s + MMU_PAGE_SIZE <= 2 ^ 48 ->
  runs MMU_alloc_page s
    (fun va s' => va = brk s /\ brk s' = brk s + MMU_PAGE_SIZE /\
       exists P' fs', heap_view s' root P' fs' D ({[va]} ∪ A) V)
    (fun msg _ => msg = "ALLOCATOR OUT OF MEMORY!!!"%string).
Proof.
  intros Hv Hend. pose proof (hv_inv _ _ _ _ _ _ _ Hv) as Hinv.
  destruct (heap_end _ _ _ _ _ Hinv) as [Hb0 Hba].
  eapply runs_conseq; [by apply (alloc_page_runs s root P fs D)| |by intros ? ? [-> _]].
  intros va s' (-> & Hb & P' & fs' & Hinv' & _ & Hpte & Hmem). split; [done|]. split; [done|].
  exists P', fs'. eapply view_grow; [exact Hv|exact Hinv'| |exact Hmem| |].
  - rewrite Hb. unfold MMU_PAGE_SIZE in *. lia.
  - intros p Hp Hlt. rewrite Hpte, decide_False; [done|]. intros E.
    apply vpage_inj in E; [|done|unfold in_range, MMU_PAGE_SIZE in *; lia].
    rewrite (page_of_id (brk s)) in E by done. pose proof (page_of_bounds p). lia.
  - intros p ->%elem_of_singleton. split; [done|]. rewrite Hb, Hpte, decide_True by done.
    unfold MMU_PAGE_SIZE. split; [lia|done].
Qed.

Lemma alloc_pages_view s root P fs D A V n :
  heap_view s root P fs D A V -> 0 < n -> int_ok (MMU_PAGE_SIZE * n) = true ->
  brk s + MMU_PAGE_SIZE * n <= 2 ^ 48 ->
  runs (MMU_alloc_pages (Z.to_nat n) n) s
    (fun va s' => va = brk s /\ brk s' = brk s + MMU_PAGE_SIZE * n /\
       exists P' fs', heap_view s' root P' fs' D (page_range va n ∪ A) V)
    (fun msg _ => msg = "ALLOCATOR OUT OF MEMORY!!!"%string).
Proof.
  intros Hv Hn Hint Hend. pose proof (hv_inv _ _ _ _ _ _ _ Hv) as Hinv.
  destruct (heap_end _ _ _ _ _ Hinv) as [Hb0 Hba].
  eapply runs_conseq; [apply (alloc_pages_runs s root P fs D n); [done|lia|done|done|lia]| |by intros ? ? [-> _]].
  intros va s' (-> & Hb & P' & fs' & Hinv' & _ & Hpte & Hmem). split; [done|]. split; [done|].
  exists P', fs'. eapply view_grow; [exact Hv|exact Hinv'| |exact Hmem| |].
  - rewrite Hb. unfold MMU_PAGE_SIZE in *. lia.
  - intros p Hp Hlt. rewrite Hpte, wrap_small, decide_False by (done || lia). done.
  - intros p (k & Hk & ->)%elem_page_range. rewrite Hpte, Hb.
    rewrite wrap_small by (unfold in_range, MMU_PAGE_SIZE in *; lia).
    rewrite decide_True by (unfold MMU_PAGE_SIZE in *; lia).
    unfold MMU_PAGE_SIZE in *. split; [zdm|]. split; [lia|done].
Qed.

(** ** Giving pages back *)

(** Freeing [n] resident pages from [va] on. *)
Lemma free_pages_loop root P : forall n fuel s fs (D : residents) va,
  (n <= fuel)%nat -> vm_inv s root P fs D -> 0 <= va -> va + MMU_PAGE_SIZE * Z.of_nat n <= 2 ^ 49 ->
  (forall k, 0 <= k < Z.of_nat n -> in_range 48 (va + MMU_PAGE_SIZE * k) /\
     is_Some (D !! vpage (va + MMU_PAGE_SIZE * k))) ->
  exists s' fs' D', free_pages_from fuel va (va + MMU_PAGE_SIZE * Z.of_nat n) s = Ret tt s' /\
    vm_inv s' root P fs' D' /\ brk s' = brk s /\
    (forall a, e_available1 (pte (mem s') P a) = e_available1 (pte (mem s) P a)) /\
    forall p g o, D !! p = Some g -> 0 <= o < MMU_PAGE_SIZE ->
      (forall k, 0 <= k < Z.of_nat n -> p <> vpage (va + MMU_PAGE_SIZE * k)) ->
      D' !! p = Some g /\ rd (mem s') (g + o) = rd (mem s) (g + o).
Proof.
  induction n as [|n IH]; intros fuel s fs D va Hf Hinv Hva Hend Hres.
  { exists s, fs, D. split; [|done]. destruct fuel; cbn [free_pages_from];
      by rewrite (proj2 (Z.ltb_ge _ _)) by (unfold MMU_PAGE_SIZE; lia). }
  destruct fuel as [|fuel]; [lia|].
  destruct (Hres 0 ltac:(lia)) as [Hr0 [g Hg]]. rewrite Z.mul_0_r, Z.add_0_r in Hr0, Hg.
  destruct (free_page_returns s root P fs D va g Hinv Hg) as (s1 & Hs1 & Hinv1 & Hpte1 & Hb1 & Hm1).
  assert (Hnext : forall k, va + MMU_PAGE_SIZE + MMU_PAGE_SIZE * k = va + MMU_PAGE_SIZE * (k + 1)) by lia.
  destruct (IH fuel s1 (g :: fs) (delete (vpage va) D) (va + MMU_PAGE_SIZE)) as (s2 & fs2 & D2 & Hs2 & Hinv2 & Hb2 & Hav2 & Hk2);
    [lia|done|unfold MMU_PAGE_SIZE; lia|lia| |].
  { intros k Hk. rewrite Hnext. destruct (Hres (k + 1) ltac:(lia)) as [Hr Hd]. split; [done|].
    rewrite lookup_delete_ne; [done|]. intros E. apply vpage_inj in E; [|done..].
    unfold page_of, MMU_PAGE_SIZE in *. zdm. }
  exists s2, fs2, D2. split; [|split; [done|split; [by rewrite Hb2|split]]].
  - cbn [free_pages_from]. rewrite (proj2 (Z.ltb_lt _ _)) by (unfold MMU_PAGE_SIZE; lia).
    rewrite (bind_ret _ _ _ _ _ Hs1). rewrite wrap_small by (unfold in_range, MMU_PAGE_SIZE in *; lia).
    rewrite <- Hs2. f_equal. lia.
  - intros a. rewrite Hav2, Hpte1. case_decide as E; [|done].
    rewrite unmapped_available. by rewrite (pte_vpage _ _ _ _ E).
  - intros p h o Hp Ho Hne.
    assert (Hpv : p <> vpage va) by (specialize (Hne 0 ltac:(lia)); by rewrite Z.mul_0_r, Z.add_0_r in Hne).
    destruct (Hk2 p h o) as [Hd2 Hr2]; [by rewrite lookup_delete_ne|done| |].
    { intros k Hk. rewrite Hnext. apply Hne. lia. }
    split; [done|]. rewrite Hr2. apply Hm1; [by eapply resident_no_table|].
    intros E. apply Hpv. destruct (vi_frame _ _ _ _ _ Hinv _ _ Hp) as (Hho & _), (vi_frame _ _ _ _ _ Hinv _ _ Hg) as (Hgo & _).
    assert (h = g) as -> by (apply (frames_disjoint h g g); [done..|lia|unfold MMU_PAGE_SIZE; lia]).
    by eapply (vi_inj _ _ _ _ _ Hinv).
Qed.

Lemma free_pages_view s root P fs D A V va n :
  heap_view s root P fs D A V -> 0 < n -> int_ok (MMU_PAGE_SIZE * n) = true ->
  (forall p, p ∈ page_range (page_of va) n -> p ∈ A /\ exists q w, page_of q = p /\ V !! q = Some w) ->
  exists s' fs' D', MMU_free_pages (Z.to_nat n) va n s = Ret tt s' /\ brk s' = brk s /\
    heap_view s' root P fs' D' (A ∖ page_range (page_of va) n)
      (filter (fun e => page_of e.1 ∉ page_range (page_of va) n) V).
Proof.
  intros Hv Hn Hint Hall. pose proof Hv as [Hinv Htop Hpg HV].
  assert (Hpage : forall k, 0 <= k < n -> page_ok (page_of va + MMU_PAGE_SIZE * k) /\
    page_of (va + MMU_PAGE_SIZE * k) = page_of va + MMU_PAGE_SIZE * k /\
    is_Some (D !! vpage (va + MMU_PAGE_SIZE * k))).
  { intros k Hk. destruct (Hall (page_of va + MMU_PAGE_SIZE * k)) as (HA & q & w & Hq & Hw).
    { apply elem_page_range. eauto. }
    destruct (Hpg _ HA) as (Hok & _). split; [done|].
    assert (page_of (va + MMU_PAGE_SIZE * k) = page_of va + MMU_PAGE_SIZE * k) as E
      by (unfold page_of, MMU_PAGE_SIZE; zdm).
    split; [done|]. destruct (HV q w Hw) as (_ & _ & g & Hg & _). exists g.
    rewrite (vpage_page_of _ _ Hok E), <- (vpage_page_of q _ Hok Hq). done. }
  assert (Hin : forall k, 0 <= k < n -> in_range 48 (va + MMU_PAGE_SIZE * k)).
  { intros k Hk. destruct (Hpage k Hk) as (Hok & E & _). by destruct (in_page_range _ _ Hok E). }
  pose proof (Hin 0 ltac:(lia)) as Hr0. pose proof (Hin (n - 1) ltac:(lia)) as Hr1. unfold in_range in Hr0, Hr1.
  destruct (free_pages_loop root P (Z.to_nat n) (Z.to_nat n) s fs D va) as (s' & fs' & D' & Hs & Hinv' & Hb & Hav & Hk);
    [lia|done|lia|unfold MMU_PAGE_SIZE in *; lia| |].
  { intros k Hk. rewrite Z2Nat.id in Hk by lia. split; [by apply Hin|by apply Hpage]. }
  rewrite Z2Nat.id in * by lia. exists s', fs', D'. split; [|split; [done|]].
  - unfold MMU_free_pages. rewrite Hint. cbn [negb].
    rewrite wrap_small by (unfold in_range, MMU_PAGE_SIZE in *; lia). done.
  - split; [done|by rewrite Hb| |].
    + intros p [Hp _]%elem_of_difference. rewrite Hb, Hav. by apply Hpg.
    + intros p w [Hp Hout]%map_lookup_filter_Some. cbn in Hout.
      destruct (HV p w Hp) as (HA & H8 & g & Hg & <-). destruct (Hpg _ HA) as (Hok & _).
      destruct (Hk _ g (p mod MMU_PAGE_SIZE) Hg) as [Hg' Hrd]; [by apply Z.mod_pos_bound| |].
      { intros k Hkn E. apply vpage_inj in E; [|by apply (in_page_range p _ Hok)|by apply Hin].
        apply Hout, elem_page_range. exists k. split; [done|]. rewrite E. by apply Hpage. }
      split; [by apply elem_of_difference|]. split; [done|]. exists g. split; [exact Hg'|exact Hrd].
Qed.

(** ** The promise kept *)

#[export] Instance mm_laws : PageSourceLaws mm.
Proof.
  refine {| ps_holds := heap_holds; ps_room s := 2 ^ 48 - brk s;
            ps_oom msg := msg = "ALLOCATOR OUT OF MEMORY!!!"%string |}.
  - intros s A V p (root & P & fs & D & Hv) Hp. by apply (hv_pages _ _ _ _ _ _ _ Hv).
  - intros s A V p w (root & P & fs & D & Hv) Hp. by eapply vload_ret.
  - intros s A V p w (root & P & fs & D & Hv) Hp H8 _.
    eapply runs_conseq; [by eapply vstore_runs| |done].
    intros _ s' (fs' & D' & Hv' & Hb). split; [by exists root, P, fs', D'|]. by rewrite Hb.
  - intros s A V (root & P & fs & D & Hv) Hroom.
    eapply runs_conseq; [apply (alloc_page_view s root P fs D A V Hv); lia| |done].
    intros va s' (-> & Hb & P' & fs' & Hv'). split; [|split; [|split]].
    + apply (hv_pages _ _ _ _ _ _ _ Hv'), elem_of_union_l, elem_of_singleton. done.
    + intros Hin. pose proof (view_below _ _ _ _ _ _ _ _ Hv Hin). lia.
    + by exists root, P', fs', D.
    + rewrite Hb. lia.
  - intros s A V n (root & P & fs & D & Hv) Hn Hint Hroom.
    eapply runs_conseq; [apply (alloc_pages_view s root P fs D A V n Hv Hn Hint); lia| |done].
    intros va s' (-> & Hb & P' & fs' & Hv'). split; [|split].
    + intros p (k & Hk & ->)%elem_page_range Hin. pose proof (view_below _ _ _ _ _ _ _ _ Hv Hin).
      unfold MMU_PAGE_SIZE in *. lia.
    + by exists root, P', fs', D.
    + rewrite Hb. lia.
  - intros s A V va n (root & P & fs & D & Hv) Hn Hint Hall.
    destruct (free_pages_view s root P fs D A V va n Hv Hn Hint Hall) as (s' & fs' & D' & Hs & Hb & Hv').
    exists s'. split; [exact Hs|]. split; [by rewrite Hb|]. by exists root, P, fs', D'.
Defined.

(** An empty heap: no page handed out yet. *)
Lemma heap_empty s root P fs : vm_inv s root P fs ∅ -> brk s <= 2 ^ 48 -> ps_holds s ∅ ∅.
Proof. intros Hinv Hb. exists root, P, fs, ∅. by split. Qed.
