(* ===== verification/KernelHeap.v ===== *)
(** * KernelHeap: what a program may expect of the heap, from boot on

    A client of src/src/allocator.c is a program that allocates, frees, writes and
    reads; an abstract heap is a set of separate blocks with the words written to
    them. The client on the modelled machine - boot regions, frames, page tables,
    demand paging, block pools - behaves as on the abstract heap. *)

From S2P Require Import Prelude Multiboot Frames PageTable VirtPages Kmalloc HeapPages.

(** ** Clients *)

(** A program: [Malloc] and [Read] pass what they give to the rest. *)
Inductive client :=
| Stop
| Malloc (size : Z) (k : Z -> client)
| Free (a : Z) (k : client)
| Write (p w : Z) (k : client)
| Read (p : Z) (k : Z -> client).

(** Running one, with the values it was given as its trace. *)
Fixpoint exec {S : Type} `{PageSource S} `{PoolsAt} (c : client) : M (heap S) (list Z) :=
  match c with
  | Stop => mret []
  | Malloc size k => a ← kmalloc size; l ← exec (k a); mret (a :: l)
  | Free a k => kfree a ;; exec k
  | Write p w k => vmop (ps_store p w) ;; exec k
  | Read p k => w ← vmop (ps_load p); l ← exec (k w); mret (w :: l)
  end.

(** ** The abstract heap *)

(** The sizes asked for by block address, and the words written so far. *)
Record aheap := mkAHeap { blocks : gmap Z Z; cells : gmap Z Z }.

Definition add_block (a n : Z) (h : aheap) : aheap := mkAHeap (<[a := n]> (blocks h)) (cells h).
Definition drop_block (a n : Z) (h : aheap) : aheap :=
  mkAHeap (delete a (blocks h)) (filter (fun e => ~ a <= e.1 < a + n) (cells h)).
Definition write_cell (p w : Z) (h : aheap) : aheap := mkAHeap (blocks h) (<[p := w]> (cells h)).

(** The word at [p] lies in a block. *)
Definition inside (h : aheap) (p : Z) : Prop :=
  exists a n, blocks h !! a = Some n /\ a <= p /\ p + 8 <= a + n.

(** Where a request for [size] bytes may be placed. *)
Record fresh_block (h : aheap) (size a : Z) : Prop := {
  fb_aligned : a mod 16 = 0 /\ 0 < a;
  fb_new : blocks h !! a = None;
  fb_apart : forall a' n', blocks h !! a' = Some n' -> a + size <= a' \/ a' + n' <= a }.

(** The traces of a client on the abstract heap. *)
Inductive steps : aheap -> client -> list Z -> aheap -> Prop :=
| steps_stop h : steps h Stop [] h
| steps_malloc h size k a l h' : fresh_block h size a ->
    steps (add_block a size h) (k a) l h' -> steps h (Malloc size k) (a :: l) h'
| steps_free h a n k l h' : blocks h !! a = Some n ->
    steps (drop_block a n h) k l h' -> steps h (Free a k) l h'
| steps_write h p w k l h' : inside h p ->
    steps (write_cell p w h) k l h' -> steps h (Write p w k) l h'
| steps_read h p w k l h' : cells h !! p = Some w ->
    steps h (k w) l h' -> steps h (Read p k) (w :: l) h'.

(** Each page of a block but its first has been written to: freeing an untouched
    page passes a null frame on (see [free_untouched_faults]). *)
Definition all_touched (h : aheap) (a n : Z) : Prop :=
  forall p, a <= p < a + n -> page_of p = page_of a \/
    exists q w, cells h !! q = Some w /\ page_of q = page_of p.

(** What a client owes: sizes whose page count is an int, blocks it was given,
    aligned words inside them, reads of what was written, and no more than [room]
    bytes of address space. *)
Fixpoint safe (h : aheap) (room : Z) (c : client) : Prop :=
  match c with
  | Stop => True
  | Malloc size k => 0 <= size /\ int_ok (room_for size) = true /\ room_for size <= room /\
      forall a, fresh_block h size a -> safe (add_block a size h) (room - room_for size) (k a)
  | Free a k => exists n, blocks h !! a = Some n /\ all_touched h a n /\ safe (drop_block a n h) room k
  | Write p w k => inside h p /\ p mod 8 = 0 /\ in_range 64 w /\ safe (write_cell p w h) room k
  | Read p k => exists w, cells h !! p = Some w /\ safe h room (k w)
  end.

(** ** Simulation over any page source *)

Section simulation.
Context {S : Type} `{PageSourceLaws S} `{PoolsAt}.
Implicit Types (s : heap S) (g : ghost).

(** The heap [s] shows as [h]. *)
Record shows s g (h : aheap) : Prop := {
  sh_inv : heap_inv s g;
  sh_sound : forall a n, allocated g a n -> exists size, blocks h !! a = Some size /\ fits size n;
  sh_blocks : forall a size, blocks h !! a = Some size -> exists n, allocated g a n;
  sh_cells : forall p w, cells h !! p = Some w -> inside h p /\ words g !! p = Some w }.

(** A word the client may write is none of the allocator's. *)
Lemma client_word s g a n p : heap_inv s g -> allocated g a n -> a <= p < a + n -> ~ bookkeeping g p.
Proof.
  intros Hi Ha Hp Hbk. destruct (bookkeeping_block s g p Hi Hbk) as (b & Hpb & _ & Hb).
  assert (Hlive : forall m, allocated g (b + HEADER_SIZE) m -> False).
  { intros m Hm. destruct (decide (a = b + HEADER_SIZE)) as [->|Hne]; [unfold HEADER_SIZE in *; lia|].
    pose proof (allocated_size s g _ _ Hi Hm).
    destruct (allocated_apart s g a n _ m Hi Ha Hm Hne); unfold HEADER_SIZE in *; lia. }
  destruct Hb as [(i & Hba & [Hl|(l & Hl & Hin)])|[sz Hb]].
  - eapply Hlive. by apply allocated_pool.
  - destruct (hi_free _ _ Hi i l b Hl Hin) as [_ Hdead].
    pose proof (bsize_bounds i (ba_pool _ _ _ Hba)) as Hbs.
    assert (Hpage : owners g !! page_of p = Some (OPool i)).
    { replace p with (b + (p - b)) by lia. rewrite (block_at_page _ i) by (done || lia). apply Hba. }
    destruct (allocated_owner s g a n p Hi Ha) as [(j & Hj & Hja & -> & _)|Ho]; [unfold HEADER_SIZE; lia| |congruence].
    destruct (block_at_apart _ _ _ _ _ Hba Hja); [congruence|unfold HEADER_SIZE in *; lia..].
  - eapply Hlive. by apply allocated_large.
Qed.

Lemma shows_block s g h a size : shows s g h -> blocks h !! a = Some size ->
  exists n, allocated g a n /\ fits size n.
Proof.
  intros Hs Ha. destruct (sh_blocks _ _ _ Hs a size Ha) as [n Hn]. exists n. split; [done|].
  destruct (sh_sound _ _ _ Hs a n Hn) as (size' & Ha' & ?). by simplify_eq.
Qed.

Lemma shows_inside s g h p : shows s g h -> inside h p ->
  exists a n, allocated g a n /\ a <= p < a + n /\ is_Some (owners g !! page_of p).
Proof.
  intros Hs (a & size & Hb & Hlo & Hhi). destruct (shows_block s g h a size Hs Hb) as (n & Ha & [Hn _]).
  exists a, n. split; [done|]. split; [lia|].
  destruct (allocated_owner s g a n p (sh_inv _ _ _ Hs) Ha) as [(?&_&_&_&Ho)|Ho]; [unfold HEADER_SIZE; lia|eauto..].
Qed.

Lemma shows_malloc s g s' g' h size a n : shows s g h -> 0 <= size -> fits size n ->
  heap_inv s' g' -> adds_block g g' a n -> fresh_block h size a /\ shows s' g' (add_block a size h).
Proof.
  intros Hs Hsz0 Hsz Hi' [Hal Hall Hap Hw]. pose proof Hs as [Hi Hso _ Hc]. pose proof Hsz as [Hsz' _].
  assert (Hnew : blocks h !! a = None).
  { destruct (blocks h !! a) as [m|] eqn:E; [|done].
    destruct (shows_block s g h a m Hs E) as (cap & Hcap & _). pose proof (allocated_size s g a cap Hi Hcap).
    destruct (Hap _ _ Hcap); unfold HEADER_SIZE in *; lia. }
  split; [split; [done..|]|].
  { intros a' n' Ha'. destruct (shows_block s g h a' n' Hs Ha') as (cap & Hcap & [Hn' _]).
    destruct (Hap _ _ Hcap); unfold HEADER_SIZE in *; lia. }
  split; [done| | |].
  - intros a' n' [[-> ->]|Ha']%Hall; cbn.
    + exists size. split; [apply lookup_insert_eq|done].
    + destruct (Hso a' n' Ha') as (size' & Hb & ?). exists size'. split; [|done].
      rewrite lookup_insert_ne; [done|]. congruence.
  - intros a' size'. cbn. rewrite lookup_insert_Some. intros [[<- _]|[_ Hb]].
    + exists n. apply Hall. by left.
    + destruct (sh_blocks _ _ _ Hs a' size' Hb) as [n' Hn']. exists n'. apply Hall. by right.
  - intros p w Hp. destruct (Hc p w Hp) as [(a' & n' & Ha' & Hlo & Hhi) Hpw]. split.
    + exists a', n'. split; [|done]. cbn. rewrite lookup_insert_ne; [done|]. congruence.
    + destruct (shows_block s g h a' n' Hs Ha') as (cap & Hcap & [? _]). rewrite (Hw a' cap p); [done|done|lia].
Qed.

Lemma shows_free s g s' g' h a size : shows s g h -> blocks h !! a = Some size -> heap_inv s' g' ->
  removes_block g g' a -> shows s' g' (drop_block a size h).
Proof.
  intros Hs Ha Hi' [Hall Hw]. pose proof Hs as [Hi Hso _ Hc]. split; [done| | |].
  - intros a' n' [Hne Ha']%Hall. destruct (Hso a' n' Ha') as (size' & Hb & ?). exists size'.
    split; [|done]. cbn. by rewrite lookup_delete_ne.
  - intros a' size'. cbn. rewrite lookup_delete_Some. intros [Hne Hb].
    destruct (sh_blocks _ _ _ Hs a' size' Hb) as [n' Hn']. exists n'. apply Hall. auto.
  - intros p w [Hp Hout]%map_lookup_filter_Some. cbn in Hout.
    destruct (Hc p w Hp) as [(a' & n' & Ha' & Hlo & Hhi) Hpw].
    assert (a' <> a) as Hne by (intros ->; simplify_eq; lia). split.
    + exists a', n'. split; [|done]. cbn. by rewrite lookup_delete_ne.
    + destruct (shows_block s g h a' n' Hs Ha') as (cap & Hcap & [? _]). rewrite (Hw a' cap p); [done|done|done|lia].
Qed.

Lemma shows_touched s g h a size : shows s g h -> blocks h !! a = Some size -> all_touched h a size ->
  touched g (a - HEADER_SIZE).
Proof.
  intros Hs Ha Ht sz p Hsz Hp. set (b := a - HEADER_SIZE) in *. pose proof (sh_inv _ _ _ Hs) as Hi.
  destruct (hi_large _ _ Hi b sz Hsz) as (Hla & Hw & _).
  destruct (large_at_ok s g b sz Hi Hla) as (Hpg & _ & _ & Hpos & _).
  destruct (decide (p = b)) as [->|Hne]; [by exists b, 0|].
  assert (Hab : page_of a = b).
  { rewrite <- Hpg at 1. apply page_of_unique; [apply page_of_page|]. rewrite Hpg.
    unfold b, HEADER_SIZE, MMU_PAGE_SIZE. lia. }
  pose proof (allocated_large g b sz Hsz) as Hal. unfold b at 1 in Hal. rewrite Z.sub_add in Hal.
  destruct (sh_sound _ _ _ Hs _ _ Hal) as (size' & Ha' & [Hcap _]). rewrite Ha in Ha'. injection Ha' as <-.
  apply elem_page_range in Hp as (k & Hk & ->).
  assert (Hpp : page_of (b + MMU_PAGE_SIZE * k) = b + MMU_PAGE_SIZE * k).
  { apply page_of_id. rewrite <- Hpg. unfold page_of, MMU_PAGE_SIZE. zdm. }
  destruct (Ht (b + MMU_PAGE_SIZE * k)) as [E|(q & w & Hq & E)].
  - unfold b, HEADER_SIZE, MMU_PAGE_SIZE in *. lia.
  - congruence.
  - rewrite Hpp in E. exists q, w. split; [done|]. by apply (sh_cells _ _ _ Hs q w).
Qed.

Lemma shows_write s g s' h p w : shows s g h -> inside h p ->
  heap_inv s' (set_words (<[p := w]> (words g)) g) -> shows s' (set_words (<[p := w]> (words g)) g) (write_cell p w h).
Proof.
  intros [Hi Hso Hb Hc] Hp Hi'. set (g' := set_words _ _).
  assert (Hsame : forall a n, allocated g a n <-> allocated g' a n).
  { intros a n. split; intros []; (by apply allocated_pool) || (by apply allocated_large). }
  split; [done| | |].
  - intros a n Ha%Hsame. by apply Hso.
  - intros a size Ha. destruct (Hb a size Ha) as [n Hn]. exists n. by apply Hsame.
  - intros q x. cbn. rewrite !lookup_insert. case_decide; [by intros [= <-]; subst|]. apply Hc.
Qed.

(** The client's run is one of its runs on the abstract heap. *)
Lemma exec_refines c : forall s g h room, shows s g h -> safe h room c -> room <= ps_room (vm s) ->
  runs (exec c) s (fun l s' => exists g' h', steps h c l h' /\ shows s' g' h') (fun msg _ => ps_oom msg).
Proof.
  induction c as [|size k IH|a k IH|p w k IH|p k IH]; intros s g h room Hs Hsafe Hroom; cbn [exec safe] in *.
  - apply runs_ret. exists g, h. split; [constructor|done].
  - destruct Hsafe as (Hsz0 & Hint & Hfit & Hk).
    eapply runs_bind; [apply (kmalloc_runs s g size (sh_inv _ _ _ Hs)); [done..|lia]|].
    cbn beta. intros a s1 (g1 & n & Hi1 & Hcap & Hadd & Hr1).
    destruct (shows_malloc s g s1 g1 h size a n Hs Hsz0 Hcap Hi1 Hadd) as [Hf Hs1].
    eapply runs_bind; [apply (IH a s1 g1 _ (room - room_for size) Hs1); [by apply Hk|lia]|].
    intros l s2 (g2 & h2 & Hst & Hs2). apply runs_ret. exists g2, h2. split; [by econstructor|done].
  - destruct Hsafe as (n & Ha & Ht & Hk). destruct (sh_blocks _ _ _ Hs a n Ha) as [cap Hcap].
    eapply runs_bind; [apply (kfree_runs s g a cap (sh_inv _ _ _ Hs)); [done|by eapply shows_touched]|].
    cbn beta. intros _ s1 (g1 & Hi1 & Hrm & Hr1).
    pose proof (shows_free s g s1 g1 h a n Hs Ha Hi1 Hrm) as Hs1.
    eapply runs_conseq; [apply (IH s1 g1 _ room Hs1 Hk); lia| |done].
    intros l s2 (g2 & h2 & Hst & Hs2). exists g2, h2. split; [by econstructor|done].
  - destruct Hsafe as (Hin & H8 & Hw & Hk). destruct (shows_inside s g h p Hs Hin) as (a & n & Ha & Hp & Ho).
    eapply runs_bind.
    { apply (store_runs s g p w (sh_inv _ _ _ Hs)); [|done..]. by apply (client_word s g a n p (sh_inv _ _ _ Hs)). }
    cbn beta. intros _ s1 (Hi1 & _ & Hr1). pose proof (shows_write s g s1 h p w Hs Hin Hi1) as Hs1.
    eapply runs_conseq; [apply (IH s1 _ _ room Hs1 Hk); lia| |done].
    intros l s2 (g2 & h2 & Hst & Hs2). exists g2, h2. split; [by econstructor|done].
  - destruct Hsafe as (w & Hc & Hk). destruct (sh_cells _ _ _ Hs p w Hc) as [_ Hw].
    eapply runs_bind_ret; [by apply (load_ret s g p w (sh_inv _ _ _ Hs))|].
    eapply runs_bind; [by apply (IH w s g h room)|].
    intros l s2 (g2 & h2 & Hst & Hs2). apply runs_ret. exists g2, h2. split; [by econstructor|done].
Qed.

End simulation.

(** ** From boot on *)

(** The part of [kmain] that makes the heap. *)
Definition boot_heap `{PoolsAt} (fuel : nat) : M (heap mm) unit :=
  _ ← vmop (init_page_table fuel);
  init_alloc.

(** The identity map leaves the heap's half of the address space empty. *)
Lemma boot_vm_inv s root fs r fuel :
  pool s (root :: fs) -> brk s = KERNEL_HEAP_BASE -> last (regions s) = Some r -> r_end r <= KERNEL_HEAP_BASE ->
  (tables_bound MMU_PAGE_SIZE (r_end r) <= length fs)%nat ->
  (walk_len MMU_PAGE_SIZE (r_end r) <= fuel)%nat ->
  exists s' P fs', init_page_table fuel s = Ret root s' /\ brk s' = KERNEL_HEAP_BASE /\ vm_inv s' root P fs' ∅.
Proof.
  intros Hpool Hbrk Hlast Hend Hb Hfuel. pose proof heap_base_eq as Hkb.
  destruct (init_page_table_runs s root fs r fuel) as (s' & P & fs' & Hrun & Hc & Hbrk' & Hinv & Hval); [done..|lia|done|done|].
  rewrite Hbrk in Hbrk'. exists s', P, fs'. split; [done|]. split; [done|]. split; [done|done|done| |done|done| | |done].
  - intros va Hav _. rewrite pte_wrap, Hval in Hav by (by apply wrap_range). case_decide; [|done].
    by rewrite link_available1 in Hav.
  - rewrite Hbrk'. split; reflexivity || lia.
  - intros va Hva. rewrite Hval, decide_False; [done|lia|unfold in_range; lia].
Qed.

(** A memory map the kernel can boot on: its regions end below the heap and have the
    frames for the identity map; [fuel] rounds are enough to build it. *)
Record bootable (mems : list TagMemMapEntry) (elfs : list TagELFEntry) (rs : list MemRegion)
    (fuel : nat) : Prop := {
  bo_info : boot_info_ok mems elfs;
  bo_regions : build_mem_regions mems elfs [] = Ret tt rs;
  bo_frames : exists r root fs, last rs = Some r /\ r_end r <= KERNEL_HEAP_BASE /\
    mjoin (region_frames <$> rs) = root :: fs /\
    (tables_bound MMU_PAGE_SIZE (r_end r) <= length fs)%nat /\
    (walk_len MMU_PAGE_SIZE (r_end r) <= fuel)%nat }.

(** The address space of the heap. *)
Definition HEAP_ROOM : Z := 2 ^ 48 - KERNEL_HEAP_BASE.

(** The same of a machine: the frames it has, and [fuel], are enough to bring the heap up. *)
Record ready_mm (s : mm) (fuel : nat) : Prop := {
  rm_brk : brk s = KERNEL_HEAP_BASE;
  rm_frames : exists r root fs, last (regions s) = Some r /\ r_end r <= KERNEL_HEAP_BASE /\ pool s (root :: fs) /\
    (tables_bound MMU_PAGE_SIZE (r_end r) <= length fs)%nat /\
    (walk_len MMU_PAGE_SIZE (r_end r) <= fuel)%nat }.

Lemma bootable_ready mems elfs rs fuel : bootable mems elfs rs fuel -> ready_mm (boot_mm rs) fuel.
Proof.
  intros [Hinfo Hbuild (r & root & fs & Hlast & Hend & Hfs & Hb & Hfuel)].
  destruct (boot_mm_pool mems elfs rs Hinfo Hbuild) as [_ Hpool]. rewrite Hfs in Hpool.
  split; [done|]. by exists r, root, fs.
Qed.

(** The two steps of [boot_heap] on a machine that is ready. *)
Lemma ready_boots `{PoolsAt} s fuel : ready_mm s fuel ->
  exists root s1 h, init_page_table fuel s = Ret root s1 /\ init_alloc (mkHeap [] s1) = Ret tt h /\
    heap_inv h empty_ghost /\ ps_room (vm h) = HEAP_ROOM.
Proof.
  intros [Hbrk0 (r & root & fs & Hlast & Hend & Hpool & Hb & Hfuel)]. pose proof heap_base_eq as Hkb.
  destruct (boot_vm_inv s root fs r fuel Hpool Hbrk0 Hlast Hend Hb Hfuel) as (s1 & P & fs1 & Hrun & Hbrk & Hinv).
  destruct (init_alloc_heap (mkHeap [] s1)) as (s2 & Hs2 & Hvm & Hi); [by apply (heap_empty s1 root P fs1); [|rewrite Hbrk; eval_fact]|].
  exists root, s1, s2. split; [done|]. split; [done|]. split; [done|]. rewrite Hvm. cbn. by rewrite Hbrk.
Qed.

Lemma boot_heap_ready `{PoolsAt} s fuel : ready_mm s fuel ->
  exists h, boot_heap fuel (mkHeap [] s) = Ret tt h /\ heap_inv h empty_ghost /\ ps_room (vm h) = HEAP_ROOM.
Proof.
  intros Hr. destruct (ready_boots s fuel Hr) as (root & s1 & h & Hrun & Hh & Hi & Hroom).
  assert (Hpt : vmop (init_page_table fuel) (mkHeap [] s) = Ret root (mkHeap [] s1))
    by (unfold vmop; by erewrite zoom_ret by exact Hrun).
  exists h. split; [unfold boot_heap; by rewrite (bind_ret _ _ _ _ _ Hpt)|done].
Qed.

Lemma boot_heap_ret `{PoolsAt} mems elfs rs fuel : bootable mems elfs rs fuel ->
  exists s, boot_heap fuel (mkHeap [] (boot_mm rs)) = Ret tt s /\ heap_inv s empty_ghost /\
    ps_room (vm s) = HEAP_ROOM.
Proof. intros Hb. by eapply boot_heap_ready, bootable_ready. Qed.

Lemma shows_empty {S : Type} `{PageSourceLaws S} `{PoolsAt} (s : heap S) :
  heap_inv s empty_ghost -> shows s empty_ghost (mkAHeap ∅ ∅).
Proof. intros Hi. split; [done|by intros a n [b i Hb|b sz Hb]|done|done]. Qed.


(** ** Witness *)

Module Small.

(** 256 KiB of memory, a kernel section in it, and a client that uses a pool block
    and a large block of two pages. *)
Definition small_mems : list TagMemMapEntry := [mkMemEntry 0 262144 1].
Definition small_elfs : list TagELFEntry := [mkElfEntry 1 65536 5000].
Definition small_regions : list MemRegion := Eval vm_compute in
  match build_mem_regions small_mems small_elfs [] with Ret _ rs => rs | _ => [] end.
Definition small_frames : list Z := Eval vm_compute in mjoin (region_frames <$> small_regions).

Definition two_blocks : client :=
  Malloc 40 (fun a => Write (a + 8) 7 (Write (a + 32) 5 (
  Malloc 5000 (fun b => Write b 9 (Write (b + 4096) 8 (Write (b + 4992) 6 (
  Read (a + 8) (fun _ => Free b (Read (a + 8) (fun _ => Free a Stop)))))))))).

#[export] Instance small_pools_at : PoolsAt.
Proof. refine {| pools_addr := 65536 |}; by unfold BLOCK_SIZES_LEN. Defined.

Example two_blocks_trace :
  match (boot_heap 64 ;; exec two_blocks) (mkHeap [] (boot_mm small_regions)) with
  | Ret l _ => l
  | _ => []
  end = [KERNEL_HEAP_BASE + 4032 + 16; KERNEL_HEAP_BASE + 4096 + 16; 7; 7].
Proof. vm_compute. reflexivity. Qed.

Lemma two_blocks_safe room : 20000 <= room -> safe (mkAHeap ∅ ∅) room two_blocks.
Proof.
  intros Hroom. unfold two_blocks. cbn [safe].
  split; [done|]. split; [reflexivity|]. split; [unfold room_for, HEADER_SIZE, MMU_PAGE_SIZE; lia|].
  intros a [[Ha16 Ha] _ _]. set (h1 := add_block a 40 _).
  assert (Hin : forall h p, a <= p -> p + 8 <= a + 40 -> blocks h !! a = Some 40 -> inside h p)
    by (intros h p ? ? E; exists a, 40; split; [exact E|lia]).
  do 2 (split; [apply Hin; [lia|lia|apply lookup_insert_eq]|]; split; [zdm|]; split; [by unfold in_range|]).
  split; [done|]. split; [reflexivity|]. split; [unfold room_for, HEADER_SIZE, MMU_PAGE_SIZE; lia|].
  intros b [[Hb16 Hb] Hnew Hap]. cbn in Hnew, Hap.
  assert (Hne : a <> b) by (intros ->; by rewrite lookup_insert_eq in Hnew).
  destruct (Hap a 40) as [Hab|Hab]; [apply lookup_insert_eq| |];
  (set (h2 := add_block b 5000 _);
   assert (Hinb : forall h p, b <= p -> p + 8 <= b + 5000 -> blocks h !! b = Some 5000 -> inside h p)
     by (intros h p ? ? E; exists b, 5000; split; [exact E|lia]);
   do 3 (split; [apply Hinb; [lia|lia|apply lookup_insert_eq]|]; split; [zdm|]; split; [by unfold in_range|]);
   exists 7; split; [cbn; rewrite !lookup_insert_ne by lia; apply lookup_insert_eq|];
   exists 5000; split; [apply lookup_insert_eq|]; split;
   [ intros p Hp;
     assert (page_of p = page_of b \/ page_of p = page_of (b + 4096) \/ page_of p = page_of (b + 4992)) as [?|[?|?]]
       by (unfold page_of, MMU_PAGE_SIZE; zdm);
     [by left
     |right; exists (b + 4096), 8; split; [cbn; rewrite lookup_insert_ne by lia; apply lookup_insert_eq|done]
     |right; exists (b + 4992), 6; split; [cbn; apply lookup_insert_eq|done]]
   | exists 7; split;
     [cbn; apply map_lookup_filter_Some; split; [rewrite !lookup_insert_ne by lia; apply lookup_insert_eq|cbn; lia]|];
     exists 40; split; [cbn; rewrite lookup_delete_ne, lookup_insert_ne, lookup_insert_eq by done; done|];
     split; [|done]; intros p Hp;
     assert (page_of p = page_of a \/ page_of p = page_of (a + 32)) as [?|?] by (unfold page_of, MMU_PAGE_SIZE; zdm);
     [by left|right; exists (a + 32), 5; split; [|done]; cbn; apply map_lookup_filter_Some;
       split; [rewrite !lookup_insert_ne by lia; apply lookup_insert_eq|cbn; lia]]]).
Qed.

Lemma small_bootable : bootable small_mems small_elfs small_regions 64.
Proof.
  split.
  - unfold small_mems, small_elfs. split; unfold mem_wf, elf_wf, mem_before, elf_le; eval_list.
  - vm_compute. reflexivity.
  - exists (mkRegion 73728 262144 73728), 4096, (tail small_frames). split; [reflexivity|].
    split; [eval_fact|]. split; [vm_compute; reflexivity|].
    split; apply Nat.leb_le; vm_compute; reflexivity.
Qed.

End Small.

Import Small.

