(* ===== verification/MemTest.v ===== *)
(** * MemTest: the memory test of a kernel built with [MMU_MEMTEST]
    (the last part of src/src/page_allocator.c)

    [MMU_memtest] runs before the page tables are made. It checks the order in which
    the frame allocator hands frames out, takes every frame of the boot map, writes
    every word of it, reads everything back and frees it, twice. The theorems say
    for every boot map how the test ends, and that a kernel that passes it has all
    its frames still. *)

From S2P Require Import Prelude Multiboot Frames PageTable VirtPages Kmalloc HeapPages KernelHeap.

(** ** The test *)

Definition MEMTEST_CYCLES : nat := 2.
Definition MEMTEST_ADDR_CAPACITY : Z := 0x8000.

(** The inner loops, over the word indices [j]: [page[j] = page] and the look at it. *)
Fixpoint write_words (page : Z) (js : list nat) : M mm unit :=
  match js with
  | [] => mret tt
  | j :: js => st (page + 8 * Z.of_nat j) page ;; write_words page js
  end.

Fixpoint verify_words (page : Z) (js : list nat) : M mm unit :=
  match js with
  | [] => mret tt
  | j :: js =>
      v ← ld (page + 8 * Z.of_nat j);
      kassert (v =? page) "page[j] == (uintptr_t)page && bit pattern before and after should match!" ;;
      verify_words page js
  end.

(** The two loops over the pages; the list is [memtest_addrs]. *)
Fixpoint memtest_fill (n : nat) : M mm (list Z) :=
  match n with
  | O => mret []
  | S n =>
      page ← MMU_pf_alloc;
      write_words page (seq 0 WORDS_PER_PAGE) ;;
      pages ← memtest_fill n;
      mret (page :: pages)
  end.

Fixpoint memtest_verify (memtest_addrs : list Z) : M mm unit :=
  match memtest_addrs with
  | [] => mret tt
  | page :: pages =>
      verify_words page (seq 0 WORDS_PER_PAGE) ;;
      MMU_pf_free page ;;
      memtest_verify pages
  end.

Fixpoint memtest_cycles (c : nat) (total_pages : nat) : M mm unit :=
  match c with
  | O => mret tt
  | S c =>
      memtest_addrs ← memtest_fill total_pages;
      memtest_verify memtest_addrs ;;
      memtest_cycles c total_pages
  end.

Definition total_pages (rs : list MemRegion) : Z :=
  foldl (fun total r => u64 (total + (r_end r - r_start r) / MMU_PAGE_SIZE)) 0 rs.

Definition TEXT_ORDER : string :=
  "addr1 + MMU_PAGE_SIZE == addr2 && Addresses should be allocated in order".
Definition TEXT_CAPACITY : string :=
  "total_pages <= MEMTEST_ADDR_CAPACITY && Pages must be less than the capacity of memtest to store addresses".

Definition MMU_memtest : M mm unit :=
  addr1 ← MMU_pf_alloc;
  addr2 ← MMU_pf_alloc;
  kassert (addr1 + MMU_PAGE_SIZE =? addr2) TEXT_ORDER ;;
  MMU_pf_free addr1 ;;
  MMU_pf_free addr2 ;;
  addr2_new ← MMU_pf_alloc;
  addr1_new ← MMU_pf_alloc;
  kassert (addr1 =? addr1_new) "addr1 == addr1_new && Addresses should be reused" ;;
  kassert (addr2 =? addr2_new) "addr2 == addr2_new && In reverse order" ;;
  MMU_pf_free addr1_new ;;
  MMU_pf_free addr2_new ;;
  rs ← gets regions;
  kassert (total_pages rs <=? MEMTEST_ADDR_CAPACITY) TEXT_CAPACITY ;;
  memtest_cycles MEMTEST_CYCLES (Z.to_nat (total_pages rs)).

(** ** What the loops leave behind *)

(** Every word of the page at [p] holds the address of the page. *)
Definition filled (m : gmap Z Z) (p : Z) : Prop :=
  forall j, (j < WORDS_PER_PAGE)%nat -> rd m (p + 8 * Z.of_nat j) = p.

(** [s'] is [s] with other contents in the pages [ps], and with frames moved. *)
Record kept (ps : list Z) (s s' : mm) : Prop := {
  kp_mem : forall b, (forall p, p ∈ ps -> ~ p <= b < p + MMU_PAGE_SIZE) -> rd (mem s') b = rd (mem s) b;
  kp_bounds : (fun r => (r_start r, r_end r)) <$> regions s' = (fun r => (r_start r, r_end r)) <$> regions s;
  kp_brk : brk s' = brk s;
  kp_cr2 : cr2 s' = cr2 s;
  kp_cr3 : cr3 s' = cr3 s }.

Lemma kept_refl ps s : kept ps s s.
Proof. by split. Qed.

Lemma kept_trans ps s1 s2 s3 : kept ps s1 s2 -> kept ps s2 s3 -> kept ps s1 s3.
Proof.
  intros [M1 B1 K1 C1 D1] [M2 B2 K2 C2 D2]. split; try congruence.
  intros b Hb. by rewrite M2, M1.
Qed.

Lemma kept_weaken ps ps' s s' : kept ps s s' -> ps ⊆ ps' -> kept ps' s s'.
Proof. intros [M1 B1 K1 C1 D1] Hps. split; try done. intros b Hb. apply M1. intros p Hp. by apply Hb, Hps. Qed.

Lemma carve_frame_bounds rs a rs' : carve_frame rs = Some (a, rs') ->
  (fun r => (r_start r, r_end r)) <$> rs' = (fun r => (r_start r, r_end r)) <$> rs.
Proof.
  revert rs'. induction rs as [|r rs IH]; intros rs'; cbn; [done|].
  destruct (r_next r <? r_end r); [intros [= <- <-]; done|].
  destruct (carve_frame rs) as [[a' rs'']|]; [|done]. intros [= -> <-]. cbn. by rewrite IH.
Qed.

Lemma alloc_bounds s a s' : MMU_pf_alloc s = Ret a s' ->
  (fun r => (r_start r, r_end r)) <$> regions s' = (fun r => (r_start r, r_end r)) <$> regions s.
Proof.
  unfold MMU_pf_alloc. mstep. destruct (negb _).
  - unfold ld. destruct (word_ok _); [|done]. mstep. by intros [= _ <-].
  - mstep. destruct (carve_frame (regions s)) as [[a' rs']|] eqn:E; [|done].
    mstep. intros [= _ <-]. by apply carve_frame_bounds in E.
Qed.

(** Taking and giving back a frame, with everything that stays. *)
Lemma alloc_kept s a fs ps : pool s (a :: fs) ->
  exists s', MMU_pf_alloc s = Ret a s' /\ pool s' fs /\ mem s' = mem s /\ kept ps s s'.
Proof.
  intros Hp. destruct (alloc_pop _ _ _ Hp) as (s' & Hs & Hp' & Hm & Hb & H2 & H3).
  exists s'. split; [done|]. split; [done|]. split; [done|].
  split; try done; [by rewrite Hm|]. by eapply alloc_bounds.
Qed.

Lemma free_kept s a fs : pool s fs -> frame_ok a -> a ∉ fs ->
  exists s', MMU_pf_free a s = Ret tt s' /\ pool s' (a :: fs) /\
    mem s' = <[a := free_list s]> (mem s) /\ kept [a] s s'.
Proof.
  intros Hp Hok Hni. destruct (free_push _ _ _ Hp Hok Hni) as (s' & Hs & Hp' & Hm & Hb & H2 & H3).
  exists s'. split; [done|]. split; [done|]. split; [done|].
  split; try done.
  - intros b Hb'. rewrite Hm. apply rd_insert_ne. intros <-.
    apply (Hb' a); [by left|]. unfold MMU_PAGE_SIZE. lia.
  - revert Hs. unfold MMU_pf_free, st. mstep. destruct (word_ok a); [|done]. mstep. by intros [= <-].
Qed.

(** Two frames share no address, a page is apart from words outside it. *)
Lemma frame_apart p q b : frame_ok p -> frame_ok q -> p <> q ->
  p <= b < p + MMU_PAGE_SIZE -> ~ q <= b < q + MMU_PAGE_SIZE.
Proof.
  intros [Hp _ _] [Hq _ _] Hne Hb Hb'.
  destruct (decide (p < q)); [pose proof (page_gap p q Hp Hq ltac:(lia))|
    pose proof (page_gap q p Hq Hp ltac:(lia))]; lia.
Qed.

Lemma word_in_page p j : (j < WORDS_PER_PAGE)%nat -> p <= p + 8 * Z.of_nat j < p + MMU_PAGE_SIZE.
Proof. unfold WORDS_PER_PAGE, MMU_PAGE_SIZE. lia. Qed.

Lemma filled_kept ps s s' p : kept ps s s' -> filled (mem s) p -> frame_ok p -> Forall frame_ok ps ->
  p ∉ ps -> filled (mem s') p.
Proof.
  intros Hk Hf Hp Hps Hni j Hj. rewrite (kp_mem _ _ _ Hk); [by apply Hf|].
  intros q Hq. rewrite Forall_forall in Hps.
  apply (frame_apart p q); [done|by apply Hps|by intros ->|by apply word_in_page].
Qed.

Lemma pool_kept ps s s' fs : kept ps s s' -> pool s fs -> Forall frame_ok ps -> (forall p, p ∈ ps -> p ∉ fs) ->
  free_list s' = free_list s -> regions s' = regions s -> pool s' fs.
Proof.
  intros Hk Hp Hps Hni Hfl Hrs. eapply pool_agree; [done..|]. intros a Ha.
  apply (kp_mem _ _ _ Hk). intros p Hq. rewrite Forall_forall in Hps.
  apply (frame_apart a p); [by eapply pool_frame|by apply Hps|intros ->; by apply (Hni p)|].
  unfold MMU_PAGE_SIZE. lia.
Qed.

(** ** The loops *)

Lemma write_words_ret page js s : frame_ok page -> Forall (fun j => (j < WORDS_PER_PAGE)%nat) js ->
  exists s', write_words page js s = Ret tt s' /\ kept [page] s s' /\
    free_list s' = free_list s /\ regions s' = regions s /\
    forall j, j ∈ js \/ rd (mem s) (page + 8 * Z.of_nat j) = page -> rd (mem s') (page + 8 * Z.of_nat j) = page.
Proof.
  intros Hok. revert s. induction js as [|j js IH]; intros s Hjs.
  { exists s. split; [done|]. split; [apply kept_refl|]. split; [done|]. split; [done|].
    by intros j [Hj%elem_of_nil|Hj]. }
  apply Forall_cons in Hjs as [Hj Hjs].
  destruct (IH (set_mem (<[page + 8 * Z.of_nat j := page]> (mem s)) s) Hjs) as (s' & Hs & Hk & Hfl & Hrs & Hv).
  exists s'. split.
  { cbn [write_words]. unfold st. rewrite page_words by (apply Hok || lia). mstep. exact Hs. }
  split; [|split; [done|split; [done|]]].
  - eapply kept_trans; [|exact Hk]. split; try done. intros b Hb. cbn. apply rd_insert_ne.
    intros <-. apply (Hb page); [by left|by apply word_in_page].
  - intros i Hi. apply Hv. cbn. rewrite rd_insert. destruct Hi as [[->|Hi]%elem_of_cons|Hi].
    + right. by rewrite decide_True.
    + by left.
    + right. by case_decide.
Qed.

Lemma fill_page_ret page s : frame_ok page ->
  exists s', write_words page (seq 0 WORDS_PER_PAGE) s = Ret tt s' /\ kept [page] s s' /\
    free_list s' = free_list s /\ regions s' = regions s /\ filled (mem s') page.
Proof.
  intros Hok. destruct (write_words_ret page (seq 0 WORDS_PER_PAGE) s Hok) as (s' & Hs & Hk & Hfl & Hrs & Hv).
  { apply Forall_forall. intros j Hj. apply elem_of_seq in Hj. lia. }
  exists s'. split; [done|]. split; [done|]. split; [done|]. split; [done|].
  intros j Hj. apply Hv. left. apply elem_of_seq. lia.
Qed.

Lemma verify_words_ret page js s : frame_ok page ->
  (forall j, j ∈ js -> rd (mem s) (page + 8 * Z.of_nat j) = page) -> verify_words page js s = Ret tt s.
Proof.
  intros Hok. induction js as [|j js IH]; intros Hv; [done|].
  cbn [verify_words]. unfold ld at 1. rewrite page_words by (apply Hok || lia). mstep.
  rewrite bind_assert by (apply Z.eqb_eq, Hv; by left).
  apply IH. intros i Hi. apply Hv. by right.
Qed.

(** Filling takes the whole front of the pool, in order. *)
Lemma memtest_fill_ret ps fs s : pool s (ps ++ fs) ->
  exists s', memtest_fill (length ps) s = Ret ps s' /\ pool s' fs /\ kept ps s s' /\
    Forall (filled (mem s')) ps.
Proof.
  revert s. induction ps as [|p ps IH]; intros s Hp.
  { exists s. split; [done|]. split; [done|]. split; [apply kept_refl|constructor]. }
  pose proof (pool_frames_ok _ _ Hp) as Hoks. cbn [app] in Hoks, Hp.
  apply Forall_cons in Hoks as [Hok Hoks]. apply Forall_app in Hoks as [Hps _].
  pose proof (pl_nodup _ _ Hp) as Hnd. apply NoDup_cons in Hnd as [Hni _].
  destruct (alloc_kept s p (ps ++ fs) (p :: ps) Hp) as (s1 & Hs1 & Hp1 & _ & Hk1).
  destruct (fill_page_ret p s1 Hok) as (s2 & Hs2 & Hk2 & Hfl & Hrs & Hf2).
  assert (pool s2 (ps ++ fs)) as Hp2.
  { eapply pool_kept; [exact Hk2|done|by apply Forall_singleton| |done|done].
    by intros q ->%list_elem_of_singleton. }
  destruct (IH s2 Hp2) as (s3 & Hs3 & Hp3 & Hk3 & Hf3).
  exists s3. split.
  { cbn [memtest_fill length]. rewrite (bind_ret _ _ _ _ _ Hs1), (bind_ret _ _ _ _ _ Hs2).
    by rewrite (bind_ret _ _ _ _ _ Hs3). }
  split; [done|]. split.
  - eapply kept_trans; [exact Hk1|]. eapply kept_trans; (eapply kept_weaken; [done|]).
    + intros q ->%list_elem_of_singleton. by left.
    + intros q Hq. by right.
  - constructor; [|done]. eapply filled_kept; [exact Hk3|done..|].
    intros Hin. apply Hni, elem_of_app. by left.
Qed.

(** Checking puts the pages back, so that the last one is on top. *)
Lemma memtest_verify_ret ps fs s : pool s fs -> Forall frame_ok ps -> NoDup ps ->
  (forall p, p ∈ ps -> p ∉ fs) -> Forall (filled (mem s)) ps ->
  exists s', memtest_verify ps s = Ret tt s' /\ pool s' (reverse ps ++ fs) /\ kept ps s s'.
Proof.
  revert fs s. induction ps as [|p ps IH]; intros fs s Hp Hok Hnd Hni Hf.
  { exists s. split; [done|]. split; [done|apply kept_refl]. }
  apply Forall_cons in Hok as [Hokp Hok], Hf as [Hfp Hf]. apply NoDup_cons in Hnd as [Hnp Hnd].
  destruct (free_kept s p fs Hp Hokp) as (s1 & Hs1 & Hp1 & _ & Hk1); [apply Hni; by left|].
  destruct (IH (p :: fs) s1) as (s2 & Hs2 & Hp2 & Hk2); try done.
  - intros q Hq [->|Hq']%elem_of_cons; [done|]. apply (Hni q); [by right|done].
  - rewrite Forall_forall in Hf, Hok |- *. intros q Hq.
    eapply filled_kept; [exact Hk1|by apply Hf|by apply Hok|by apply Forall_singleton|].
    by intros ->%list_elem_of_singleton.
  - exists s2. split.
    { cbn [memtest_verify]. erewrite bind_ret; cycle 1.
      { apply verify_words_ret; [done|]. intros j Hj. apply Hfp. apply elem_of_seq in Hj. lia. }
      by rewrite (bind_ret _ _ _ _ _ Hs1). }
    split; [by rewrite reverse_cons, <- (assoc_L (++))|].
    eapply kept_trans; (eapply kept_weaken; [done|]).
    + intros q ->%list_elem_of_singleton. by left.
    + intros q Hq. by right.
Qed.

(** One cycle turns the pool around. *)
Lemma memtest_cycle_ret c s fs : pool s fs ->
  exists s', memtest_cycles (S c) (length fs) s = memtest_cycles c (length fs) s' /\
    pool s' (reverse fs) /\ kept fs s s'.
Proof.
  intros Hp. destruct (memtest_fill_ret fs [] s) as (s1 & Hs1 & Hp1 & Hk1 & Hf1); [by rewrite app_nil_r|].
  destruct (memtest_verify_ret fs [] s1 Hp1) as (s2 & Hs2 & Hp2 & Hk2); try done.
  - by eapply pool_frames_ok.
  - apply (pl_nodup _ _ Hp).
  - intros p _. apply not_elem_of_nil.
  - exists s2. split.
    + cbn [memtest_cycles]. rewrite (bind_ret _ _ _ _ _ Hs1). by rewrite (bind_ret _ _ _ _ _ Hs2).
    + split; [by rewrite app_nil_r in Hp2|]. by eapply kept_trans.
Qed.

Lemma memtest_cycles_ret s fs : pool s fs ->
  exists s', memtest_cycles MEMTEST_CYCLES (length fs) s = Ret tt s' /\ pool s' fs /\ kept fs s s'.
Proof.
  intros Hp. destruct (memtest_cycle_ret 1 s fs Hp) as (s1 & Hs1 & Hp1 & Hk1).
  destruct (memtest_cycle_ret 0 s1 (reverse fs) Hp1) as (s2 & Hs2 & Hp2 & Hk2).
  rewrite length_reverse in Hs2. rewrite reverse_involutive in Hp2.
  exists s2. split; [unfold MEMTEST_CYCLES; by rewrite Hs1, Hs2|]. split; [done|].
  eapply kept_trans; [done|]. eapply kept_weaken; [done|]. intros q. by rewrite elem_of_reverse.
Qed.

(** ** The number of pages *)

Lemma total_pages_bounds rs rs' :
  (fun r => (r_start r, r_end r)) <$> rs = (fun r => (r_start r, r_end r)) <$> rs' ->
  total_pages rs = total_pages rs'.
Proof.
  unfold total_pages. generalize 0. revert rs'.
  induction rs as [|r rs IH]; intros [|r' rs'] t; cbn; try done.
  intros [= Hs He Hrs]. rewrite Hs, He. by apply IH.
Qed.

(** Before anything is allocated it is the number of frames. *)
Lemma total_pages_chain lo rs hi : 0 <= lo -> hi < 2 ^ 64 -> Multiboot.chain lo rs hi ->
  total_pages rs = Z.of_nat (length (mjoin (region_frames <$> rs))).
Proof.
  intros Hlo Hhi Hch. unfold total_pages.
  cut (forall t, 0 <= t <= lo ->
    foldl (fun total r => u64 (total + (r_end r - r_start r) / MMU_PAGE_SIZE)) t rs =
    t + Z.of_nat (length (mjoin (region_frames <$> rs)))); [intros H; rewrite (H 0); lia|].
  revert lo Hlo Hch. induction rs as [|r rs IH]; intros lo Hlo Hch t Ht; [cbn; lia|].
  pose proof (chain_le _ _ _ Hch) as _. cbn [Multiboot.chain] in Hch. destruct Hch as (Hle & Hok & Hch).
  pose proof (chain_le _ _ _ Hch) as Hhi'. destruct Hok as [_ _ _ Hne Hn].
  rewrite join_frames_cons, length_app. unfold region_frames at 1. rewrite length_fmap, length_seq, Hn.
  assert (0 <= (r_end r - r_start r) / MMU_PAGE_SIZE <= r_end r - r_start r) by (unfold MMU_PAGE_SIZE; zdm).
  cbn [foldl]. rewrite wrap_small by (unfold in_range; lia).
  rewrite (IH (r_end r)) by (done || lia). lia.
Qed.

(** ** The whole test *)

(** The first six steps: two frames out, back, out in the other order, and back. *)
Lemma memtest_starts s a1 a2 fs : pool s (a1 :: a2 :: fs) -> a1 + MMU_PAGE_SIZE = a2 ->
  exists s', MMU_memtest s =
      (rs ← gets regions;
       kassert (total_pages rs <=? MEMTEST_ADDR_CAPACITY) TEXT_CAPACITY ;;
       memtest_cycles MEMTEST_CYCLES (Z.to_nat (total_pages rs))) s' /\
    pool s' (a2 :: a1 :: fs) /\ kept [a1; a2] s s'.
Proof.
  intros Hp E. pose proof (pool_frames_ok _ _ Hp) as Hok. pose proof (pl_nodup _ _ Hp) as Hnd.
  apply Forall_cons in Hok as [Hok1 Hok], Hok as [Hok2 _].
  apply NoDup_cons in Hnd as [Hni1 Hnd], Hnd as [Hni2 _].
  apply not_elem_of_cons in Hni1 as [Hne Hni1].
  destruct (alloc_kept s _ _ [a1; a2] Hp) as (s1 & Hs1 & Hp1 & _ & Hk1).
  destruct (alloc_kept s1 _ _ [a1; a2] Hp1) as (s2 & Hs2 & Hp2 & _ & Hk2).
  destruct (free_kept s2 a1 fs Hp2 Hok1 Hni1) as (s3 & Hs3 & Hp3 & _ & Hk3).
  destruct (free_kept s3 a2 (a1 :: fs) Hp3 Hok2) as (s4 & Hs4 & Hp4 & _ & Hk4);
    [by apply not_elem_of_cons|].
  destruct (alloc_kept s4 _ _ [a1; a2] Hp4) as (s5 & Hs5 & Hp5 & _ & Hk5).
  destruct (alloc_kept s5 _ _ [a1; a2] Hp5) as (s6 & Hs6 & Hp6 & _ & Hk6).
  destruct (free_kept s6 a1 fs Hp6 Hok1 Hni1) as (s7 & Hs7 & Hp7 & _ & Hk7).
  destruct (free_kept s7 a2 (a1 :: fs) Hp7 Hok2) as (s8 & Hs8 & Hp8 & _ & Hk8);
    [by apply not_elem_of_cons|].
  exists s8. split; [|split; [done|]].
  - unfold MMU_memtest. rewrite (bind_ret _ _ _ _ _ Hs1), (bind_ret _ _ _ _ _ Hs2).
    rewrite bind_assert by (by apply Z.eqb_eq).
    rewrite (bind_ret _ _ _ _ _ Hs3), (bind_ret _ _ _ _ _ Hs4), (bind_ret _ _ _ _ _ Hs5), (bind_ret _ _ _ _ _ Hs6).
    rewrite 2!bind_assert by (by apply Z.eqb_eq).
    rewrite (bind_ret _ _ _ _ _ Hs7), (bind_ret _ _ _ _ _ Hs8). reflexivity.
  - assert ([a1] ⊆ [a1; a2] /\ [a2] ⊆ [a1; a2]) as [H1 H2] by set_solver.
    repeat (eapply kept_trans; [first [eassumption | eapply kept_weaken; eassumption]|]).
    apply kept_refl.
Qed.

(** With enough adjacent memory the test comes to its end. *)
Lemma memtest_passes s a1 a2 fs : pool s (a1 :: a2 :: fs) -> a1 + MMU_PAGE_SIZE = a2 ->
  total_pages (regions s) = Z.of_nat (length (a1 :: a2 :: fs)) ->
  total_pages (regions s) <= MEMTEST_ADDR_CAPACITY ->
  exists s', MMU_memtest s = Ret tt s' /\ pool s' (a2 :: a1 :: fs) /\ kept (a1 :: a2 :: fs) s s'.
Proof.
  intros Hp E Ht Hcap. destruct (memtest_starts s a1 a2 fs Hp E) as (s1 & Hs1 & Hp1 & Hk1).
  destruct (memtest_cycles_ret s1 _ Hp1) as (s2 & Hs2 & Hp2 & Hk2).
  assert (total_pages (regions s1) = total_pages (regions s)) as Ht1
    by (apply total_pages_bounds, Hk1).
  exists s2. split; [|split; [done|]].
  - rewrite Hs1. mstep. rewrite Ht1, bind_assert by (by apply Z.leb_le). rewrite Ht, Nat2Z.id. exact Hs2.
  - eapply kept_trans; (eapply kept_weaken; [done|]); intros x; rewrite !elem_of_cons; [|tauto].
    intros [?|[?|[]%elem_of_nil]]; tauto.
Qed.

(** ** On the boot map *)

Lemma memtest_no_memory s fs : pool s fs -> (length fs < 2)%nat ->
  exists s', MMU_memtest s = Halted "ALLOCATOR OUT OF MEMORY!!!" [] s'.
Proof.
  intros Hp Hl. destruct fs as [|a [|b fs]]; [| |cbn in Hl; lia].
  - exists s. unfold MMU_memtest. by rewrite (bind_halted _ _ _ _ _ _ (alloc_empty s Hp)).
  - destruct (alloc_pop _ _ _ Hp) as (s1 & Hs1 & Hp1 & _). exists s1. unfold MMU_memtest.
    rewrite (bind_ret _ _ _ _ _ Hs1). by rewrite (bind_halted _ _ _ _ _ _ (alloc_empty s1 Hp1)).
Qed.

Lemma memtest_not_adjacent s a1 a2 fs : pool s (a1 :: a2 :: fs) -> a1 + MMU_PAGE_SIZE <> a2 ->
  exists s', MMU_memtest s = Halted ("Assertion Failed: " +:+ TEXT_ORDER)%string [] s'.
Proof.
  intros Hp Hne. destruct (alloc_pop _ _ _ Hp) as (s1 & Hs1 & Hp1 & _).
  destruct (alloc_pop _ _ _ Hp1) as (s2 & Hs2 & _). exists s2. unfold MMU_memtest.
  rewrite (bind_ret _ _ _ _ _ Hs1), (bind_ret _ _ _ _ _ Hs2).
  by rewrite (proj2 (Z.eqb_neq _ _) Hne).
Qed.

Lemma memtest_too_large s a1 a2 fs : pool s (a1 :: a2 :: fs) -> a1 + MMU_PAGE_SIZE = a2 ->
  MEMTEST_ADDR_CAPACITY < total_pages (regions s) ->
  exists s', MMU_memtest s = Halted ("Assertion Failed: " +:+ TEXT_CAPACITY)%string [] s'.
Proof.
  intros Hp E Hcap. destruct (memtest_starts s a1 a2 fs Hp E) as (s1 & Hs1 & _ & Hk1).
  exists s1. rewrite Hs1. mstep. rewrite (total_pages_bounds (regions s1) (regions s)) by apply Hk1.
  by rewrite (proj2 (Z.leb_gt _ _) Hcap).
Qed.

Lemma total_pages_boot mems elfs rs :
  boot_info_ok mems elfs -> build_mem_regions mems elfs [] = Ret tt rs ->
  total_pages rs = Z.of_nat (length (mjoin (region_frames <$> rs))).
Proof.
  intros Hb Hrun. destruct (boot_mm_pool mems elfs rs Hb Hrun) as [[Hch _ _ _ _] _].
  by eapply total_pages_chain; [| |exact Hch].
Qed.

(** ** Properties *)

(** C40: the memory test on every boot map. With less than two frames the allocator halts;
    when the first two frames are not neighbours, or there are more pages than
    [memtest_addrs] has room for, an assertion stops the machine; in every other case
    both cycles of the test pass, every frame is back in the pool, the first
    two in the other order, and nothing but the contents of free frames and
    the allocator's own state has changed. *)
Theorem memtest_outcome mems elfs rs :
  boot_info_ok mems elfs -> build_mem_regions mems elfs [] = Ret tt rs ->
  match mjoin (region_frames <$> rs) with
  | a1 :: a2 :: fs =>
      if decide (a1 + MMU_PAGE_SIZE <> a2) then
        exists s', MMU_memtest (boot_mm rs) = Halted ("Assertion Failed: " +:+ TEXT_ORDER)%string [] s'
      else if decide (MEMTEST_ADDR_CAPACITY < Z.of_nat (length (a1 :: a2 :: fs))) then
        exists s', MMU_memtest (boot_mm rs) = Halted ("Assertion Failed: " +:+ TEXT_CAPACITY)%string [] s'
      else
        exists s', MMU_memtest (boot_mm rs) = Ret tt s' /\ pool s' (a2 :: a1 :: fs) /\
          kept (a1 :: a2 :: fs) (boot_mm rs) s'
  | _ => exists s', MMU_memtest (boot_mm rs) = Halted "ALLOCATOR OUT OF MEMORY!!!" [] s'
  end.
Proof.
  intros Hb Hrun. destruct (boot_mm_pool mems elfs rs Hb Hrun) as [_ Hp].
  pose proof (total_pages_boot mems elfs rs Hb Hrun) as Ht.
  destruct (mjoin (region_frames <$> rs)) as [|a1 [|a2 fs]].
  1, 2: eapply memtest_no_memory; [exact Hp|cbn; lia].
  case_decide as Hne; [by eapply memtest_not_adjacent|].
  assert (a1 + MMU_PAGE_SIZE = a2) as E by lia.
  case_decide as Hcap.
  - eapply memtest_too_large; [exact Hp|exact E|]. cbn [regions boot_mm]. by rewrite Ht.
  - apply memtest_passes; [exact Hp|exact E|exact Ht|]. cbn [regions boot_mm]. rewrite Ht. lia.
Qed.

(** When the test comes to its end, the machine is as ready for its heap as before. *)
Lemma memtest_ready mems elfs rs fuel : bootable mems elfs rs fuel ->
  runs MMU_memtest (boot_mm rs) (fun _ s => ready_mm s fuel)
    (fun msg _ => msg = "ALLOCATOR OUT OF MEMORY!!!" \/ msg = "Assertion Failed: " +:+ TEXT_ORDER \/
       msg = "Assertion Failed: " +:+ TEXT_CAPACITY)%string.
Proof.
  intros [Hinfo Hbuild (r & root & fs & Hlast & Hend & Hfs & Hb & Hfuel)].
  pose proof (boot_mm_pool mems elfs rs Hinfo Hbuild) as [_ Hp].
  pose proof (total_pages_boot mems elfs rs Hinfo Hbuild) as Ht. rewrite Hfs in Hp, Ht. unfold runs.
  destruct fs as [|a2 fs]; [destruct (memtest_no_memory _ _ Hp) as (? & ->); [cbn; lia|by left]|].
  destruct (decide (root + MMU_PAGE_SIZE = a2)) as [E|Hne];
    [|destruct (memtest_not_adjacent _ _ _ _ Hp Hne) as (? & ->); by right; left].
  destruct (decide (MEMTEST_ADDR_CAPACITY < total_pages rs)) as [Hcap|Hcap];
    [destruct (memtest_too_large _ _ _ _ Hp E Hcap) as (? & ->); by right; right|].
  destruct (memtest_passes _ _ _ _ Hp E Ht) as (s & -> & Hp' & Hk); [cbn [regions boot_mm]; lia|].
  assert (exists r', last (regions s) = Some r' /\ r_end r' = r_end r) as (r' & Hlast' & Hr').
  { pose proof (f_equal last (kp_bounds _ _ _ Hk)) as Hl. rewrite !fmap_last in Hl. cbn [regions boot_mm] in Hl.
    rewrite Hlast in Hl. destruct (last (regions s)) as [r'|]; [|done]. injection Hl as _ Hl. by exists r'. }
  split; [by rewrite (kp_brk _ _ _ Hk)|]. exists r', a2, (root :: fs). by rewrite Hr'.
Qed.

(** A kernel built with the test comes up, when the test passes, with the same heap as one
    built without it. *)
Theorem memtest_then_boots `{PoolsAt} mems elfs rs fuel s :
  bootable mems elfs rs fuel -> MMU_memtest (boot_mm rs) = Ret tt s ->
  exists h, boot_heap fuel (mkHeap [] s) = Ret tt h /\ heap_inv h empty_ghost /\ ps_room (vm h) = HEAP_ROOM.
Proof.
  intros Hb Hs. pose proof (memtest_ready mems elfs rs fuel Hb) as Hr. unfold runs in Hr. rewrite Hs in Hr.
  by apply boot_heap_ready.
Qed.

(** ** Examples and witness *)

Example memtest_demo : returns MMU_memtest (boot_mm demo_regions) = true.
Proof. vm_compute. reflexivity. Qed.

(** A first region of a single page fails the test, on memory without fault. *)
Example memtest_single_page_region :
  match MMU_memtest (boot_mm [mkRegion 4096 8192 4096; mkRegion 65536 131072 65536]) with
  | Halted msg _ _ => msg = ("Assertion Failed: " +:+ TEXT_ORDER)%string
  | _ => False
  end.
Proof. vm_compute. reflexivity. Qed.

Lemma memtest_outcome_witness :
  exists s', MMU_memtest (boot_mm demo_regions) = Ret tt s' /\ pool s' [8192; 4096; 1093632] /\
    kept [4096; 8192; 1093632] (boot_mm demo_regions) s'.
Proof.
  apply (memtest_outcome demo_info demo_sections demo_regions).
  - apply demo_info_is_ok.
  - vm_compute. reflexivity.
Defined.
