(* ===== verification/ProcQueue.v ===== *)
(** * ProcQueue: the circular process queues (the list half of
    src/src/processes.c) and their refinement to lists *)

From S2P Require Import Prelude.

(** ** Data

    Nodes live at addresses; 0 is NULL. [context] points to the process's saved
    state, which the queue operations never look at. *)
Record ProcNode := mkNode { context : Z; next : Z; prev : Z }.

Definition set_next (v : Z) (n : ProcNode) : ProcNode := mkNode (context n) v (prev n).
Definition set_prev (v : Z) (n : ProcNode) : ProcNode := mkNode (context n) (next n) v.

(** The nodes, and the [head] of the [struct ProcessQueue] at each address. *)
Record queues := mkQueues { nodes : gmap Z ProcNode; heads : gmap Z Z }.

(** ** Operations *)

Definition get_node (a : Z) : M queues ProcNode :=
  ns ← gets nodes;
  match ns !! a with Some n => mret n | None => fault end.
Definition upd_node (a : Z) (f : ProcNode -> ProcNode) : M queues unit :=
  _ ← get_node a;
  modify (fun s => mkQueues (alter f a (nodes s)) (heads s)).
Definition get_head (q : Z) : M queues Z :=
  hs ← gets heads;
  match hs !! q with Some h => mret h | None => fault end.
Definition put_head (q h : Z) : M queues unit :=
  _ ← get_head q;
  modify (fun s => mkQueues (nodes s) (<[q := h]> (heads s))).

Definition cycle_next_proc (queue : Z) : M queues Z :=
  node ← get_head queue;
  if negb (node =? 0) then
    n ← get_node node;
    put_head queue (next n) ;;
    mret node
  else mret 0.

Definition unlink_proc (node queue : Z) : M queues unit :=
  n ← get_node node;
  if negb (node =? prev n) then
    upd_node (prev n) (set_next (next n)) ;;
    n ← get_node node;
    upd_node (next n) (set_prev (prev n)) ;;
    head ← get_head queue;
    if node =? head then
      n ← get_node node;
      put_head queue (next n)
    else mret tt
  else put_head queue 0.

Definition append_proc (node queue : Z) : M queues unit :=
  head ← get_head queue;
  if negb (head =? 0) then
    h ← get_node head;
    upd_node node (set_prev (prev h)) ;;
    upd_node node (set_next head) ;;
    n ← get_node node;
    upd_node (prev n) (set_next node) ;;
    n ← get_node node;
    upd_node (next n) (set_prev node)
  else
    upd_node node (set_next node) ;;
    upd_node node (set_prev node) ;;
    put_head queue node.

Definition PROC_init_queue (queue : Z) : M queues unit :=
  modify (fun s => mkQueues (nodes s) (<[queue := 0]> (heads s))).

(** ** Circular lists *)

Definition nx (N : gmap Z ProcNode) (a : Z) : option Z := next <$> N !! a.
Definition pv (N : gmap Z ProcNode) (a : Z) : option Z := prev <$> N !! a.

Definition edge (N : gmap Z ProcNode) (a b : Z) : Prop := nx N a = Some b /\ pv N b = Some a.

Fixpoint path (N : gmap Z ProcNode) (l : list Z) : Prop :=
  match l with
  | a :: ((b :: _) as t) => edge N a b /\ path N t
  | _ => True
  end.

Definition cyc (N : gmap Z ProcNode) (l : list Z) : Prop := path N (l ++ take 1 l).

Lemma path_cons N a b l : path N (a :: b :: l) <-> edge N a b /\ path N (b :: l).
Proof. done. Qed.

Lemma path_app N l1 x l2 : path N (l1 ++ x :: l2) <-> path N (l1 ++ [x]) /\ path N (x :: l2).
Proof.
  induction l1 as [|a l1 IH]; [cbn; naive_solver|].
  destruct l1 as [|b l1].
  - cbn [app]. rewrite !path_cons. cbn [path]. tauto.
  - cbn [app] in *. rewrite !path_cons, IH. tauto.
Qed.

Lemma cyc_rotate1 N x t : cyc N (x :: t) <-> cyc N (t ++ [x]).
Proof.
  destruct t as [|y t]; [done|]. unfold cyc. cbn [take app]. rewrite !take_0.
  rewrite <- !app_assoc. cbn [app].
  rewrite path_cons. rewrite (path_app N (y :: t) x [y]). cbn [path app]. tauto.
Qed.

Lemma cyc_rotate N l1 : forall l2, cyc N (l1 ++ l2) <-> cyc N (l2 ++ l1).
Proof.
  induction l1 as [|x l1 IH]; intros l2; [by rewrite app_nil_r|].
  cbn [app]. rewrite cyc_rotate1, <- app_assoc, IH. by rewrite <- app_assoc.
Qed.

Lemma path_frame N N' l : NoDup l -> path N l ->
  (forall a, a ∈ l -> last l <> Some a -> nx N' a = nx N a) ->
  (forall b, b ∈ tail l -> pv N' b = pv N b) -> path N' l.
Proof.
  induction l as [|a l IH]; [done|]. destruct l as [|b l]; [done|].
  intros Hnd Hp Hn Hv. apply path_cons in Hp as [[E1 E2] Hp]. apply path_cons.
  apply NoDup_cons in Hnd as [Hnin Hnd]. split; [split|].
  - rewrite Hn; [done|left|]. rewrite last_cons_cons. intros E.
    apply last_Some_elem_of in E. done.
  - rewrite Hv; [done|left].
  - apply IH; [done..| |].
    + intros c Hc Hl. apply Hn; [by right|by rewrite last_cons_cons].
    + intros c Hc. apply Hv. cbn in *. by right.
Qed.

Lemma path_snoc N l p h : path N l -> last l = Some p -> edge N p h -> path N (l ++ [h]).
Proof.
  intros Hp Hl He. apply last_Some in Hl as [l' ->]. rewrite <- app_assoc. cbn [app].
  apply path_app. by split.
Qed.

Lemma cyc_agree N N' l : (forall a, a ∈ l -> N' !! a = N !! a) -> cyc N l -> cyc N' l.
Proof.
  unfold cyc. intros Ha.
  assert (Hall : forall a, a ∈ l ++ take 1 l -> N' !! a = N !! a).
  { intros a Hin. apply Ha. apply elem_of_app in Hin as [Hin|Hin]; [done|].
    by eapply elem_of_take in Hin as (?&?%list_elem_of_lookup_2&?). }
  revert Hall. generalize (l ++ take 1 l). clear l Ha. intros l.
  induction l as [|a l IH]; [done|]. destruct l as [|b l]; [done|].
  intros Ha. rewrite !path_cons. intros [[E1 E2] Hp]. split.
  - unfold edge, nx, pv in *. by rewrite (Ha a ltac:(left)), (Ha b ltac:(by right; left)).
  - apply IH; [|done]. intros c Hc. apply Ha. by right.
Qed.

(** *** Updating one field *)

Lemma nx_alter N f p a : nx (alter f p N) a = if decide (a = p) then next ∘ f <$> N !! p else nx N a.
Proof.
  unfold nx. case_decide as E.
  - subst. rewrite lookup_alter_eq. by destruct (N !! p).
  - by rewrite lookup_alter_ne.
Qed.

Lemma pv_alter N f p a : pv (alter f p N) a = if decide (a = p) then prev ∘ f <$> N !! p else pv N a.
Proof.
  unfold pv. case_decide as E.
  - subst. rewrite lookup_alter_eq. by destruct (N !! p).
  - by rewrite lookup_alter_ne.
Qed.

Lemma nx_set_next N v p a : is_Some (N !! p) ->
  nx (alter (set_next v) p N) a = if decide (a = p) then Some v else nx N a.
Proof. intros [n Hn]. rewrite nx_alter. case_decide; [by rewrite Hn|done]. Qed.

Lemma pv_set_prev N v p a : is_Some (N !! p) ->
  pv (alter (set_prev v) p N) a = if decide (a = p) then Some v else pv N a.
Proof. intros [n Hn]. rewrite pv_alter. case_decide; [by rewrite Hn|done]. Qed.

Lemma nx_set_prev N v p a : nx (alter (set_prev v) p N) a = nx N a.
Proof. rewrite nx_alter. case_decide; [|done]. subst. unfold nx. by destruct (N !! p). Qed.

Lemma pv_set_next N v p a : pv (alter (set_next v) p N) a = pv N a.
Proof. rewrite pv_alter. case_decide; [|done]. subst. unfold pv. by destruct (N !! p). Qed.

Lemma is_Some_alter (N : gmap Z ProcNode) (f : ProcNode -> ProcNode) (p a : Z) : is_Some (alter f p N !! a) <-> is_Some (N !! a).
Proof. rewrite !lookup_alter_is_Some. done. Qed.

(** *** Surgery *)

Lemma cyc_path N x r : cyc N (x :: r) -> path N (x :: r) /\
  exists p, last (x :: r) = Some p /\ edge N p x.
Proof.
  unfold cyc. cbn [take]. rewrite take_0. intros Hc.
  destruct (last (x :: r)) as [p|] eqn:E; [|by apply last_None in E].
  apply last_Some in E as [l' E]. rewrite E in *. rewrite <- app_assoc in Hc.
  cbn [app] in Hc. apply path_app in Hc as [Hp [He _] ]. eauto.
Qed.

Lemma cyc_intro N x r p : path N (x :: r) -> last (x :: r) = Some p -> edge N p x -> cyc N (x :: r).
Proof. intros. unfold cyc. cbn [take]. rewrite take_0. by eapply path_snoc. Qed.

Lemma edge_some N a b : edge N a b -> is_Some (N !! a) /\ is_Some (N !! b).
Proof. unfold edge, nx, pv. intros [E1 E2]. destruct (N !! a), (N !! b); eauto; done. Qed.

Lemma path_tail N x r : path N (x :: r) -> path N r.
Proof. destruct r; [done|]. rewrite path_cons. tauto. Qed.

(** Taking [x] out of the cycle by pointing its neighbours at each other. *)
Definition bypass (p n : Z) (N : gmap Z ProcNode) : gmap Z ProcNode :=
  alter (set_prev p) n (alter (set_next n) p N).

Lemma cyc_remove N x n r : NoDup (x :: n :: r) -> cyc N (x :: n :: r) ->
  exists p, edge N p x /\ edge N x n /\ last (n :: r) = Some p /\ cyc (bypass p n N) (n :: r).
Proof.
  intros Hnd Hc. apply cyc_path in Hc as [Hp (p & Hl & Hpx)].
  rewrite last_cons_cons in Hl. apply path_cons in Hp as [Hxn Hp].
  exists p. split; [done|]. split; [done|]. split; [done|].
  destruct (edge_some _ _ _ Hpx) as [Sp _], (edge_some _ _ _ Hxn) as [_ Sn].
  apply NoDup_cons in Hnd as [_ Hnd].
  apply (cyc_intro _ _ _ p); [|done|].
  - apply (path_frame N); [done|done| |].
    + intros a Ha Hla. unfold bypass. rewrite nx_set_prev, nx_set_next by done.
      rewrite decide_False; [done|]. by intros ->.
    + intros b Hb. unfold bypass. rewrite pv_set_prev by (by rewrite is_Some_alter).
      rewrite decide_False; [by rewrite pv_set_next|]. intros ->.
      by apply NoDup_cons in Hnd as [? _].
  - unfold bypass. split.
    + rewrite nx_set_prev, nx_set_next by done. by rewrite decide_True.
    + rewrite pv_set_prev by (by rewrite is_Some_alter). by rewrite decide_True.
Qed.

(** Putting [x] between the last node [p] and the head [h]. *)
Definition splice (x p h : Z) (N : gmap Z ProcNode) : gmap Z ProcNode :=
  alter (set_prev x) h (alter (set_next x) p (alter (set_next h) x (alter (set_prev p) x N))).

Lemma cyc_insert N x h t : NoDup (h :: t) -> x ∉ h :: t -> is_Some (N !! x) -> cyc N (h :: t) ->
  exists p, edge N p h /\ last (h :: t) = Some p /\ cyc (splice x p h N) (h :: t ++ [x]).
Proof.
  intros Hnd Hx Sx Hc. apply cyc_path in Hc as [Hp (p & Hl & Hph)]. exists p.
  split; [done|]. split; [done|].
  destruct (edge_some _ _ _ Hph) as [Sp Sh].
  assert (Hxp : x <> p) by (intros ->; by apply Hx, last_Some_elem_of).
  assert (Hxh : x <> h) by (intros ->; apply Hx; left).
  assert (Hpath : path (splice x p h N) (h :: t)).
  { apply (path_frame N); [done|done| |].
    - intros a Ha Hla. unfold splice. rewrite nx_set_prev, !nx_set_next, nx_set_prev by (by rewrite ?is_Some_alter).
      rewrite !decide_False; [done| |]; by intros ->.
    - intros b Hb. unfold splice. rewrite pv_set_prev, !pv_set_next, pv_set_prev by (by rewrite ?is_Some_alter).
      rewrite !decide_False; [done| |]; intros ->.
      + by apply Hx; right.
      + by apply NoDup_cons in Hnd as [? _]. }
  apply (cyc_intro _ _ _ x).
  - change (h :: t ++ [x]) with ((h :: t) ++ [x]). apply (path_snoc _ _ p); [done..|].
    unfold splice. split.
    + rewrite nx_set_prev, nx_set_next by (by rewrite ?is_Some_alter). by rewrite decide_True.
    + rewrite pv_set_prev, !pv_set_next, pv_set_prev by (by rewrite ?is_Some_alter).
      rewrite decide_False, decide_True; done.
  - change (h :: t ++ [x]) with ((h :: t) ++ [x]). apply last_snoc.
  - unfold splice. split.
    + rewrite nx_set_prev, !nx_set_next by (by rewrite ?is_Some_alter).
      by rewrite decide_False, decide_True.
    + rewrite pv_set_prev by (by rewrite ?is_Some_alter). by rewrite decide_True.
Qed.

Lemma cyc_single N x : is_Some (N !! x) -> cyc (alter (set_prev x) x (alter (set_next x) x N)) [x].
Proof.
  intros Sx. apply (cyc_intro _ _ _ x); [done..|]. split.
  - rewrite nx_set_prev, nx_set_next by done. by rewrite decide_True.
  - rewrite pv_set_prev by (by rewrite is_Some_alter). by rewrite decide_True.
Qed.

(** ** The queues as lists *)

Record queues_rep (s : queues) (Q : gmap Z (list Z)) : Prop := {
  qr_head : forall q l, Q !! q = Some l -> heads s !! q = Some (hd 0 l);
  qr_cyc : forall q l, Q !! q = Some l -> NoDup l /\ cyc (nodes s) l;
  qr_node : forall q l a, Q !! q = Some l -> a ∈ l -> is_Some (nodes s !! a);
  qr_apart : forall q q' l l' a, Q !! q = Some l -> Q !! q' = Some l' -> a ∈ l -> a ∈ l' -> q = q';
  qr_null : nodes s !! 0 = None }.

(** The same nodes, up to their links. *)
Definition same_nodes (N N' : gmap Z ProcNode) : Prop :=
  forall a, context <$> N' !! a = context <$> N !! a.

Lemma same_nodes_refl N : same_nodes N N.
Proof. done. Qed.
Lemma same_nodes_trans N N1 N2 : same_nodes N N1 -> same_nodes N1 N2 -> same_nodes N N2.
Proof. intros H1 H2 a. by rewrite H2, H1. Qed.
Lemma same_nodes_alter N f p : (forall n, context (f n) = context n) -> same_nodes N (alter f p N).
Proof.
  intros Hf a. destruct (decide (a = p)) as [->|Hne].
  - rewrite lookup_alter_eq. destruct (N !! p); [|done]. cbn. by rewrite Hf.
  - by rewrite lookup_alter_ne.
Qed.
Lemma same_nodes_is_Some N N' a : same_nodes N N' -> is_Some (N' !! a) <-> is_Some (N !! a).
Proof.
  intros Hs. specialize (Hs a). destruct (N !! a), (N' !! a); try done.
Qed.

Lemma rep_update s Q q l l' N' : queues_rep s Q -> Q !! q = Some l ->
  same_nodes (nodes s) N' -> NoDup l' -> cyc N' l' ->
  (forall a, a ∈ l' -> is_Some (N' !! a)) ->
  (forall a q' m, q' <> q -> Q !! q' = Some m -> a ∈ m -> (a ∉ l') /\ N' !! a = nodes s !! a) ->
  queues_rep (mkQueues N' (<[q := hd 0 l']> (heads s))) (<[q := l']> Q).
Proof.
  intros Hr Hq Hs Hnd Hc Hn Ho. split; cbn.
  - intros q' m Hm. destruct (decide (q' = q)) as [->|Hne].
    + rewrite lookup_insert_eq in Hm. injection Hm as <-. done || apply lookup_insert_eq.
    + rewrite lookup_insert_ne in Hm by done. rewrite lookup_insert_ne by done. by apply (qr_head _ _ Hr).
  - intros q' m Hm. destruct (decide (q' = q)) as [->|Hne].
    + rewrite lookup_insert_eq in Hm. injection Hm as <-. done || apply lookup_insert_eq.
    + rewrite lookup_insert_ne in Hm by done. destruct (qr_cyc _ _ Hr q' m Hm) as [Hndm Hcm].
      split; [done|]. apply (cyc_agree (nodes s)); [|done]. intros a Ha. by apply (Ho a q' m).
  - intros q' m a Hm Ha. destruct (decide (q' = q)) as [->|Hne].
    + rewrite lookup_insert_eq in Hm. injection Hm as <-. by apply Hn.
    + rewrite lookup_insert_ne in Hm by done. rewrite (same_nodes_is_Some _ _ _ Hs).
      by apply (qr_node _ _ Hr q' m).
  - intros q1 q2 m1 m2 a H1 H2 Ha1 Ha2.
    destruct (decide (q1 = q)) as [->|Hne1], (decide (q2 = q)) as [->|Hne2]; [done| | |].
    + rewrite lookup_insert_eq in H1. injection H1 as <-. rewrite lookup_insert_ne in H2 by done.
      by destruct (Ho a q2 m2 Hne2 H2 Ha2).
    + rewrite lookup_insert_eq in H2. injection H2 as <-. rewrite lookup_insert_ne in H1 by done.
      by destruct (Ho a q1 m1 Hne1 H1 Ha1).
    + rewrite lookup_insert_ne in H1, H2 by done. by eapply (qr_apart _ _ Hr).
  - pose proof (qr_null _ _ Hr) as H0. pose proof (Hs 0) as E. rewrite H0 in E. by destruct (N' !! 0).
Qed.

(** *** Running the primitives *)

Lemma bind_get_node {B} a n (k : ProcNode -> M queues B) s : nodes s !! a = Some n ->
  (get_node a ≫= k) s = k n s.
Proof. intros Hn. unfold get_node, mbind, M_bind, gets. by rewrite Hn. Qed.

Lemma upd_node_ret a f s : is_Some (nodes s !! a) ->
  upd_node a f s = Ret tt (mkQueues (alter f a (nodes s)) (heads s)).
Proof. intros [n Hn]. unfold upd_node. by rewrite (bind_get_node a n). Qed.

Lemma bind_upd_node {B} a f (k : unit -> M queues B) s : is_Some (nodes s !! a) ->
  (upd_node a f ≫= k) s = k tt (mkQueues (alter f a (nodes s)) (heads s)).
Proof. intros Ha. by rewrite (bind_ret _ _ _ _ _ (upd_node_ret a f s Ha)). Qed.

Lemma bind_get_head {B} q h (k : Z -> M queues B) s : heads s !! q = Some h ->
  (get_head q ≫= k) s = k h s.
Proof. intros Hh. unfold get_head, mbind, M_bind, gets. by rewrite Hh. Qed.

Lemma put_head_ret q v s : is_Some (heads s !! q) ->
  put_head q v s = Ret tt (mkQueues (nodes s) (<[q := v]> (heads s))).
Proof. intros [h Hh]. unfold put_head. by rewrite (bind_get_head q h). Qed.

Lemma nx_lookup N a b : nx N a = Some b -> exists n, N !! a = Some n /\ next n = b.
Proof. unfold nx. destruct (N !! a) as [n|]; [|done]. intros [= <-]. eauto. Qed.
Lemma pv_lookup N a b : pv N a = Some b -> exists n, N !! a = Some n /\ prev n = b.
Proof. unfold pv. destruct (N !! a) as [n|]; [|done]. intros [= <-]. eauto. Qed.

Lemma queue_not_null s Q q l a : queues_rep s Q -> Q !! q = Some l -> a ∈ l -> a <> 0.
Proof.
  intros Hr Hq Ha ->. destruct (qr_node _ _ Hr q l 0 Hq Ha). by rewrite (qr_null _ _ Hr) in *.
Qed.

(** *** The operations refine list operations *)

Lemma cycle_refines s Q q l : queues_rep s Q -> Q !! q = Some l ->
  exists s', cycle_next_proc q s = Ret (hd 0 l) s' /\ nodes s' = nodes s /\
    queues_rep s' (<[q := tail l ++ take 1 l]> Q).
Proof.
  intros Hr Hq. pose proof (qr_head _ _ Hr q l Hq) as Hh. unfold cycle_next_proc.
  rewrite (bind_get_head _ _ _ _ Hh). destruct l as [|x t]; cbn [hd tail take app].
  - exists s. split; [done|]. split; [done|]. by rewrite insert_id.
  - pose proof (queue_not_null _ _ _ _ x Hr Hq ltac:(left)) as Hx.
    rewrite (proj2 (Z.eqb_neq _ _) Hx). cbn [negb].
    destruct (qr_cyc _ _ Hr q _ Hq) as [Hnd Hc].
    assert (Hn : nx (nodes s) x = Some (hd 0 (t ++ [x]))).
    { destruct (cyc_path _ _ _ Hc) as [Hp (p & Hl & Hpx)]. destruct t as [|n t].
      - injection Hl as <-. by destruct Hpx.
      - apply path_cons in Hp as [[E _] _]. by rewrite E. }
    destruct (nx_lookup _ _ _ Hn) as (n & Hxn & En). rewrite (bind_get_node _ _ _ _ Hxn).
    rewrite (bind_ret _ _ _ _ _ (put_head_ret q (next n) s ltac:(by eexists))).
    eexists. split; [done|]. split; [done|]. rewrite En, take_0.
    apply (rep_update s Q q (x :: t)); try done.
    + rewrite <- Permutation_cons_append. done.
    + by apply cyc_rotate1.
    + intros a Ha. apply (qr_node _ _ Hr q (x :: t)); [done|]. rewrite <- Permutation_cons_append in Ha. done.
    + intros a q' m Hne Hm Ha. split; [|done]. rewrite <- Permutation_cons_append. intros Hin.
      apply Hne. by eapply (qr_apart _ _ Hr).
Qed.

(** Unlinking: the queue loses the node; if it was the head, the next one is. *)
Lemma unlink_refines s Q q l1 x l2 : queues_rep s Q -> Q !! q = Some (l1 ++ x :: l2) ->
  exists s', unlink_proc x q s = Ret tt s' /\ same_nodes (nodes s) (nodes s') /\
    queues_rep s' (<[q := l1 ++ l2]> Q).
Proof.
  intros Hr Hq. pose proof (qr_head _ _ Hr q _ Hq) as Hh.
  destruct (qr_cyc _ _ Hr q _ Hq) as [Hnd Hc].
  assert (Hperm : l1 ++ x :: l2 ≡ₚ x :: l2 ++ l1) by solve_Permutation.
  apply cyc_rotate in Hc. cbn [app] in Hc. pose proof Hnd as Hnd'. rewrite Hperm in Hnd'.
  unfold unlink_proc. destruct (l2 ++ l1) as [|n r] eqn:Er.
  - (* the only node *)
    apply app_eq_nil in Er as [-> ->]. cbn [app] in *.
    destruct (cyc_path _ _ _ Hc) as [_ (p & Hl & [_ Hp])]. injection Hl as <-.
    destruct (pv_lookup _ _ _ Hp) as (nd & Hx & En). rewrite (bind_get_node _ _ _ _ Hx), En.
    rewrite Z.eqb_refl. cbn [negb]. rewrite (put_head_ret _ _ _ ltac:(by eexists)).
    eexists. split; [done|]. split; [done|].
    apply (rep_update s Q q [x] []); try done; [apply NoDup_nil_2|intros a Ha; by apply not_elem_of_nil in Ha|].
    intros a q' m _ _ _. split; [apply not_elem_of_nil|done].
  - destruct (cyc_remove _ _ _ _ Hnd' Hc) as (p & [Hpx1 Hpx2] & [Hxn1 Hxn2] & Hl & Hc').
    assert (Hxnp : x <> p /\ x <> n).
    { apply NoDup_cons in Hnd' as [Hnin _]. split; intros ->; apply Hnin; [|left].
      by apply last_Some_elem_of. }
    destruct Hxnp as [Hxp Hxn].
    destruct (pv_lookup _ _ _ Hpx2) as (nd & Hx & Epv).
    assert (Enx : next nd = n) by (unfold nx in Hxn1; rewrite Hx in Hxn1; by injection Hxn1).
    destruct (nx_lookup _ _ _ Hpx1) as (np & Hp & _), (pv_lookup _ _ _ Hxn2) as (nn & Hn & _).
    rewrite (bind_get_node _ _ _ _ Hx), Epv, Enx, (proj2 (Z.eqb_neq _ _) Hxp). cbn [negb].
    rewrite bind_upd_node by (by eexists).
    rewrite (bind_get_node x nd) by (cbn; by rewrite lookup_alter_ne). rewrite Epv, Enx.
    rewrite bind_upd_node by (cbn; by rewrite is_Some_alter; eexists).
    cbn [nodes heads]. rewrite (bind_get_head _ (hd 0 (l1 ++ x :: l2))) by done.
    change (alter (set_prev p) n (alter (set_next n) p (nodes s))) with (bypass p n (nodes s)).
    assert (Hsame : same_nodes (nodes s) (bypass p n (nodes s))).
    { eapply same_nodes_trans; apply same_nodes_alter; done. }
    assert (Hin : forall a, a ∈ n :: r <-> a ∈ l1 ++ l2).
    { intros a. rewrite <- Er, !elem_of_app. tauto. }
    assert (Hrep : queues_rep (mkQueues (bypass p n (nodes s)) (<[q := hd 0 (l1 ++ l2)]> (heads s)))
                     (<[q := l1 ++ l2]> Q)).
    { apply (rep_update s Q q (l1 ++ x :: l2)); try done.
      - apply NoDup_cons in Hnd' as [_ Hnd']. rewrite <- Er in Hnd'. by rewrite (Permutation_app_comm l1 l2).
      - apply cyc_rotate. by rewrite Er.
      - intros a Ha. rewrite (same_nodes_is_Some _ _ _ Hsame). apply (qr_node _ _ Hr q _ a Hq).
        rewrite Hperm. right. by apply Hin.
      - intros a q' m Hne Hm Ha.
        assert (Hnin : a ∉ l1 ++ x :: l2).
        { intros Hin'. apply Hne. by eapply (qr_apart _ _ Hr). }
        rewrite Hperm in Hnin. apply not_elem_of_cons in Hnin as [_ Hnin]. split.
        + by rewrite <- Hin.
        + unfold bypass. rewrite !lookup_alter_ne; [done| |]; intros ->; apply Hnin; [|left].
          by apply last_Some_elem_of. }
    destruct l1 as [|h l1]; cbn [app hd].
    + rewrite Z.eqb_refl. rewrite (bind_get_node x nd) by
        (cbn; unfold bypass; by rewrite !lookup_alter_ne). rewrite put_head_ret by (by eexists).
      eexists. split; [done|]. split; [done|]. cbn [nodes heads].
      cbn [app] in *. rewrite app_nil_r in Er. subst l2. cbn [hd] in Hrep. by rewrite Enx.
    + assert (Hxh : x <> h).
      { intros ->. cbn [app] in Hnd. apply NoDup_cons in Hnd as [Hnin _].
        apply Hnin, elem_of_app. right. left. }
      rewrite (proj2 (Z.eqb_neq _ _) Hxh). eexists. split; [done|]. split; [done|].
      cbn [app hd] in *. by rewrite insert_id in Hrep.
Qed.

(** Appending: the node becomes the last of the queue. *)
Lemma append_refines s Q q l x : queues_rep s Q -> Q !! q = Some l -> is_Some (nodes s !! x) ->
  (forall q' m, Q !! q' = Some m -> x ∉ m) ->
  exists s', append_proc x q s = Ret tt s' /\ same_nodes (nodes s) (nodes s') /\
    queues_rep s' (<[q := l ++ [x]]> Q).
Proof.
  intros Hr Hq Sx Hfresh. pose proof (qr_head _ _ Hr q _ Hq) as Hh.
  destruct (qr_cyc _ _ Hr q _ Hq) as [Hnd Hc]. pose proof (Hfresh q l Hq) as Hxl.
  unfold append_proc. rewrite (bind_get_head _ _ _ _ Hh). destruct l as [|h t]; cbn [hd].
  - cbn [negb Z.eqb]. rewrite bind_upd_node by done.
    rewrite bind_upd_node by (cbn; by rewrite is_Some_alter).
    rewrite put_head_ret by (by eexists). eexists. split; [done|]. cbn [nodes heads app].
    assert (Hsame : same_nodes (nodes s) (alter (set_prev x) x (alter (set_next x) x (nodes s)))).
    { eapply same_nodes_trans; apply same_nodes_alter; done. }
    split; [done|]. apply (rep_update s Q q [] [x]); try done.
    + apply NoDup_singleton.
    + by apply cyc_single.
    + intros a Ha. apply list_elem_of_singleton in Ha as ->. by rewrite !is_Some_alter.
    + intros a q' m Hne Hm Ha. assert (a <> x) by (intros ->; by apply (Hfresh q' m)).
      split; [by rewrite list_elem_of_singleton|]. by rewrite !lookup_alter_ne.
  - pose proof (queue_not_null _ _ _ _ h Hr Hq ltac:(left)) as Hh0.
    rewrite (proj2 (Z.eqb_neq _ _) Hh0). cbn [negb].
    destruct (cyc_insert _ _ _ _ Hnd Hxl Sx Hc) as (p & [Hp1 Hp2] & Hl & Hc').
    assert (Hxp : x <> p) by (intros ->; by apply Hxl, last_Some_elem_of).
    destruct (pv_lookup _ _ _ Hp2) as (nh & Hnh & Eph).
    destruct (nx_lookup _ _ _ Hp1) as (np & Hnp & _). destruct Sx as [nd Hx].
    rewrite (bind_get_node _ _ _ _ Hnh), Eph.
    rewrite bind_upd_node by (by eexists).
    rewrite bind_upd_node by (cbn; by rewrite is_Some_alter; eexists). cbn [nodes heads].
    rewrite (bind_get_node x (set_next h (set_prev p nd))) by
      (cbn; by rewrite !lookup_alter_eq, Hx). cbn [prev next set_next set_prev].
    rewrite bind_upd_node by (cbn; rewrite !lookup_alter_ne by done; by eexists). cbn [nodes heads].
    rewrite (bind_get_node x (set_next h (set_prev p nd))) by
      (cbn; by rewrite lookup_alter_ne, !lookup_alter_eq, Hx by done). cbn [next set_next].
    assert (Hxh : x <> h) by (intros ->; apply Hxl; left).
    rewrite upd_node_ret by (cbn; rewrite !is_Some_alter; by eexists). cbn [nodes heads].
    match goal with |- context [Ret tt (mkQueues ?N _)] => change N with (splice x p h (nodes s)) end.
    assert (Hsame : same_nodes (nodes s) (splice x p h (nodes s))).
    { do 3 (eapply same_nodes_trans; [|by apply same_nodes_alter]). by apply same_nodes_alter. }
    eexists. split; [done|]. split; [done|].
    rewrite <- (insert_id (heads s) q h) by done.
    apply (rep_update s Q q (h :: t) ((h :: t) ++ [x])); try done.
    + rewrite <- Permutation_cons_append. by apply NoDup_cons.
    + intros a Ha. rewrite (same_nodes_is_Some _ _ _ Hsame).
      apply elem_of_app in Ha as [Ha|Ha]; [by apply (qr_node _ _ Hr q (h :: t))|].
      apply list_elem_of_singleton in Ha as ->. by eexists.
    + intros a q' m Hne Hm Ha. assert (Hax : a <> x) by (intros ->; by apply (Hfresh q' m)).
      assert (Hnin : a ∉ h :: t) by (intros Hin; apply Hne; by eapply (qr_apart _ _ Hr)).
      split.
      * rewrite elem_of_app, list_elem_of_singleton. naive_solver.
      * unfold splice. rewrite !lookup_alter_ne; [done|done|done| |]; intros ->; apply Hnin; [|left].
        by apply last_Some_elem_of.
Qed.

Lemma init_refines s Q q : queues_rep s Q -> (Q !! q = None \/ Q !! q = Some []) ->
  exists s', PROC_init_queue q s = Ret tt s' /\ nodes s' = nodes s /\ queues_rep s' (<[q := []]> Q).
Proof.
  intros Hr Hq. eexists. split; [done|]. split; [done|]. destruct Hr as [Hhd Hcy Hnd Hap Hnl].
  split; cbn; try done.
  - intros q' l Hl. destruct (decide (q' = q)) as [->|Hne].
    + rewrite lookup_insert_eq in Hl. injection Hl as <-. apply lookup_insert_eq.
    + rewrite lookup_insert_ne in Hl by done. rewrite lookup_insert_ne by done. by apply Hhd.
  - intros q' l Hl. apply lookup_insert_Some in Hl as [[<- <-]|[_ Hl]]; [|by eapply Hcy].
    split; [apply NoDup_nil_2|done].
  - intros q' l a Hl Ha. apply lookup_insert_Some in Hl as [[<- <-]|[_ Hl]]; [|by eapply Hnd].
    by apply not_elem_of_nil in Ha.
  - intros q1 q2 m1 m2 a H1 H2 Ha1 Ha2.
    apply lookup_insert_Some in H1 as [[<- <-]|[_ H1]]; [by apply not_elem_of_nil in Ha1|].
    apply lookup_insert_Some in H2 as [[<- <-]|[_ H2]]; [by apply not_elem_of_nil in Ha2|].
    by eapply Hap.
Qed.
