(* ===== verification/Processes.v ===== *)
(** * Processes: threads, the scheduler and the context switch
    (src/src/processes.c, the switch of src/src/isr_handler.asm)

    The allocator is seen through the interface [Allocator]. A function that ends
    in [int $0x80] or in [kexit] does not return to its caller until its thread is
    chosen again: here it is the transition up to the moment the next thread is
    about to run, which is then [cur_proc]. *)

From S2P Require Import Prelude Multiboot ProcQueue.

(** ** Interfaces *)

(** [kmalloc], [kfree] and stores into the blocks: a block's pages come into memory
    as they are written to. *)
Class Allocator (A : Type) := {
  al_kmalloc : Z -> M A Z;
  al_kfree : Z -> M A unit;
  al_store : Z -> Z -> M A unit }.

Definition PROC_STACK_SIZE : Z := 8192.

(** [L] has the live blocks and the sizes asked for. A new block is apart from
    them. *)
Definition block_apart (L : gmap Z Z) (p n : Z) : Prop :=
  forall p' n', L !! p' = Some n' -> p + n <= p' \/ p' + n' <= p.

(** Every page of the block at [p] but its first has one of the words [T] that were
    written to; only then does [kfree] take the block back. *)
Definition written (T : gset Z) (p n : Z) : Prop :=
  forall q, p <= q < p + n -> page_of q = page_of p \/
    exists q', q' ∈ T /\ p <= q' < p + n /\ page_of q' = page_of q.

(** The largest request that is served from a page. *)
Definition SMALL : Z := 2032.

Class AllocatorLaws (A : Type) `{Allocator A} := {
  al_holds : A -> gmap Z Z -> gset Z -> Prop;
  al_oom : string -> Prop;
  al_room : A -> Z;                       (* the address space left *)
  al_need : Z -> Z;                       (* what a request may take of it *)
  al_need_pos : forall n, 0 < n -> 0 <= al_need n;
  al_positive : forall a L T p n, al_holds a L T -> L !! p = Some n -> 0 < p /\ 0 < n;
  al_small : forall a L T p n, al_holds a L T -> L !! p = Some n -> n <= SMALL ->
    page_of (p + n - 1) = page_of p;
  al_large : forall a L T p n, al_holds a L T -> L !! p = Some n -> SMALL < n ->
    p mod MMU_PAGE_SIZE = 16;
  al_apart : forall a L T p n p' n', al_holds a L T -> L !! p = Some n -> L !! p' = Some n' ->
    p <> p' -> p + n <= p' \/ p' + n' <= p;
  al_kmalloc_law : forall a L T n, al_holds a L T -> 0 < n <= 8192 -> al_need n <= al_room a ->
    runs (al_kmalloc n) a
      (fun p a' => block_apart L p n /\ 0 < p < 2 ^ 48 /\ al_holds a' (<[p := n]> L) T /\
         al_room a - al_need n <= al_room a')
      (fun msg _ => al_oom msg);
  al_store_law : forall a L T p n q v, al_holds a L T -> L !! p = Some n ->
    p <= q -> q + 8 <= p + n -> q mod 8 = 0 ->
    runs (al_store q v) a
      (fun _ a' => al_holds a' L ({[q]} ∪ T) /\ al_room a' = al_room a) (fun msg _ => al_oom msg);
  al_kfree_law : forall a L T p n, al_holds a L T -> L !! p = Some n -> written T p n ->
    runs (al_kfree p) a
      (fun _ a' => al_holds a' (delete p L) (filter (fun q => ~ p <= q < p + n) T) /\ al_room a' = al_room a)
      (fun msg _ => al_oom msg) }.

(** What the scheduler keeps of it: the blocks are there, and the stacks can be
    given back. *)
Definition owns {A} `{AllocatorLaws A} (a : A) (L : gmap Z Z) : Prop :=
  exists T, al_holds a L T /\ forall f, L !! f = Some PROC_STACK_SIZE -> written T f PROC_STACK_SIZE.

(** Link-time addresses of the statics, and the selector of the kernel code
    segment, [GDT_kernel_desc_offset()]. *)
Class ProcStatics := {
  avail_procs : Z;
  source_proc : Z;
  source_proc_ctx : Z;
  kexit_addr : Z;
  kernel_cs : Z;
  source_not_null : source_proc <> 0 }.

(** ** Data *)

Record ProcContext := mkCtx { rsp : Z; pid : Z; frame : Z }.

(** What [IRQ_handler_set] has put at vectors 0x80 and 0x81. *)
Inductive handler := H_null | H_noop | H_kexit.

Record sched (A : Type) := mkSched {
  qs : queues;
  ctxs : gmap Z ProcContext;
  stacks : gmap Z Z;           (* the words of the thread stacks *)
  cur_proc : Z;
  next_proc : Z;
  pid_count : Z;
  irq80 : handler;
  irq81 : handler;
  int_flag : bool;             (* RFLAGS.IF *)
  rsp_reg : Z;                 (* the stack pointer *)
  alloc : A }.
Arguments mkSched {A}.
Arguments qs {A}. Arguments ctxs {A}. Arguments stacks {A}. Arguments cur_proc {A}.
Arguments next_proc {A}. Arguments pid_count {A}. Arguments irq80 {A}. Arguments irq81 {A}.
Arguments int_flag {A}. Arguments rsp_reg {A}. Arguments alloc {A}.

(** [sizeof(struct InitalProcFrame)]: 25 words. *)
Definition FRAME_WORDS : nat := 25.
(** Word offsets of the fields of [struct InitalProcFrame] that are set. *)
Definition OFF_rdi : Z := 8 * 14.
Definition OFF_rip : Z := 8 * 19.
Definition OFF_cs : Z := 8 * 20.
Definition OFF_rsp : Z := 8 * 22.
Definition OFF_kexit_ret : Z := 8 * 24.

(** ** Operations *)

Section operations.
Context {A : Type} `{Allocator A} `{ProcStatics}.
Abbreviation P := (M (sched A)).

Definition set_qs (q : queues) (s : sched A) : sched A :=
  mkSched q (ctxs s) (stacks s) (cur_proc s) (next_proc s) (pid_count s) (irq80 s) (irq81 s) (int_flag s) (rsp_reg s) (alloc s).
Definition set_ctxs c (s : sched A) : sched A :=
  mkSched (qs s) c (stacks s) (cur_proc s) (next_proc s) (pid_count s) (irq80 s) (irq81 s) (int_flag s) (rsp_reg s) (alloc s).
Definition set_stacks m (s : sched A) : sched A :=
  mkSched (qs s) (ctxs s) m (cur_proc s) (next_proc s) (pid_count s) (irq80 s) (irq81 s) (int_flag s) (rsp_reg s) (alloc s).
Definition set_cur c (s : sched A) : sched A :=
  mkSched (qs s) (ctxs s) (stacks s) c (next_proc s) (pid_count s) (irq80 s) (irq81 s) (int_flag s) (rsp_reg s) (alloc s).
Definition set_nextp n (s : sched A) : sched A :=
  mkSched (qs s) (ctxs s) (stacks s) (cur_proc s) n (pid_count s) (irq80 s) (irq81 s) (int_flag s) (rsp_reg s) (alloc s).
Definition set_pid_count n (s : sched A) : sched A :=
  mkSched (qs s) (ctxs s) (stacks s) (cur_proc s) (next_proc s) n (irq80 s) (irq81 s) (int_flag s) (rsp_reg s) (alloc s).
Definition set_irqs a b (s : sched A) : sched A :=
  mkSched (qs s) (ctxs s) (stacks s) (cur_proc s) (next_proc s) (pid_count s) a b (int_flag s) (rsp_reg s) (alloc s).
Definition set_if b (s : sched A) : sched A :=
  mkSched (qs s) (ctxs s) (stacks s) (cur_proc s) (next_proc s) (pid_count s) (irq80 s) (irq81 s) b (rsp_reg s) (alloc s).
Definition set_rsp_reg r (s : sched A) : sched A :=
  mkSched (qs s) (ctxs s) (stacks s) (cur_proc s) (next_proc s) (pid_count s) (irq80 s) (irq81 s) (int_flag s) r (alloc s).
Definition set_alloc a (s : sched A) : sched A :=
  mkSched (qs s) (ctxs s) (stacks s) (cur_proc s) (next_proc s) (pid_count s) (irq80 s) (irq81 s) (int_flag s) (rsp_reg s) a.

Definition qop {B} (m : M queues B) : P B := zoom qs set_qs m.
Definition aop {B} (m : M A B) : P B := zoom alloc set_alloc m.

(** Field accesses through a pointer; [kfree] takes the object away, so that a
    later access through a stale pointer is a [fault]. *)
Definition get_ctx (a : Z) : P ProcContext :=
  cs ← gets ctxs;
  match cs !! a with Some c => mret c | None => fault end.
Definition free_node (a : Z) : P unit :=
  aop (al_kfree a) ;;
  modify (fun s => set_qs (mkQueues (delete a (nodes (qs s))) (heads (qs s))) s).
Definition free_ctx (a : Z) : P unit :=
  aop (al_kfree a) ;; modify (fun s => set_ctxs (delete a (ctxs s)) s).

Definition PROC_reschedule : P unit :=
  n ← qop (cycle_next_proc avail_procs);
  modify (set_nextp n).

Definition PROC_resume_source : P unit := modify (set_nextp source_proc).

Definition PROC_has_unblocked : P bool :=
  h ← qop (get_head avail_procs); mret (negb (h =? 0)).

(** The end of [isr_no_err]: store the current thread's stack pointer in its
    context, take up the one of [next_proc]; nothing when they are the same. *)
Definition context_switch : P unit :=
  cur ← gets cur_proc;
  nxt ← gets next_proc;
  if cur =? nxt then mret tt
  else
    (if negb (cur =? 0) then
       n ← qop (get_node cur);
       c ← get_ctx (context n);
       sp ← gets rsp_reg;
       modify (fun s => set_ctxs (<[context n := mkCtx sp (pid c) (frame c)]> (ctxs s)) s)
     else mret tt) ;;
    nxt ← gets next_proc;
    (if nxt =? 0 then PROC_resume_source else mret tt) ;;
    nxt ← gets next_proc;
    n ← qop (get_node nxt);
    c ← get_ctx (context n);
    modify (set_rsp_reg (rsp c)) ;;
    modify (set_cur nxt).

Definition noop_handler : P unit := mret tt.

(** The three blocks of a thread are given back before [cur_proc] is cleared. *)
Definition kexit_handler : P unit :=
  cur ← gets cur_proc;
  qop (unlink_proc cur avail_procs) ;;
  n ← qop (get_node cur);
  c ← get_ctx (context n);
  aop (al_kfree (frame c)) ;;
  n ← qop (get_node cur);
  free_ctx (context n) ;;
  free_node cur ;;
  modify (set_cur 0) ;;
  head ← qop (get_head avail_procs);
  if head =? 0 then PROC_resume_source
  else modify (set_nextp head).

Definition dispatch (h : handler) : P unit :=
  match h with
  | H_noop => noop_handler
  | H_kexit => kexit_handler
  | H_null => mret tt                 (* unhandled_irq_handler only prints *)
  end.

(** [int $0x80] and [int $0x81]: the handler, then the switch. *)
Definition int80 : P unit := h ← gets irq80; dispatch h ;; context_switch.
Definition kexit : P unit := h ← gets irq81; dispatch h ;; context_switch.

Definition yield : P unit := PROC_reschedule ;; int80.

Definition PROC_block_on (queue : Z) (enable_ints : bool) : P unit :=
  if queue =? 0 then mret tt
  else
    cur ← gets cur_proc;
    qop (unlink_proc cur avail_procs) ;;
    qop (append_proc cur queue) ;;
    (if enable_ints then modify (set_if true) else mret tt) ;;
    yield.

Definition PROC_unblock_head (queue : Z) : P unit :=
  node ← qop (get_head queue);
  kassert (negb (node =? 0)) "node != NULL && Cannot unblock null head" ;;
  qop (unlink_proc node queue) ;;
  qop (append_proc node avail_procs).

Fixpoint PROC_unblock_all (fuel : nat) (queue : Z) : P unit :=
  head ← qop (get_head queue);
  if negb (head =? 0) then
    match fuel with
    | O => no_fuel
    | S fuel => PROC_unblock_head queue ;; PROC_unblock_all fuel queue
    end
  else mret tt.

(** [PROC_run] up to its [int $0x80], and what it does once the source thread is
    resumed. *)
Definition PROC_run : P bool :=
  h ← qop (get_head avail_procs);
  if negb (h =? 0) then
    modify (fun s => set_irqs H_noop (irq81 s) s) ;;
    modify (fun s => set_ctxs (<[source_proc_ctx := mkCtx 0 0 0]> (ctxs s)) s) ;;
    modify (fun s => set_qs (mkQueues (<[source_proc := mkNode source_proc_ctx 0 0]> (nodes (qs s))) (heads (qs s))) s) ;;
    modify (fun s => set_irqs (irq80 s) H_kexit s) ;;
    modify (set_cur source_proc) ;;
    PROC_reschedule ;;
    int80 ;;
    mret true
  else mret false.
Definition PROC_run_resumed : P unit :=
  modify (fun s => set_irqs H_null H_null s).

(** A store to a stack: to the memory of its block, and in the view of the stacks. *)
Definition store_word (a v : Z) : P unit :=
  aop (al_store a v) ;;
  modify (fun s => set_stacks (<[a := v]> (stacks s)) s).
(** [memset(initial, 0, sizeof( *initial))], word by word. *)
Fixpoint memset_frame (n : nat) (a : Z) : P unit :=
  match n with
  | O => mret tt
  | S n => store_word a 0 ;; memset_frame n (a + 8)
  end.

Definition PROC_create_kthread (entry_point arg : Z) : P Z :=
  ctx ← aop (al_kmalloc 24);
  stack ← aop (al_kmalloc PROC_STACK_SIZE);
  let initial := stack + PROC_STACK_SIZE - 8 * Z.of_nat FRAME_WORDS in
  memset_frame FRAME_WORDS initial ;;
  store_word (initial + OFF_cs) kernel_cs ;;
  store_word (initial + OFF_rdi) arg ;;
  store_word (initial + OFF_rip) entry_point ;;
  store_word (initial + OFF_rsp) (stack + PROC_STACK_SIZE - 8) ;;
  store_word (initial + OFF_kexit_ret) kexit_addr ;;
  p ← gets pid_count;
  modify (fun s => set_ctxs (<[ctx := mkCtx initial p stack]> (ctxs s)) s) ;;
  modify (set_pid_count (u64 (p + 1))) ;;
  node ← aop (al_kmalloc 24);
  modify (fun s => set_qs (mkQueues (<[node := mkNode ctx 0 0]> (nodes (qs s))) (heads (qs s))) s) ;;
  qop (append_proc node avail_procs) ;;
  mret p.

End operations.

(** ** The saved state on a thread's stack *)

Record cpu := mkCpu {
  c_rbp : Z; c_gs : Z; c_fs : Z; c_es : Z; c_ds : Z;
  c_r15 : Z; c_r14 : Z; c_r13 : Z; c_r12 : Z; c_rbx : Z;
  c_r11 : Z; c_r10 : Z; c_r9 : Z; c_r8 : Z; c_rdi : Z; c_rsi : Z; c_rdx : Z; c_rcx : Z; c_rax : Z;
  c_rip : Z; c_cs : Z; c_rflags : Z; c_rsp : Z; c_ss : Z }.

(** [push v]. *)
Definition push (v : Z) (st : gmap Z Z * Z) : gmap Z Z * Z :=
  let sp := st.2 - 8 in (<[sp := v]> st.1, sp).

(** The pushes from the interrupt to the switch: the hardware's, then the
    stub's [push_scratch_regs], then the rest. *)
Definition save_frame (c : cpu) (st : gmap Z Z * Z) : gmap Z Z * Z :=
  foldl (fun st v => push v st) st
    ([c_ss c; c_rsp c; c_rflags c; c_cs c; c_rip c] ++
     [c_rax c; c_rcx c; c_rdx c; c_rsi c; c_rdi c; c_r8 c; c_r9 c; c_r10 c; c_r11 c] ++
     [c_rbx c; c_r12 c; c_r13 c; c_r14 c; c_r15 c] ++
     [c_ds c; c_es c; c_fs c; c_gs c] ++ [c_rbp c]).

(** The pops after the switch, and [iretq]. Note the segment registers: the
    popped words go to ds, fs, es, gs in that order. *)
Definition restore_frame (m : gmap Z Z) (sp : Z) : option cpu :=
  match mapM (fun i => m !! (sp + 8 * i)) (seqZ 0 24) with
  | Some [rbp; w1; w2; w3; w4; r15; r14; r13; r12; rbx; r11; r10; r9; r8; rdi; rsi; rdx; rcx; rax;
          rip; cs; rflags; rsp; ss] =>
      Some {| c_rbp := rbp; c_ds := w1; c_fs := w2; c_es := w3; c_gs := w4;
              c_r15 := r15; c_r14 := r14; c_r13 := r13; c_r12 := r12; c_rbx := rbx;
              c_r11 := r11; c_r10 := r10; c_r9 := r9; c_r8 := r8; c_rdi := rdi; c_rsi := rsi;
              c_rdx := rdx; c_rcx := rcx; c_rax := rax;
              c_rip := rip; c_cs := cs; c_rflags := rflags; c_rsp := rsp; c_ss := ss |}
  | _ => None
  end.

(** ** Saving and restoring a frame *)

(** ds and gs change places. *)
Definition swap_ds_gs (c : cpu) : cpu :=
  {| c_rbp := c_rbp c; c_ds := c_gs c; c_fs := c_fs c; c_es := c_es c; c_gs := c_ds c;
     c_r15 := c_r15 c; c_r14 := c_r14 c; c_r13 := c_r13 c; c_r12 := c_r12 c; c_rbx := c_rbx c;
     c_r11 := c_r11 c; c_r10 := c_r10 c; c_r9 := c_r9 c; c_r8 := c_r8 c; c_rdi := c_rdi c;
     c_rsi := c_rsi c; c_rdx := c_rdx c; c_rcx := c_rcx c; c_rax := c_rax c;
     c_rip := c_rip c; c_cs := c_cs c; c_rflags := c_rflags c; c_rsp := c_rsp c; c_ss := c_ss c |}.

(** The words of a frame in memory order. *)
Definition frame_words (c : cpu) : list Z :=
  [c_rbp c; c_gs c; c_fs c; c_es c; c_ds c; c_r15 c; c_r14 c; c_r13 c; c_r12 c; c_rbx c;
   c_r11 c; c_r10 c; c_r9 c; c_r8 c; c_rdi c; c_rsi c; c_rdx c; c_rcx c; c_rax c;
   c_rip c; c_cs c; c_rflags c; c_rsp c; c_ss c].

Lemma push_all_lookup l : forall m sp i w, l !! i = Some w ->
  let st := foldl (fun st v => push v st) (m, sp) l in
  st.2 = sp - 8 * Z.of_nat (length l) /\
  (forall a, sp <= a -> st.1 !! a = m !! a) /\
  st.1 !! (sp - 8 * (Z.of_nat i + 1)) = Some w.
Proof.
  assert (Hkeep : forall l m sp a, sp <= a -> (foldl (fun st v => push v st) (m, sp) l).1 !! a = m !! a).
  { clear. induction l as [|v l IH]; intros m sp a Ha; [done|]. cbn [foldl]. change (push v (m, sp)) with (<[sp - 8 := v]> m, sp - 8).
    rewrite IH by lia. apply lookup_insert_ne. lia. }
  assert (Hsp : forall l m sp, (foldl (fun st v => push v st) (m, sp) l).2 = sp - 8 * Z.of_nat (length l)).
  { clear. induction l as [|v l IH]; intros m sp; [cbn; lia|]. cbn [foldl]. change (push v (m, sp)) with (<[sp - 8 := v]> m, sp - 8).
    rewrite IH. cbn [length]. lia. }
  induction l as [|v l IH]; [done|]. intros m sp i w Hi st.
  split; [apply Hsp|]. split; [intros; by apply Hkeep|]. subst st. cbn [foldl]. change (push v (m, sp)) with (<[sp - 8 := v]> m, sp - 8).
  destruct i as [|i].
  - injection Hi as ->. rewrite Hkeep by lia. replace (sp - 8 * (Z.of_nat 0 + 1)) with (sp - 8) by lia.
    apply lookup_insert_eq.
  - destruct (IH (<[sp - 8 := v]> m) (sp - 8) i w Hi) as (_ & _ & E). rewrite <- E. f_equal. lia.
Qed.

(** Reading 24 words that spell out a frame. *)
Lemma restore_words m sp c :
  (forall i w, frame_words c !! i = Some w -> m !! (sp + 8 * Z.of_nat i) = Some w) ->
  restore_frame m sp = Some (swap_ds_gs c).
Proof.
  intros Hw. unfold restore_frame.
  assert (mapM (fun i => m !! (sp + 8 * i)) (seqZ 0 24) = Some (frame_words c)) as ->; [|done].
  apply mapM_Some. apply Forall2_same_length_lookup. split; [done|].
  intros i x y Hi Hy. apply lookup_seqZ in Hi as [-> _]. by apply Hw.
Qed.

(** C35: a context saved at an interrupt comes back from its frame with every
    register as it was, but ds and gs exchanged, whatever was on the stack; and
    nothing at or above the old stack pointer is written. *)
Theorem save_restore c m sp :
  let st := save_frame c (m, sp) in
  st.2 = sp - 192 /\ restore_frame st.1 st.2 = Some (swap_ds_gs c) /\
  forall a, sp <= a -> st.1 !! a = m !! a.
Proof.
  set (l := [c_ss c; c_rsp c; c_rflags c; c_cs c; c_rip c] ++
     [c_rax c; c_rcx c; c_rdx c; c_rsi c; c_rdi c; c_r8 c; c_r9 c; c_r10 c; c_r11 c] ++
     [c_rbx c; c_r12 c; c_r13 c; c_r14 c; c_r15 c] ++
     [c_ds c; c_es c; c_fs c; c_gs c] ++ [c_rbp c]).
  intros st. destruct (push_all_lookup l m sp 0 (c_ss c) eq_refl) as (Hsp & Hkeep & _).
  split; [exact Hsp|]. split; [|exact Hkeep]. apply restore_words. intros i w Hi.
  assert (Hrev : l !! (23 - i)%nat = Some w).
  { do 24 (destruct i as [|i]; [exact Hi|]). done. }
  destruct (push_all_lookup l m sp _ _ Hrev) as (Hsp' & _ & E).
  assert (i < 24)%nat by (by apply lookup_lt_Some in Hi).
  fold st in E. change (foldl (fun st v => push v st) (m, sp) l) with (save_frame c (m, sp)) in E.
  fold st in E. rewrite <- E. f_equal.
  replace (st.2) with (sp - 8 * Z.of_nat (length l)) by (symmetry; exact Hsp). cbn [length l app]. lia.
Qed.

(** ** The scheduler's invariant *)

Definition in_queue (Q : gmap Z (list Z)) (x : Z) : Prop := exists q l, Q !! q = Some l /\ x ∈ l.

(** A thread: its node, its context and its stack are live blocks. *)
Record thread (N : gmap Z ProcNode) (C : gmap Z ProcContext) (L : gmap Z Z) (x c f : Z) : Prop := {
  th_node : context <$> N !! x = Some c;
  th_ctx : frame <$> C !! c = Some f;
  th_live : L !! x = Some 24 /\ L !! c = Some 24 /\ L !! f = Some PROC_STACK_SIZE;
  th_apart : x <> c }.

(** The statics are not blocks of the heap. *)
Class StaticsOutside (A : Type) `{AllocatorLaws A} `{ProcStatics} :=
  statics_outside : forall a L p n, owns a L -> L !! p = Some n ->
    p <> source_proc /\ p <> source_proc_ctx.

Section invariant.
Context {A : Type} `{AllocatorLaws A} `{ProcStatics}.
Implicit Types (s : sched A).

Record sched_inv s (L : gmap Z Z) (Q : gmap Z (list Z)) : Prop := {
  si_queues : queues_rep (qs s) Q;
  si_alloc : owns (alloc s) L;
  si_thread : forall x, in_queue Q x -> exists c f, thread (nodes (qs s)) (ctxs s) L x c f;
  si_own : forall x y c f c' f', in_queue Q x -> in_queue Q y -> x <> y ->
    thread (nodes (qs s)) (ctxs s) L x c f -> thread (nodes (qs s)) (ctxs s) L y c' f' ->
    c <> c' /\ f <> f' /\ x <> c' }.

(** The source thread is set up and the handlers are in place. *)
Record ready s (L : gmap Z Z) (Q : gmap Z (list Z)) (l : list Z) : Prop := {
  rd_inv : sched_inv s L Q;
  rd_avail : Q !! avail_procs = Some l;
  rd_source : context <$> nodes (qs s) !! source_proc = Some source_proc_ctx /\
    is_Some (ctxs s !! source_proc_ctx);
  rd_irqs : irq80 s = H_noop /\ irq81 s = H_kexit }.

(** Moreover the current thread is the source or a runnable one. *)
Definition running s (L : gmap Z Z) (Q : gmap Z (list Z)) (l : list Z) : Prop :=
  ready s L Q l /\ (cur_proc s = source_proc \/ cur_proc s ∈ l).

(** Same contexts up to the saved stack pointers. *)
Definition same_ctxs (C C' : gmap Z ProcContext) : Prop :=
  forall a, frame <$> C' !! a = frame <$> C !! a /\ pid <$> C' !! a = pid <$> C !! a.

Lemma thread_same N N' C C' L x c f : same_nodes N N' -> same_ctxs C C' ->
  thread N C L x c f <-> thread N' C' L x c f.
Proof.
  intros HN HC. split; intros [T1 T2 T3 T4]; split; try done.
  - by rewrite HN.
  - by rewrite (proj1 (HC c)).
  - by rewrite <- HN.
  - by rewrite <- (proj1 (HC c)).
Qed.

(** Relinking queues with the same threads. *)
Lemma inv_relink s s' L Q Q' : sched_inv s L Q -> queues_rep (qs s') Q' ->
  same_nodes (nodes (qs s)) (nodes (qs s')) -> same_ctxs (ctxs s) (ctxs s') ->
  alloc s' = alloc s -> (forall x, in_queue Q' x -> in_queue Q x) -> sched_inv s' L Q'.
Proof.
  intros [Hq Ha Ht Ho] Hq' HN HC Eal Hsub. split; [done|by rewrite Eal| |].
  - intros x Hx. destruct (Ht x (Hsub x Hx)) as (c & f & Hth). exists c, f.
    by apply (thread_same _ _ _ _ _ _ _ _ HN HC).
  - intros x y c f c' f' Hx Hy Hne Hth Hth'.
    apply (thread_same _ _ _ _ _ _ _ _ HN HC) in Hth, Hth'.
    by eapply Ho; [apply Hsub|apply Hsub| | |].
Qed.

Lemma same_ctxs_refl C : same_ctxs C C.
Proof. done. Qed.

Lemma in_queue_insert Q q l x : in_queue (<[q := l]> Q) x -> x ∈ l \/ in_queue Q x.
Proof.
  intros (q' & m & Hm & Hx). apply lookup_insert_Some in Hm as [[_ <-]|[_ Hm]]; [by left|].
  right. by exists q', m.
Qed.

Lemma qop_ret {B} (m : M queues B) b s q : m (qs s) = Ret b q -> qop m s = Ret b (set_qs q s).
Proof. apply zoom_ret. Qed.

Lemma bind_qop {B C} (m : M queues B) (k : B -> M (sched A) C) b s q :
  m (qs s) = Ret b q -> (qop m ≫= k) s = k b (set_qs q s).
Proof. intros Hm. by rewrite (bind_ret _ _ _ _ _ (qop_ret m b s q Hm)). Qed.

Lemma bind_get_ctx {B} a c (k : ProcContext -> M (sched A) B) s : ctxs s !! a = Some c ->
  (get_ctx a ≫= k) s = k c s.
Proof. intros Hc. unfold get_ctx, mbind, M_bind, gets. by rewrite Hc. Qed.

Lemma get_node_qs {B} a n (k : ProcNode -> M (sched A) B) s : nodes (qs s) !! a = Some n ->
  (qop (get_node a) ≫= k) s = k n s.
Proof.
  intros Hn. rewrite (bind_qop _ _ n _ (qs s)).
  - by destruct s.
  - unfold get_node, mbind, M_bind, gets. by rewrite Hn.
Qed.

Lemma get_head_qs {B} q h (k : Z -> M (sched A) B) s : heads (qs s) !! q = Some h ->
  (qop (get_head q) ≫= k) s = k h s.
Proof.
  intros Hn. rewrite (bind_qop _ _ h _ (qs s)).
  - by destruct s.
  - unfold get_head, mbind, M_bind, gets. by rewrite Hn.
Qed.

Lemma runs_node {B} a n (k : ProcNode -> M (sched A) B) s Q F : nodes (qs s) !! a = Some n ->
  runs (k n) s Q F -> runs (qop (get_node a) ≫= k) s Q F.
Proof. intros Hn Hk. unfold runs in *. by rewrite (get_node_qs _ n). Qed.
Lemma runs_head {B} q h (k : Z -> M (sched A) B) s Q F : heads (qs s) !! q = Some h ->
  runs (k h) s Q F -> runs (qop (get_head q) ≫= k) s Q F.
Proof. intros Hn Hk. unfold runs in *. by rewrite (get_head_qs _ h). Qed.
Lemma runs_ctx {B} a c (k : ProcContext -> M (sched A) B) s Q F : ctxs s !! a = Some c ->
  runs (k c) s Q F -> runs (get_ctx a ≫= k) s Q F.
Proof. intros Hn Hk. unfold runs in *. by rewrite (bind_get_ctx _ c). Qed.

(** *** Blocks *)

Lemma page_of_between p q r : page_of r = page_of p -> p <= q <= r -> page_of q = page_of p.
Proof. unfold page_of, MMU_PAGE_SIZE. intros. zdm. Qed.

Lemma written_mono T T' p n : T ⊆ T' -> written T p n -> written T' p n.
Proof.
  intros HT Hw q Hq. destruct (Hw q Hq) as [?|(q' & Hin & ?)]; [by left|right]. exists q'. split; [by apply HT|done].
Qed.

Lemma written_apart T p n f m : p + n <= f \/ f + m <= p -> written T f m ->
  written (filter (fun q => ~ p <= q < p + n) T) f m.
Proof.
  intros Hap Hw q Hq. destruct (Hw q Hq) as [?|(q' & Hin & Hq' & ?)]; [by left|right].
  exists q'. split; [|done]. apply elem_of_filter. split; [lia|done].
Qed.

(** The scheduler's blocks can be given back. *)
Lemma owns_free a L p n : owns a L -> L !! p = Some n -> n <= SMALL \/ n = PROC_STACK_SIZE ->
  runs (al_kfree p) a (fun _ a' => owns a' (delete p L) /\ al_room a' = al_room a) (fun msg _ => al_oom msg).
Proof.
  intros (T & Ha & Hst) Hp Hn. eapply runs_conseq; [apply (al_kfree_law a L T p n Ha Hp)| |done].
  - destruct Hn as [Hn| ->]; [|by apply Hst]. intros q Hq. left.
    apply (page_of_between p q (p + n - 1)); [by apply (al_small _ _ _ _ _ Ha Hp)|lia].
  - cbn beta. intros _ a' [Ha' Hr]. split; [|done]. eexists. split; [exact Ha'|].
    intros f [Hne Hf]%lookup_delete_Some. apply written_apart; [|by apply Hst].
    destruct (al_apart _ _ _ _ _ _ _ Ha Hp Hf Hne); [left|right]; lia.
Qed.

Lemma owns_positive a L p n : owns a L -> L !! p = Some n -> 0 < p /\ 0 < n.
Proof. intros (T & Ha & _). by apply (al_positive _ _ _ _ _ Ha). Qed.

(** *** The switch *)

Definition saved_rsp s (x : Z) : option Z := n ← nodes (qs s) !! x; rsp <$> ctxs s !! context n.

(** A thread the switch may leave or enter. *)
Definition has_ctx s (x : Z) : Prop := is_Some (saved_rsp s x).

Lemma has_ctx_inv s x : has_ctx s x ->
  exists n c, nodes (qs s) !! x = Some n /\ ctxs s !! context n = Some c.
Proof.
  unfold has_ctx, saved_rsp. destruct (nodes (qs s) !! x) as [n|]; [|by intros []].
  cbn. destruct (ctxs s !! context n) as [c|] eqn:E; [|by intros []]. eauto.
Qed.

Definition switch_target s : Z := if next_proc s =? 0 then source_proc else next_proc s.

(** The state the switch leads to: the old stack pointer is stored in the context
    of the thread left, the new one comes from the context of the thread entered. *)
Record switched s s' : Prop := {
  sw_cur : cur_proc s' = switch_target s;
  sw_qs : qs s' = qs s;
  sw_ctxs : same_ctxs (ctxs s) (ctxs s');
  sw_rest : stacks s' = stacks s /\ pid_count s' = pid_count s /\ irq80 s' = irq80 s /\
    irq81 s' = irq81 s /\ int_flag s' = int_flag s /\ alloc s' = alloc s;
  sw_saved : forall x c, context <$> nodes (qs s) !! x = Some c ->
    is_Some (ctxs s !! c) ->
    saved_rsp s' x = if decide (cur_proc s <> 0 /\ cur_proc s <> next_proc s /\
                                context <$> nodes (qs s) !! cur_proc s = Some c)
                     then Some (rsp_reg s) else saved_rsp s x;
  sw_rsp : cur_proc s <> next_proc s -> saved_rsp s' (cur_proc s') = Some (rsp_reg s') }.

Lemma context_switch_ret s : (cur_proc s = 0 \/ has_ctx s (cur_proc s)) ->
  has_ctx s (switch_target s) -> (cur_proc s = next_proc s -> cur_proc s <> 0) ->
  exists s', context_switch s = Ret tt s' /\ switched s s'.
Proof.
  intros Hcur Htgt Hnz. unfold context_switch. mstep.
  destruct (Z.eqb_spec (cur_proc s) (next_proc s)) as [E|E].
  { eexists. split; [done|]. split; try done.
    - unfold switch_target. rewrite (proj2 (Z.eqb_neq _ _)); [done|]. rewrite <- E. auto.
    - intros x c Hx Hc. rewrite decide_False; [done|]. tauto. }
  destruct (has_ctx_inv _ _ Htgt) as (nt & ct & Hnt & Hct).
  (* the state after the save *)
  assert (Hsave : exists s1 C1, (if negb (cur_proc s =? 0) then
       n ← qop (get_node (cur_proc s));
       c ← get_ctx (context n);
       sp ← gets rsp_reg;
       modify (fun s => set_ctxs (<[context n := mkCtx sp (pid c) (frame c)]> (ctxs s)) s)
     else mret tt) s = Ret tt s1 /\ s1 = set_ctxs C1 s /\
     same_ctxs (ctxs s) C1 /\
     forall c, is_Some (ctxs s !! c) -> rsp <$> C1 !! c =
       if decide (cur_proc s <> 0 /\ cur_proc s <> next_proc s /\
                  context <$> nodes (qs s) !! cur_proc s = Some c)
       then Some (rsp_reg s) else rsp <$> ctxs s !! c).
  { destruct (Z.eqb_spec (cur_proc s) 0) as [E0|E0]; cbn [negb].
    - exists s, (ctxs s). split; [done|]. split; [by destruct s|]. split; [done|].
      intros c _. rewrite decide_False; [done|tauto].
    - destruct Hcur as [?|Hcur]; [done|]. destruct (has_ctx_inv _ _ Hcur) as (n & c & Hn & Hc).
      eexists _, _. rewrite (get_node_qs _ n) by done. rewrite (bind_get_ctx _ c) by done.
      split; [done|]. split; [done|]. split.
      + intros a. destruct (decide (a = context n)) as [->|Hne].
        * by rewrite lookup_insert_eq, Hc.
        * by rewrite lookup_insert_ne.
      + intros a Ha.
        assert (Ec : context <$> nodes (qs s) !! cur_proc s = Some (context n)) by (by rewrite Hn).
        rewrite Ec. case_decide as Hd.
        * destruct Hd as (_ & _ & [= <-]). by rewrite lookup_insert_eq.
        * rewrite lookup_insert_ne; [done|]. intros <-. tauto. }
  destruct Hsave as (s1 & C1 & Hs1 & -> & HC1 & Hrsp). rewrite (bind_ret _ _ _ _ _ Hs1). mstep.
  cbn [next_proc set_ctxs].
  assert (Hct1 : exists ct1, C1 !! context nt = Some ct1).
  { pose proof (proj1 (HC1 (context nt))) as Ef. rewrite Hct in Ef. destruct (C1 !! context nt); [eauto|done]. }
  destruct Hct1 as [ct1 Hct1].
  assert (Hres : exists N2, (if next_proc s =? 0 then PROC_resume_source else mret tt) (set_ctxs C1 s) =
    Ret tt (set_nextp N2 (set_ctxs C1 s)) /\ N2 = switch_target s).
  { unfold switch_target. destruct (Z.eqb_spec (next_proc s) 0); eexists; split; done. }
  destruct Hres as (N2 & HN2 & ->). rewrite (bind_ret _ _ _ _ _ HN2). mstep. cbn [next_proc set_nextp].
  rewrite (get_node_qs _ nt) by done. rewrite (bind_get_ctx _ ct1) by done. mstep.
  eexists. split; [done|]. split; try done; cbn.
  - intros x c Hx Hc. unfold saved_rsp. cbn. destruct (nodes (qs s) !! x) as [n|]; [|done].
    injection Hx as <-. cbn. by apply Hrsp.
  - intros _. unfold saved_rsp. cbn. rewrite Hnt. cbn. by rewrite Hct1.
Qed.

End invariant.

(** ** Steps of the scheduler *)

Definition rotate (l : list Z) : list Z := tail l ++ take 1 l.

Lemma rotate_perm l : rotate l ≡ₚ l.
Proof. destruct l as [|x t]; [done|]. unfold rotate. cbn. rewrite take_0. solve_Permutation. Qed.

Section steps.
Context {A : Type} `{AllocatorLaws A} `{ProcStatics}.
Implicit Types (s : sched A).

Lemma ready_has_ctx s L Q l x : ready s L Q l -> (x = source_proc \/ in_queue Q x) -> has_ctx s x.
Proof.
  intros Hr [->|Hx].
  - destruct (rd_source _ _ _ _ Hr) as [Hn [c Hc] ]. unfold has_ctx, saved_rsp.
    destruct (nodes (qs s) !! source_proc); [|done]. injection Hn as E. cbn. by rewrite E, Hc.
  - destruct (si_thread _ _ _ (rd_inv _ _ _ _ Hr) x Hx) as (c & f & [Hn Hc _ _]).
    unfold has_ctx, saved_rsp. destruct (nodes (qs s) !! x); [|done]. injection Hn as E. cbn. rewrite E.
    by destruct (ctxs s !! c).
Qed.

(** What stays ready: the same threads in other queues. *)
Lemma ready_relink s s' L Q Q' l l' : ready s L Q l -> queues_rep (qs s') Q' ->
  Q' !! avail_procs = Some l' ->
  same_nodes (nodes (qs s)) (nodes (qs s')) -> same_ctxs (ctxs s) (ctxs s') ->
  alloc s' = alloc s -> irq80 s' = irq80 s -> irq81 s' = irq81 s ->
  (forall x, in_queue Q' x -> in_queue Q x) -> ready s' L Q' l'.
Proof.
  intros [Hi Ha [Hs1 Hs2] Hirq] Hq' Ha' HN HC Eal E80 E81 Hsub. split; try done.
  - by eapply inv_relink.
  - split; [by rewrite HN|]. pose proof (proj1 (HC source_proc_ctx)) as E.
    destruct (ctxs s' !! source_proc_ctx); [done|]. destruct Hs2 as [? E2]. by rewrite E2 in E.
  - by rewrite E80, E81.
Qed.

Lemma in_queue_avail s L Q l x : ready s L Q l -> x ∈ l -> in_queue Q x.
Proof. intros Hr Hx. exists avail_procs, l. split; [apply Hr|done]. Qed.

Lemma switch_ready s L Q l : ready s L Q l ->
  (cur_proc s = 0 \/ has_ctx s (cur_proc s)) ->
  (next_proc s = 0 \/ next_proc s = source_proc \/ in_queue Q (next_proc s)) ->
  (cur_proc s = next_proc s -> cur_proc s <> 0) ->
  exists s', context_switch s = Ret tt s' /\ switched s s' /\ ready s' L Q l.
Proof.
  intros Hr Hcur Hnext Hnz. pose proof source_not_null as Hs0.
  assert (Htgt : has_ctx s (switch_target s)).
  { eapply ready_has_ctx; [done|]. unfold switch_target. destruct (Z.eqb_spec (next_proc s) 0); [by left|].
    destruct Hnext as [?|[?|?]]; [done|by left|by right]. }
  destruct (context_switch_ret s Hcur Htgt Hnz) as (s' & Hs' & Hsw).
  exists s'. split; [done|]. split; [done|]. destruct Hsw as [_ Eq HC (_ & _ & E80 & E81 & _ & Eal) _ _].
  eapply ready_relink; try done; rewrite ?Eq; try done.
  - apply Hr.
  - apply Hr.
Qed.

(** [yield]: the head of the runnable queue runs next and goes to the back. *)
Lemma yield_ret s L Q l : ready s L Q l -> has_ctx s (cur_proc s) ->
  exists s', yield s = Ret tt s' /\ running s' L (<[avail_procs := rotate l]> Q) (rotate l) /\
    cur_proc s' = hd source_proc l /\ switched (set_nextp (hd 0 l) s) (set_qs (qs s) s') /\
    nodes (qs s') = nodes (qs s).
Proof.
  intros Hr Hcur. pose proof (rd_inv _ _ _ _ Hr) as Hi. pose proof (rd_avail _ _ _ _ Hr) as Hl.
  destruct (cycle_refines _ _ _ _ (si_queues _ _ _ Hi) Hl) as (q1 & Hcyc & Hnodes & Hrep1).
  fold (rotate l) in Hrep1.
  set (s1 := set_nextp (hd 0 l) (set_qs q1 s)).
  assert (Hy : yield s = context_switch s1).
  { unfold yield, PROC_reschedule. rewrite <- bind_assoc. rewrite (bind_qop _ _ _ _ _ Hcyc). mstep.
    unfold int80. mstep. change (irq80 _) with (irq80 s). by rewrite (proj1 (rd_irqs _ _ _ _ Hr)). }
  assert (Hr1 : ready s1 L (<[avail_procs := rotate l]> Q) (rotate l)).
  { eapply (ready_relink s); try done.
    - apply lookup_insert_eq.
    - cbn. by rewrite Hnodes.
    - intros x Hx. apply in_queue_insert in Hx as [Hx|Hx]; [|done].
      rewrite rotate_perm in Hx. by eapply in_queue_avail. }
  assert (Hc1 : has_ctx s1 (cur_proc s1)).
  { unfold has_ctx, saved_rsp in *. cbn. by rewrite Hnodes. }
  assert (Hcn0 : cur_proc s1 <> 0).
  { intros E0. destruct (has_ctx_inv _ _ Hc1) as (n & _ & Hn & _). rewrite E0 in Hn.
    cbn in Hn. rewrite Hnodes in Hn. by rewrite (qr_null _ _ (si_queues _ _ _ Hi)) in Hn. }
  destruct (switch_ready s1 L _ _ Hr1) as (s' & Hs' & Hsw & Hr'); [by right| |done|].
  { cbn. destruct l as [|x t]; [by left|]. right; right. eapply in_queue_avail; [exact Hr1|].
    rewrite rotate_perm. left. }
  exists s'. rewrite Hy. split; [done|].
  assert (Hcur' : cur_proc s' = hd source_proc l).
  { rewrite (sw_cur _ _ Hsw). unfold switch_target. cbn. destruct l as [|x t]; [done|]. cbn.
    rewrite (proj2 (Z.eqb_neq _ _)); [done|].
    eapply (queue_not_null _ _ _ _ x (si_queues _ _ _ Hi) Hl). left. }
  split; [|split; [done|split] ].
  - split; [done|]. rewrite Hcur'. destruct l as [|x t]; [by left|]. right. rewrite rotate_perm. left.
  - destruct Hsw as [E1 E2 E3 E4 E5 E6]. split; try done.
    + intros x c Hx Hc. specialize (E5 x c). cbn in E5. rewrite Hnodes in E5.
      specialize (E5 Hx Hc). unfold saved_rsp in *. cbn in *. rewrite E2 in E5. cbn in E5. by rewrite Hnodes in E5.
    + intros Hne. specialize (E6 Hne). unfold saved_rsp in *. cbn in *. rewrite E2 in E6. cbn in E6.
      by rewrite Hnodes in E6.
  - rewrite (sw_qs _ _ Hsw). exact Hnodes.
Qed.

(** Moving a thread between queues. *)
Lemma in_queue_lookup Q q l x : Q !! q = Some l -> x ∈ l -> in_queue Q x.
Proof. intros. by exists q, l. Qed.

Lemma move_ret s L Q q1 q2 l1 x l2 m : sched_inv s L Q -> q1 <> q2 ->
  Q !! q1 = Some (l1 ++ x :: l2) -> Q !! q2 = Some m ->
  let Q' := <[q2 := m ++ [x]]> (<[q1 := l1 ++ l2]> Q) in
  exists s', (qop (unlink_proc x q1) ;; qop (append_proc x q2)) s = Ret tt s' /\
    queues_rep (qs s') Q' /\ same_nodes (nodes (qs s)) (nodes (qs s')) /\ s' = set_qs (qs s') s /\
    forall y, in_queue Q' y -> in_queue Q y.
Proof.
  intros Hi Hne H1' H2' Q'. pose proof (si_queues _ _ _ Hi) as Hq.
  destruct (unlink_refines _ _ _ _ _ _ Hq H1') as (qa & Hu & HNa & Hqa).
  assert (Hx : x ∈ l1 ++ x :: l2) by (apply elem_of_app; right; left).
  assert (Hnd : x ∉ l1 ++ l2).
  { destruct (qr_cyc _ _ Hq _ _ H1') as [Hnd _].
    assert (Hp : l1 ++ x :: l2 ≡ₚ x :: l1 ++ l2) by solve_Permutation.
    rewrite Hp in Hnd. by apply NoDup_cons in Hnd as [? _]. }
  destruct (append_refines qa (<[q1 := l1 ++ l2]> Q) q2 m x Hqa) as (qb & Hb & HNb & Hqb).
  { by rewrite lookup_insert_ne. }
  { rewrite (same_nodes_is_Some _ _ _ HNa). exact (qr_node _ _ Hq q1 _ x H1' Hx). }
  { intros q' m' Hm' Hin. apply lookup_insert_Some in Hm' as [[<- <-]|[Hne' Hm']]; [done|].
    apply Hne'. by eapply (qr_apart _ _ Hq). }
  exists (set_qs qb s). rewrite (bind_qop _ _ _ _ _ Hu). cbv beta. rewrite (qop_ret _ tt (set_qs qa s) qb Hb).
  split; [done|]. split; [done|]. split; [by eapply same_nodes_trans|]. split; [by destruct s|].
  intros y Hy. apply in_queue_insert in Hy as [Hy|Hy].
  - apply elem_of_app in Hy as [Hy|Hy]; [exact (in_queue_lookup _ _ _ _ H2' Hy)|].
    apply list_elem_of_singleton in Hy as ->. exact (in_queue_lookup _ _ _ _ H1' Hx).
  - apply in_queue_insert in Hy as [Hy|Hy]; [|done]. eapply in_queue_lookup; [exact H1'|].
    rewrite elem_of_app in *. rewrite elem_of_cons. tauto.
Qed.

End steps.

Section operations_refine.
Context {A : Type} `{AllocatorLaws A} `{ProcStatics}.
Implicit Types (s : sched A).

Lemma ready_moved s L Q l q1 q2 l1 x l2 m l' s' : ready s L Q l -> q1 <> q2 ->
  Q !! q1 = Some (l1 ++ x :: l2) -> Q !! q2 = Some m ->
  (qop (unlink_proc x q1) ;; qop (append_proc x q2)) s = Ret tt s' ->
  let Q' := <[q2 := m ++ [x]]> (<[q1 := l1 ++ l2]> Q) in
  Q' !! avail_procs = Some l' -> s' = set_qs (qs s') s /\ ready s' L Q' l'.
Proof.
  intros Hr Hne Hq1 Hq2 Hs' Q' Hl'.
  destruct (move_ret s L Q q1 q2 l1 x l2 m (rd_inv _ _ _ _ Hr) Hne Hq1 Hq2) as (s2 & Hs2 & Hrep & HN & E & Hsub).
  rewrite Hs' in Hs2. injection Hs2 as <-. split; [done|].
  eapply (ready_relink s); try done; by rewrite E.
Qed.

(** [PROC_block_on] from a runnable thread. *)
Lemma block_on_ret s L Q l1 l2 q m ei : ready s L Q (l1 ++ cur_proc s :: l2) ->
  q <> avail_procs -> q <> 0 -> Q !! q = Some m ->
  exists s', PROC_block_on q ei s = Ret tt s' /\
    running s' L (<[avail_procs := rotate (l1 ++ l2)]> (<[q := m ++ [cur_proc s]]> Q)) (rotate (l1 ++ l2)) /\
    cur_proc s' = hd source_proc (l1 ++ l2) /\ alloc s' = alloc s.
Proof.
  intros Hr Hqa Hq0 Hq. pose proof (rd_avail _ _ _ _ Hr) as Hl.
  destruct (move_ret s L Q avail_procs q l1 (cur_proc s) l2 m (rd_inv _ _ _ _ Hr) ltac:(done) Hl Hq) as (s1 & Hs1 & _).
  set (Q1 := <[q := m ++ [cur_proc s]]> (<[avail_procs := l1 ++ l2]> Q)).
  assert (Hl1 : Q1 !! avail_procs = Some (l1 ++ l2)).
  { subst Q1. rewrite lookup_insert_ne by done. apply lookup_insert_eq. }
  destruct (ready_moved s L Q _ _ _ _ _ _ _ (l1 ++ l2) s1 Hr (not_eq_sym Hqa) Hl Hq Hs1 Hl1) as [E1 Hr1].
  set (s2 := if ei then set_if true s1 else s1).
  assert (Hr2 : ready s2 L Q1 (l1 ++ l2)) by (subst s2; destruct ei; [|done]; by destruct Hr1 as [[] ]).
  assert (Hcur2 : cur_proc s2 = cur_proc s) by (subst s2; rewrite E1; by destruct ei).
  destruct (yield_ret s2 L Q1 (l1 ++ l2) Hr2) as (s' & Hy & Hrun & Hcur' & Hsw & _).
  { eapply ready_has_ctx; [done|]. right. rewrite Hcur2. exists q, (m ++ [cur_proc s]).
    split; [apply lookup_insert_eq|]. apply elem_of_app. right. by apply list_elem_of_singleton. }
  exists s'. split; [|split; [|split; [done|] ] ].
  3:{ destruct (sw_rest _ _ Hsw) as (_ & _ & _ & _ & _ & Ea). cbn in Ea. rewrite Ea. subst s2. rewrite E1. by destruct ei. }
  - unfold PROC_block_on. rewrite (proj2 (Z.eqb_neq _ _) Hq0). mstep. rewrite bind_assoc.
    rewrite (bind_ret _ _ _ _ _ Hs1). rewrite (bind_ret _ _ tt _ s2); [exact Hy|]. subst s2. by destruct ei.
  - subst Q1. rewrite (insert_insert_ne _ avail_procs q), insert_insert_eq in Hrun by done.
    by rewrite (insert_insert_ne _ avail_procs q) by done.
Qed.

(** [PROC_unblock_head], also while no thread runs. *)
Lemma unblock_head_inv s L Q l q x m : sched_inv s L Q -> Q !! avail_procs = Some l ->
  q <> avail_procs -> Q !! q = Some (x :: m) ->
  exists s', PROC_unblock_head q s = Ret tt s' /\ s' = set_qs (qs s') s /\
    same_nodes (nodes (qs s)) (nodes (qs s')) /\ 
    sched_inv s' L (<[avail_procs := l ++ [x]]> (<[q := m]> Q)) /\
    forall y, in_queue (<[avail_procs := l ++ [x]]> (<[q := m]> Q)) y -> in_queue Q y.
Proof.
  intros Hi Hl Hqa Hq. pose proof (si_queues _ _ _ Hi) as Hrep.
  destruct (move_ret s L Q q avail_procs [] x m l Hi Hqa Hq Hl) as (s1 & Hs1 & Hrep1 & HN & E & Hsub).
  cbn [app] in *. exists s1. split; [|split; [done|split; [done|split; [|done]]]].
  - unfold PROC_unblock_head. rewrite (get_head_qs _ x) by (apply (qr_head _ _ Hrep _ _ Hq)).
    rewrite (proj2 (Z.eqb_neq _ _)) by (apply (queue_not_null _ _ _ _ x Hrep Hq); left).
    rewrite bind_assert by done. exact Hs1.
  - eapply (inv_relink s); try done; by rewrite E.
Qed.

Lemma unblock_head_ret s L Q l q x m : ready s L Q l -> q <> avail_procs -> Q !! q = Some (x :: m) ->
  exists s', PROC_unblock_head q s = Ret tt s' /\ s' = set_qs (qs s') s /\
    ready s' L (<[avail_procs := l ++ [x]]> (<[q := m]> Q)) (l ++ [x]).
Proof.
  intros Hr Hqa Hq.
  destruct (unblock_head_inv s L Q l q x m (rd_inv _ _ _ _ Hr) (rd_avail _ _ _ _ Hr) Hqa Hq) as (s1 & Hs1 & E & HN & Hi & Hsub).
  exists s1. split; [done|]. split; [done|].
  eapply (ready_relink s); try done; [apply Hi|apply lookup_insert_eq|..]; by rewrite E.
Qed.

Lemma unblock_all_ret m : forall fuel s L Q l q, ready s L Q l -> q <> avail_procs ->
  Q !! q = Some m -> (length m <= fuel)%nat ->
  exists s', PROC_unblock_all fuel q s = Ret tt s' /\ s' = set_qs (qs s') s /\
    ready s' L (<[avail_procs := l ++ m]> (<[q := []]> Q)) (l ++ m).
Proof.
  induction m as [|x m IH]; intros fuel s L Q l q Hr Hqa Hq Hfuel;
    pose proof (si_queues _ _ _ (rd_inv _ _ _ _ Hr)) as Hrep;
    pose proof (qr_head _ _ Hrep _ _ Hq) as Hh.
  - exists s. rewrite app_nil_r. split; [|split; [by destruct s|] ].
    + destruct fuel; cbn [PROC_unblock_all]; by rewrite (get_head_qs _ 0).
    + rewrite (insert_id Q q) by done. rewrite insert_id by apply Hr. done.
  - destruct fuel as [|fuel]; [cbn in Hfuel; lia|]. cbn [length] in Hfuel.
    destruct (unblock_head_ret s L Q l q x m Hr Hqa Hq) as (s1 & Hs1 & E1 & Hr1).
    destruct (IH fuel s1 L _ (l ++ [x]) q Hr1 Hqa) as (s2 & Hs2 & E2 & Hr2).
    { rewrite lookup_insert_ne by done. apply lookup_insert_eq. } { lia. }
    exists s2. split; [|split].
    + cbn [PROC_unblock_all]. rewrite (get_head_qs _ x) by done.
      rewrite (proj2 (Z.eqb_neq _ _)) by (apply (queue_not_null _ _ _ _ x Hrep Hq); left).
      cbn [negb]. by rewrite (bind_ret _ _ _ _ _ Hs1).
    + rewrite E2 at 1. by rewrite E1.
    + rewrite <- app_assoc in Hr2. cbn [app] in Hr2.
      rewrite (insert_insert_ne _ q avail_procs), (insert_insert_eq _ avail_procs), (insert_insert_eq _ q) in Hr2 by done. done.
Qed.

Lemma aop_runs {B C} (m : M A B) (k : B -> M (sched A) C) s Q Q' F :
  runs m (alloc s) Q' (fun msg _ => F msg) ->
  (forall b a, Q' b a -> runs (k b) (set_alloc a s) Q (fun msg _ => F msg)) ->
  runs (aop m ≫= k) s Q (fun msg _ => F msg).
Proof.
  unfold runs, aop, zoom, mbind, M_bind. intros Hm Hk. destruct (m (alloc s)); try done. by apply Hk.
Qed.

(** Deleting a thread that is in no queue. *)
Lemma thread_delete N C L x c f y cy fy : x <> y -> x <> cy -> c <> cy -> y <> c -> f <> y -> f <> cy -> f <> fy ->
  x <> fy -> c <> fy ->
  thread N C L y cy fy -> thread (delete x N) (delete c C) (delete x (delete c (delete f L))) y cy fy.
Proof.
  intros N1 N2 N3 N4 N5 N6 N7 N8 N9 [T1 T2 (T3 & T4 & T5) T6].
  split; [by rewrite lookup_delete_ne|by rewrite lookup_delete_ne| |done].
  rewrite !lookup_delete_ne by done. done.
Qed.

Lemma thread_undelete N C L x c f y cy fy :
  thread (delete x N) (delete c C) (delete x (delete c (delete f L))) y cy fy -> thread N C L y cy fy.
Proof.
  intros [T1 T2 (T3 & T4 & T5) T6]. 
  apply lookup_delete_Some in T3 as [_ T3], T4 as [_ T4], T5 as [_ T5].
  apply lookup_delete_Some in T3 as [_ T3], T4 as [_ T4], T5 as [_ T5].
  apply lookup_delete_Some in T3 as [_ T3], T4 as [_ T4], T5 as [_ T5].
  destruct (decide (x = y)) as [->|Hxy]; [by rewrite lookup_delete_eq in T1|].
  destruct (decide (c = cy)) as [->|Hcc]; [by rewrite lookup_delete_eq in T2|].
  rewrite lookup_delete_ne in T1 by done. rewrite lookup_delete_ne in T2 by done. by split.
Qed.

(** Deleting its node keeps the queues. *)
Lemma rep_delete q Q x : queues_rep q Q -> ~ in_queue Q x ->
  queues_rep (mkQueues (delete x (nodes q)) (heads q)) Q.
Proof.
  intros [Hh Hc Hn Hap H0'] Hx.
  assert (Hne : forall q l a, Q !! q = Some l -> a ∈ l -> a <> x).
  { intros q' l a Hq Ha ->. apply Hx. by exists q', l. }
  split; cbn; try done.
  - intros q' l Hq. destruct (Hc q' l Hq) as [Hnd Hcy]. split; [done|].
    eapply cyc_agree; [|done]. intros a Ha. rewrite lookup_delete_ne; [done|].
    intros ->. by apply (Hne q' l a).
  - intros q' l a Hq Ha. rewrite lookup_delete_ne; [by eapply Hn|]. intros ->. by apply (Hne q' l a).
  - by apply lookup_delete_None; right.
Qed.


Context `{!StaticsOutside A}.

Lemma in_queue_live s L Q x : sched_inv s L Q -> in_queue Q x -> L !! x = Some 24.
Proof. intros Hi Hx. destruct (si_thread _ _ _ Hi x Hx) as (c & f & [_ _ (Hl & _) _]). done. Qed.

(** The state without thread [x], whose node, context and stack are freed. *)
Definition without s (q : queues) (x c : Z) (a : A) : sched A :=
  mkSched (mkQueues (delete x (nodes q)) (heads q)) (delete c (ctxs s)) (stacks s) 0
    (next_proc s) (pid_count s) (irq80 s) (irq81 s) (int_flag s) (rsp_reg s) a.

Lemma without_ready s L Q l q x c f a : ready s L Q l -> thread (nodes (qs s)) (ctxs s) L x c f ->
  in_queue Q x -> forall Q1 l1, Q1 !! avail_procs = Some l1 ->
  (forall y, in_queue Q1 y -> in_queue Q y /\ y <> x) ->
  same_nodes (nodes (qs s)) (nodes q) -> queues_rep q Q1 ->
  owns a (delete x (delete c (delete f L))) ->
  ready (without s q x c a) (delete x (delete c (delete f L))) Q1 l1.
Proof.
  intros Hr Hth Hx Q1 l1 Hl1 Hsub HN Hrep Ha. pose proof (rd_inv _ _ _ _ Hr) as Hi.
  pose proof (th_live _ _ _ _ _ _ Hth) as (Lx & Lc & Lf). pose proof (th_apart _ _ _ _ _ _ Hth) as Hxc.
  destruct (statics_outside _ _ _ _ (si_alloc _ _ _ Hi) Lx) as [Sx _].
  destruct (statics_outside _ _ _ _ (si_alloc _ _ _ Hi) Lc) as [_ Sc].
  split; [split| | |]; cbn.
  - apply rep_delete; [done|]. intros Hin. by destruct (Hsub x Hin).
  - done.
  - intros y Hy. destruct (Hsub y Hy) as [Hy' Hyx]. destruct (si_thread _ _ _ Hi y Hy') as (cy & fy & Hty).
    exists cy, fy. pose proof (th_live _ _ _ _ _ _ Hty) as (Ly & Lcy & Lfy).
    destruct (si_own _ _ _ Hi x y c f cy fy Hx Hy' (not_eq_sym Hyx) Hth Hty) as (D1 & D2 & D3).
    destruct (si_own _ _ _ Hi y x cy fy c f Hy' Hx Hyx Hty Hth) as (_ & _ & D4).
    apply (thread_delete _ _ _ x c f); try done; try (intros ->; unfold PROC_STACK_SIZE in *; congruence).
    by apply (thread_same _ _ _ _ _ _ _ _ HN (same_ctxs_refl (ctxs s))).
  - intros y z cy fy cz fz Hy Hz Hne Hty Htz. destruct (Hsub y Hy) as [Hy' _], (Hsub z Hz) as [Hz' _].
    apply thread_undelete in Hty, Htz.
    apply (thread_same _ _ _ _ _ _ _ _ HN (same_ctxs_refl (ctxs s))) in Hty, Htz.
    by apply (si_own _ _ _ Hi y z cy fy cz fz).
  - done.
  - destruct (rd_source _ _ _ _ Hr) as [Hs1 Hs2]. split.
    + rewrite lookup_delete_ne by done. by rewrite HN.
    + by rewrite lookup_delete_ne.
  - apply Hr.
Qed.

Lemma kexit_handler_runs s L Q l1 l2 c f : ready s L Q (l1 ++ cur_proc s :: l2) ->
  thread (nodes (qs s)) (ctxs s) L (cur_proc s) c f ->
  runs kexit_handler s
    (fun _ s' => exists q a, same_nodes (nodes (qs s)) (nodes q) /\
       queues_rep q (<[avail_procs := l1 ++ l2]> Q) /\
       owns a (delete (cur_proc s) (delete c (delete f L))) /\ al_room a = al_room (alloc s) /\
       s' = set_nextp (hd source_proc (l1 ++ l2)) (without s q (cur_proc s) c a))
    (fun msg _ => al_oom msg).
Proof.
  intros Hr [Hn Hc (Lx & Lc & Lf) Hxc]. pose proof (rd_inv _ _ _ _ Hr) as Hi.
  pose proof (rd_avail _ _ _ _ Hr) as Hl. pose proof (si_queues _ _ _ Hi) as Hrep.
  destruct (unlink_refines _ _ _ _ _ _ Hrep Hl) as (q1 & Hu & HN1 & Hrep1).
  assert (Hn1 : exists n, nodes q1 !! cur_proc s = Some n /\ context n = c).
  { pose proof (HN1 (cur_proc s)) as E. rewrite Hn in E. destruct (nodes q1 !! cur_proc s) as [n|]; [|done].
    injection E as E. eauto. }
  destruct Hn1 as (n & Hn1 & En).
  destruct (ctxs s !! c) as [ct|] eqn:Hct; [|done]. injection Hc as Ef.
  unfold kexit_handler. apply runs_bind_gets. eapply runs_bind_ret; [by apply qop_ret|].
  apply (runs_node _ n); [done|]. apply (runs_ctx _ ct); [cbn; by rewrite En|]. rewrite Ef.
  eapply aop_runs; [apply (owns_free _ L f PROC_STACK_SIZE (si_alloc _ _ _ Hi)); auto|]. cbn beta. intros _ a1 [Ha1 Hm1].
  apply (runs_node _ n); [done|]. rewrite En. unfold free_ctx, free_node.
  assert (Hfc : f <> c /\ f <> cur_proc s).
  { split; intros ->; unfold PROC_STACK_SIZE in *; congruence. }
  eapply runs_bind.
  { eapply aop_runs.
    - apply (owns_free _ (delete f L) c 24 Ha1); [by rewrite lookup_delete_ne by apply Hfc|by left].
    - cbn beta. intros _ a2 [Ha2 Hm2]. instantiate (1 := fun _ s2 => exists a2, owns a2 (delete c (delete f L)) /\
        al_room a2 = al_room (alloc s) /\ s2 = set_ctxs (delete c (ctxs s)) (set_alloc a2 (set_qs q1 s))).
      unfold runs. cbn. exists a2. split; [done|]. by rewrite Hm2, Hm1. }
  cbn beta. intros _ s2 (a2 & Ha2 & Hm2 & ->).
  eapply runs_bind.
  { eapply aop_runs.
    - apply (owns_free _ _ (cur_proc s) 24 Ha2); [by rewrite !lookup_delete_ne by (done || apply Hfc)|by left].
    - cbn beta. intros _ a3 [Ha3 Hm3]. instantiate (1 := fun _ s3 => exists a3,
        owns a3 (delete (cur_proc s) (delete c (delete f L))) /\ al_room a3 = al_room (alloc s) /\
        s3 = set_cur (cur_proc s) (without s q1 (cur_proc s) c a3)).
      unfold runs. cbn. exists a3. split; [done|]. by rewrite Hm3, Hm2. }
  cbn beta. intros _ s3 (a3 & Ha3 & Hm3 & ->).
  eapply runs_bind_ret; [done|].
  apply (runs_head _ (hd 0 (l1 ++ l2))).
  { apply (qr_head _ _ Hrep1). apply lookup_insert_eq. }
  assert (Hhd : hd 0 (l1 ++ l2) = 0 <-> l1 ++ l2 = []).
  { destruct (l1 ++ l2) as [|y t] eqn:E; [done|]. cbn. split; [|done]. intros ->.
    by destruct (queue_not_null _ _ avail_procs (0 :: t) 0 Hrep1 (lookup_insert_eq _ _ _) ltac:(left)). }
  assert (E : (if hd 0 (l1 ++ l2) =? 0 then source_proc else hd 0 (l1 ++ l2)) = hd source_proc (l1 ++ l2)).
  { destruct (Z.eqb_spec (hd 0 (l1 ++ l2)) 0) as [E|E]; [apply Hhd in E; by rewrite E|].
    by destruct (l1 ++ l2). }
  rewrite <- E. destruct (hd 0 (l1 ++ l2) =? 0); unfold runs; cbn; by exists q1, a3.
Qed.

(** [kexit]: the three blocks go back to the allocator and the head of the queue
    runs next (and stays the head). *)
Lemma kexit_runs s L Q l1 l2 c f : ready s L Q (l1 ++ cur_proc s :: l2) ->
  thread (nodes (qs s)) (ctxs s) L (cur_proc s) c f ->
  runs kexit s
    (fun _ s' => running s' (delete (cur_proc s) (delete c (delete f L))) (<[avail_procs := l1 ++ l2]> Q) (l1 ++ l2) /\
       cur_proc s' = hd source_proc (l1 ++ l2) /\ stacks s' = stacks s /\
       al_room (alloc s') = al_room (alloc s))
    (fun msg _ => al_oom msg).
Proof.
  intros Hr Hth. pose proof (rd_avail _ _ _ _ Hr) as Hl.
  pose proof (si_queues _ _ _ (rd_inv _ _ _ _ Hr)) as Hrep.
  assert (Hin : cur_proc s ∈ l1 ++ cur_proc s :: l2) by (apply elem_of_app; right; left).
  assert (Hnot : cur_proc s ∉ l1 ++ l2).
  { destruct (qr_cyc _ _ Hrep _ _ Hl) as [Hnd _].
    assert (Hp : l1 ++ cur_proc s :: l2 ≡ₚ cur_proc s :: l1 ++ l2) by solve_Permutation.
    rewrite Hp in Hnd. by apply NoDup_cons in Hnd as [? _]. }
  unfold kexit. apply runs_bind_gets. rewrite (proj2 (rd_irqs _ _ _ _ Hr)). cbn [dispatch].
  eapply runs_bind; [by apply (kexit_handler_runs s L Q l1 l2 c f)|].
  cbn beta. intros _ s1 (q & a & HN & Hrep1 & Ha & Hroom & ->).
  set (Q1 := <[avail_procs := l1 ++ l2]> Q) in *.
  assert (Hr1 : ready (without s q (cur_proc s) c a) (delete (cur_proc s) (delete c (delete f L))) Q1 (l1 ++ l2)).
  { eapply without_ready; [exact Hr|exact Hth| |apply lookup_insert_eq| |done|done|done].
    - exact (in_queue_lookup _ _ _ _ Hl Hin).
    - intros y (q' & m & Hm & Hy). subst Q1. apply lookup_insert_Some in Hm as [[<- <-]|[Hne Hm]].
      + split; [|by intros ->]. eapply in_queue_lookup; [exact Hl|].
        rewrite elem_of_app in *. rewrite elem_of_cons. tauto.
      + split; [by exists q', m|]. intros ->. apply Hne. by eapply (qr_apart _ _ Hrep). }
  assert (Hr2 : ready (set_nextp (hd source_proc (l1 ++ l2)) (without s q (cur_proc s) c a))
    (delete (cur_proc s) (delete c (delete f L))) Q1 (l1 ++ l2)) by (by destruct Hr1 as [[] ]).
  pose proof source_not_null as Hs0.
  assert (Hnx : hd source_proc (l1 ++ l2) <> 0).
  { destruct (l1 ++ l2) as [|y t] eqn:E; [done|].
    apply (queue_not_null _ _ avail_procs (y :: t) y Hrep1); [apply lookup_insert_eq|left]. }
  destruct (switch_ready _ _ _ _ Hr2) as (s' & Hs' & Hsw & Hr'); [by left| | |].
  - cbn. destruct (l1 ++ l2) as [|y t] eqn:E; [by right; left|]. right; right.
    eapply in_queue_lookup; [apply lookup_insert_eq|left].
  - cbn. congruence.
  - unfold runs. rewrite Hs'.
    assert (Hcur : cur_proc s' = hd source_proc (l1 ++ l2)).
    { rewrite (sw_cur _ _ Hsw). unfold switch_target. cbn. by rewrite (proj2 (Z.eqb_neq _ _) Hnx). }
    split; [|split; [done|] ].
    + split; [done|]. rewrite Hcur. destruct (l1 ++ l2); [by left|]. right. left.
    + destruct (sw_rest _ _ Hsw) as (-> & _ & _ & _ & _ & ->). done.
Qed.

End operations_refine.

(** ** Creating a thread *)

(** [n] words of zeros from [a] on. *)
Fixpoint zero_words (a : Z) (n : nat) (m : gmap Z Z) : gmap Z Z :=
  match n with
  | O => m
  | S n => zero_words (a + 8) n (<[a := 0]> m)
  end.

Lemma zero_words_out n : forall a m b, b < a \/ a + 8 * Z.of_nat n <= b -> zero_words a n m !! b = m !! b.
Proof.
  induction n as [|n IH]; intros a m b Hb; [done|]. cbn [zero_words]. rewrite IH by lia.
  apply lookup_insert_ne. lia.
Qed.

Lemma zero_words_in n : forall a m i, (i < n)%nat -> zero_words a n m !! (a + 8 * Z.of_nat i) = Some 0.
Proof.
  induction n as [|n IH]; intros a m i Hi; [lia|]. cbn [zero_words]. destruct i as [|i].
  - rewrite zero_words_out by lia. rewrite Z.add_0_r. apply lookup_insert_eq.
  - replace (a + 8 * Z.of_nat (S i)) with (a + 8 + 8 * Z.of_nat i) by lia. apply IH. lia.
Qed.

Section create.
Context {A : Type} `{AllocatorLaws A} `{ProcStatics}.
Implicit Types (s : sched A).

(** The registers a new thread starts with. *)
Definition start_cpu (entry arg sp : Z) : cpu :=
  mkCpu 0 0 0 0 0 0 0 0 0 0 0 0 0 0 arg 0 0 0 0 entry kernel_cs 0 sp 0.

Definition start_stack (stack entry arg : Z) (m : gmap Z Z) : gmap Z Z :=
  let initial := stack + PROC_STACK_SIZE - 8 * Z.of_nat FRAME_WORDS in
  <[initial + OFF_kexit_ret := kexit_addr]>
  (<[initial + OFF_rsp := stack + PROC_STACK_SIZE - 8]>
  (<[initial + OFF_rip := entry]> (<[initial + OFF_rdi := arg]>
  (<[initial + OFF_cs := kernel_cs]> (zero_words initial FRAME_WORDS m))))).

Lemma start_stack_restores stack entry arg m :
  let initial := stack + PROC_STACK_SIZE - 8 * Z.of_nat FRAME_WORDS in
  restore_frame (start_stack stack entry arg m) initial =
    Some (start_cpu entry arg (stack + PROC_STACK_SIZE - 8)).
Proof.
  intros initial. rewrite (restore_words _ _ (start_cpu entry arg (stack + PROC_STACK_SIZE - 8))); [done|].
  intros i w Hi. unfold start_stack. fold initial. rewrite !lookup_insert.
  unfold OFF_kexit_ret, OFF_rsp, OFF_rip, OFF_rdi, OFF_cs.
  assert (Hlt : (i < 24)%nat) by (by apply lookup_lt_Some in Hi).
  repeat (case_decide; [assert (i = 24 \/ i = 22 \/ i = 19 \/ i = 14 \/ i = 20)%nat as Hd by lia;
    destruct Hd as [->|[->|[->|[->| ->] ] ] ]; try lia; by injection Hi|]).
  rewrite zero_words_in by (unfold FRAME_WORDS; lia).
  do 24 (destruct i as [|i]; [first [exfalso; lia|by injection Hi as <-]|]). lia.
Qed.

Lemma start_stack_outside stack entry arg m a : ~ (stack <= a < stack + PROC_STACK_SIZE) ->
  start_stack stack entry arg m !! a = m !! a.
Proof.
  intros Ha. unfold start_stack, OFF_kexit_ret, OFF_rsp, OFF_rip, OFF_rdi, OFF_cs, FRAME_WORDS, PROC_STACK_SIZE in *.
  rewrite !lookup_insert_ne by lia. apply zero_words_out. lia.
Qed.

(** *** Writing the first frame *)

Lemma store_word_runs s L T p n q v : al_holds (alloc s) L T -> L !! p = Some n ->
  p <= q -> q + 8 <= p + n -> q mod 8 = 0 ->
  runs (store_word q v) s
    (fun _ s' => exists a, s' = set_stacks (<[q := v]> (stacks s)) (set_alloc a s) /\
       al_holds a L ({[q]} ∪ T) /\ al_room a = al_room (alloc s))
    (fun msg _ => al_oom msg).
Proof.
  intros Ha Hp Hlo Hhi H8. unfold store_word. eapply aop_runs; [by apply (al_store_law _ L T p n q v)|].
  cbn beta. intros _ a [Ha' Hr]. unfold runs. cbn. by exists a.
Qed.

Lemma memset_frame_runs n : forall q s L T p sz, al_holds (alloc s) L T -> L !! p = Some sz ->
  p <= q -> q + 8 * Z.of_nat n <= p + sz -> q mod 8 = 0 ->
  runs (memset_frame n q) s
    (fun _ s' => exists a T', s' = set_stacks (zero_words q n (stacks s)) (set_alloc a s) /\
       al_holds a L T' /\ T ⊆ T' /\ al_room a = al_room (alloc s))
    (fun msg _ => al_oom msg).
Proof.
  induction n as [|n IH]; intros q s L T p sz Ha Hp Hlo Hhi H8; cbn [memset_frame zero_words].
  - apply runs_ret. exists (alloc s), T. by destruct s.
  - eapply runs_bind; [apply (store_word_runs s L T p sz q 0); [done..|lia|done]|].
    cbn beta. intros _ s1 (a1 & -> & Ha1 & Hr1).
    eapply runs_conseq; [apply (IH (q + 8) (set_stacks (<[q := 0]> (stacks s)) (set_alloc a1 s)) L ({[q]} ∪ T) p sz);
      [done|done|lia|lia|zdm]| |done].
    cbn beta. intros _ s2 (a2 & T' & -> & Ha2 & HT & Hr2). exists a2, T'.
    split; [done|]. split; [done|]. split; [set_solver|]. by rewrite Hr2.
Qed.

(** The first frame reaches into the last two pages of the stack. *)
Lemma frame_written T f : f mod MMU_PAGE_SIZE = 16 ->
  let initial := f + PROC_STACK_SIZE - 8 * Z.of_nat FRAME_WORDS in
  initial + OFF_rdi ∈ T -> initial + OFF_kexit_ret ∈ T -> written T f PROC_STACK_SIZE.
Proof.
  intros Hf initial H1' H2' q Hq.
  assert (page_of q = page_of f \/ page_of q = page_of (initial + OFF_rdi) \/
          page_of q = page_of (initial + OFF_kexit_ret)) as [?|[?|?]].
  { unfold initial, page_of, OFF_rdi, OFF_kexit_ret, FRAME_WORDS, PROC_STACK_SIZE, MMU_PAGE_SIZE in *. zdm. }
  - by left.
  - right. exists (initial + OFF_rdi). split; [done|]. unfold initial, OFF_rdi, FRAME_WORDS, PROC_STACK_SIZE in *. lia.
  - right. exists (initial + OFF_kexit_ret). split; [done|]. unfold initial, OFF_kexit_ret, FRAME_WORDS, PROC_STACK_SIZE in *. lia.
Qed.

Lemma init_frame_runs {B} f entry arg (k : M (sched A) B) s L T Q :
  let initial := f + PROC_STACK_SIZE - 8 * Z.of_nat FRAME_WORDS in
  al_holds (alloc s) L T -> L !! f = Some PROC_STACK_SIZE ->
  (forall a T', al_holds a L T' -> T ⊆ T' -> written T' f PROC_STACK_SIZE -> al_room a = al_room (alloc s) ->
     runs k (set_stacks (start_stack f entry arg (stacks s)) (set_alloc a s)) Q (fun msg _ => al_oom msg)) ->
  runs (memset_frame FRAME_WORDS initial ;;
        store_word (initial + OFF_cs) kernel_cs ;;
        store_word (initial + OFF_rdi) arg ;;
        store_word (initial + OFF_rip) entry ;;
        store_word (initial + OFF_rsp) (f + PROC_STACK_SIZE - 8) ;;
        store_word (initial + OFF_kexit_ret) kexit_addr ;;
        k) s Q (fun msg _ => al_oom msg).
Proof.
  intros initial Ha Hf Hk. pose proof (al_large _ _ _ _ _ Ha Hf ltac:(by unfold SMALL, PROC_STACK_SIZE)) as Hal.
  assert (Hoff : forall o, 0 <= o -> o + 8 <= 200 -> o mod 8 = 0 ->
    f <= initial + o /\ initial + o + 8 <= f + PROC_STACK_SIZE /\ (initial + o) mod 8 = 0).
  { unfold initial, FRAME_WORDS, PROC_STACK_SIZE, MMU_PAGE_SIZE in *. intros. split; [lia|]. split; [lia|zdm]. }
  destruct (Hoff 0) as (O1 & O2 & O3); [lia|lia|done|]. rewrite Z.add_0_r in *.
  eapply runs_bind; [apply (memset_frame_runs FRAME_WORDS initial s L T f PROC_STACK_SIZE); [done|done|done| |done]|].
  { unfold initial. lia. }
  cbn beta. intros _ s0 (a0 & T0 & -> & Ha0 & HT0 & Hr0).
  do 5 (eapply runs_bind; [eapply (store_word_runs _ L _ f PROC_STACK_SIZE); [eassumption|exact Hf|apply Hoff; done..]|];
    cbn beta; intros _ ? (? & -> & ? & ?); cbn [alloc set_stacks set_alloc stacks] in *).
  match goal with |- runs _ (set_stacks _ (set_alloc ?a _)) _ _ => eapply (Hk a) end;
    [eassumption|set_solver| |congruence].
  apply frame_written; [done|set_solver|set_solver].
Qed.

(** The state with the new thread [x] at the end of the runnable queue. *)
Record created s s' (entry arg : Z) (L L' : gmap Z Z) (x c f : Z) : Prop := {
  cr_live : L' = <[x := 24]> (<[f := PROC_STACK_SIZE]> (<[c := 24]> L));
  cr_new : L !! x = None /\ L !! f = None /\ L !! c = None /\ x <> f /\ x <> c /\ f <> c;
  cr_far : block_apart L f PROC_STACK_SIZE;
  cr_ctxs : ctxs s' = <[c := mkCtx (f + PROC_STACK_SIZE - 8 * Z.of_nat FRAME_WORDS) (pid_count s) f]> (ctxs s);
  cr_stacks : stacks s' = start_stack f entry arg (stacks s);
  cr_nodes : same_nodes (<[x := mkNode c 0 0]> (nodes (qs s))) (nodes (qs s'));
  cr_rest : cur_proc s' = cur_proc s /\ next_proc s' = next_proc s /\ irq80 s' = irq80 s /\
    irq81 s' = irq81 s /\ int_flag s' = int_flag s /\ rsp_reg s' = rsp_reg s;
  cr_pid : pid_count s' = u64 (pid_count s + 1) }.

Lemma apart_fresh a L T p n : al_holds a L T -> 0 < n -> block_apart L p n -> L !! p = None.
Proof.
  intros Ha Hn Hap. destruct (L !! p) as [n'|] eqn:E; [|done].
  destruct (al_positive _ _ _ _ _ Ha E). destruct (Hap p n' E); lia.
Qed.

(** The address space a thread may take. *)
Definition thread_room : Z := al_need 24 + al_need PROC_STACK_SIZE + al_need 24.

(** Adding a node that is in no queue keeps the queues. *)
Lemma rep_add q Q x n : queues_rep q Q -> ~ in_queue Q x -> x <> 0 ->
  queues_rep (mkQueues (<[x := n]> (nodes q)) (heads q)) Q.
Proof.
  intros [Hh Hc Hn Hap H0'] Hx Hx0.
  assert (Hne : forall q l a, Q !! q = Some l -> a ∈ l -> x <> a).
  { intros q' l a Hq Ha ->. apply Hx. by exists q', l. }
  split; cbn; try done.
  - intros q' l Hq. destruct (Hc q' l Hq) as [Hnd Hcy]. split; [done|].
    eapply cyc_agree; [|done]. intros a Ha. rewrite lookup_insert_ne; [done|]. by eapply Hne.
  - intros q' l a Hq Ha. rewrite lookup_insert_ne; [by eapply Hn|]. by eapply Hne.
  - by rewrite lookup_insert_ne.
Qed.

Lemma thread_add N C L x c f n k y cy fy : L !! x = None -> L !! c = None -> L !! f = None ->
  thread N C L y cy fy ->
  thread (<[x := n]> N) (<[c := k]> C) (<[x := 24]> (<[f := PROC_STACK_SIZE]> (<[c := 24]> L))) y cy fy.
Proof.
  intros Lx Lc Lf [T1 T2 (T3 & T4 & T5) T6].
  split; [rewrite lookup_insert_ne; [done|congruence]|rewrite lookup_insert_ne; [done|congruence]| |done].
  rewrite !lookup_insert_ne by congruence. done.
Qed.

Lemma create_runs s L Q l entry arg : sched_inv s L Q -> Q !! avail_procs = Some l ->
  thread_room <= al_room (alloc s) ->
  runs (PROC_create_kthread entry arg) s
    (fun p s' => p = pid_count s /\ exists L' x c f, created s s' entry arg L L' x c f /\
       sched_inv s' L' (<[avail_procs := l ++ [x]]> Q) /\
       al_room (alloc s) - thread_room <= al_room (alloc s'))
    (fun msg _ => al_oom msg).
Proof.
  intros Hi Hl Hroom. unfold PROC_create_kthread. destruct (si_alloc _ _ _ Hi) as (T & Ha & Hst).
  pose proof (al_need_pos 24 eq_refl). pose proof (al_need_pos PROC_STACK_SIZE eq_refl). unfold thread_room in Hroom.
  eapply aop_runs; [apply (al_kmalloc_law _ _ T 24 Ha); lia|].
  cbn beta. intros c a1 (Hapc & Hc0 & Ha1 & Hr1).
  eapply aop_runs; [apply (al_kmalloc_law _ _ T PROC_STACK_SIZE Ha1); [by unfold PROC_STACK_SIZE|lia]|].
  cbn beta. intros f a2 (Hapf & Hf0 & Ha2 & Hr2).
  eapply init_frame_runs; [exact Ha2|apply lookup_insert_eq|]. intros a2' T' Ha2' HT Hfw Hr2'.
  do 3 (eapply runs_bind_ret; [reflexivity|]).
  eapply aop_runs; [apply (al_kmalloc_law _ _ T' 24 Ha2'); [lia|cbn in *; lia]|].
  cbn beta. intros x a3 (Hapx & Hx0 & Ha3 & Hr3).
  pose proof (apart_fresh _ _ _ _ 24 Ha ltac:(lia) Hapc) as Lc.
  pose proof (apart_fresh _ _ _ _ PROC_STACK_SIZE Ha1 ltac:(by unfold PROC_STACK_SIZE) Hapf) as Lf.
  pose proof (apart_fresh _ _ _ _ 24 Ha2' ltac:(lia) Hapx) as Lx.
  apply lookup_insert_None in Lf as [Lf Hcf]. apply lookup_insert_None in Lx as [Lx Hfx].
  apply lookup_insert_None in Lx as [Lx Hcx].
  eapply runs_bind_ret; [reflexivity|]. cbn [qs set_alloc set_pid_count set_ctxs set_stacks set_qs].
  pose proof (si_queues _ _ _ Hi) as Hrep.
  assert (Hxq : ~ in_queue Q x).
  { intros Hin. destruct (si_thread _ _ _ Hi x Hin) as (? & ? & [_ _ (E & _) _]). congruence. }
  pose proof (rep_add _ _ x (mkNode c 0 0) Hrep Hxq ltac:(lia)) as Hrep1.
  destruct (append_refines _ _ _ _ x Hrep1 Hl) as (q' & Happ & HN & Hrep2).
  { cbn. rewrite lookup_insert_eq. eauto. }
  { intros q m Hm Hin. apply Hxq. by exists q, m. }
  eapply runs_bind_ret; [apply qop_ret; exact Happ|]. apply runs_ret. split; [done|].
  exists (<[x := 24]> (<[f := PROC_STACK_SIZE]> (<[c := 24]> L))), x, c, f.
  assert (Hown : owns a3 (<[x := 24]> (<[f := PROC_STACK_SIZE]> (<[c := 24]> L)))).
  { exists T'. split; [exact Ha3|]. intros f' Hf'. apply lookup_insert_Some in Hf' as [[_ E]|[_ Hf']]; [done|].
    apply lookup_insert_Some in Hf' as [[<- _]|[_ Hf']]; [done|].
    apply lookup_insert_Some in Hf' as [[_ E]|[_ Hf']]; [done|]. by eapply written_mono, Hst. }
  split; [|split; [|cbn in *; unfold thread_room; lia]].
  { assert (Hfar : block_apart L f PROC_STACK_SIZE).
    { intros p n Hp. apply (Hapf p n). rewrite lookup_insert_ne; congruence. }
    split; done. }
  assert (Hq : forall y, in_queue (<[avail_procs := l ++ [x]]> Q) y -> y = x \/ in_queue Q y).
  { intros y Hy. apply in_queue_insert in Hy as [Hy|Hy]; [|by right].
    apply elem_of_app in Hy as [Hy|Hy]; [right; exact (in_queue_lookup _ _ _ _ Hl Hy)|left].
    by apply list_elem_of_singleton in Hy. }
  set (k := mkCtx (f + PROC_STACK_SIZE - 8 * Z.of_nat FRAME_WORDS) (pid_count s) f).
  assert (Hold : forall y cy fy, thread (nodes (qs s)) (ctxs s) L y cy fy ->
    thread (nodes q') (<[c := k]> (ctxs s)) (<[x := 24]> (<[f := PROC_STACK_SIZE]> (<[c := 24]> L))) y cy fy).
  { intros y cy fy Hty. apply (thread_same _ _ _ _ _ _ _ _ HN (same_ctxs_refl _)). by apply thread_add. }
  assert (Hnew : forall cx fx, thread (nodes q') (<[c := k]> (ctxs s))
      (<[x := 24]> (<[f := PROC_STACK_SIZE]> (<[c := 24]> L))) x cx fx <-> cx = c /\ fx = f).
  { intros cx fx. rewrite <- (thread_same _ _ _ _ _ _ _ _ HN (same_ctxs_refl _)). cbn [nodes]. split.
    - intros [T1 T2 _ _]. rewrite lookup_insert_eq in T1. injection T1 as <-.
      rewrite lookup_insert_eq in T2. by injection T2 as <-.
    - intros [-> ->]. split; [by rewrite lookup_insert_eq|by rewrite lookup_insert_eq| |done].
      rewrite lookup_insert_eq. rewrite (lookup_insert_ne _ x c), (lookup_insert_ne _ f c), lookup_insert_eq by congruence.
      by rewrite (lookup_insert_ne _ x f), lookup_insert_eq by congruence. }
  split; cbn; [exact Hrep2|exact Hown| |].
  - intros y Hy. destruct (Hq y Hy) as [->|Hy'].
    + exists c, f. by apply Hnew.
    + destruct (si_thread _ _ _ Hi y Hy') as (cy & fy & Hty). exists cy, fy. by apply Hold.
  - assert (Hback : forall y cy fy, in_queue Q y -> thread (nodes q') (<[c := k]> (ctxs s))
      (<[x := 24]> (<[f := PROC_STACK_SIZE]> (<[c := 24]> L))) y cy fy -> thread (nodes (qs s)) (ctxs s) L y cy fy).
    { intros y cy fy Hy [T1 T2 _ _]. destruct (si_thread _ _ _ Hi y Hy) as (cy' & fy' & Hty).
      destruct (Hold y cy' fy' Hty) as [T1' T2' _ _]. rewrite T1 in T1'. injection T1' as <-.
      rewrite T2 in T2'. by injection T2' as <-. }
    intros y z cy fy cz fz Hy Hz Hne Hty Htz.
    destruct (Hq y Hy) as [->|Hy'], (Hq z Hz) as [->|Hz']; [done| | |].
    + apply Hnew in Hty as [-> ->]. pose proof (th_live _ _ _ _ _ _ (Hback z cz fz Hz' Htz)) as (? & ? & ?).
      repeat split; congruence.
    + apply Hnew in Htz as [-> ->]. pose proof (th_live _ _ _ _ _ _ (Hback y cy fy Hy' Hty)) as (? & ? & ?).
      repeat split; congruence.
    + eapply (si_own _ _ _ Hi y z); try done; by apply Hback.
Qed.

End create.

(** ** The scheduler as an abstract machine on lists *)

Inductive event :=
| EYield
| EBlock (q : Z) (enable_ints : bool)
| EUnblockHead (q : Z)
| EUnblockAll (q : Z)
| EExit
| ECreate (entry arg : Z).

Section refinement.
Context {A : Type} `{AllocatorLaws A} `{ProcStatics} `{!StaticsOutside A}.
Implicit Types (s : sched A).

Definition step (e : event) : M (sched A) unit :=
  match e with
  | EYield => yield
  | EBlock q ei => PROC_block_on q ei
  | EUnblockHead q => PROC_unblock_head q
  | EUnblockAll q => fun s => PROC_unblock_all (size (nodes (qs s))) q s
  | EExit => kexit
  | ECreate entry arg => _ ← PROC_create_kthread entry arg; mret tt
  end.

(** The queues, by address, and the running thread. Only the runnable queue
    [l := Q avail_procs] and the queue named in the event change. *)
Inductive astep : gmap Z (list Z) * Z -> event -> gmap Z (list Z) * Z -> Prop :=
| a_yield Q cur l : Q !! avail_procs = Some l ->
    astep (Q, cur) EYield (<[avail_procs := rotate l]> Q, hd source_proc l)
| a_block Q cur l1 l2 q m ei : Q !! avail_procs = Some (l1 ++ cur :: l2) -> Q !! q = Some m ->
    astep (Q, cur) (EBlock q ei)
      (<[avail_procs := rotate (l1 ++ l2)]> (<[q := m ++ [cur]]> Q), hd source_proc (l1 ++ l2))
| a_unblock_head Q cur l q x m : Q !! avail_procs = Some l -> Q !! q = Some (x :: m) ->
    astep (Q, cur) (EUnblockHead q) (<[avail_procs := l ++ [x]]> (<[q := m]> Q), cur)
| a_unblock_all Q cur l q m : Q !! avail_procs = Some l -> Q !! q = Some m ->
    astep (Q, cur) (EUnblockAll q) (<[avail_procs := l ++ m]> (<[q := []]> Q), cur)
| a_exit Q cur l1 l2 : Q !! avail_procs = Some (l1 ++ cur :: l2) ->
    astep (Q, cur) EExit (<[avail_procs := l1 ++ l2]> Q, hd source_proc (l1 ++ l2))
| a_create Q cur l x entry arg : Q !! avail_procs = Some l -> ~ in_queue Q x ->
    astep (Q, cur) (ECreate entry arg) (<[avail_procs := l ++ [x]]> Q, cur).

(** When the callers may do it. *)
Definition enabled (Q : gmap Z (list Z)) (cur : Z) (l : list Z) (e : event) : Prop :=
  match e with
  | EYield | ECreate _ _ => True
  | EBlock q _ => cur ∈ l /\ q <> avail_procs /\ q <> 0 /\ is_Some (Q !! q)
  | EUnblockHead q => q <> avail_procs /\ exists x m, Q !! q = Some (x :: m)
  | EUnblockAll q => q <> avail_procs /\ is_Some (Q !! q)
  | EExit => cur ∈ l
  end.

Lemma queue_size s Q q l : queues_rep (qs s) Q -> Q !! q = Some l -> (length l <= size (nodes (qs s)))%nat.
Proof.
  intros Hr Hq. destruct (qr_cyc _ _ Hr q l Hq) as [Hnd _].
  rewrite <- (size_list_to_set (C := gset Z) l Hnd), <- (size_dom (nodes (qs s))).
  apply subseteq_size. intros a Ha. apply elem_of_list_to_set in Ha.
  apply elem_of_dom. by apply (qr_node _ _ Hr q l).
Qed.

Lemma created_ready s s' L L' Q l entry arg x c f : ready s L Q l ->
  created s s' entry arg L L' x c f -> sched_inv s' L' (<[avail_procs := l ++ [x]]> Q) ->
  ready s' L' (<[avail_procs := l ++ [x]]> Q) (l ++ [x]).
Proof.
  intros Hr Hc Hi. pose proof (si_alloc _ _ _ Hi) as Ha.
  destruct (statics_outside _ _ x 24 Ha) as [Sx _].
  { rewrite (cr_live _ _ _ _ _ _ _ _ _ Hc). apply lookup_insert_eq. }
  destruct (statics_outside _ _ c 24 Ha) as [_ Sc].
  { rewrite (cr_live _ _ _ _ _ _ _ _ _ Hc). destruct (cr_new _ _ _ _ _ _ _ _ _ Hc) as (_&_&_&_&?&?).
    rewrite !lookup_insert_ne by congruence. apply lookup_insert_eq. }
  destruct (rd_source _ _ _ _ Hr) as [Hs1 Hs2]. split; [done|apply lookup_insert_eq| |].
  - split.
    + rewrite (cr_nodes _ _ _ _ _ _ _ _ _ Hc). by rewrite lookup_insert_ne.
    + rewrite (cr_ctxs _ _ _ _ _ _ _ _ _ Hc). by rewrite lookup_insert_ne.
  - destruct (cr_rest _ _ _ _ _ _ _ _ _ Hc) as (_ & _ & -> & -> & _). apply Hr.
Qed.

(** The address space an event may take. *)
Definition event_room (e : event) : Z := match e with ECreate _ _ => thread_room | _ => 0 end.

Lemma step_runs s L Q l e :
  running s L Q l -> enabled Q (cur_proc s) l e -> event_room e <= al_room (alloc s) ->
  runs (step e) s
    (fun _ s' => exists L' Q' l', running s' L' Q' l' /\ astep (Q, cur_proc s) e (Q', cur_proc s') /\
       al_room (alloc s) - event_room e <= al_room (alloc s'))
    (fun msg _ => al_oom msg).
Proof.
  intros [Hr Hcur] He Hroom. pose proof (rd_avail _ _ _ _ Hr) as Hl.
  pose proof (si_queues _ _ _ (rd_inv _ _ _ _ Hr)) as Hrep. destruct e; cbn [step enabled event_room] in *.
  - destruct (yield_ret s L Q l Hr) as (s' & Hs' & Hrun & Ec & Hsw & _).
    { eapply ready_has_ctx; [done|]. destruct Hcur as [->|Hc]; [by left|]. right. by eapply in_queue_avail. }
    destruct (sw_rest _ _ Hsw) as (_ & _ & _ & _ & _ & Ea). cbn in Ea.
    unfold runs. rewrite Hs'. eexists _, _, _. split; [exact Hrun|]. rewrite Ec, Ea. split; [by constructor|lia].
  - destruct He as (Hin & Hqa & Hq0 & [m Hm]). apply list_elem_of_split in Hin as (l1 & l2 & ->).
    destruct (block_on_ret s L Q l1 l2 q m enable_ints Hr Hqa Hq0 Hm) as (s' & Hs' & Hrun & Ec & Ea).
    unfold runs. rewrite Hs'. eexists _, _, _. split; [exact Hrun|]. rewrite Ec, Ea. split; [by constructor|lia].
  - destruct He as (Hqa & x & m & Hm).
    destruct (unblock_head_ret s L Q l q x m Hr Hqa Hm) as (s' & Hs' & E & Hr').
    unfold runs. rewrite Hs'. eexists _, _, _. rewrite E in *. split; [split; [exact Hr'|]|split; [by constructor|cbn; lia]].
    cbn. destruct Hcur as [->|Hc]; [by left|right]. apply elem_of_app. by left.
  - destruct He as (Hqa & [m Hm]).
    destruct (unblock_all_ret m (size (nodes (qs s))) s L Q l q Hr Hqa Hm) as (s' & Hs' & E & Hr').
    { by eapply queue_size. }
    unfold runs. rewrite Hs'. eexists _, _, _. rewrite E in *. split; [split; [exact Hr'|]|split; [by constructor|cbn; lia]].
    cbn. destruct Hcur as [->|Hc]; [by left|right]. apply elem_of_app. by left.
  - apply list_elem_of_split in He as (l1 & l2 & ->).
    assert (Hin : in_queue Q (cur_proc s)).
    { eapply in_queue_lookup; [exact Hl|]. apply elem_of_app. right. left. }
    destruct (si_thread _ _ _ (rd_inv _ _ _ _ Hr) _ Hin) as (c & f & Hth).
    eapply runs_conseq; [by apply (kexit_runs s L Q l1 l2 c f)| |done].
    cbn beta. intros _ s' (Hrun & Ec & _ & Ea). eexists _, _, _. split; [exact Hrun|]. rewrite Ec, Ea.
    split; [by constructor|lia].
  - eapply runs_bind; [by apply (create_runs s L Q l entry arg (rd_inv _ _ _ _ Hr))|].
    cbn beta. intros p s' (_ & L' & x & c & f & Hc & Hi & Hroom'). apply runs_ret. eexists _, _, _.
    destruct (cr_rest _ _ _ _ _ _ _ _ _ Hc) as (Ec & _). split; [split|split; [|done]].
    + by eapply created_ready.
    + rewrite Ec. destruct Hcur as [->|Hin]; [by left|right]. apply elem_of_app. by left.
    + rewrite Ec. constructor; [done|]. intros Hin.
      pose proof (in_queue_live _ _ _ _ (rd_inv _ _ _ _ Hr) Hin) as E.
      destruct (cr_new _ _ _ _ _ _ _ _ _ Hc) as [E' _]. congruence.
Qed.

(** C6: from a running state every enabled event ends - it can only be stopped by
    the allocator - in a running state again, and what it did to the queues and to
    the running thread is exactly the step of the abstract machine on lists: all
    queues stay well-formed circular lists without common nodes, and no node is
    dereferenced that is null or has been freed. *)
Theorem scheduler_refines s L Q l e :
  running s L Q l -> enabled Q (cur_proc s) l e -> event_room e <= al_room (alloc s) ->
  runs (step e) s
    (fun _ s' => exists L' Q' l', running s' L' Q' l' /\ astep (Q, cur_proc s) e (Q', cur_proc s'))
    (fun msg _ => al_oom msg).
Proof.
  intros Hrun He Hroom. eapply runs_conseq; [by apply (step_runs s L Q l e)| |done].
  intros _ s' (L' & Q' & l' & ? & ? & _). eauto.
Qed.

(** [n] yields in a row, and who ran after each. *)
Fixpoint run_yields (n : nat) : M (sched A) (list Z) :=
  match n with
  | O => mret []
  | S n => yield ;; c ← gets cur_proc; cs ← run_yields n; mret (c :: cs)
  end.

Lemma run_yields_prefix l1 : forall s L Q l2, running s L Q (l1 ++ l2) ->
  exists s', run_yields (length l1) s = Ret l1 s' /\
    running s' L (<[avail_procs := l2 ++ l1]> Q) (l2 ++ l1).
Proof.
  induction l1 as [|x l1 IH]; intros s L Q l2 [Hr Hcur].
  - exists s. split; [done|]. rewrite app_nil_r. rewrite insert_id by apply Hr. done.
  - destruct (yield_ret s L Q _ Hr) as (s1 & Hs1 & Hrun1 & Ec & _).
    { eapply ready_has_ctx; [done|]. destruct Hcur as [->|Hc]; [by left|]. right. by eapply in_queue_avail. }
    cbn [app] in *. assert (Erot : rotate (x :: l1 ++ l2) = l1 ++ (l2 ++ [x])).
    { unfold rotate. cbn. by rewrite take_0, app_assoc. }
    rewrite Erot in Hrun1. destruct (IH s1 L _ _ Hrun1) as (s2 & Hs2 & Hrun2).
    exists s2. split.
    + cbn [length run_yields]. rewrite (bind_ret _ _ _ _ _ Hs1). mstep. rewrite Ec. cbn [hd].
      by rewrite (bind_ret _ _ _ _ _ Hs2).
    + rewrite insert_insert_eq in Hrun2. rewrite <- app_assoc in Hrun2. done.
Qed.

(** C23: the scheduler is round robin: when every runnable thread does nothing but
    yield, as many yields as there are runnable threads run each of them exactly
    once, in the order of the queue, and leave the queue as it was. *)
Theorem round_robin s L Q l :
  running s L Q l ->
  exists s', run_yields (length l) s = Ret l s' /\ running s' L Q l.
Proof.
  intros Hrun. pose proof (rd_avail _ _ _ _ (proj1 Hrun)) as Hl. rewrite <- (app_nil_r l) in Hrun.
  destruct (run_yields_prefix l s L Q [] Hrun) as (s' & Hs' & Hrun').
  exists s'. split; [done|]. cbn [app] in Hrun'. by rewrite insert_id in Hrun'.
Qed.

(** C33: [PROC_create_kthread] gives the thread the next pid and puts it last in the
    runnable queue; its saved stack pointer leads to a frame from which the switch
    starts [entry] with [arg] in rdi, on a stack whose top word is the address of
    [kexit]; the saved state and the stacks of the other threads stay as they
    are. *)
Theorem create_kthread_starts s L Q l entry arg :
  sched_inv s L Q -> Q !! avail_procs = Some l -> thread_room <= al_room (alloc s) ->
  runs (PROC_create_kthread entry arg) s
    (fun p s' => p = pid_count s /\ exists L' x sp top, ~ in_queue Q x /\
       sched_inv s' L' (<[avail_procs := l ++ [x]]> Q) /\
       saved_rsp s' x = Some sp /\ restore_frame (stacks s') sp = Some (start_cpu entry arg top) /\
       stacks s' !! top = Some kexit_addr /\
       forall y cy fy, in_queue Q y -> thread (nodes (qs s)) (ctxs s) L y cy fy ->
         saved_rsp s' y = saved_rsp s y /\
         forall a, fy <= a < fy + PROC_STACK_SIZE -> stacks s' !! a = stacks s !! a)
    (fun msg _ => al_oom msg).
Proof.
  intros Hi Hl Hroom. eapply runs_conseq; [by apply (create_runs s L Q l entry arg)| |done].
  cbn beta. intros p s' (-> & L' & x & c & f & Hc & Hi' & _). split; [done|].
  destruct (cr_new _ _ _ _ _ _ _ _ _ Hc) as (Lx & Lf & Lc & N1 & N2 & N3).
  pose proof (cr_nodes _ _ _ _ _ _ _ _ _ Hc) as HN.
  assert (Hsaved : forall y cy, context <$> <[x := mkNode c 0 0]> (nodes (qs s)) !! y = Some cy ->
    saved_rsp s' y = rsp <$> ctxs s' !! cy).
  { intros y cy Hy. unfold saved_rsp. rewrite <- HN in Hy. destruct (nodes (qs s') !! y); [|done].
    injection Hy as E. cbn. by rewrite E. }
  exists L', x, (f + PROC_STACK_SIZE - 8 * Z.of_nat FRAME_WORDS), (f + PROC_STACK_SIZE - 8).
  split; [|split; [done|split; [|split; [|split] ] ] ].
  - intros Hin. pose proof (in_queue_live _ _ _ _ Hi Hin). congruence.
  - rewrite (Hsaved x c) by (by rewrite lookup_insert_eq).
    rewrite (cr_ctxs _ _ _ _ _ _ _ _ _ Hc). by rewrite lookup_insert_eq.
  - rewrite (cr_stacks _ _ _ _ _ _ _ _ _ Hc). apply start_stack_restores.
  - rewrite (cr_stacks _ _ _ _ _ _ _ _ _ Hc). unfold start_stack.
    replace (f + PROC_STACK_SIZE - 8) with (f + PROC_STACK_SIZE - 8 * Z.of_nat FRAME_WORDS + OFF_kexit_ret)
      by (unfold OFF_kexit_ret, FRAME_WORDS; lia). apply lookup_insert_eq.
  - intros y cy fy Hy [T1 T2 (T3 & T4 & T5) T6]. split.
    + rewrite (Hsaved y cy) by (rewrite lookup_insert_ne; congruence).
      rewrite (cr_ctxs _ _ _ _ _ _ _ _ _ Hc). rewrite lookup_insert_ne by congruence.
      unfold saved_rsp. destruct (nodes (qs s) !! y); [|done]. injection T1 as E. cbn. by rewrite E.
    + intros a Ha. rewrite (cr_stacks _ _ _ _ _ _ _ _ _ Hc). apply start_stack_outside.
      destruct (cr_far _ _ _ _ _ _ _ _ _ Hc fy _ T5); lia.
Qed.

(** C34: [kexit] gives back exactly the exiting thread's node, context and stack,
    takes it out of the runnable queue and lets the head of that queue - the source
    thread if it is empty - run next; the other threads are untouched. *)
Theorem kexit_frees s L Q l1 l2 c f :
  running s L Q (l1 ++ cur_proc s :: l2) ->
  thread (nodes (qs s)) (ctxs s) L (cur_proc s) c f ->
  runs kexit s
    (fun _ s' => running s' (delete (cur_proc s) (delete c (delete f L))) (<[avail_procs := l1 ++ l2]> Q) (l1 ++ l2) /\
       cur_proc s' = hd source_proc (l1 ++ l2) /\ stacks s' = stacks s)
    (fun msg _ => al_oom msg).
Proof.
  intros [Hr _] Hth. eapply runs_conseq; [by apply (kexit_runs s L Q l1 l2 c f)| |done].
  by intros _ s' (? & ? & ? & _).
Qed.

(** A [yield] stores the stack pointer of the thread that yields in its own
    context, loads the one stored in the context of the thread that runs next, and
    changes no other saved stack pointer. *)
Theorem yield_switches s L Q l :
  running s L Q l -> hd 0 l <> cur_proc s ->
  exists s', yield s = Ret tt s' /\ cur_proc s' = hd source_proc l /\
    saved_rsp s' (cur_proc s') = Some (rsp_reg s') /\ saved_rsp s' (cur_proc s) = Some (rsp_reg s) /\
    forall x, in_queue Q x -> x <> cur_proc s -> saved_rsp s' x = saved_rsp s x.
Proof.
  intros [Hr Hcur] Hne. pose proof (rd_inv _ _ _ _ Hr) as Hi.
  assert (Hcq : cur_proc s = source_proc \/ in_queue Q (cur_proc s)).
  { destruct Hcur as [->|Hc]; [by left|]. right. by eapply in_queue_avail. }
  pose proof (ready_has_ctx _ _ _ _ _ Hr Hcq) as Hctx.
  destruct (yield_ret s L Q l Hr Hctx) as (s' & Hs' & Hrun & Ec & Hsw & HN).
  exists s'. split; [done|]. split; [done|].
  destruct (has_ctx_inv _ _ Hctx) as (n & k & Hn & Hk).
  assert (Hc0 : cur_proc s <> 0).
  { intros E. rewrite E in Hn. by rewrite (qr_null _ _ (si_queues _ _ _ Hi)) in Hn. }
  assert (Heq : forall x, saved_rsp (set_qs (qs s) s') x = saved_rsp s' x).
  { intros x. unfold saved_rsp. cbn. by rewrite HN. }
  pose proof (sw_saved _ _ Hsw) as Hsaved. cbn in Hsaved. split; [|split].
  - rewrite <- Heq. apply (sw_rsp _ _ Hsw). by apply not_eq_sym.
  - rewrite <- Heq, (Hsaved _ (context n)) by (rewrite ?Hn; done).
    rewrite decide_True; [done|]. split; [done|]. split; [by apply not_eq_sym|]. by rewrite Hn.
  - intros x Hx Hxc. destruct (si_thread _ _ _ Hi x Hx) as (c & f & Hth).
    pose proof Hth as [T1 T2 (T3 & T4 & T5) T6].
    rewrite <- Heq, (Hsaved x c T1) by (by destruct (ctxs s !! c)). rewrite decide_False; [done|].
    intros (_ & _ & E). destruct Hcq as [Es|Hcq].
    + rewrite Es, (proj1 (rd_source _ _ _ _ Hr)) in E. injection E as <-.
      by destruct (statics_outside _ _ _ _ (si_alloc _ _ _ Hi) T4).
    + destruct (si_thread _ _ _ Hi _ Hcq) as (c2 & f2 & Hth2).
      destruct (si_own _ _ _ Hi x (cur_proc s) c f c2 f2 Hx Hcq Hxc Hth Hth2) as (Hcc & _).
      rewrite (th_node _ _ _ _ _ _ Hth2) in E. congruence.
Qed.

(** [PROC_run] with a runnable thread: the source thread is set up and the first
    thread runs; with none it does nothing. *)
Lemma PROC_run_ret s L Q l : sched_inv s L Q -> Q !! avail_procs = Some l ->
  ~ in_queue Q source_proc ->
  match l with
  | [] => PROC_run s = Ret false s
  | x :: _ => exists s', PROC_run s = Ret true s' /\ cur_proc s' = x /\
      running s' L (<[avail_procs := rotate l]> Q) (rotate l) /\ alloc s' = alloc s
  end.
Proof.
  intros Hi Hl Hsrc. pose proof (si_queues _ _ _ Hi) as Hrep.
  pose proof (qr_head _ _ Hrep _ _ Hl) as Hh. destruct l as [|x t]; cbn [hd] in Hh.
  { unfold PROC_run. by rewrite (get_head_qs _ _ _ _ Hh). }
  pose proof (queue_not_null _ _ _ _ x Hrep Hl ltac:(left)) as Hx.
  unfold PROC_run. rewrite (get_head_qs _ _ _ _ Hh), (proj2 (Z.eqb_neq _ _) Hx). cbn [negb]. mstep.
  match goal with |- context [(PROC_reschedule ≫= _) ?st] => set (s1 := st) end.
  pose proof source_not_null as Hs0.
  assert (Hr1 : ready s1 L Q (x :: t)).
  { assert (Hth : forall y cy fy, in_queue Q y ->
      thread (nodes (qs s1)) (ctxs s1) L y cy fy <-> thread (nodes (qs s)) (ctxs s) L y cy fy).
    { intros y cy fy Hy. assert (Hne : y <> source_proc) by (by intros ->).
      assert (E1 : nodes (qs s1) !! y = nodes (qs s) !! y) by (apply lookup_insert_ne; by apply not_eq_sym).
      split; intros [T1 T2 (T3 & T4 & T5) T6];
      destruct (statics_outside _ _ _ _ (si_alloc _ _ _ Hi) T4) as [_ Hcs];
      assert (E2 : ctxs s1 !! cy = ctxs s !! cy) by (apply lookup_insert_ne; by apply not_eq_sym);
      split; try done; congruence. }
    split; [split|done| |done].
    - by apply rep_add.
    - apply (si_alloc _ _ _ Hi).
    - intros y Hy. destruct (si_thread _ _ _ Hi y Hy) as (c & f & Ht). exists c, f. by apply Hth.
    - intros y z c f c' f' Hy Hz Hne Ht Ht'. apply Hth in Ht, Ht'; try done. by eapply (si_own _ _ _ Hi y z).
    - cbn. rewrite !lookup_insert_eq. done. }
  destruct (yield_ret s1 L Q (x :: t) Hr1) as (s' & Hs' & Hrun & Ec & Hsw & _).
  { eapply ready_has_ctx; [done|]. by left. }
  exists s'. split; [|split; [done|split; [done|]]].
  2:{ destruct (sw_rest _ _ Hsw) as (_ & _ & _ & _ & _ & Ea). exact Ea. }
  unfold yield in Hs'. rewrite bind_assoc. by rewrite (bind_ret _ _ _ _ _ Hs').
Qed.

End refinement.

(** ** A small allocator and a booted scheduler, for the witnesses *)

Module Demo.

Record bump := mkBump { b_next : Z; b_live : gmap Z Z }.

Definition b_base : Z := 65536.
Definition b_limit : Z := 2 ^ 32.

(** A request starts 16 bytes into a page. *)
Definition bump_pages (n : Z) : Z := MMU_PAGE_SIZE * ((n + 16 + MMU_PAGE_SIZE - 1) / MMU_PAGE_SIZE).

#[export] Instance bump_alloc : Allocator bump := {|
  al_kmalloc n := fun a =>
    if b_next a + bump_pages n <=? b_limit
    then Ret (b_next a + 16) (mkBump (b_next a + bump_pages n) (<[b_next a + 16 := n]> (b_live a)))
    else Halted "out of memory" [] a;
  al_kfree p := fun a => Ret tt (mkBump (b_next a) (delete p (b_live a)));
  al_store _ _ := mret tt |}.

Record bump_holds (a : bump) (L : gmap Z Z) (T : gset Z) : Prop := {
  bh_live : b_live a = L;
  bh_next : page_aligned (b_next a) /\ b_base <= b_next a <= b_limit;
  bh_block : forall p n, L !! p = Some n -> p mod MMU_PAGE_SIZE = 16 /\ b_base <= p /\ 0 < n /\
    p - 16 + bump_pages n <= b_next a;
  bh_apart : forall p n p' n', L !! p = Some n -> L !! p' = Some n' -> p <> p' ->
    p + n <= p' \/ p' + n' <= p }.

Lemma bump_pages_fit n : 0 < n -> n + 16 <= bump_pages n /\ page_aligned (bump_pages n).
Proof. intros Hn. unfold bump_pages, page_aligned, MMU_PAGE_SIZE. split; zdm. Qed.

#[export] Instance bump_laws : AllocatorLaws bump.
Proof.
  refine {| al_holds := bump_holds; al_oom msg := msg = "out of memory"%string;
            al_room _ := 0; al_need _ := 0 |}.
  - done.
  - intros a L T p n [_ _ Hb _] Hp. destruct (Hb p n Hp). unfold b_base in *. lia.
  - intros a L T p n [_ _ Hb _] Hp Hn. destruct (Hb p n Hp) as (E & _ & ? & _).
    unfold page_of, MMU_PAGE_SIZE, SMALL in *. zdm.
  - intros a L T p n [_ _ Hb _] Hp _. by destruct (Hb p n Hp).
  - intros a L T p n p' n' [_ _ _ Hap]. apply Hap.
  - intros a L T n [E [Hal Hn] Hb Hap] Hn0 _. destruct (bump_pages_fit n) as [Hfit Hpg]; [lia|].
    unfold runs. cbn. destruct (Z.leb_spec (b_next a + bump_pages n) b_limit); [|done].
    assert (Hnew : forall p m, L !! p = Some m -> p + m <= b_next a).
    { intros p m Hp. destruct (Hb p m Hp) as (_ & _ & Hm & Hq). destruct (bump_pages_fit m Hm). lia. }
    split; [|split; [unfold b_base, b_limit in *; lia|split; [split; cbn|done] ] ].
    + intros p m Hp. specialize (Hnew p m Hp). lia.
    + by rewrite E.
    + split; [unfold page_aligned in *; by rewrite Z.add_mod, Hal, Hpg by done|lia].
    + intros p m Hp. apply lookup_insert_Some in Hp as [[<- <-]|[_ Hp]].
      * unfold page_aligned, MMU_PAGE_SIZE in *. split; [zdm|lia].
      * destruct (Hb p m Hp) as (? & ? & ? & ?). split; [done|]. lia.
    + intros p m p' m' Hp Hp' Hne. apply lookup_insert_Some in Hp as [[<- <-]|[_ Hp]];
        apply lookup_insert_Some in Hp' as [[<- <-]|[_ Hp']]; [done| | |by apply (Hap p m p' m')].
      * specialize (Hnew _ _ Hp'). lia.
      * specialize (Hnew _ _ Hp). lia.
  - intros a L T p n q v [E Hn Hb Hap] _ _ _ _. unfold runs. cbn. split; [by split|done].
  - intros a L T p n [E Hn Hb Hap] _ _. unfold runs. cbn. split; [|done]. split; cbn; [by rewrite E|done| |].
    + intros q m Hq. apply lookup_delete_Some in Hq as [_ Hq]. by apply Hb.
    + intros q m q' m' Hq Hq'. apply lookup_delete_Some in Hq as [_ Hq], Hq' as [_ Hq']. by apply Hap.
Defined.

#[export] Instance demo_statics : ProcStatics := {|
  avail_procs := 4096; source_proc := 4104; source_proc_ctx := 4128; kexit_addr := 1234; kernel_cs := 8;
  source_not_null := ltac:(done) |}.

#[export] Instance demo_outside : StaticsOutside bump.
Proof.
  intros a L p n (T & Ha & _) Hp. destruct (bh_block _ _ _ Ha p n Hp) as (_ & Hb & _). unfold b_base in Hb. cbn. lia.
Qed.

(** A queue to block on. *)
Definition demo_queue : Z := 8192.

Definition boot : sched bump :=
  mkSched (mkQueues ∅ {[avail_procs := 0; demo_queue := 0]}) ∅ ∅ 0 0 0 H_null H_null false 0 (mkBump b_base ∅).

Definition boot_queues : gmap Z (list Z) := {[avail_procs := []; demo_queue := []]}.

Lemma boot_inv : sched_inv boot ∅ boot_queues.
Proof.
  assert (Hq : forall q l, boot_queues !! q = Some l -> l = []).
  { intros q l Hl. unfold boot_queues in Hl. apply lookup_insert_Some in Hl as [[_ <-]|[_ Hl]]; [done|].
    by apply lookup_singleton_Some in Hl as [_ <-]. }
  assert (Hnone : forall x, ~ in_queue boot_queues x).
  { intros x (q & l & Hl & Hx). rewrite (Hq q l Hl) in Hx. by apply not_elem_of_nil in Hx. }
  split.
  - split.
    + intros q l Hl. rewrite (Hq q l Hl). unfold boot_queues in Hl. cbn.
      apply lookup_insert_Some in Hl as [[<- _]|[Hne Hl]]; [done|].
      apply lookup_singleton_Some in Hl as [<- _]. done.
    + intros q l Hl. rewrite (Hq q l Hl). split; [apply NoDup_nil_2|done].
    + intros q l a Hl Ha. destruct (Hnone a). by exists q, l.
    + intros q q' l l' a Hl _ Ha. destruct (Hnone a). by exists q, l.
    + done.
  - exists ∅. split; [by split|done].
  - intros x Hx. by destruct (Hnone x).
  - intros x y c f c' f' Hx. by destruct (Hnone x).
Qed.

Lemma demo_ne : avail_procs <> demo_queue.
Proof. done. Qed.
Lemma demo_lookup (X : gmap Z (list Z)) l : <[avail_procs := l]> X !! demo_queue = X !! demo_queue.
Proof. apply lookup_insert_ne, demo_ne. Qed.
Lemma boot_demo : boot_queues !! demo_queue = Some [].
Proof. reflexivity. Qed.

(** Three threads, the first of them running. *)
Lemma booted : exists (s : sched bump) L Q x y z, running s L Q [y; z; x] /\ cur_proc s = x /\
  Q !! demo_queue = Some [].
Proof.
  set (prog := (PROC_create_kthread 11 1 ;; PROC_create_kthread 12 2 ;; PROC_create_kthread 13 3)).
  assert (Hruns : runs prog boot (fun _ s => exists L Q x y z, sched_inv s L Q /\ Q !! avail_procs = Some [x; y; z] /\
    Q !! demo_queue = Some []) (fun msg _ => al_oom msg)).
  { eapply runs_bind; [by apply (create_runs boot ∅ boot_queues [] 11 1 boot_inv)|].
    cbn beta. intros _ s1 (_ & L1 & x & c1 & f1 & _ & Hi1 & _).
    eapply runs_bind; [by eapply (create_runs s1 _ _ _ 12 2 Hi1); [apply lookup_insert_eq|]|].
    cbn beta. intros _ s2 (_ & L2 & y & c2 & f2 & _ & Hi2 & _).
    eapply runs_conseq; [by eapply (create_runs s2 _ _ _ 13 3 Hi2); [apply lookup_insert_eq|]| |done].
    cbn beta. intros _ s3 (_ & L3 & z & c3 & f3 & _ & Hi3 & _).
    eexists _, _, x, y, z. split; [exact Hi3|]. split; [apply lookup_insert_eq|].
    rewrite !demo_lookup. exact boot_demo. }
  assert (Hret : returns prog boot = true) by (by vm_compute).
  destruct (runs_returns _ _ _ _ Hruns Hret) as (p & s & _ & L & Q & x & y & z & Hi & Ha & Hd).
  pose proof (PROC_run_ret s L Q _ Hi Ha) as Hrun.
  destruct Hrun as (s' & _ & Hc & Hr & _).
  { intros Hin. pose proof (in_queue_live _ _ _ _ Hi Hin) as E.
    destruct (demo_outside _ L source_proc 24 (si_alloc _ _ _ Hi) E) as [Hne _]. exact (Hne eq_refl). }
  exists s', L, (<[avail_procs := rotate [x; y; z]]> Q), x, y, z. split; [exact Hr|]. split; [done|].
  rewrite demo_lookup. exact Hd.
Qed.

End Demo.

Import Demo.

Lemma scheduler_refines_witness : exists (s : sched bump) L Q x y z,
  running s L Q [y; z; x] /\ runs (step (EBlock demo_queue true)) s
    (fun _ s' => exists L' Q' l', running s' L' Q' l' /\ astep (Q, x) (EBlock demo_queue true) (Q', cur_proc s'))
    (fun msg _ => al_oom msg).
Proof.
  destruct booted as (s & L & Q & x & y & z & Hr & Hc & Hq). exists s, L, Q, x, y, z. split; [exact Hr|].
  subst x. apply (scheduler_refines s L Q _ (EBlock demo_queue true) Hr).
  { split; [right; right; left|]. split; [done|]. split; [done|]. by rewrite Hq. }
  done.
Defined.

Lemma round_robin_witness : exists (s : sched bump) L Q x y z,
  cur_proc s = x /\ exists s', run_yields 3 s = Ret [y; z; x] s' /\ running s' L Q [y; z; x].
Proof.
  destruct booted as (s & L & Q & x & y & z & Hr & Hc & Hq). exists s, L, Q, x, y, z. split; [exact Hc|].
  exact (round_robin s L Q [y; z; x] Hr).
Defined.

Lemma create_kthread_starts_witness :
  runs (PROC_create_kthread 11 1) boot
    (fun p s' => p = 0 /\ exists L' x sp top, ~ in_queue boot_queues x /\
       sched_inv s' L' (<[avail_procs := [x]]> boot_queues) /\
       saved_rsp s' x = Some sp /\ restore_frame (stacks s') sp = Some (start_cpu 11 1 top) /\
       stacks s' !! top = Some kexit_addr /\
       forall y cy fy, in_queue boot_queues y -> thread (nodes (qs boot)) (ctxs boot) ∅ y cy fy ->
         saved_rsp s' y = saved_rsp boot y /\
         forall a, fy <= a < fy + PROC_STACK_SIZE -> stacks s' !! a = stacks boot !! a)
    (fun msg _ => al_oom msg).
Proof. apply (create_kthread_starts boot ∅ boot_queues [] 11 1 boot_inv); [reflexivity|done]. Defined.

Lemma kexit_frees_witness : exists (s : sched bump) L Q y z c f,
  thread (nodes (qs s)) (ctxs s) L (cur_proc s) c f /\
  runs kexit s
    (fun _ s' => running s' (delete (cur_proc s) (delete c (delete f L))) (<[avail_procs := [y; z]]> Q) [y; z] /\
       cur_proc s' = y /\ stacks s' = stacks s)
    (fun msg _ => al_oom msg).
Proof.
  destruct booted as (s & L & Q & x & y & z & Hr & Hc & Hq). subst x.
  destruct (si_thread _ _ _ (rd_inv _ _ _ _ (proj1 Hr)) (cur_proc s)) as (c & f & Ht).
  { exists avail_procs, [y; z; cur_proc s]. split; [apply Hr|right; right; left]. }
  exists s, L, Q, y, z, c, f. split; [exact Ht|].
  exact (kexit_frees s L Q [y; z] [] c f Hr Ht).
Defined.

Lemma yield_switches_witness : exists (s : sched bump) L Q x y z,
  running s L Q [y; z; x] /\ exists s', yield s = Ret tt s' /\ cur_proc s' = y /\
    saved_rsp s' (cur_proc s') = Some (rsp_reg s') /\ saved_rsp s' (cur_proc s) = Some (rsp_reg s) /\
    forall t, in_queue Q t -> t <> cur_proc s -> saved_rsp s' t = saved_rsp s t.
Proof.
  destruct booted as (s & L & Q & x & y & z & Hr & Hc & Hq). exists s, L, Q, x, y, z. split; [exact Hr|].
  apply (yield_switches s L Q [y; z; x] Hr). cbn. rewrite Hc. intros ->.
  destruct (qr_cyc _ _ (si_queues _ _ _ (rd_inv _ _ _ _ (proj1 Hr))) _ _ (rd_avail _ _ _ _ (proj1 Hr))) as [Hnd _].
  apply NoDup_cons in Hnd as [Hnin _]. apply Hnin. right. left.
Defined.
