(* ===== verification/KernelThreads.v ===== *)
(** * KernelThreads: the scheduler on the kernel heap (src/src/kmain.c)

    The heap of Kmalloc.v keeps the promise [Allocator] of Processes.v: a thread's
    node, context and stack are blocks of [kmalloc], and the first frame reaches into
    every page of the stack, so that [kexit] can free it. With KernelHeap.v the
    threads run from the boot map on. *)

From S2P Require Import Prelude Multiboot Frames PageTable VirtPages Kmalloc HeapPages KernelHeap.
From S2P Require Import ProcQueue Processes.

(** ** The heap as the scheduler's allocator *)

#[export] Instance heap_alloc {S : Type} `{PageSource S} `{PoolsAt} : Allocator (heap S) := {|
  al_kmalloc := kmalloc;
  al_kfree := kfree;
  al_store q v := vmop (ps_store q (u64 v)) |}.

Section laws.
Context {S : Type} `{PageSourceLaws S} `{PoolsAt}.
Implicit Types (s : heap S) (g : ghost).

(** The blocks [L] and the written words [T] of a heap. *)
Record heap_blocks s g (h : aheap) (L : gmap Z Z) (T : gset Z) : Prop := {
  hb_shows : shows s g h;
  hb_blocks : blocks h = L;
  hb_words : forall q, q ∈ T -> is_Some (cells h !! q);
  hb_pos : forall p n, L !! p = Some n -> 0 < n }.

Definition heap_owns s (L : gmap Z Z) (T : gset Z) : Prop := exists g h, heap_blocks s g h L T.

Lemma owned_block s g h L T p n : heap_blocks s g h L T -> L !! p = Some n ->
  exists cap, allocated g p cap /\ fits n cap /\ 0 < n /\ HEADER_SIZE < p < 2 ^ 48.
Proof.
  intros [Hs <- _ Hpos] Hp. destruct (shows_block s g h p n Hs Hp) as (cap & Ha & Hf).
  exists cap. split; [done|]. split; [done|]. split; [by apply (Hpos p)|].
  pose proof (sh_inv _ _ _ Hs) as Hi. destruct Ha as [b i Hb|b sz Hb].
  - destruct (hi_live _ _ Hi b i Hb) as [Hba _]. pose proof (bsize_bounds i (ba_pool _ _ _ Hba)).
    destruct (block_at_ok s g i b Hi Hba). unfold HEADER_SIZE. lia.
  - destruct (hi_large _ _ Hi b sz Hb) as [Hla _]. destruct (large_at_ok s g b sz Hi Hla) as (Hpg & _ & H16 & Hb0 & Hb48).
    unfold HEADER_SIZE. split; [lia|]. unfold page_of, MMU_PAGE_SIZE in Hpg. zdm.
Qed.

(** A small block is one of a pool's, inside a page. *)
Lemma owned_small s g h L T p n : heap_blocks s g h L T -> L !! p = Some n -> n <= SMALL ->
  page_of (p + n - 1) = page_of p.
Proof.
  intros Hb Hp Hn. destruct (owned_block _ _ _ _ _ _ _ Hb Hp) as (cap & Ha & [Hf Hsm] & Hn0 & _).
  unfold SMALL in Hn. specialize (Hsm Hn). pose proof (sh_inv _ _ _ (hb_shows _ _ _ _ _ Hb)) as Hi.
  destruct Ha as [b i Hbl|b sz Hbl].
  - destruct (hi_live _ _ Hi b i Hbl) as [Hba _]. unfold HEADER_SIZE in *.
    replace (b + 16 + n - 1) with (b + (16 + n - 1)) by lia.
    by rewrite !(block_at_page _ i b) by (done || lia).
  - destruct (hi_large _ _ Hi b sz Hbl) as [Hla _]. pose proof (la_size _ _ _ Hla).
    pose proof (pages_for_bounds sz). unfold HEADER_SIZE in *. lia.
Qed.

Lemma owned_large s g h L T p n : heap_blocks s g h L T -> L !! p = Some n -> SMALL < n ->
  p mod MMU_PAGE_SIZE = 16.
Proof.
  intros Hb Hp Hn. destruct (owned_block _ _ _ _ _ _ _ Hb Hp) as (cap & Ha & [Hf Hsm] & Hn0 & _).
  unfold SMALL in Hn. pose proof (sh_inv _ _ _ (hb_shows _ _ _ _ _ Hb)) as Hi.
  destruct Ha as [b i Hbl|b sz Hbl].
  - destruct (hi_live _ _ Hi b i Hbl) as [Hba _]. pose proof (bsize_bounds i (ba_pool _ _ _ Hba)).
    unfold HEADER_SIZE in *. lia.
  - destruct (hi_large _ _ Hi b sz Hbl) as [Hla _]. destruct (large_at_ok s g b sz Hi Hla) as (Hpg & _).
    unfold page_of, HEADER_SIZE, MMU_PAGE_SIZE in *. zdm.
Qed.

Lemma owned_apart s g h L T p n p' n' : heap_blocks s g h L T -> L !! p = Some n -> L !! p' = Some n' ->
  p <> p' -> p + n <= p' \/ p' + n' <= p.
Proof.
  intros Hb Hp Hp' Hne.
  destruct (owned_block _ _ _ _ _ _ _ Hb Hp) as (cap & Ha & [Hf _] & _).
  destruct (owned_block _ _ _ _ _ _ _ Hb Hp') as (cap' & Ha' & [Hf' _] & _).
  destruct (allocated_apart s g _ _ _ _ (sh_inv _ _ _ (hb_shows _ _ _ _ _ Hb)) Ha Ha' Hne); unfold HEADER_SIZE in *; lia.
Qed.

Lemma owned_kmalloc s L T n : heap_owns s L T -> 0 < n <= 8192 -> room_for n <= ps_room (vm s) ->
  runs (kmalloc n) s
    (fun p s' => block_apart L p n /\ 0 < p < 2 ^ 48 /\ heap_owns s' (<[p := n]> L) T /\
       ps_room (vm s) - room_for n <= ps_room (vm s'))
    (fun msg _ => ps_oom msg).
Proof.
  intros (g & h & Hb) Hn Hroom. pose proof Hb as [Hs <- Hw Hpos].
  eapply runs_conseq; [apply (kmalloc_runs s g n (sh_inv _ _ _ Hs)); [lia| |done]| |done].
  { unfold int_ok, room_for, HEADER_SIZE, MMU_PAGE_SIZE. rewrite andb_true_iff, Z.leb_le, Z.ltb_lt. lia. }
  intros p s' (g' & cap & Hi' & Hf & Hadd & Hr).
  destruct (shows_malloc s g s' g' h n p cap Hs ltac:(lia) Hf Hi' Hadd) as [[Hal Hnew Hap] Hs'].
  assert (Hb' : heap_blocks s' g' (add_block p n h) (<[p := n]> (blocks h)) T).
  { split; [done|done|exact Hw|]. intros q m Hq. apply lookup_insert_Some in Hq as [[_ <-]|[_ Hq]]; [lia|by apply (Hpos q)]. }
  destruct (owned_block _ _ _ _ _ p n Hb' (lookup_insert_eq _ _ _)) as (_ & _ & _ & _ & Hrange).
  split; [exact Hap|]. split; [unfold HEADER_SIZE in Hrange; lia|]. split; [|done]. by exists g', (add_block p n h).
Qed.

Lemma owned_store s L T p n q v : heap_owns s L T -> L !! p = Some n -> p <= q -> q + 8 <= p + n -> q mod 8 = 0 ->
  runs (vmop (ps_store q (u64 v))) s
    (fun _ s' => heap_owns s' L ({[q]} ∪ T) /\ ps_room (vm s') = ps_room (vm s))
    (fun msg _ => ps_oom msg).
Proof.
  intros (g & h & Hb) Hp Hlo Hhi H8. pose proof Hb as [Hs <- Hw Hpos].
  assert (Hin : inside h q) by (by exists p, n).
  destruct (shows_inside s g h q Hs Hin) as (a & m & Ha & Hq & Ho).
  eapply runs_conseq; [apply (store_runs s g q (u64 v) (sh_inv _ _ _ Hs))| |done].
  - by apply (client_word s g a m q (sh_inv _ _ _ Hs)).
  - done.
  - done.
  - by apply wrap_range.
  - cbn beta. intros _ s' (Hi' & _ & Hr). split; [|done].
    eexists _, (write_cell q (u64 v) h). split; [by eapply shows_write|done| |done].
    intros x Hx. cbn. rewrite lookup_insert_is_Some'. apply elem_of_union in Hx as [Hx|Hx]; [left; set_solver|right; auto].
Qed.

Lemma owned_kfree s L T p n : heap_owns s L T -> L !! p = Some n -> written T p n ->
  runs (kfree p) s
    (fun _ s' => heap_owns s' (delete p L) (filter (fun q => ~ p <= q < p + n) T) /\
       ps_room (vm s') = ps_room (vm s))
    (fun msg _ => ps_oom msg).
Proof.
  intros (g & h & Hb) Hp Hwr. pose proof Hb as [Hs <- Hw Hpos].
  assert (Ht : all_touched h p n).
  { intros q Hq. destruct (Hwr q Hq) as [?|(q' & Hin & _ & E)]; [by left|right].
    destruct (Hw q' Hin) as [w Hc]. by exists q', w. }
  destruct (sh_blocks _ _ _ Hs p n Hp) as [cap Hcap].
  eapply runs_conseq; [apply (kfree_runs s g p cap (sh_inv _ _ _ Hs) Hcap); by eapply shows_touched| |done].
  cbn beta. intros _ s' (g' & Hi' & Hrm & Hr). split; [|done].
  exists g', (drop_block p n h). split; [by eapply shows_free|done| |].
  - intros q [Hout Hq]%elem_of_filter. destruct (Hw q Hq) as [w Hc]. exists w.
    by apply map_lookup_filter_Some.
  - intros q m [_ Hq]%lookup_delete_Some. by apply (Hpos q).
Qed.

#[export] Instance heap_laws : AllocatorLaws (heap S).
Proof.
  refine {| al_holds := heap_owns; al_oom := ps_oom; al_room s := ps_room (vm s); al_need := room_for |}.
  - intros n Hn. unfold room_for, HEADER_SIZE, MMU_PAGE_SIZE. lia.
  - intros s L T p n (g & h & Hb) Hp. destruct (owned_block _ _ _ _ _ _ _ Hb Hp) as (_ & _ & _ & ? & Hr & _).
    unfold HEADER_SIZE in Hr. lia.
  - intros s L T p n (g & h & Hb). by apply (owned_small s g h L T).
  - intros s L T p n (g & h & Hb). by apply (owned_large s g h L T).
  - intros s L T p n p' n' (g & h & Hb). by apply (owned_apart s g h L T).
  - intros s L T n. apply owned_kmalloc.
  - intros s L T p n q v. apply owned_store.
  - intros s L T p n. apply owned_kfree.
Defined.

End laws.

(** ** The kernel's threads *)

(** The linker places the scheduler's statics below the heap. *)
Class StaticsLow `{ProcStatics} : Prop :=
  statics_low : source_proc < KERNEL_HEAP_BASE /\ source_proc_ctx < KERNEL_HEAP_BASE.

#[export] Instance heap_statics_outside `{PoolsAt} `{StaticsLow} : StaticsOutside (heap mm).
Proof.
  intros s L p n (T & (g & h & Hb) & _) Hp.
  destruct (owned_block _ _ _ _ _ _ _ Hb Hp) as (cap & Ha & [Hf _] & Hn & _).
  pose proof (sh_inv _ _ _ (hb_shows _ _ _ _ _ Hb)) as Hi.
  assert (Hpage : page_of p ∈ dom (owners g)).
  { destruct (allocated_owner s g p cap p Hi Ha) as [(?&_&_&_&Ho)|Ho]; [unfold HEADER_SIZE; lia|..];
      by eapply elem_of_dom_2. }
  destruct (hi_holds _ _ Hi) as (root & P & fs & D & Hv).
  destruct (hv_pages _ _ _ _ _ _ _ Hv _ Hpage) as (_ & Hlo & _).
  pose proof (page_of_bounds p). destruct statics_low. lia.
Qed.

Section threads.
Context `{PoolsAt} `{StaticsLow}.

(** The scheduler's statics at boot: zeros, and the queues [qs] of the drivers. *)
Definition boot_sched (qs : list Z) (h : heap mm) : sched (heap mm) :=
  mkSched (mkQueues ∅ (gset_to_gmap 0 (list_to_set (avail_procs :: qs)))) ∅ ∅ 0 0 0 H_null H_null false 0 h.
Definition no_threads (qs : list Z) : gmap Z (list Z) := gset_to_gmap [] (list_to_set (avail_procs :: qs)).

Lemma boot_sched_inv qs h : owns h ∅ -> sched_inv (boot_sched qs h) ∅ (no_threads qs).
Proof.
  intros Ho.
  assert (Hq : forall q l, no_threads qs !! q = Some l -> l = [] /\ q ∈ (list_to_set (avail_procs :: qs) : gset Z)).
  { intros q l Hl. by apply lookup_gset_to_gmap_Some in Hl as [? <-]. }
  assert (Hnone : forall x, ~ in_queue (no_threads qs) x).
  { intros x (q & l & Hl & Hx). destruct (Hq q l Hl) as [-> _]. by apply not_elem_of_nil in Hx. }
  split; [split|done|by intros x ?%Hnone|by intros x y c f c' f' ?%Hnone].
  - intros q l Hl. destruct (Hq q l Hl) as [-> Hin]. cbn. by apply lookup_gset_to_gmap_Some.
  - intros q l Hl. destruct (Hq q l Hl) as [-> _]. split; [apply NoDup_nil_2|done].
  - intros q l a Hl Ha. destruct (Hnone a). by exists q, l.
  - intros q q' l l' a Hl _ Ha. destruct (Hnone a). by exists q, l.
  - done.
Qed.

(** The end of [kmain]: the two threads are created and the first one runs. *)
Definition start_threads (keyboard_io drive_init : Z) : M (sched (heap mm)) unit :=
  _ ← PROC_create_kthread keyboard_io 0;
  _ ← PROC_create_kthread drive_init 0;
  _ ← PROC_run;
  mret tt.

(** Waking the heads of queues, as interrupt handlers do. *)
Fixpoint wake_heads (qs : list Z) : M (sched (heap mm)) unit :=
  match qs with
  | [] => mret tt
  | q :: qs => PROC_unblock_head q ;; wake_heads qs
  end.

(** A turn of [kmain]'s loop, once the source thread goes on: the end of the
    [PROC_run] it was in (a first [PROC_run] that found no thread has changed
    nothing), the halt until interrupts, which may wake threads, and the next
    [PROC_run]. *)
Definition main_turn (wakes : list Z) : M (sched (heap mm)) unit :=
  PROC_run_resumed ;;
  unblocked ← PROC_has_unblocked;
  (if (unblocked : bool) then mret tt else modify (set_if true) ;; wake_heads wakes) ;;
  _ ← PROC_run;
  mret tt.

(** What happens after the start: a scheduler operation of a thread or of an
    interrupt while a thread runs, or a turn of the loop. *)
Inductive kevent :=
| KThread (e : event)
| KTurn (wakes : list Z).

Definition kstep (e : kevent) : M (sched (heap mm)) unit :=
  match e with KThread e => step e | KTurn wakes => main_turn wakes end.

Fixpoint run_events (es : list kevent) : M (sched (heap mm)) unit :=
  match es with
  | [] => mret tt
  | e :: es => kstep e ;; run_events es
  end.

(** *** The abstract machine *)

Abbreviation lists := (gmap Z (list Z)).

Inductive awake : lists -> list Z -> lists -> Prop :=
| awake_nil Q : awake Q [] Q
| awake_cons Q q x m l qs Q' : q <> avail_procs -> Q !! q = Some (x :: m) -> Q !! avail_procs = Some l ->
    awake (<[avail_procs := l ++ [x]]> (<[q := m]> Q)) qs Q' -> awake Q (q :: qs) Q'.

(** The source thread lets the first runnable thread run, if there is one. *)
Definition enter (Q : lists) : lists * Z :=
  match Q !! avail_procs with
  | Some (x :: l) => (<[avail_procs := rotate (x :: l)]> Q, x)
  | _ => (Q, source_proc)
  end.

Inductive akstep : lists * Z -> kevent -> lists * Z -> Prop :=
| ak_thread st e st' : astep st e st' -> akstep st (KThread e) st'
| ak_turn Q x l wakes : Q !! avail_procs = Some (x :: l) -> akstep (Q, source_proc) (KTurn wakes) (enter Q)
| ak_halt Q wakes Q' : Q !! avail_procs = Some [] -> awake Q wakes Q' ->
    akstep (Q, source_proc) (KTurn wakes) (enter Q').

Inductive asteps : lists * Z -> list kevent -> lists * Z -> Prop :=
| asteps_nil st : asteps st [] st
| asteps_cons st e st1 es st2 : akstep st e st1 -> asteps st1 es st2 -> asteps st (e :: es) st2.

(** When an event may happen: threads run while the source thread does not, and the
    interrupts of a halt wake threads that wait. *)
Definition kenabled (st : lists * Z) (e : kevent) : Prop :=
  match e with
  | KThread e => st.2 <> source_proc /\ forall l, st.1 !! avail_procs = Some l -> enabled st.1 st.2 l e
  | KTurn wakes => st.2 = source_proc /\ (st.1 !! avail_procs = Some [] -> exists Q', awake st.1 wakes Q')
  end.

Definition THREAD_ROOM : Z := thread_room (A := heap mm).
Definition kroom (e : kevent) : Z :=
  match e with KThread e => event_room (A := heap mm) e | KTurn _ => 0 end.

(** All of [es] may happen one after the other, with [room] bytes of address space for
    new threads. *)
Fixpoint allowed (st : lists * Z) (room : Z) (es : list kevent) : Prop :=
  match es with
  | [] => True
  | e :: es => kenabled st e /\ kroom e <= room /\
      forall st', akstep st e st' -> allowed st' (room - kroom e) es
  end.

(** *** The refinement *)

(** Either a thread runs, or the source thread is in the loop. *)
Definition kernel_inv (s : sched (heap mm)) (L : gmap Z Z) (Q : lists) : Prop :=
  exists l, Q !! avail_procs = Some l /\ sched_inv s L Q /\
    (cur_proc s <> source_proc -> running s L Q l).

Lemma running_kernel s L Q l : running s L Q l -> kernel_inv s L Q.
Proof. intros Hr. exists l. split; [apply Hr|]. split; [apply Hr|done]. Qed.

Lemma source_in_no_queue (s : sched (heap mm)) L Q : sched_inv s L Q -> ~ in_queue Q source_proc.
Proof.
  intros Hi Hin. pose proof (in_queue_live _ _ _ _ Hi Hin) as E.
  destruct (statics_outside _ _ _ _ (si_alloc _ _ _ Hi) E) as [Hne _]. exact (Hne eq_refl).
Qed.

(** Waking keeps everything but the queues. *)
Lemma wake_heads_ret Q wakes Q' : awake Q wakes Q' -> forall (s : sched (heap mm)) L, sched_inv s L Q ->
  exists s', wake_heads wakes s = Ret tt s' /\ sched_inv s' L Q' /\ s' = set_qs (qs s') s.
Proof.
  induction 1 as [Q|Q q x m l qs Q' Hne Hq Hl _ IH]; intros s L Hi; cbn [wake_heads].
  - exists s. split; [done|]. split; [done|]. by destruct s.
  - destruct (unblock_head_inv s L Q l q x m Hi Hl Hne Hq) as (s1 & Hs1 & E1 & _ & Hi1 & _).
    destruct (IH s1 L Hi1) as (s2 & Hs2 & Hi2 & E2). exists s2.
    split; [by rewrite (bind_ret _ _ _ _ _ Hs1)|]. split; [done|]. rewrite E2 at 1. by rewrite E1.
Qed.

(** [PROC_run] from the loop. *)
Lemma enter_ret (s : sched (heap mm)) L Q : sched_inv s L Q -> cur_proc s = source_proc -> is_Some (Q !! avail_procs) ->
  exists s' b, PROC_run s = Ret b s' /\ kernel_inv s' L (enter Q).1 /\ cur_proc s' = (enter Q).2 /\ alloc s' = alloc s.
Proof.
  intros Hi Hc [l Hl]. pose proof (PROC_run_ret s L Q l Hi Hl (source_in_no_queue _ _ _ Hi)) as Hrun.
  unfold enter. rewrite Hl. destruct l as [|x t].
  - exists s, false. split; [done|]. split; [|done]. exists []. split; [done|]. split; [done|]. by intros [].
  - destruct Hrun as (s' & Hs' & Hx & Hr & Ha). exists s', true. split; [done|].
    split; [by eapply running_kernel|done].
Qed.

Lemma inv_flags s L Q a b i : sched_inv s L Q -> sched_inv (set_if i (set_irqs a b s)) L Q.
Proof. intros []. by split. Qed.

Lemma main_turn_ret (s : sched (heap mm)) L Q wakes : kernel_inv s L Q -> kenabled (Q, cur_proc s) (KTurn wakes) ->
  exists s' Q', main_turn wakes s = Ret tt s' /\ kernel_inv s' L Q' /\
    akstep (Q, cur_proc s) (KTurn wakes) (Q', cur_proc s') /\ alloc s' = alloc s.
Proof.
  intros (l & Hl & Hi & _) [Hc Hw]. cbn [fst snd] in *.
  set (s1 := set_irqs H_null H_null s).
  assert (Hi1 : sched_inv s1 L Q) by (by destruct Hi; split).
  assert (Hh : heads (qs s1) !! avail_procs = Some (hd 0 l)) by (apply (qr_head _ _ (si_queues _ _ _ Hi)); done).
  assert (Hun : PROC_has_unblocked s1 = Ret (negb (hd 0 l =? 0)) s1).
  { unfold PROC_has_unblocked. by rewrite (get_head_qs _ _ _ _ Hh). }
  assert (E0 : main_turn wakes s = ((if negb (hd 0 l =? 0) then mret tt else modify (set_if true) ;; wake_heads wakes) ;;
    _ ← PROC_run; mret tt) s1).
  { unfold main_turn, PROC_run_resumed. mstep. by rewrite (bind_ret _ _ _ _ _ Hun). }
  rewrite E0, Hc. destruct l as [|x t]; cbn [hd].
  - destruct (Hw Hl) as [Q' HQ']. cbn [Z.eqb negb].
    destruct (wake_heads_ret Q wakes Q' HQ' (set_if true s1) L) as (s2 & Hs2 & Hi2 & E2); [by destruct Hi1; split|].
    assert (Hav : is_Some (Q' !! avail_procs)).
    { clear -HQ' Hl. assert (is_Some (Q !! avail_procs)) by eauto. clear Hl.
      induction HQ' as [|Q q y m l qs Q' ? ? ? ? IH]; [done|]. apply IH. rewrite lookup_insert_eq. eauto. }
    destruct (enter_ret s2 L Q' Hi2) as (s3 & b & Hs3 & Hk & Hc3 & Ha3); [by rewrite E2|done|].
    exists s3, (enter Q').1. assert (Hw2 : (modify (set_if true) ;; wake_heads wakes) s1 = Ret tt s2) by exact Hs2.
    rewrite (bind_ret _ _ _ _ _ Hw2), (bind_ret _ _ _ _ _ Hs3). split; [done|]. split; [done|]. split; [|by rewrite Ha3, E2].
    rewrite Hc3, <- surjective_pairing. by apply ak_halt.
  - pose proof (queue_not_null _ _ _ _ x (si_queues _ _ _ Hi) Hl ltac:(left)) as Hx.
    rewrite (proj2 (Z.eqb_neq _ _) Hx). cbn [negb].
    destruct (enter_ret s1 L Q Hi1 Hc) as (s3 & b & Hs3 & Hk & Hc3 & Ha3); [eauto|].
    exists s3, (enter Q).1. mstep. rewrite (bind_ret _ _ _ _ _ Hs3). split; [done|]. split; [done|].
    split; [|by rewrite Ha3]. rewrite Hc3, <- surjective_pairing. by eapply ak_turn.
Qed.

Lemma kstep_runs (s : sched (heap mm)) L Q e : kernel_inv s L Q -> kenabled (Q, cur_proc s) e ->
  kroom e <= al_room (alloc s) ->
  runs (kstep e) s
    (fun _ s' => exists L' Q', kernel_inv s' L' Q' /\ akstep (Q, cur_proc s) e (Q', cur_proc s') /\
       al_room (alloc s) - kroom e <= al_room (alloc s'))
    (fun msg _ => al_oom msg).
Proof.
  intros Hk He Hroom. destruct e as [e|wakes]; cbn [kstep kroom].
  - destruct He as [Hc He]. destruct Hk as (l & Hl & _ & Hr). cbn [fst snd] in *.
    eapply runs_conseq; [apply (step_runs s L Q l e (Hr Hc) (He l Hl) Hroom)| |done].
    intros _ s' (L' & Q' & l' & Hr' & Hst & Hm). exists L', Q'. split; [by eapply running_kernel|].
    split; [by constructor|done].
  - destruct (main_turn_ret s L Q wakes Hk He) as (s' & Q' & Hs' & Hk' & Hst & Ha).
    unfold runs. rewrite Hs'. exists L, Q'. split; [done|]. split; [done|]. rewrite Ha. lia.
Qed.

Lemma run_events_refine es : forall (s : sched (heap mm)) L Q room,
  kernel_inv s L Q -> allowed (Q, cur_proc s) room es -> room <= al_room (alloc s) ->
  runs (run_events es) s
    (fun _ s' => exists L' Q', kernel_inv s' L' Q' /\ asteps (Q, cur_proc s) es (Q', cur_proc s'))
    (fun msg _ => al_oom msg).
Proof.
  induction es as [|e es IH]; intros s L Q room Hk Hal Hroom; cbn [run_events allowed] in *.
  - apply runs_ret. exists L, Q. split; [done|constructor].
  - destruct Hal as (Hen & Hfit & Hnext).
    eapply runs_bind; [apply (kstep_runs s L Q e Hk Hen); lia|].
    cbn beta. intros _ s1 (L1 & Q1 & Hk1 & Hst & Hroom1).
    eapply runs_conseq; [apply (IH s1 L1 Q1 _ Hk1 (Hnext _ Hst)); lia| |done].
    intros _ s2 (L2 & Q2 & Hk2 & Hsts). exists L2, Q2. split; [done|]. by econstructor.
Qed.

Lemma start_threads_run (s : sched (heap mm)) qs k d : sched_inv s ∅ (no_threads qs) ->
  2 * THREAD_ROOM <= al_room (alloc s) ->
  runs (start_threads k d) s
    (fun _ s' => exists L x y, running s' L (<[avail_procs := [y; x]]> (no_threads qs)) [y; x] /\
       cur_proc s' = x /\ x <> y /\ al_room (alloc s) - 2 * THREAD_ROOM <= al_room (alloc s'))
    (fun msg _ => al_oom msg).
Proof.
  intros Hi Hroom.
  assert (0 <= THREAD_ROOM) as Hpos by (vm_compute; congruence). unfold THREAD_ROOM in *.
  assert (Hav : no_threads qs !! avail_procs = Some []).
  { apply lookup_gset_to_gmap_Some. split; [|done]. apply elem_of_list_to_set. left. }
  unfold start_threads.
  eapply runs_bind; [apply (create_runs _ ∅ _ [] k 0 Hi Hav); lia|].
  cbn beta. intros _ s1 (_ & L1 & x & c1 & f1 & _ & Hi1 & Hr1).
  eapply runs_bind; [apply (create_runs s1 L1 _ [x] d 0 Hi1 (lookup_insert_eq _ _ _)); lia|].
  cbn beta. intros _ s2 (_ & L2 & y & c2 & f2 & Hc2 & Hi2 & Hr2). rewrite insert_insert_eq in Hi2.
  pose proof (PROC_run_ret s2 L2 _ [x; y] Hi2 (lookup_insert_eq _ _ _)) as Hrun.
  destruct Hrun as (s3 & Hs3 & Hc3 & Hr3 & Ha3).
  { by apply (source_in_no_queue s2 L2 _ Hi2). }
  eapply runs_bind_ret; [exact Hs3|]. apply runs_ret. rewrite insert_insert_eq in Hr3.
  exists L2, x, y. split; [exact Hr3|]. split; [done|]. split.
  - intros ->. pose proof (si_queues _ _ _ (rd_inv _ _ _ _ (proj1 Hr3))) as Hrep.
    destruct (qr_cyc _ _ Hrep avail_procs _ (lookup_insert_eq _ _ _)) as [Hnd _].
    apply NoDup_cons in Hnd as [Hni _]. apply Hni. left.
  - rewrite Ha3. lia.
Qed.

(** The threads start and [es] follows. *)
Lemma kernel_runs (s : sched (heap mm)) qs k d es : sched_inv s ∅ (no_threads qs) -> al_room (alloc s) = HEAP_ROOM ->
  (forall x y, x <> y -> x <> source_proc -> y <> source_proc ->
     allowed (<[avail_procs := [y; x]]> (no_threads qs), x) (HEAP_ROOM - 2 * THREAD_ROOM) es) ->
  runs (start_threads k d ;; run_events es) s
    (fun _ s' => exists x y L' Q', kernel_inv s' L' Q' /\
       asteps (<[avail_procs := [y; x]]> (no_threads qs), x) es (Q', cur_proc s'))
    (fun msg _ => msg = "ALLOCATOR OUT OF MEMORY!!!"%string).
Proof.
  intros Hi Hroom Hal. eapply runs_bind; [apply (start_threads_run s qs k d Hi)|].
  { rewrite Hroom. vm_compute. congruence. }
  cbn beta. intros _ s1 (L & x & y & Hr & Hc & Hne & Hm).
  pose proof (source_in_no_queue s1 L _ (rd_inv _ _ _ _ (proj1 Hr))) as Hsrc.
  assert (Hin : forall z, z ∈ [y; x] -> z <> source_proc).
  { intros z Hz ->. apply Hsrc. eapply in_queue_lookup; [apply lookup_insert_eq|exact Hz]. }
  eapply runs_conseq; [apply (run_events_refine es s1 L _ (HEAP_ROOM - 2 * THREAD_ROOM) (running_kernel _ _ _ _ Hr))| |done].
  - rewrite Hc. apply Hal; [done|apply Hin; right; left|apply Hin; left].
  - rewrite Hroom in Hm. exact Hm.
  - intros _ s2 (L2 & Q2 & Hk2 & Hst). rewrite Hc in Hst. by exists x, y, L2, Q2.
Qed.

(** An empty heap owns nothing. *)
Lemma empty_owns (h : heap mm) : heap_inv h empty_ghost -> owns h ∅.
Proof. intros Hi. exists ∅. split; [|done]. exists empty_ghost, (mkAHeap ∅ ∅). by split; [apply shows_empty| | |]. Qed.

(** C4: the scheduler on the kernel heap, from the boot map on: with the heap of a
    booted kernel the two threads of [kmain] start, the keyboard's first, and whatever
    sequence of yields, blocking, waking, exits, new threads and turns of [kmain]'s
    loop follows does to the queues and the running thread what it does on the
    abstract machine: when no thread can run the source thread halts until interrupts
    wake one, which then runs. No block is used after it was freed, the stacks of
    finished threads can be freed, and only the lack of frames stops the machine. *)
Theorem kernel_threads_refine mems elfs rs fuel qs keyboard_io drive_init es :
  bootable mems elfs rs fuel ->
  (forall x y, x <> y -> x <> source_proc -> y <> source_proc ->
     allowed (<[avail_procs := [y; x]]> (no_threads qs), x) (HEAP_ROOM - 2 * THREAD_ROOM) es) ->
  exists h, boot_heap fuel (mkHeap [] (boot_mm rs)) = Ret tt h /\
    runs (start_threads keyboard_io drive_init ;; run_events es) (boot_sched qs h)
      (fun _ s' => exists x y L' Q', kernel_inv s' L' Q' /\
         asteps (<[avail_procs := [y; x]]> (no_threads qs), x) es (Q', cur_proc s'))
      (fun msg _ => msg = "ALLOCATOR OUT OF MEMORY!!!"%string).
Proof.
  intros Hboot Hal. destruct (boot_heap_ret mems elfs rs fuel Hboot) as (h & Hs & Hi & Hroom).
  exists h. split; [exact Hs|]. by apply kernel_runs; [by apply boot_sched_inv, empty_owns| |].
Qed.

End threads.

(** ** Witness *)

Import KernelHeap.Small.

(** The statics of the scheduler, and the disk's queue. *)
#[local] Instance low_statics : ProcStatics := {|
  avail_procs := 69632; source_proc := 69640; source_proc_ctx := 69664; kexit_addr := 66000; kernel_cs := 8;
  source_not_null := ltac:(done) |}.
#[local] Instance low_statics_low : StaticsLow.
Proof. split; apply Z.ltb_lt; vm_compute; reflexivity. Defined.
Definition disk_queue : Z := 69700.

(** The keyboard's thread yields, the disk's thread waits, the other exits; the halted
    machine is woken by the disk's interrupt, and the disk's thread runs and exits. *)
Definition two_threads : list kevent :=
  [KThread EYield; KThread (EBlock disk_queue true); KThread EExit; KTurn [disk_queue]; KThread EExit; KTurn []].

(** All of it, on 61 frames: the source thread runs in the end, no thread is left. *)
Example two_threads_run :
  match boot_heap 64 (mkHeap [] (boot_mm small_regions)) with
  | Ret _ h =>
      match (start_threads 4660 4661 ;; run_events two_threads) (boot_sched [disk_queue] h) with
      | Ret _ s => bool_decide (cur_proc s = source_proc) && bool_decide (heads (qs s) !! avail_procs = Some 0)
      | _ => false
      end
  | _ => false
  end = true.
Proof. vm_compute. reflexivity. Qed.

(** [cur] has one place in a queue. *)
Lemma split_at (l1 l2 : list Z) x y : x <> y -> [x; y] = l1 ++ y :: l2 -> l1 = [x] /\ l2 = [].
Proof. intros Hne. destruct l1 as [|a [|b [|]]]; intros [=]; simplify_eq; done. Qed.

Lemma split_one (l1 l2 : list Z) x : [x] = l1 ++ x :: l2 -> l1 = [] /\ l2 = [].
Proof. destruct l1 as [|a [|b l1]]; intros [=]; simplify_eq; done. Qed.

(** One event: it may be done, and what the abstract machine does next. *)
Ltac next_event :=
  cbn [allowed two_threads kenabled kroom event_room enabled fst snd];
  split; [split|split; [lia|]].
Ltac steps_to :=
  let H := fresh in intros ? H; inversion H; subst; clear H;
  try match goal with H : astep _ _ _ |- _ => inversion H; subst; clear H end; simplify_map_eq.

Lemma two_threads_allowed x y room : x <> y -> x <> source_proc -> y <> source_proc -> 0 <= room ->
  allowed (<[avail_procs := [y; x]]> (no_threads [disk_queue]), x) room two_threads.
Proof.
  intros Hne Hx Hy Hroom. assert (Hq : avail_procs <> disk_queue) by done.
  assert (Hd : no_threads [disk_queue] !! disk_queue = Some []) by reflexivity.
  next_event; [done|done|]. steps_to. change (rotate [y; x]) with [x; y].
  next_event; [done|intros; simplify_map_eq; split; [right; left|done]|]. steps_to.
  match goal with H : [_; _] = _ |- _ => destruct (split_at _ _ _ _ Hne H) as [-> ->]; clear H end.
  cbn [app hd]. change (rotate [x]) with [x].
  next_event; [done|intros; simplify_map_eq; left|]. steps_to.
  match goal with H : [_] = _ |- _ => destruct (split_one _ _ _ H) as [-> ->]; clear H end. cbn [app hd].
  next_event; [done|intros; eexists; eapply awake_cons; [done|by simplify_map_eq|by simplify_map_eq|constructor]|].
  steps_to.
  match goal with H : awake _ _ _ |- _ => inversion H; subst; clear H end.
  match goal with H : awake _ _ _ |- _ => inversion H; subst; clear H end. simplify_map_eq.
  unfold enter. rewrite lookup_insert_eq. cbn [app].
  match goal with |- context [rotate [?z]] => change (rotate [z]) with [z] end.
  next_event; [done|intros; simplify_map_eq; left|]. steps_to.
  match goal with H : [_] = _ |- _ => destruct (split_one _ _ _ H) as [-> ->]; clear H end. cbn [app hd].
  next_event; [done|intros; eexists; constructor|done].
Qed.

Lemma kernel_threads_refine_witness :
  exists h, boot_heap 64 (mkHeap [] (boot_mm small_regions)) = Ret tt h /\
    runs (start_threads 4660 4661 ;; run_events two_threads) (boot_sched [disk_queue] h)
      (fun _ s' => exists x y L' Q', kernel_inv s' L' Q' /\
         asteps (<[avail_procs := [y; x]]> (no_threads [disk_queue]), x) two_threads (Q', cur_proc s'))
      (fun msg _ => msg = "ALLOCATOR OUT OF MEMORY!!!"%string).
Proof.
  apply (kernel_threads_refine small_mems small_elfs small_regions 64 [disk_queue] 4660 4661 two_threads small_bootable).
  intros x y Hne Hx Hy. apply (two_threads_allowed x y _ Hne Hx Hy). vm_compute. congruence.
Defined.
