(* ===== verification/RingBuffer.v ===== *)
(** * RingBuffer: the 16-slot byte queue (src/src/ring_buffer.c)

    One slot always stays free, so the ring is a FIFO of at most 15 bytes. The
    second half of the file takes the consumer apart into its memory accesses and
    lets the producer, an interrupt handler, run between any two of them. *)

From S2P Require Import Prelude.

(** ** Data and operations *)

Definition BUFF_SIZE : Z := 16.

(** [consumer] and [producer] are pointers into [buff], here offsets from
    [&buff[0]]; [blocked] is the address of the queue, 0 for none. *)
Record RingBuffer := mkRing { buff : list Z; consumer : Z; producer : Z; blocked : Z }.

Definition set_buff b (r : RingBuffer) := mkRing b (consumer r) (producer r) (blocked r).
Definition set_consumer c (r : RingBuffer) := mkRing (buff r) c (producer r) (blocked r).
Definition set_producer p (r : RingBuffer) := mkRing (buff r) (consumer r) p (blocked r).

(** [queue] is what [kmalloc] returned for the queue of a blockable ring. *)
Definition ring_init (blockable : bool) (queue : Z) : M RingBuffer unit :=
  modify (fun r => mkRing (buff r) 0 0 (if blockable then queue else 0)).

(** [*state->consumer] and [*state->producer = c]: outside [buff] the access has
    no meaning. *)
Definition deref (i : Z) : M RingBuffer Z :=
  r ← gets id;
  match (if 0 <=? i then buff r !! Z.to_nat i else None) with
  | Some c => mret c
  | None => fault
  end.
Definition poke (i c : Z) : M RingBuffer unit :=
  r ← gets id;
  if (0 <=? i) && (i <? Z.of_nat (length (buff r)))
  then modify (set_buff (<[Z.to_nat i := c]> (buff r))) else fault.

(** [if (p >= &buff[BUFF_SIZE]) p = &buff[0]]. *)
Definition wrap_ptr (p : Z) : Z := if p >=? BUFF_SIZE then 0 else p.

Definition take_char : M RingBuffer Z :=
  r ← gets id;
  c ← deref (consumer r);
  modify (set_consumer (consumer r + 1)) ;;
  modify (fun r => set_consumer (wrap_ptr (consumer r)) r) ;;
  mret c.

Definition ring_consumer_next : M RingBuffer (option Z) :=
  r ← gets id;
  if consumer r =? producer r then mret None
  else c ← take_char; mret (Some c).

Definition is_full (r : RingBuffer) : bool :=
  (producer r =? consumer r - 1) ||
  ((consumer r =? 0) && (producer r =? BUFF_SIZE - 1)).

Definition ring_producer_add_char (to_add : Z) : M RingBuffer bool :=
  r ← gets id;
  if is_full r then mret false
  else
    poke (producer r) to_add ;;
    modify (set_producer (producer r + 1)) ;;
    modify (fun r => set_producer (wrap_ptr (producer r)) r) ;;
    mret true.

(** [ring_consumer_block_next]: [PROC_block_on] comes back when a producer has
    unblocked the queue; [wakes] is what the producers did until each such wake. *)
Fixpoint ring_consumer_block_next (wakes : list (M RingBuffer unit)) : M RingBuffer Z :=
  r ← gets id;
  if consumer r =? producer r then
    match wakes with
    | [] => no_fuel
    | wake :: wakes => wake ;; ring_consumer_block_next wakes
    end
  else take_char.

(** ** The ring as a FIFO *)

(** [q] is in the ring, oldest byte first. *)
Record ring_rep (r : RingBuffer) (q : list Z) : Prop := {
  rr_size : length (buff r) = 16%nat;
  rr_consumer : 0 <= consumer r < 16;
  rr_short : (length q <= 15)%nat;
  rr_producer : producer r = (consumer r + Z.of_nat (length q)) mod 16;
  rr_bytes : forall i c, q !! i = Some c ->
    buff r !! Z.to_nat ((consumer r + Z.of_nat i) mod 16) = Some c }.

Lemma wrap_ptr_mod p : 0 <= p <= 16 -> wrap_ptr p = p mod 16.
Proof. unfold wrap_ptr, BUFF_SIZE. intros. rewrite Z.geb_leb. zcases; zdm. Qed.

Lemma rep_empty r q : ring_rep r q -> (consumer r =? producer r) = bool_decide (q = []).
Proof.
  intros [_ Hc Hs -> _]. destruct q as [|a q].
  - rewrite bool_decide_true by done. cbn. apply Z.eqb_eq. rewrite Z.add_0_r. symmetry. by apply Z.mod_small.
  - rewrite bool_decide_false by done. apply Z.eqb_neq. cbn [length] in *.
    intros E. Z.div_mod_to_equations. lia.
Qed.

Lemma rep_full r q : ring_rep r q -> is_full r = bool_decide (length q = 15%nat).
Proof.
  intros [_ Hc Hs Hp _]. unfold is_full, BUFF_SIZE.
  destruct (decide (length q = 15%nat)) as [E|E].
  - rewrite bool_decide_true by done. rewrite E in Hp. apply orb_true_iff.
    destruct (decide (consumer r = 0)) as [Ec|Ec]; [right|left].
    + rewrite Ec in *. cbn in Hp. by rewrite Hp.
    + apply Z.eqb_eq. rewrite Hp. zdm.
  - rewrite bool_decide_false by done. apply orb_false_iff. split; [|apply andb_false_iff].
    + apply Z.eqb_neq. rewrite Hp. intros E2. Z.div_mod_to_equations. lia.
    + destruct (Z.eqb_spec (consumer r) 0) as [Ec|Ec]; [right|by left].
      rewrite Ec in Hp. apply Z.eqb_neq. rewrite Hp. intros E2. Z.div_mod_to_equations. lia.
Qed.

Lemma take_char_ret r c q : ring_rep r (c :: q) ->
  exists r', take_char r = Ret c r' /\ ring_rep r' q /\ blocked r' = blocked r /\ producer r' = producer r.
Proof.
  intros [Hsz Hc Hs Hp Hb]. unfold take_char. mstep. cbn [id].
  assert (Hd : deref (consumer r) r = Ret c r).
  { unfold deref. mstep. cbn [id]. rewrite (proj2 (Z.leb_le _ _)) by lia.
    pose proof (Hb 0%nat c eq_refl) as E. rewrite Z.add_0_r, Z.mod_small in E by lia. by rewrite E. }
  rewrite (bind_ret _ _ _ _ _ Hd). mstep. eexists. split; [done|]. split; [|done]. cbn [length] in *.
  cbn [set_consumer consumer]. split; cbn [buff consumer producer set_consumer].
  - done.
  - rewrite wrap_ptr_mod by lia. apply Z.mod_pos_bound. lia.
  - lia.
  - rewrite Hp, wrap_ptr_mod by lia. rewrite Zplus_mod_idemp_l. f_equal. lia.
  - intros i d Hi. rewrite wrap_ptr_mod by lia. rewrite Zplus_mod_idemp_l.
    rewrite <- (Hb (S i) d Hi). do 3 f_equal. lia.
Qed.

Lemma add_char_ret r q c : ring_rep r q -> (length q < 15)%nat ->
  exists r', ring_producer_add_char c r = Ret true r' /\ ring_rep r' (q ++ [c]) /\
    blocked r' = blocked r /\ consumer r' = consumer r.
Proof.
  intros Hr Hlt. pose proof (rep_full r q Hr) as Hf. rewrite bool_decide_false in Hf by lia.
  destruct Hr as [Hsz Hc Hs Hp Hb]. unfold ring_producer_add_char. mstep. cbn [id]. rewrite Hf.
  assert (Hpr : 0 <= producer r < 16) by (rewrite Hp; apply Z.mod_pos_bound; lia).
  assert (Hk : poke (producer r) c r = Ret tt (set_buff (<[Z.to_nat (producer r) := c]> (buff r)) r)).
  { unfold poke. mstep. cbn [id]. rewrite (proj2 (Z.leb_le _ _)), (proj2 (Z.ltb_lt _ _)) by lia. done. }
  rewrite (bind_ret _ _ _ _ _ Hk). mstep. eexists. split; [done|]. split; [|done].
  cbn [set_producer set_buff producer]. split; cbn [buff consumer producer set_producer set_buff].
  - by rewrite length_insert.
  - done.
  - rewrite length_app. cbn. lia.
  - rewrite wrap_ptr_mod by lia. rewrite Hp, Zplus_mod_idemp_l, length_app. cbn [length]. f_equal. lia.
  - intros i d Hi. destruct (decide (i = length q)) as [->|Hne].
    + rewrite lookup_app_r in Hi by lia. rewrite Nat.sub_diag in Hi. injection Hi as <-.
      rewrite <- Hp. apply list_lookup_insert_eq. lia.
    + assert (i < length q)%nat by (apply lookup_lt_Some in Hi; rewrite length_app in Hi; cbn in Hi; lia).
      rewrite lookup_app_l in Hi by lia. rewrite list_lookup_insert_ne; [by apply Hb|].
      rewrite Hp. intros E. apply Z2Nat.inj in E; [|apply Z.mod_pos_bound; lia..].
      Z.div_mod_to_equations. lia.
Qed.

(** *** Sequences of operations *)

Inductive ring_op := Add (c : Z) | Next.
Inductive ring_result := Added (b : bool) | Got (c : option Z).

Definition run_op (o : ring_op) : M RingBuffer ring_result :=
  match o with
  | Add c => b ← ring_producer_add_char c; mret (Added b)
  | Next => c ← ring_consumer_next; mret (Got c)
  end.
Fixpoint run_ops (os : list ring_op) : M RingBuffer (list ring_result) :=
  match os with
  | [] => mret []
  | o :: os => x ← run_op o; xs ← run_ops os; mret (x :: xs)
  end.

(** The specification: a queue of at most 15 bytes. *)
Definition fifo_op (o : ring_op) (q : list Z) : ring_result * list Z :=
  match o, q with
  | Add c, _ => if (length q <? 15)%nat then (Added true, q ++ [c]) else (Added false, q)
  | Next, [] => (Got None, [])
  | Next, c :: q => (Got (Some c), q)
  end.
Fixpoint fifo_ops (os : list ring_op) (q : list Z) : list ring_result * list Z :=
  match os with
  | [] => ([], q)
  | o :: os => let (x, q) := fifo_op o q in let (xs, q) := fifo_ops os q in (x :: xs, q)
  end.

Lemma ring_add_spec r q c : ring_rep r q ->
  exists r', ring_producer_add_char c r = Ret (length q <? 15)%nat r' /\
    ring_rep r' (if (length q <? 15)%nat then q ++ [c] else q) /\ blocked r' = blocked r.
Proof.
  intros Hr. destruct (Nat.ltb_spec (length q) 15) as [Hlt|Hge].
  - destruct (add_char_ret r q c Hr Hlt) as (r' & E & Hr' & Hb & _). by exists r'.
  - exists r. split; [|done]. unfold ring_producer_add_char. mstep. cbn [id].
    pose proof (rr_short _ _ Hr). by rewrite (rep_full r q Hr), bool_decide_true by lia.
Qed.

Lemma ring_next_spec r q : ring_rep r q ->
  exists r', ring_consumer_next r = Ret (head q) r' /\ ring_rep r' (tail q) /\ blocked r' = blocked r.
Proof.
  intros Hr. unfold ring_consumer_next. destruct q as [|c q]; cbn [head tail].
  - exists r. split; [|done]. mstep. cbn [id]. by rewrite (rep_empty r _ Hr).
  - destruct (take_char_ret r c q Hr) as (r' & E & Hr' & Hb & _). exists r'. split; [|done]. mstep. cbn [id].
    rewrite (rep_empty r _ Hr), bool_decide_false by done. by rewrite (bind_ret _ _ _ _ _ E).
Qed.

Lemma run_op_refines r q o : ring_rep r q ->
  exists r', run_op o r = Ret (fifo_op o q).1 r' /\ ring_rep r' (fifo_op o q).2 /\ blocked r' = blocked r.
Proof.
  intros Hr. destruct o as [c|]; cbn [run_op fifo_op].
  - destruct (ring_add_spec r q c Hr) as (r' & E & Hr' & Hb). exists r'.
    rewrite (bind_ret _ _ _ _ _ E). by destruct (length q <? 15)%nat.
  - destruct (ring_next_spec r q Hr) as (r' & E & Hr' & Hb). exists r'.
    rewrite (bind_ret _ _ _ _ _ E). by destruct q.
Qed.

(** C22: on a ring that holds [q], any sequence of adds and takes returns what a
    bounded FIFO starting with [q] returns - bytes in order, none lost, none twice,
    an add refused exactly when 15 bytes are waiting - and never leaves [buff]. *)
Theorem ring_is_fifo os r q :
  ring_rep r q ->
  exists r', run_ops os r = Ret (fifo_ops os q).1 r' /\ ring_rep r' (fifo_ops os q).2.
Proof.
  revert r q. induction os as [|o os IH]; intros r q Hr; cbn [run_ops fifo_ops]; [by exists r|].
  destruct (run_op_refines r q o Hr) as (r1 & E & Hr1 & _). rewrite (bind_ret _ _ _ _ _ E).
  destruct (fifo_op o q) as [x q1]. cbn [fst snd] in *. destruct (IH r1 q1 Hr1) as (r2 & E2 & Hr2).
  rewrite (bind_ret _ _ _ _ _ E2). exists r2. destruct (fifo_ops os q1) as [xs q2]. done.
Qed.

(** A fresh ring is the empty queue. *)
Lemma ring_init_rep b queue r : length (buff r) = 16%nat ->
  exists r', ring_init b queue r = Ret tt r' /\ ring_rep r' [] /\ blocked r' = if b then queue else 0.
Proof. intros H. eexists. split; [done|]. split; [|done]. split; cbn; try done; lia. Qed.

Definition zero_ring : RingBuffer := mkRing (repeat 0 16) 0 0 0.

Lemma zero_ring_rep : ring_rep zero_ring [].
Proof. split; cbn; try done; lia. Qed.

Lemma ring_is_fifo_witness :
  exists r', run_ops [Add 7; Add 8; Next; Next; Next] zero_ring =
    Ret [Added true; Added true; Got (Some 7); Got (Some 8); Got None] r' /\ ring_rep r' [].
Proof. exact (ring_is_fifo [Add 7; Add 8; Next; Next; Next] zero_ring [] zero_ring_rep). Defined.

(** *** Blocking *)

(** The blocking consumer returns the oldest byte as soon as there is one:
    woken any number of times in vain, then by producers that put [c] first, it
    returns [c] and leaves the rest; nothing is read from an empty ring. *)
Theorem block_next_returns vain wake wakes r c q :
  ring_rep r [] ->
  Forall (fun w => forall r, ring_rep r [] -> exists r', w r = Ret tt r' /\ ring_rep r' []) vain ->
  (forall r, ring_rep r [] -> exists r', wake r = Ret tt r' /\ ring_rep r' (c :: q)) ->
  exists r', ring_consumer_block_next (vain ++ wake :: wakes) r = Ret c r' /\ ring_rep r' q.
Proof.
  intros Hr Hvain Hwake. revert r Hr. induction Hvain as [|w vain Hw Hvain IH]; intros r Hr;
    cbn [app ring_consumer_block_next]; mstep; cbn [id];
    rewrite (rep_empty r _ Hr), bool_decide_true by done.
  - destruct (Hwake r Hr) as (r1 & E & Hr1). rewrite (bind_ret _ _ _ _ _ E).
    assert (E2 : ring_consumer_block_next wakes r1 = take_char r1).
    { destruct wakes; cbn [ring_consumer_block_next]; mstep; cbn [id];
        by rewrite (rep_empty r1 _ Hr1), bool_decide_false. }
    rewrite E2. destruct (take_char_ret r1 c q Hr1) as (r2 & E3 & Hr2 & _). by exists r2.
  - destruct (Hw r Hr) as (r1 & E & Hr1). rewrite (bind_ret _ _ _ _ _ E). by apply IH.
Qed.

Definition add_all (cs : list Z) : M RingBuffer unit :=
  _ ← run_ops (Add <$> cs); mret tt.

Lemma block_next_returns_witness :
  exists r', ring_consumer_block_next ([mret tt] ++ add_all [65; 66] :: []) zero_ring = Ret 65 r' /\ ring_rep r' [66].
Proof.
  apply (block_next_returns [mret tt] (add_all [65; 66]) [] zero_ring 65 [66] zero_ring_rep).
  - constructor; [|constructor]. intros r Hr. exists r. done.
  - intros r Hr. destruct (run_op_refines r [] (Add 65) Hr) as (r1 & E1 & Hr1 & _).
    destruct (run_op_refines r1 [65] (Add 66) Hr1) as (r2 & E2 & Hr2 & _).
    exists r2. split; [|exact Hr2]. unfold add_all. cbn [run_ops fmap list_fmap].
    unfold mbind, M_bind. by rewrite E1, E2.
Defined.

(** ** Interrupts between the consumer's accesses

    [ring_consumer_next] runs with interrupts enabled in its caller: the producer,
    in an interrupt handler and so in one piece, can come between its test, its
    read, its increment and its wrap-around. *)

Inductive cpc :=
| C_idle
| C_checked                (* the ring was not empty *)
| C_read (c : Z)           (* the byte is read *)
| C_moved (c : Z).         (* the pointer is incremented, not yet wrapped *)

Record conc := mkConc { ring : RingBuffer; pc : cpc; produced : list Z; consumed : list Z }.

Inductive istep : conc -> conc -> Prop :=
| i_check r ps cs : (consumer r =? producer r) = false ->
    istep (mkConc r C_idle ps cs) (mkConc r C_checked ps cs)
| i_read r ps cs c : deref (consumer r) r = Ret c r ->
    istep (mkConc r C_checked ps cs) (mkConc r (C_read c) ps cs)
| i_move r ps cs c :
    istep (mkConc r (C_read c) ps cs) (mkConc (set_consumer (consumer r + 1) r) (C_moved c) ps cs)
| i_wrap r ps cs c :
    istep (mkConc r (C_moved c) ps cs)
          (mkConc (set_consumer (wrap_ptr (consumer r)) r) C_idle ps (cs ++ [c]))
| i_interrupt r k ps cs c b r' : ring_producer_add_char c r = Ret b r' ->
    istep (mkConc r k ps cs) (mkConc r' k (if b then ps ++ [c] else ps) cs).

(** The ring as it is once the pending wrap-around is done. *)
Definition settle (r : RingBuffer) : RingBuffer := set_consumer (wrap_ptr (consumer r)) r.

(** What is in the ring and not yet returned. *)
Definition conc_inv (s : conc) : Prop := exists q,
  match pc s with
  | C_idle => ring_rep (ring s) q /\ produced s = consumed s ++ q
  | C_checked => ring_rep (ring s) q /\ q <> [] /\ produced s = consumed s ++ q
  | C_read c => ring_rep (ring s) (c :: q) /\ produced s = consumed s ++ c :: q
  | C_moved c => ring_rep (settle (ring s)) q /\ 1 <= consumer (ring s) <= 16 /\
      produced s = consumed s ++ c :: q
  end.

Lemma settle_rep r q : ring_rep r q -> settle r = r.
Proof.
  intros Hr. pose proof (rr_consumer _ _ Hr). destruct r as [b c p k]. unfold settle, set_consumer. cbn in *.
  by rewrite wrap_ptr_mod, Z.mod_small by lia.
Qed.

Lemma settle_full r : 0 <= consumer r <= 16 -> 0 <= producer r < 16 -> is_full (settle r) = is_full r.
Proof.
  intros Hc Hp. unfold is_full, settle. cbn. rewrite wrap_ptr_mod by lia. unfold BUFF_SIZE.
  destruct (decide (consumer r = 16)) as [->|Hne].
  - change (16 mod 16) with 0. zcases; cbn; lia || done.
  - by rewrite Z.mod_small by lia.
Qed.

(** The producer sees no difference. *)
Lemma settle_add c r b r' q : ring_rep (settle r) q -> 0 <= consumer r <= 16 ->
  ring_producer_add_char c r = Ret b r' ->
  ring_rep (settle r') (if b then q ++ [c] else q) /\ consumer r' = consumer r.
Proof.
  intros Hr Hc Hadd. pose proof (rr_producer _ _ Hr) as Hp. cbn in Hp.
  assert (Hpr : 0 <= producer r < 16) by (rewrite Hp; apply Z.mod_pos_bound; lia).
  pose proof (settle_full r Hc Hpr) as Hf. pose proof (rep_full _ _ Hr) as Hq.
  unfold ring_producer_add_char in Hadd. mstep. cbn [id] in Hadd. rewrite bind_gets in Hadd. cbn [id] in Hadd.
  destruct (is_full r) eqn:E.
  - injection Hadd as <- <-. done.
  - rewrite Hq in Hf. apply bool_decide_eq_false in Hf. pose proof (rr_short _ _ Hr).
    destruct (add_char_ret (settle r) q c Hr ltac:(lia)) as (r2 & E2 & Hr2 & _).
    unfold ring_producer_add_char in E2. rewrite bind_gets in E2. cbn [id] in E2.
    rewrite Hq, bool_decide_false in E2 by done.
    apply bind_Ret_inv in Hadd as ([] & r1 & Hpk & Hadd). rewrite !bind_modify in Hadd.
    injection Hadd as <- <-.
    apply bind_Ret_inv in E2 as ([] & r1' & Hpk' & E2). rewrite !bind_modify in E2. injection E2 as <-.
    unfold poke in *. rewrite bind_gets in *. cbn [id settle set_consumer buff producer] in *.
    destruct ((0 <=? producer r) && (producer r <? Z.of_nat (length (buff r)))); [|done].
    injection Hpk as <-. injection Hpk' as <-. done.
Qed.

Lemma produced_snoc (b : bool) (c : Z) ps cs x : ps = cs ++ x ->
  (if b then ps ++ [c] else ps) = cs ++ (if b then x ++ [c] else x).
Proof. intros ->. destruct b; [|done]. by rewrite app_assoc. Qed.

(** With the consumer between operations, an interrupt is an ordinary add. *)
Lemma interrupt_rep c r b r' q : ring_rep r q -> ring_producer_add_char c r = Ret b r' ->
  ring_rep r' (if b then q ++ [c] else q).
Proof.
  intros Hr E. pose proof (rr_consumer _ _ Hr) as Hc. pose proof Hr as Hs.
  rewrite <- (settle_rep _ _ Hr) in Hs. destruct (settle_add c r b r' q Hs ltac:(lia) E) as [Hr' Hc'].
  unfold settle in Hr'. destruct r' as [bf cn pr bl]. unfold set_consumer in Hr'. cbn in *.
  by rewrite wrap_ptr_mod, Z.mod_small in Hr' by lia.
Qed.

Lemma istep_inv s s' : istep s s' -> conc_inv s -> conc_inv s'.
Proof.
  intros Hs [q Hi]. destruct Hs as [r ps cs E|r ps cs c E|r ps cs c|r ps cs c|r k ps cs c b r' E];
    cbn [pc ring produced consumed] in Hi.
  - destruct Hi as [Hr Hp]. exists q. rewrite (rep_empty _ _ Hr) in E. by apply bool_decide_eq_false in E.
  - destruct Hi as (Hr & Hne & Hp). destruct q as [|d q]; [done|]. exists q. cbn in Hr, Hp.
    destruct (take_char_ret r d q Hr) as (r' & E2 & _). unfold take_char in E2. rewrite bind_gets in E2.
    cbn [id] in E2. rewrite (bind_ret _ _ _ _ _ E) in E2. rewrite !bind_modify in E2. injection E2 as -> _. done.
  - destruct Hi as [Hr Hp]. exists q. cbn in Hr. pose proof (rr_consumer _ _ Hr).
    destruct (take_char_ret r c q Hr) as (r' & E2 & Hr' & _). unfold take_char in E2. rewrite bind_gets in E2.
    cbn [id] in E2. apply bind_Ret_inv in E2 as (d & r1 & Ed & E2). rewrite !bind_modify in E2.
    assert (r1 = r) as ->.
    { unfold deref in Ed. rewrite bind_gets in Ed. cbn [id] in Ed.
      destruct (if 0 <=? consumer r then _ else _); [by injection Ed|done]. }
    injection E2 as _ <-. split; [exact Hr'|]. split; [cbn; lia|done].
  - destruct Hi as (Hr & _ & Hp). exists q. split; [exact Hr|]. cbn in *. by rewrite Hp, <- app_assoc.
  - exists (if b then q ++ [c] else q). destruct k; cbn [pc ring produced consumed conc_inv] in *.
    + destruct Hi as [Hr Hp]. split; [by eapply interrupt_rep|by apply produced_snoc].
    + destruct Hi as (Hr & Hne & Hp). split; [by eapply interrupt_rep|].
      split; [by destruct b, q|by apply produced_snoc].
    + destruct Hi as [Hr Hp]. pose proof (interrupt_rep c r b r' _ Hr E) as Hr'.
      pose proof (produced_snoc b c ps cs _ Hp) as Hp'. by destruct b.
    + destruct Hi as (Hr & Hc & Hp). destruct (settle_add c r b r' q Hr ltac:(lia) E) as [Hr' Hc'].
      split; [done|]. split; [by rewrite Hc'|].
      pose proof (produced_snoc b c ps cs _ Hp) as Hp'. by destruct b.
Qed.

Lemma isteps_inv s s' : rtc istep s s' -> conc_inv s -> conc_inv s'.
Proof. induction 1; [done|]. eauto using istep_inv. Qed.

Definition start_conc (r : RingBuffer) : conc := mkConc r C_idle [] [].

(** C21: let interrupts add bytes between any two accesses of the consumer: what it
    has returned is always a prefix of what was accepted, at most 15 accepted bytes
    plus the one in its hand are outstanding, and it can always go on: its read is
    inside [buff] and so is every write of the producer. *)
Theorem ring_interrupt_safe r s :
  ring_rep r [] -> rtc istep (start_conc r) s ->
  consumed s `prefix_of` produced s /\ (length (produced s) <= length (consumed s) + 16)%nat /\
  (pc s = C_checked -> exists c, deref (consumer (ring s)) (ring s) = Ret c (ring s)) /\
  forall c, exists b r', ring_producer_add_char c (ring s) = Ret b r'.
Proof.
  intros Hr Hs. apply isteps_inv in Hs; [|by exists []]. destruct Hs as [q Hi].
  assert (Hadd : forall r q, ring_rep (settle r) q -> 0 <= consumer r <= 16 -> forall c, exists b r',
    ring_producer_add_char c r = Ret b r').
  { clear. intros r q Hr Hc c. pose proof (rr_producer _ _ Hr) as Hp. cbn in Hp.
    assert (Hpr : 0 <= producer r < 16) by (rewrite Hp; apply Z.mod_pos_bound; lia).
    pose proof (rr_size _ _ Hr) as Hsz. cbn in Hsz.
    unfold ring_producer_add_char. rewrite bind_gets. cbn [id].
    destruct (is_full r); [by eexists _, _|]. unfold poke. rewrite <- bind_assoc, bind_gets. cbn [id].
    rewrite (proj2 (Z.leb_le _ _)), (proj2 (Z.ltb_lt _ _)) by lia. cbn [andb]. rewrite bind_modify. by eexists _, _. }
  assert (Hcase : exists q', produced s = consumed s ++ q' /\ (length q' <= 16)%nat).
  { destruct (pc s).
    - destruct Hi as [Hq Hp]. exists q. pose proof (rr_short _ _ Hq). split; [done|lia].
    - destruct Hi as (Hq & _ & Hp). exists q. pose proof (rr_short _ _ Hq). split; [done|lia].
    - destruct Hi as [Hq Hp]. exists (c :: q). pose proof (rr_short _ _ Hq). split; [done|lia].
    - destruct Hi as (Hq & _ & Hp). exists (c :: q). pose proof (rr_short _ _ Hq). split; [done|cbn; lia]. }
  destruct Hcase as (q' & Hp & Hlen). split; [by exists q'|]. split; [rewrite Hp, length_app; lia|].
  split.
  - intros E. rewrite E in Hi. destruct Hi as (Hq & Hne & _). destruct q as [|c q]; [done|].
    destruct (take_char_ret _ c q Hq) as (r2 & E2 & _). unfold take_char in E2. rewrite bind_gets in E2.
    cbn [id] in E2. apply bind_Ret_inv in E2 as (d & r1 & Ed & E2). exists d.
    assert (r1 = ring s) as ->; [|done]. unfold deref in Ed. rewrite bind_gets in Ed. cbn [id] in Ed.
    destruct (if 0 <=? consumer (ring s) then _ else _); [by injection Ed|done].
  - assert (Hsettle : exists q, ring_rep (settle (ring s)) q /\ 0 <= consumer (ring s) <= 16).
    { destruct (pc s).
      - destruct Hi as [Hq _]. exists q. rewrite (settle_rep _ _ Hq). pose proof (rr_consumer _ _ Hq). split; [done|lia].
      - destruct Hi as [Hq _]. exists q. rewrite (settle_rep _ _ Hq). pose proof (rr_consumer _ _ Hq). split; [done|lia].
      - destruct Hi as [Hq _]. exists (c :: q). rewrite (settle_rep _ _ Hq). pose proof (rr_consumer _ _ Hq). split; [done|lia].
      - destruct Hi as (Hq & Hc & _). exists q. split; [done|lia]. }
    destruct Hsettle as (q2 & Hq2 & Hc). by apply (Hadd _ q2).
Qed.

(** An interrupt between the increment and the wrap-around. *)
Lemma ring_interrupt_safe_witness : exists s,
  rtc istep (start_conc zero_ring) s /\ consumed s = [7] /\ produced s = [7; 8] /\
  consumed s `prefix_of` produced s.
Proof.
  assert (Hrun : exists s, rtc istep (start_conc zero_ring) s /\ consumed s = [7] /\ produced s = [7; 8]).
  { eexists. split.
    - eapply rtc_l; [by eapply (i_interrupt _ _ _ _ 7)|]. eapply rtc_l; [by apply i_check|].
      eapply rtc_l; [by eapply i_read|]. eapply rtc_l; [apply i_move|].
      eapply rtc_l; [by eapply (i_interrupt _ _ _ _ 8)|]. eapply rtc_l; [apply i_wrap|]. apply rtc_refl.
    - done. }
  destruct Hrun as (s & Hs & Hc & Hp). exists s. split; [done|]. split; [done|]. split; [done|].
  apply (ring_interrupt_safe zero_ring s zero_ring_rep Hs).
Defined.
