(* ===== verification/Ports.v ===== *)
(** * Ports: port input and output (src/include/portio.h)

    The hardware behind the ports is not part of the program: it is a function that
    answers a read from a port, given every access made so far. The state is that
    history, oldest access first. *)

From S2P Require Import Prelude.

Inductive io :=
| Inb (port value : Z)
| Outb (port value : Z)
| Inw (port value : Z)
| Outw (port value : Z).

(** What a read from [port] gives after the accesses [tr]. *)
Class Hardware := hw : list io -> Z -> Z.

Section ports.
Context `{Hardware}.

Definition inb (port : Z) : M (list io) Z :=
  fun tr => let v := u8 (hw tr port) in Ret v (tr ++ [Inb port v]).
Definition inw (port : Z) : M (list io) Z :=
  fun tr => let v := u16 (hw tr port) in Ret v (tr ++ [Inw port v]).
Definition outb (port value : Z) : M (list io) unit :=
  modify (fun tr => tr ++ [Outb port (u8 value)]).
Definition outw (port value : Z) : M (list io) unit :=
  modify (fun tr => tr ++ [Outw port (u16 value)]).

(** A sequence of byte writes. *)
Fixpoint outbs (l : list (Z * Z)) : M (list io) unit :=
  match l with
  | [] => mret tt
  | (p, v) :: l => outb p v ;; outbs l
  end.
Definition out_events (l : list (Z * Z)) : list io := (fun '(p, v) => Outb p (u8 v)) <$> l.

Lemma outbs_ret l tr : outbs l tr = Ret tt (tr ++ out_events l).
Proof.
  revert tr. induction l as [|[p v] l IH]; intros tr; cbn [outbs out_events fmap list_fmap].
  - by rewrite app_nil_r.
  - unfold outb. rewrite bind_modify, IH. by rewrite <- app_assoc.
Qed.

(** [while (test(status)) status = inb(port)]. *)
Fixpoint poll (fuel : nat) (test : Z -> bool) (port status : Z) : M (list io) Z :=
  if test status then
    match fuel with O => no_fuel | S fuel => status ← inb port; poll fuel test port status end
  else mret status.

(** How many of the last accesses in a row were reads of [port]. *)
Definition looks (port : Z) (tr : list io) : nat :=
  fold_left (fun n e => match e with Inb p _ => if p =? port then S n else O | _ => O end) tr O.
Lemma looks_snoc port v tr : looks port (tr ++ [Inb port v]) = S (looks port tr).
Proof. unfold looks. rewrite fold_left_app. cbn. by rewrite Z.eqb_refl. Qed.

Definition reads_only (port : Z) (tr : list io) : Prop := Forall (fun e => exists v, e = Inb port v) tr.

(** Polling ends when the register answers after [patience] looks. [status] is the
    last one so far. *)
Lemma poll_ret test port patience fuel : forall status tr,
  (forall tr, (patience <= looks port tr)%nat -> test (u8 (hw tr port)) = false) ->
  ((patience < looks port tr)%nat -> test status = false) -> (patience < looks port tr + fuel)%nat ->
  exists status' tr', poll fuel test port status tr = Ret status' (tr ++ tr') /\ test status' = false /\ reads_only port tr'.
Proof.
  induction fuel as [|fuel IH]; intros status tr Hp Hs Hf; cbn [poll]; (destruct (test status) eqn:Et;
    [|exists status, []; rewrite app_nil_r; split; [done|]; split; [done|constructor]]).
  { discriminate Hs. lia. }
  set (v := u8 (hw tr port)). set (tr1 := tr ++ [Inb port v]).
  assert (Hin : inb port tr = Ret v tr1) by done. rewrite (bind_ret _ _ _ _ _ Hin).
  assert (Hl : looks port tr1 = S (looks port tr)) by apply looks_snoc.
  destruct (IH v tr1 Hp) as (v' & tr' & E & Hv' & Hr); [intros Hlt; apply Hp; lia|lia|].
  exists v', (Inb port v :: tr'). split; [|split; [done|by constructor; [exists v|]]].
  rewrite E. subst tr1. by rewrite <- app_assoc.
Qed.

(** The byte last written to [port], [d] if none was. *)
Definition last_out (port d : Z) (tr : list io) : Z :=
  fold_left (fun d e => match e with Outb p v => if p =? port then v else d | _ => d end) tr d.

Lemma last_out_app port d tr tr' : last_out port d (tr ++ tr') = last_out port (last_out port d tr) tr'.
Proof. apply fold_left_app. Qed.

End ports.
