(* ===== verification/Interrupts.v ===== *)
(** * Interrupts: descriptor tables, interrupt controller and dispatch
    (src/src/gdt.c, src/src/interrupts.c, src/include/interrupts.h)

    Descriptors are words of 64 or 128 bits whose bit fields are read and assigned
    with [get_bits] and [set_bits]. The addresses of static objects and of the
    interrupt stubs come from the linker and are parameters; so is what the code of
    an interrupt handler does. *)

From S2P Require Import Prelude Ports.

(** ** State *)

(** [struct Gdtr] and [struct Idtr]. *)
Record TableReg := mkReg { limit : Z; base : Z }.
(** [struct IRQTableEntry]. *)
Record IRQTableEntry := mkEntry { arg : Z; handler : Z }.
Record TaskStateSegment := mkTss {
  privilege_stack_table : list Z; interrupt_stack_table : list Z; io_map_base_addr : Z }.

(** The statics of the two files, the registers the processor was loaded with, the
    interrupt flag, the ports, what was printed, and the rest of the kernel. *)
Record irq_state (W : Type) := mkIrq {
  table : list Z; top : Z; kernel_desc_offset : Z;
  idt : list Z; irq_table : list IRQTableEntry; tss : TaskStateSegment;
  cpu_gdtr : TableReg; cpu_idtr : TableReg; cpu_tr : Z;
  ints : bool; ports : list io; printed : list (string * list Z); world : W }.
Arguments mkIrq {W}. Arguments table {W}. Arguments top {W}. Arguments kernel_desc_offset {W}.
Arguments idt {W}. Arguments irq_table {W}. Arguments tss {W}. Arguments cpu_gdtr {W}.
Arguments cpu_idtr {W}. Arguments cpu_tr {W}. Arguments ints {W}. Arguments ports {W}.
Arguments printed {W}. Arguments world {W}.

Section setters.
Context {W : Type}.
Implicit Types (s : irq_state W).
Definition set_table t n s := mkIrq t n (kernel_desc_offset s) (idt s) (irq_table s) (tss s)
  (cpu_gdtr s) (cpu_idtr s) (cpu_tr s) (ints s) (ports s) (printed s) (world s).
Definition set_kernel_desc o s := mkIrq (table s) (top s) o (idt s) (irq_table s) (tss s)
  (cpu_gdtr s) (cpu_idtr s) (cpu_tr s) (ints s) (ports s) (printed s) (world s).
Definition set_idt i s := mkIrq (table s) (top s) (kernel_desc_offset s) i (irq_table s) (tss s)
  (cpu_gdtr s) (cpu_idtr s) (cpu_tr s) (ints s) (ports s) (printed s) (world s).
Definition set_irq_table i s := mkIrq (table s) (top s) (kernel_desc_offset s) (idt s) i (tss s)
  (cpu_gdtr s) (cpu_idtr s) (cpu_tr s) (ints s) (ports s) (printed s) (world s).
Definition set_tss t s := mkIrq (table s) (top s) (kernel_desc_offset s) (idt s) (irq_table s) t
  (cpu_gdtr s) (cpu_idtr s) (cpu_tr s) (ints s) (ports s) (printed s) (world s).
Definition set_cpu g i t s := mkIrq (table s) (top s) (kernel_desc_offset s) (idt s) (irq_table s) (tss s)
  g i t (ints s) (ports s) (printed s) (world s).
Definition set_ints b s := mkIrq (table s) (top s) (kernel_desc_offset s) (idt s) (irq_table s) (tss s)
  (cpu_gdtr s) (cpu_idtr s) (cpu_tr s) b (ports s) (printed s) (world s).
Definition set_ports p s := mkIrq (table s) (top s) (kernel_desc_offset s) (idt s) (irq_table s) (tss s)
  (cpu_gdtr s) (cpu_idtr s) (cpu_tr s) (ints s) p (printed s) (world s).
Definition set_printed p s := mkIrq (table s) (top s) (kernel_desc_offset s) (idt s) (irq_table s) (tss s)
  (cpu_gdtr s) (cpu_idtr s) (cpu_tr s) (ints s) (ports s) p (world s).
Definition set_world (w : W) s : irq_state W := mkIrq (table s) (top s) (kernel_desc_offset s) (idt s) (irq_table s) (tss s)
  (cpu_gdtr s) (cpu_idtr s) (cpu_tr s) (ints s) (ports s) (printed s) w.
End setters.

(** Addresses the linker gives. *)
Class Statics := {
  gdt_addr : Z; idt_addr : Z; tss_addr : Z;
  DF_stack : Z; PF_stack : Z; GP_stack : Z; EX_stack : Z;
  isr_stub_table : Z -> Z }.

(** ** The global descriptor table *)

Definition DESCRIPTOR_FLAG_EXECUTABLE : Z := Z.shiftl 1 43.
Definition DESCRIPTOR_FLAG_USER_SEGMENT : Z := Z.shiftl 1 44.
Definition DESCRIPTOR_FLAG_PRESENT : Z := Z.shiftl 1 47.
Definition DESCRIPTOR_FLAG_LONG_MODE : Z := Z.shiftl 1 53.
Definition GDT_SIZE : Z := 8.

Section gdt.
Context {W : Type} `{Statics}.
Abbreviation K := (M (irq_state W)).

Definition GDT_push_dq (data : Z) : K Z :=
  s ← gets id;
  if top s <? GDT_SIZE then
    modify (set_table (<[Z.to_nat (top s) := data]> (table s)) (top s + 1)) ;;
    mret (top s * 8)
  else fault.

Fixpoint GDT_push_all (data : list Z) : K unit :=
  match data with [] => mret tt | d :: data => _ ← GDT_push_dq d; GDT_push_all data end.
Definition GDT_push (data : list Z) : K Z :=
  location ← gets (fun s => top s * 8);
  GDT_push_all data ;;
  mret location.

Definition GDT_load : K unit :=
  modify (fun s => set_cpu (mkReg (u16 (8 * top s - 1)) gdt_addr) (cpu_idtr s) (cpu_tr s) s).

Definition GDT_setup : K unit :=
  _ ← GDT_push_dq 0;
  o ← GDT_push_dq (Z.lor (Z.lor (Z.lor DESCRIPTOR_FLAG_USER_SEGMENT DESCRIPTOR_FLAG_PRESENT)
                      DESCRIPTOR_FLAG_EXECUTABLE) DESCRIPTOR_FLAG_LONG_MODE);
  modify (set_kernel_desc o) ;;
  GDT_load.

End gdt.

(** ** Interrupt descriptors *)

Definition IDT_INTERRUPT_TYPE_INTERRUPT_GATE : Z := 0xE.
Definition IDT_MAX_DESCRIPTORS : Z := 256.

(** [idt_set_descriptor] on the descriptor [d]; [cs] is [GDT_kernel_desc_offset()]. *)
Definition idt_set_descriptor (cs isr ist d : Z) : Z :=
  let d := set_bits 0 16 (Z.land isr 0xFFFF) d in
  let d := set_bits 16 16 cs d in
  let d := set_bits 32 3 ist d in
  let d := set_bits 35 5 0 d in
  let d := set_bits 40 4 IDT_INTERRUPT_TYPE_INTERRUPT_GATE d in
  let d := set_bits 44 1 0 d in
  let d := set_bits 45 2 0 d in
  let d := set_bits 47 1 1 d in
  let d := set_bits 48 16 (Z.land (Z.shiftr isr 16) 0xFFFF) d in
  let d := set_bits 64 32 (Z.land (Z.shiftr isr 32) 0xFFFFFFFF) d in
  set_bits 96 32 0 d.

(** [tss_set_descriptor]: [sizeof(tss)] is 104. *)
Definition TSS_SIZE : Z := 104.
Definition tss_set_descriptor (base d : Z) : Z :=
  let d := set_bits 0 16 (TSS_SIZE - 1) d in
  let d := set_bits 16 24 (Z.land base 0xFFFFFF) d in
  let d := set_bits 40 4 0x9 d in
  let d := set_bits 44 1 0 d in
  let d := set_bits 45 2 0 d in
  let d := set_bits 47 1 1 d in
  let d := set_bits 48 4 0 d in
  let d := set_bits 52 1 0 d in
  let d := set_bits 53 2 0 d in
  let d := set_bits 55 1 0 d in
  let d := set_bits 56 8 (Z.land (Z.shiftr base 24) 0xFF) d in
  let d := set_bits 64 32 (Z.land (Z.shiftr base 32) 0xFFFFFFFF) d in
  set_bits 96 32 0 d.

(** ** The interrupt controller *)

Definition PIC1_COMMAND : Z := 0x20.
Definition PIC1_DATA : Z := 0x21.
Definition PIC2_COMMAND : Z := 0xA0.
Definition PIC2_DATA : Z := 0xA1.
Definition ICW1_INIT : Z := 0x10.
Definition ICW1_ICW4 : Z := 0x01.
Definition ICW4_8086 : Z := 0x01.
Definition PIC_EOI : Z := 0x20.
Definition IRQ_BASE : Z := 0x20.

Section pic.
Context `{Hardware}.

Definition PIC_remap (offset : Z) : M (list io) unit :=
  outb PIC1_COMMAND (Z.lor ICW1_INIT ICW1_ICW4) ;;
  outb PIC2_COMMAND (Z.lor ICW1_INIT ICW1_ICW4) ;;
  outb PIC1_DATA offset ;;
  outb PIC2_DATA (offset + 8) ;;
  outb PIC1_DATA 4 ;;
  outb PIC2_DATA 2 ;;
  outb PIC1_DATA ICW4_8086 ;;
  outb PIC2_DATA ICW4_8086 ;;
  outb PIC1_DATA 0xff ;;
  outb PIC2_DATA 0xff.

(** [PIC_sendEOI(irq)]. *)
Definition PIC_sendEOI (irq : Z) : M (list io) unit :=
  (if irq >=? 8 then outb PIC2_COMMAND PIC_EOI else mret tt) ;;
  outb PIC1_COMMAND PIC_EOI.

Definition IRQ_set_mask (IRQline : Z) : M (list io) unit :=
  let '(port, line) := if IRQline <? 8 then (PIC1_DATA, IRQline) else (PIC2_DATA, IRQline - 8) in
  v ← inb port;
  outb port (u8 (Z.lor v (Z.shiftl 1 line))).

Definition IRQ_clear_mask (IRQline : Z) : M (list io) unit :=
  let '(port, line) := if IRQline <? 8 then (PIC1_DATA, IRQline) else (PIC2_DATA, IRQline - 8) in
  v ← inb port;
  outb port (u8 (Z.land v (Z.lnot (Z.shiftl 1 line)))).

End pic.

(** ** Set-up and dispatch *)

Definition DF_INT : Z := 0x8.
Definition DF_IST_IDX : Z := 1.
Definition PF_INT : Z := 0xE.
Definition PF_IST_IDX : Z := 2.
Definition GP_INT : Z := 0xD.
Definition GP_IST_IDX : Z := 3.
Definition EX_INT : Z := 0x81.
Definition EX_INT_IDX : Z := 4.
Definition CRITICAL_STACK_SIZE : Z := 4096.

(** The stack an interrupt is given: the switch of [IRQ_init]. *)
Definition ist_of (i : Z) : Z :=
  if i =? DF_INT then DF_IST_IDX else if i =? PF_INT then PF_IST_IDX
  else if i =? GP_INT then GP_IST_IDX else if i =? EX_INT then EX_INT_IDX else 0.

Section irq.
Context {W : Type} `{Statics} `{Hardware}.
(** What calling the handler at an address with a number, error code and argument does. *)
Context (call : Z -> Z -> Z -> Z -> M (irq_state W) unit).
Abbreviation K := (M (irq_state W)).

Definition CLI : K unit := modify (set_ints false).
Definition STI : K unit := modify (set_ints true).
Definition portop {A} (m : M (list io) A) : K A := zoom ports set_ports m.
Definition print (fmt : string) (args : list Z) : K unit :=
  modify (fun s => set_printed (printed s ++ [(fmt, args)]) s).

Definition IRQ_init_tss : K unit :=
  let ist := <[Z.to_nat (EX_INT_IDX - 1) := EX_stack]> (<[Z.to_nat (GP_IST_IDX - 1) := GP_stack]>
    (<[Z.to_nat (PF_IST_IDX - 1) := PF_stack]> (<[Z.to_nat (DF_IST_IDX - 1) := DF_stack]> (repeat 0 7)))) in
  modify (set_tss (mkTss (repeat 0 3) ist 0)) ;;
  let tss_desc := tss_set_descriptor tss_addr 0 in
  tss_offset ← GDT_push [get_bits 0 64 tss_desc; get_bits 64 64 tss_desc];
  GDT_load ;;
  modify (fun s => set_cpu (cpu_gdtr s) (cpu_idtr s) tss_offset s).

(** [for (i = 0; i < IDT_MAX_DESCRIPTORS; i += 1)], the next [n] rounds from [i]. *)
Fixpoint fill_idt (n : nat) (i : Z) : K unit :=
  match n with
  | O => mret tt
  | S n =>
      s ← gets id;
      match idt s !! Z.to_nat i with
      | Some d =>
          modify (set_idt (<[Z.to_nat i := idt_set_descriptor (kernel_desc_offset s) (isr_stub_table i) (ist_of i) d]> (idt s))) ;;
          fill_idt n (i + 1)
      | None => fault
      end
  end.

Definition IRQ_init : K unit :=
  CLI ;;
  IRQ_init_tss ;;
  portop (PIC_remap 0x20) ;;
  fill_idt (Z.to_nat IDT_MAX_DESCRIPTORS) 0 ;;
  let idtr := mkReg (u16 (16 * IDT_MAX_DESCRIPTORS - 1)) idt_addr in
  modify (set_irq_table (repeat (mkEntry 0 0) (Z.to_nat IDT_MAX_DESCRIPTORS))) ;;
  print "Initializing interrupts: idt limit: %hu" [limit idtr] ;;
  modify (fun s => set_cpu (cpu_gdtr s) idtr (cpu_tr s) s) ;;
  STI.

Definition IRQ_handler_set (number h a : Z) : K unit :=
  if (0 <=? number) && (number <? IDT_MAX_DESCRIPTORS)
  then modify (fun s => set_irq_table (<[Z.to_nat number := mkEntry a h]> (irq_table s)) s)
  else fault.

(** Page faults go to the handler of page_allocator.c (VirtPages.v), given by its
    address. *)
Definition MMU_alloc_init (page_fault_handler : Z) : K unit := IRQ_handler_set PF_INT page_fault_handler 0.

Definition unhandled_irq_handler (number error_code : Z) : K unit :=
  print "unhandled interrupt: 0x%x, code: %d" [number; error_code].

Definition irq_handler (number error_code : Z) : K unit :=
  CLI ;;
  if (number <? 0) || (number >=? IDT_MAX_DESCRIPTORS) then
    print "irq_handler called with invalid interrupt number: %x" [number] ;;
    STI
  else
    s ← gets id;
    match irq_table s !! Z.to_nat number with
    | Some entry =>
        (if handler entry =? 0 then unhandled_irq_handler number error_code
         else call (handler entry) number error_code (arg entry)) ;;
        STI
    | None => fault
    end.

End irq.

(** ** Descriptor fields *)

(** What the processor reads from a gate and from a system descriptor. *)
Definition gate_isr (d : Z) : Z := get_bits 0 16 d + 2 ^ 16 * get_bits 48 16 d + 2 ^ 32 * get_bits 64 32 d.
Record gate_is (d cs isr ist : Z) : Prop := {
  gi_isr : gate_isr d = isr; gi_cs : get_bits 16 16 d = cs; gi_ist : get_bits 32 3 d = ist;
  gi_type : get_bits 40 4 d = IDT_INTERRUPT_TYPE_INTERRUPT_GATE; gi_system : get_bits 44 1 d = 0;
  gi_dpl : get_bits 45 2 d = 0; gi_present : get_bits 47 1 d = 1 }.

Definition seg_base (d : Z) : Z := get_bits 16 24 d + 2 ^ 24 * get_bits 56 8 d + 2 ^ 32 * get_bits 64 32 d.
Record tss_desc_is (d base : Z) : Prop := {
  ti_base : seg_base d = base; ti_limit : get_bits 0 16 d + 2 ^ 16 * get_bits 48 4 d = TSS_SIZE - 1;
  ti_type : get_bits 40 4 d = 9; ti_system : get_bits 44 1 d = 0; ti_present : get_bits 47 1 d = 1 }.

(** Read one field through the assignments of others. *)
Ltac field_of :=
  repeat first [ rewrite get_set_bits_same by lia | rewrite get_set_bits_other by lia ].

Lemma land_field isr lo n : 0 <= lo -> 0 <= n -> wrap n (Z.land (Z.shiftr isr lo) (Z.ones n)) = isr / 2 ^ lo mod 2 ^ n.
Proof.
  intros. rewrite Z.land_ones, Z.shiftr_div_pow2 by lia. unfold wrap. rewrite Z.mod_mod by lia. done.
Qed.

Lemma split_64_16_16_32 x : in_range 64 x ->
  x / 2 ^ 0 mod 2 ^ 16 + 2 ^ 16 * (x / 2 ^ 16 mod 2 ^ 16) + 2 ^ 32 * (x / 2 ^ 32 mod 2 ^ 32) = x.
Proof.
  unfold in_range. change (2 ^ 0) with 1. change (2 ^ 16) with 65536. change (2 ^ 32) with 4294967296.
  change (2 ^ 64) with 18446744073709551616. intros. zdm.
Qed.

Lemma split_64_24_8_32 x : in_range 64 x ->
  x / 2 ^ 0 mod 2 ^ 24 + 2 ^ 24 * (x / 2 ^ 24 mod 2 ^ 8) + 2 ^ 32 * (x / 2 ^ 32 mod 2 ^ 32) = x.
Proof.
  unfold in_range. change (2 ^ 0) with 1. change (2 ^ 24) with 16777216. change (2 ^ 8) with 256.
  change (2 ^ 32) with 4294967296. change (2 ^ 64) with 18446744073709551616. intros. zdm.
Qed.

(** A gate leads to its routine, whatever the descriptor held. *)
Lemma idt_set_descriptor_is cs isr ist d : in_range 16 cs -> in_range 64 isr -> in_range 3 ist ->
  gate_is (idt_set_descriptor cs isr ist d) cs isr ist.
Proof.
  intros Hc Hi Hs. unfold idt_set_descriptor. cbv zeta. split; unfold gate_isr; field_of; try done.
  - change 0xFFFF with (Z.ones 16). change 0xFFFFFFFF with (Z.ones 32). rewrite <- (Z.shiftr_0_r isr) at 1.
    rewrite !land_field by lia. by apply split_64_16_16_32.
  - by apply wrap_small.
  - by apply wrap_small.
Qed.

Lemma tss_set_descriptor_is base d : in_range 64 base -> tss_desc_is (tss_set_descriptor base d) base.
Proof.
  intros Hb. unfold tss_set_descriptor. cbv zeta. split; unfold seg_base; field_of; try done.
  change 0xFFFFFF with (Z.ones 24). change 0xFF with (Z.ones 8). change 0xFFFFFFFF with (Z.ones 32).
  rewrite <- (Z.shiftr_0_r base) at 1. rewrite !land_field by lia. by apply split_64_24_8_32.
Qed.

Lemma tss_descriptor_range base d : in_range 128 d -> in_range 128 (tss_set_descriptor base d).
Proof. intros. unfold tss_set_descriptor. cbv zeta. repeat (apply set_bits_range; [lia..|]). done. Qed.

Lemma halves_join d : in_range 128 d -> get_bits 0 64 d + 2 ^ 64 * get_bits 64 64 d = d.
Proof.
  intros H. rewrite !get_bits_arith by lia. unfold in_range in H.
  rewrite (Z.mod_small (d / 2 ^ 64)) by (split; [apply Z.div_pos; lia|apply Z.div_lt_upper_bound; lia]).
  rewrite Z.pow_0_r, Z.div_1_r. pose proof (Z.div_mod d (2 ^ 64)). lia.
Qed.

(** ** The tables after boot *)

Section boot.
Context {W : Type} `{Statics} `{Hardware}.
Implicit Types (s : irq_state W).

(** [s] and [s'] differ at most in the interrupt descriptors. *)
Definition same_but_idt s s' : Prop := s' = set_idt (idt s') s.

Lemma ist_of_range i : in_range 3 (ist_of i).
Proof. unfold ist_of, in_range. repeat destruct (_ =? _); done. Qed.

Lemma fill_idt_spec n : forall i s, 0 <= i -> i + Z.of_nat n = IDT_MAX_DESCRIPTORS ->
  length (idt s) = Z.to_nat IDT_MAX_DESCRIPTORS ->
  exists s', fill_idt n i s = Ret tt s' /\ same_but_idt s s' /\ length (idt s') = Z.to_nat IDT_MAX_DESCRIPTORS /\
    (forall k, 0 <= k < i -> idt s' !! Z.to_nat k = idt s !! Z.to_nat k) /\
    (forall k, i <= k < IDT_MAX_DESCRIPTORS -> exists d,
      idt s' !! Z.to_nat k = Some (idt_set_descriptor (kernel_desc_offset s) (isr_stub_table k) (ist_of k) d)).
Proof.
  unfold IDT_MAX_DESCRIPTORS. induction n as [|n IH]; intros i s Hi Hn Hl; cbn [fill_idt].
  { exists s. repeat split; try done; [by destruct s|intros; lia]. }
  destruct (lookup_lt_is_Some_2 (idt s) (Z.to_nat i)) as [d Ed]; [lia|].
  rewrite bind_gets. unfold id. rewrite Ed, bind_modify.
  set (s1 := set_idt _ s). destruct (IH (i + 1) s1) as (s' & E & Hs & Hl' & Hlow & Hhigh); [lia|lia| |].
  { subst s1. cbn. by rewrite length_insert. }
  exists s'. split; [done|]. split; [|split; [done|split]].
  - unfold same_but_idt in *. rewrite Hs. by destruct s.
  - intros k Hk. rewrite Hlow by lia. subst s1. cbn. rewrite list_lookup_insert_ne by lia. done.
  - intros k Hk. destruct (decide (k = i)) as [->|].
    + exists d. rewrite Hlow by lia. subst s1. cbn. apply list_lookup_insert_eq. lia.
    + apply Hhigh. lia.
Qed.

Lemma GDT_push_dq_ret data s : top s < GDT_SIZE ->
  GDT_push_dq data s = Ret (top s * 8) (set_table (<[Z.to_nat (top s) := data]> (table s)) (top s + 1) s).
Proof.
  intros Ht. unfold GDT_push_dq. rewrite bind_gets. unfold id. by rewrite (proj2 (Z.ltb_lt _ _) Ht).
Qed.

(** The 64-bit kernel code segment: executable, a code or data segment, present, long. *)
Definition is_kernel_code (d : Z) : Prop :=
  get_bits 43 1 d = 1 /\ get_bits 44 1 d = 1 /\ get_bits 47 1 d = 1 /\ get_bits 53 1 d = 1 /\ get_bits 45 2 d = 0.

Definition kernel_code : Z :=
  Z.lor (Z.lor (Z.lor DESCRIPTOR_FLAG_USER_SEGMENT DESCRIPTOR_FLAG_PRESENT) DESCRIPTOR_FLAG_EXECUTABLE)
    DESCRIPTOR_FLAG_LONG_MODE.

Lemma GDT_setup_ret s : top s = 0 ->
  GDT_setup s = Ret tt (set_cpu (mkReg 15 gdt_addr) (cpu_idtr s) (cpu_tr s)
    (set_kernel_desc 8 (set_table (<[1%nat := kernel_code]> (<[0%nat := 0]> (table s))) 2 s))).
Proof.
  intros Ht. unfold GDT_setup. rewrite (bind_ret _ _ _ _ _ (GDT_push_dq_ret 0 s ltac:(rewrite Ht; done))).
  set (s1 := set_table _ _ s). assert (Ht1 : top s1 = 1) by (subst s1; cbn; lia).
  rewrite (bind_ret _ _ _ _ _ (GDT_push_dq_ret _ s1 ltac:(rewrite Ht1; done))). fold kernel_code. rewrite bind_modify.
  unfold GDT_load, modify. rewrite Ht1. subst s1. cbn. by rewrite Ht.
Qed.

Definition boot_tss : TaskStateSegment := mkTss (repeat 0 3) [DF_stack; PF_stack; GP_stack; EX_stack; 0; 0; 0] 0.
Definition tss_low : Z := get_bits 0 64 (tss_set_descriptor tss_addr 0).
Definition tss_high : Z := get_bits 64 64 (tss_set_descriptor tss_addr 0).

Lemma IRQ_init_tss_ret s : top s = 2 ->
  IRQ_init_tss s = Ret tt (set_cpu (mkReg 31 gdt_addr) (cpu_idtr s) 16
    (set_tss boot_tss (set_table (<[3%nat := tss_high]> (<[2%nat := tss_low]> (table s))) 4 s))).
Proof.
  intros Ht. unfold IRQ_init_tss. rewrite bind_modify.
  change (<[Z.to_nat (EX_INT_IDX - 1) := EX_stack]> _) with [DF_stack; PF_stack; GP_stack; EX_stack; 0; 0; 0].
  unfold tss_low, tss_high. generalize (tss_set_descriptor tss_addr 0). intros desc. cbv zeta.
  generalize (get_bits 0 64 desc), (get_bits 64 64 desc). intros lo hi.
  change (mkTss _ _ 0) with boot_tss. set (s1 := set_tss boot_tss s).
  assert (Ht1 : top s1 = 2) by done. unfold GDT_push. rewrite <- bind_assoc, bind_gets. cbn [GDT_push_all].
  rewrite <- bind_assoc. rewrite <- bind_assoc.
  rewrite (bind_ret _ _ _ _ _ (GDT_push_dq_ret lo s1 ltac:(rewrite Ht1; done))).
  set (s2 := set_table _ _ s1). assert (Ht2 : top s2 = 3) by (subst s2; cbn; lia). rewrite <- bind_assoc.
  rewrite (bind_ret _ _ _ _ _ (GDT_push_dq_ret hi s2 ltac:(rewrite Ht2; done))).
  set (s3 := set_table _ _ s2). assert (Ht3 : top s3 = 4) by (subst s3; cbn; lia). rewrite bind_mret.
  unfold GDT_load. rewrite bind_mret, bind_modify. unfold modify. rewrite Ht3. subst s3 s2 s1. cbn. by rewrite !Ht.
Qed.

Definition pic_writes : list (Z * Z) :=
  [(PIC1_COMMAND, 0x11); (PIC2_COMMAND, 0x11); (PIC1_DATA, 0x20); (PIC2_DATA, 0x28); (PIC1_DATA, 4); (PIC2_DATA, 2);
   (PIC1_DATA, 1); (PIC2_DATA, 1); (PIC1_DATA, 0xff); (PIC2_DATA, 0xff)].
Lemma PIC_remap_ret tr : PIC_remap 0x20 tr = Ret tt (tr ++ out_events pic_writes).
Proof. rewrite <- outbs_ret. reflexivity. Qed.

(** After [GDT_setup] and [IRQ_init] the processor holds tables in which every one of
    the 256 gates leads to its stub through the kernel code segment and on its
    interrupt stack, the task register names the descriptor of the task segment, no
    handler is installed, every line of both controllers is masked and interrupts
    are on. *)
Theorem boot_descriptor_tables s :
  top s = 0 -> length (table s) = 8%nat -> length (idt s) = 256%nat ->
  in_range 64 tss_addr -> (forall i, in_range 64 (isr_stub_table i)) ->
  exists s' code lo hi, (GDT_setup ;; IRQ_init) s = Ret tt s' /\
    (forall i, 0 <= i < 256 -> exists d, idt s' !! Z.to_nat i = Some d /\
       gate_is d (kernel_desc_offset s') (isr_stub_table i) (ist_of i)) /\
    take 4 (table s') = [0; code; lo; hi] /\ kernel_desc_offset s' = 8 /\ is_kernel_code code /\
    cpu_tr s' = 16 /\ tss_desc_is (lo + 2 ^ 64 * hi) tss_addr /\
    interrupt_stack_table (tss s') = [DF_stack; PF_stack; GP_stack; EX_stack; 0; 0; 0] /\
    cpu_gdtr s' = mkReg 31 gdt_addr /\ cpu_idtr s' = mkReg 4095 idt_addr /\
    irq_table s' = repeat (mkEntry 0 0) 256 /\
    last_out PIC1_DATA 0 (ports s') = 0xff /\ last_out PIC2_DATA 0 (ports s') = 0xff /\ ints s' = true /\
    length (table s') = 8%nat /\ world s' = world s.
Proof.
  intros Ht Hl Hi Htss Hstub.
  destruct (table s) as [|t0 [|t1 [|t2 [|t3 [|t4 [|t5 [|t6 [|t7 [|? ?]]]]]]]]] eqn:Et; try done. clear Hl.
  rewrite (bind_ret _ _ _ _ _ (GDT_setup_ret s Ht)). set (s1 := set_cpu _ _ _ _).
  unfold IRQ_init, CLI. rewrite bind_modify. set (s2 := set_ints false s1).
  rewrite (bind_ret _ _ _ _ _ (IRQ_init_tss_ret s2 eq_refl)). set (s3 := set_cpu _ _ _ _).
  rewrite (bind_ret _ _ _ _ _ (zoom_ret ports set_ports _ _ _ s3 (PIC_remap_ret (ports s3)))).
  set (s4 := set_ports _ s3).
  destruct (fill_idt_spec (Z.to_nat IDT_MAX_DESCRIPTORS) 0 s4) as (s5 & E & Hs5 & Hl5 & _ & Hg); [done|done|done|].
  rewrite (bind_ret _ _ _ _ _ E). unfold print, STI. rewrite !bind_modify. unfold modify.
  eexists _, kernel_code, tss_low, tss_high. split; [reflexivity|].
  assert (Hj : tss_low + 2 ^ 64 * tss_high = tss_set_descriptor tss_addr 0)
    by by apply halves_join, tss_descriptor_range.
  assert (Hk : kernel_desc_offset s5 = 8) by by rewrite Hs5.
  split; [|split; [|split; [|split; [|split; [|split; [|split; [|split; [|split; [|split; [|split; [|split; [|split; [|split]]]]]]]]]]]]].
  - intros i Hi'. destruct (Hg i Hi') as (d & Ed). eexists. split; [exact Ed|].
    cbn [kernel_desc_offset set_ints set_cpu set_printed set_irq_table]. rewrite Hk.
    apply idt_set_descriptor_is; [done|apply Hstub|apply ist_of_range].
  - rewrite Hs5. cbn. by rewrite Et.
  - exact Hk.
  - done.
  - by rewrite Hs5.
  - rewrite Hj. by apply tss_set_descriptor_is.
  - by rewrite Hs5.
  - by rewrite Hs5.
  - done.
  - done.
  - rewrite Hs5. cbn [ports set_ints set_cpu set_printed set_irq_table set_idt s4 set_ports]. by rewrite last_out_app.
  - rewrite Hs5. cbn [ports set_ints set_cpu set_printed set_irq_table set_idt s4 set_ports]. by rewrite last_out_app.
  - done.
  - rewrite Hs5. cbn. by rewrite Et.
  - by rewrite Hs5.
Qed.

(** The interrupt stack pointers of the task segment are the lowest addresses of the
    stacks, which grow down: the five words the processor pushes first are all
    outside the stack, below it. *)
Theorem exception_frame_below_stack stack j : 0 <= j < 5 ->
  ~ (stack <= align_pointer stack 16 false - 8 * (j + 1) < stack + CRITICAL_STACK_SIZE) \/ stack < 0.
Proof.
  intros Hj. destruct (Z.lt_ge_cases stack 0); [by right|]. left.
  pose proof (align_down_spec stack 16 ltac:(lia) ltac:(lia)) as (_ & ? & _). lia.
Qed.

End boot.

(** ** Dispatch *)

Section dispatch.
Context {W : Type} `{Statics} `{Hardware}.
Context (call : Z -> Z -> Z -> Z -> M (irq_state W) unit).
Implicit Types (s : irq_state W).

(** C25: once a handler is installed for an interrupt number, that interrupt runs it with
    interrupts off, its number, the error code and the argument installed with it, and
    turns interrupts on after it; the handlers of other numbers stay. An interrupt
    without a handler and a number that is none are only reported. *)
Theorem irq_dispatch n h a number e s :
  0 <= n < 256 -> h <> 0 -> length (irq_table s) = 256%nat ->
  exists s1, IRQ_handler_set n h a s = Ret tt s1 /\
    irq_handler call n e s1 = (call h n e a ;; STI) (set_ints false s1) /\
    (number <> n -> 0 <= number -> irq_table s1 !! Z.to_nat number = irq_table s !! Z.to_nat number) /\
    (forall b, irq_table s1 !! Z.to_nat number = Some (mkEntry b 0) -> 0 <= number ->
       irq_handler call number e s1
       = Ret tt (set_ints true (set_printed (printed s1 ++ [("unhandled interrupt: 0x%x, code: %d"%string, [number; e])]) (set_ints false s1)))) /\
    (~ (0 <= number < 256) -> irq_handler call number e s1
       = Ret tt (set_ints true (set_printed (printed s1 ++ [("irq_handler called with invalid interrupt number: %x"%string, [number])])
                                  (set_ints false s1)))).
Proof.
  intros Hn Hh Hl. unfold IRQ_handler_set, IDT_MAX_DESCRIPTORS.
  rewrite (proj2 (Z.leb_le 0 n)), (proj2 (Z.ltb_lt n 256)) by lia. cbn [andb].
  eexists. split; [reflexivity|]. set (s1 := set_irq_table _ s).
  assert (Hl1 : length (irq_table s1) = 256%nat) by (subst s1; cbn; by rewrite length_insert).
  assert (Hin : forall m, (m <? 0) || (m >=? 256) = negb ((0 <=? m) && (m <? 256))).
  { intros m. rewrite Z.geb_leb. zcases; try done; lia. }
  unfold irq_handler, IDT_MAX_DESCRIPTORS, CLI, STI, print. split; [|split; [|split]].
  - rewrite bind_modify, Hin, (proj2 (Z.leb_le 0 n)), (proj2 (Z.ltb_lt n 256)) by lia. cbn [andb negb].
    rewrite bind_gets. unfold id at 1. subst s1. cbn [irq_table set_irq_table set_ints].
    rewrite list_lookup_insert_eq by lia. cbn [handler arg]. by rewrite (proj2 (Z.eqb_neq h 0) Hh).
  - intros Hne H0n. subst s1. cbn. apply list_lookup_insert_ne. lia.
  - intros b Eb Hn0. assert (number < 256) by (apply lookup_lt_Some in Eb; lia).
    rewrite bind_modify, Hin, (proj2 (Z.leb_le 0 number)), (proj2 (Z.ltb_lt number 256)) by lia. cbn [andb negb].
    rewrite bind_gets. unfold id at 1. cbn [irq_table set_ints]. rewrite Eb. reflexivity.
  - intros Hout. rewrite bind_modify, Hin.
    replace ((0 <=? number) && (number <? 256)) with false by (zcases; try done; lia). reflexivity.
Qed.

End dispatch.

(** ** Masks *)

Section masks.
Context `{Hardware}.

(** Line [l] (0 to 15) is masked: its bit of the byte last written to its controller;
    a controller never written has all its lines open. *)
Definition masked (tr : list io) (l : Z) : bool :=
  if l <? 8 then Z.testbit (u8 (last_out PIC1_DATA 0 tr)) l else Z.testbit (u8 (last_out PIC2_DATA 0 tr)) (l - 8).

(** Controllers whose data port reads back the mask written to it. *)
Definition pic_reads_back : Prop := forall tr,
  u8 (hw tr PIC1_DATA) = u8 (last_out PIC1_DATA 0 tr) /\ u8 (hw tr PIC2_DATA) = u8 (last_out PIC2_DATA 0 tr).

(** One bit of a byte. *)
Lemma testbit_set8 v b k : 0 <= b < 8 -> 0 <= k < 8 ->
  Z.testbit (u8 (u8 (u8 (Z.lor v (Z.shiftl 1 b))))) k = (k =? b) || Z.testbit v k.
Proof.
  intros. rewrite !testbit_wrap, (proj2 (Z.ltb_lt k 8)) by lia. cbn [andb].
  fold (Z.setbit v b). rewrite Z.setbit_eqb by lia. by rewrite Z.eqb_sym.
Qed.
Lemma testbit_clear8 v b k : 0 <= b < 8 -> 0 <= k < 8 ->
  Z.testbit (u8 (u8 (u8 (Z.land v (Z.lnot (Z.shiftl 1 b)))))) k = negb (k =? b) && Z.testbit v k.
Proof.
  intros. rewrite !testbit_wrap, (proj2 (Z.ltb_lt k 8)) by lia. cbn [andb].
  rewrite <- Z.ldiff_land. fold (Z.clearbit v b). rewrite Z.clearbit_eqb by lia.
  by rewrite Z.eqb_sym, andb_comm.
Qed.

(** What a read and a write of a controller's data port do to the masks. *)
Lemma masked_write tr port v w k : 0 <= k < 16 -> port = PIC1_DATA \/ port = PIC2_DATA ->
  masked ((tr ++ [Inb port v]) ++ [Outb port w]) k =
    if (port =? PIC1_DATA) && (k <? 8) then Z.testbit (u8 w) k
    else if (port =? PIC2_DATA) && negb (k <? 8) then Z.testbit (u8 w) (k - 8) else masked tr k.
Proof.
  intros Hk Hp. unfold masked. rewrite !last_out_app. destruct Hp as [-> | ->]; by destruct (Z.ltb_spec k 8).
Qed.

Ltac mask_proof Hp tr l lem :=
  destruct (Hp tr) as [H1 H2];
  destruct (Z.ltb_spec l 8) as [Hlt|Hge]; eexists; (split; [reflexivity|]); intros k Hk;
    rewrite masked_write by (done || (by left) || (by right)); cbn [Z.eqb PIC1_DATA PIC2_DATA Pos.eqb andb];
    unfold masked; destruct (Z.ltb_spec k 8); cbn [negb];
    rewrite ?lem, ?H1, ?H2 by lia; zcases; cbn [orb andb negb]; (done || lia).

(** Setting and clearing a mask changes that line alone, of the sixteen lines of the
    two controllers. *)
Theorem irq_masks_correct l tr : pic_reads_back -> 0 <= l < 16 ->
  (exists tr', IRQ_set_mask l tr = Ret tt tr' /\
     forall k, 0 <= k < 16 -> masked tr' k = (k =? l) || masked tr k) /\
  (exists tr', IRQ_clear_mask l tr = Ret tt tr' /\
     forall k, 0 <= k < 16 -> masked tr' k = negb (k =? l) && masked tr k).
Proof.
  intros Hp Hl. unfold IRQ_set_mask, IRQ_clear_mask. split.
  - mask_proof Hp tr l testbit_set8.
  - mask_proof Hp tr l testbit_clear8.
Qed.

(** The end of interrupt goes to the second controller for every number from 8 on: for
    the vectors the handlers are called with, 0x20 and up, always. *)
Lemma PIC_sendEOI_vector irq tr : IRQ_BASE <= irq ->
  PIC_sendEOI irq tr = Ret tt (tr ++ [Outb PIC2_COMMAND PIC_EOI; Outb PIC1_COMMAND PIC_EOI]).
Proof.
  unfold IRQ_BASE. intros Hi. unfold PIC_sendEOI. rewrite Z.geb_leb, (proj2 (Z.leb_le 8 irq)) by lia.
  unfold outb. rewrite bind_modify. unfold modify. rewrite <- app_assoc. reflexivity.
Qed.

End masks.

(** ** A machine, for the witnesses *)

Module IrqDemo.
#[export] Instance demo_statics : Statics := {|
  gdt_addr := 0x108000; idt_addr := 0x109000; tss_addr := 0x10A000;
  DF_stack := 0x10B000; PF_stack := 0x10C000; GP_stack := 0x10D000; EX_stack := 0x10E000;
  isr_stub_table := fun i => 0x101000 + 16 * (i mod 256) |}.
(** Controllers that read back what was written. *)
#[export] Instance demo_hw : Hardware := fun tr port => last_out port 0 tr.
Definition irq0 : irq_state unit :=
  mkIrq (repeat 0 8) 0 0 (repeat 0 256) (repeat (mkEntry 0 0) 256) (mkTss [] [] 0) (mkReg 0 0) (mkReg 0 0) 0 false [] [] tt.
Definition no_call : Z -> Z -> Z -> Z -> M (irq_state unit) unit := fun _ _ _ _ => mret tt.

Lemma demo_reads_back : pic_reads_back.
Proof. done. Qed.
End IrqDemo.

Import IrqDemo.

Lemma boot_descriptor_tables_witness :
  exists s' code lo hi, (GDT_setup ;; IRQ_init) irq0 = Ret tt s' /\
    (forall i, 0 <= i < 256 -> exists d, idt s' !! Z.to_nat i = Some d /\
       gate_is d (kernel_desc_offset s') (isr_stub_table i) (ist_of i)) /\
    take 4 (table s') = [0; code; lo; hi] /\ kernel_desc_offset s' = 8 /\ is_kernel_code code /\
    cpu_tr s' = 16 /\ tss_desc_is (lo + 2 ^ 64 * hi) tss_addr /\
    interrupt_stack_table (tss s') = [DF_stack; PF_stack; GP_stack; EX_stack; 0; 0; 0] /\
    cpu_gdtr s' = mkReg 31 gdt_addr /\ cpu_idtr s' = mkReg 4095 idt_addr /\
    irq_table s' = repeat (mkEntry 0 0) 256 /\
    last_out PIC1_DATA 0 (ports s') = 0xff /\ last_out PIC2_DATA 0 (ports s') = 0xff /\ ints s' = true /\
    length (table s') = 8%nat /\ world s' = tt.
Proof.
  apply (boot_descriptor_tables irq0 eq_refl eq_refl eq_refl); [done|].
  intros i. unfold in_range. cbn [isr_stub_table demo_statics]. pose proof (Z.mod_pos_bound i 256). lia.
Defined.

Lemma irq_dispatch_witness :
  exists s1, IRQ_handler_set 33 0x101234 7 irq0 = Ret tt s1 /\
    irq_handler no_call 33 0 s1 = (no_call 0x101234 33 0 7 ;; STI) (set_ints false s1) /\
    (44 <> 33 -> 0 <= 44 -> irq_table s1 !! Z.to_nat 44 = irq_table irq0 !! Z.to_nat 44) /\
    (forall b, irq_table s1 !! Z.to_nat 44 = Some (mkEntry b 0) -> 0 <= 44 ->
       irq_handler no_call 44 0 s1
       = Ret tt (set_ints true (set_printed (printed s1 ++ [("unhandled interrupt: 0x%x, code: %d"%string, [44; 0])]) (set_ints false s1)))) /\
    (~ (0 <= 44 < 256) -> irq_handler no_call 44 0 s1
       = Ret tt (set_ints true (set_printed (printed s1 ++ [("irq_handler called with invalid interrupt number: %x"%string, [44])])
                                  (set_ints false s1)))).
Proof. apply (irq_dispatch no_call 33 0x101234 7 44 0 irq0); [lia|lia|reflexivity]. Defined.

Lemma irq_masks_correct_witness :
  (exists tr', IRQ_set_mask 14 [Outb PIC2_DATA 0xff] = Ret tt tr' /\
     forall k, 0 <= k < 16 -> masked tr' k = (k =? 14) || masked [Outb PIC2_DATA 0xff] k) /\
  (exists tr', IRQ_clear_mask 14 [Outb PIC2_DATA 0xff] = Ret tt tr' /\
     forall k, 0 <= k < 16 -> masked tr' k = negb (k =? 14) && masked [Outb PIC2_DATA 0xff] k).
Proof. apply (irq_masks_correct 14 [Outb PIC2_DATA 0xff] demo_reads_back). lia. Defined.
