(* ===== verification/RingDev.v ===== *)
(** * RingDev: a ring of bytes between a device and its threads (src/src/ring_buffer.c)

    The serial line and the keyboard each keep a ring of chars in the world of the
    interrupt state: an interrupt handler is at one end, threads are at the other. *)

From S2P Require Import Prelude RingBuffer Ports Interrupts.

(** A world with a ring in it. *)
Class HasRing (W : Type) := {
  ring : W -> RingBuffer; set_ring : RingBuffer -> W -> W;
  ring_set : forall r w, ring (set_ring r w) = r;
  set_ring_get : forall w, set_ring (ring w) w = w;
  set_ring_set : forall r r' w, set_ring r (set_ring r' w) = set_ring r w }.

Section ring_device.
Context {W : Type} `{HasRing W}.
Abbreviation K := (M (irq_state W)).

Definition ringop {A} (m : M RingBuffer A) : K A :=
  zoom (fun s => ring (world s)) (fun r s => set_world (set_ring r (world s)) s) m.

(** [ring_consumer_block_next] in a thread: [wakes] is what happens from each
    [PROC_block_on] until the thread runs again. *)
Fixpoint block_next_loop (wakes : list (K unit)) : K Z :=
  r ← ringop (gets id);
  if consumer r =? producer r then
    match wakes with
    | [] => no_fuel
    | wake :: wakes => wake ;; CLI ;; block_next_loop wakes
    end
  else ringop take_char.
Definition ring_block_next (wakes : list (K unit)) : K Z :=
  CLI ;;
  c ← block_next_loop wakes;
  STI ;;
  mret c.

Definition is_char8 (c : Z) : Prop := in_range 8 c.

(** [q] waits in the ring of [s]. *)
Definition waiting (s : irq_state W) (q : list Z) : Prop := ring_rep (ring (world s)) q /\ Forall is_char8 q.

Lemma waiting_set s r q : ring_rep r q -> Forall is_char8 q -> waiting (set_world (set_ring r (world s)) s) q.
Proof. intros Hr Hq. split; [|done]. cbn. by rewrite ring_set. Qed.

(** [s'] is [s] but for the ring and [tr] more accesses. *)
Definition only_line (s s' : irq_state W) (tr : list io) : Prop :=
  ports s' = ports s ++ tr /\ ints s' = ints s /\ irq_table s' = irq_table s /\
  world s' = set_ring (ring (world s')) (world s).

Lemma only_line_trans s s1 s2 tr1 tr2 : only_line s s1 tr1 -> only_line s1 s2 tr2 -> only_line s s2 (tr1 ++ tr2).
Proof.
  intros (P1 & I1 & T1 & W1) (P2 & I2 & T2 & W2). rewrite P1, <- app_assoc in P2. rewrite W1, set_ring_set in W2.
  repeat split; congruence.
Qed.

Lemma only_line_refl s : only_line s s [].
Proof. repeat split; [by rewrite app_nil_r|by rewrite set_ring_get]. Qed.
Lemma only_line_ports s tr : only_line s (set_ports (ports s ++ tr) s) tr.
Proof. repeat split. cbn. by rewrite set_ring_get. Qed.
Lemma only_line_ring s r : only_line s (set_world (set_ring r (world s)) s) [].
Proof. repeat split; cbn; [by rewrite app_nil_r|by rewrite ring_set]. Qed.

(** [s'] is [s] but for the chars in the ring. *)
Definition only_chars (s s' : irq_state W) : Prop :=
  exists r, s' = set_world (set_ring r (world s)) s /\ blocked r = blocked (ring (world s)).

Lemma only_chars_refl s : only_chars s s.
Proof. exists (ring (world s)). split; [|done]. rewrite set_ring_get. by destruct s. Qed.
Lemma only_chars_trans s1 s2 s3 : only_chars s1 s2 -> only_chars s2 s3 -> only_chars s1 s3.
Proof.
  intros (r & -> & E) (r' & -> & E'). exists r'. cbn [world set_world] in *. rewrite ring_set in E'.
  split; [|congruence]. unfold set_world. cbn. by rewrite set_ring_set.
Qed.

Lemma ringop_ret {A} (m : M RingBuffer A) s a r :
  m (ring (world s)) = Ret a r -> ringop m s = Ret a (set_world (set_ring r (world s)) s).
Proof. intros E. unfold ringop. by apply (zoom_ret (fun s => ring (world s)) (fun r s => set_world (set_ring r (world s)) s)). Qed.

End ring_device.

(** ** A machine that is nothing but a ring, for the witnesses *)

Module RingDemo.
#[export] Instance just_ring : HasRing RingBuffer := {| ring := fun w => w; set_ring := fun r _ => r; ring_set := fun _ _ => eq_refl;
  set_ring_get := fun _ => eq_refl; set_ring_set := fun _ _ _ => eq_refl |}.
Definition ring0 : irq_state RingBuffer :=
  mkIrq [] 0 8 [] (repeat (mkEntry 0 0) 256) (mkTss [] [] 0) (mkReg 0 0) (mkReg 0 0) 0 true [] [] zero_ring.
Lemma ring0_waiting : waiting ring0 [].
Proof. split; [exact zero_ring_rep|constructor]. Qed.
End RingDemo.
