(* ===== verification/Vga.v ===== *)
(** * Vga: the text screen (src/src/vga.c, src/include/vga.h)

    The screen is 2000 cells of 16 bits at a fixed address, here a list; a cell
    outside it is a fault. The interrupt flag is part of the state: the functions
    turn interrupts off while they work and back on if they were on. *)

From S2P Require Import Prelude.

(** ** State and operations *)

Definition VGA_WIDTH : Z := 80.
Definition VGA_HEIGHT : Z := 25.
Definition VGA_SIZE : Z := VGA_WIDTH * VGA_HEIGHT.

Record vga := mkVga { VGA_buf : list Z; VGA_cursor : Z; vga_ints : bool }.
Definition set_cells b (v : vga) := mkVga b (VGA_cursor v) (vga_ints v).
Definition set_cursor c (v : vga) := mkVga (VGA_buf v) c (vga_ints v).
Definition set_vga_ints i (v : vga) := mkVga (VGA_buf v) (VGA_cursor v) i.

Definition LINE (cursor : Z) : Z := cursor / VGA_WIDTH.
Definition COLUMN (cursor : Z) : Z := cursor mod VGA_WIDTH.

Definition VGA_row_count : Z := VGA_HEIGHT.
Definition VGA_col_count : Z := VGA_WIDTH.

(** [CLI_GUARD; body; STI_GUARD]. *)
Definition guarded {A} (body : M vga A) : M vga A :=
  enable_ints ← gets vga_ints;
  modify (fun v => if enable_ints then set_vga_ints false v else v) ;;
  a ← body;
  modify (fun v => if enable_ints : bool then set_vga_ints true v else v) ;;
  mret a.

(** [VGA_buf[i]] and [VGA_buf[i] = x]. *)
Definition cell (i : Z) : M vga Z :=
  v ← gets id;
  match (if 0 <=? i then VGA_buf v !! Z.to_nat i else None) with Some x => mret x | None => fault end.
Definition set_cell (i x : Z) : M vga unit :=
  v ← gets id;
  if (0 <=? i) && (i <? Z.of_nat (length (VGA_buf v)))
  then modify (set_cells (<[Z.to_nat i := x]> (VGA_buf v))) else fault.

(** [memset] of [n] cells from [i] with the byte [c]. *)
Fixpoint fill_cells (n : nat) (i c : Z) : M vga unit :=
  match n with
  | O => mret tt
  | S n => set_cell i (u8 c + 2 ^ 8 * u8 c) ;; fill_cells n (i + 1) c
  end.

Definition VGA_clear : M vga unit :=
  guarded (fill_cells (Z.to_nat VGA_SIZE) 0 (Z.shiftl 0x0f 8)).

Fixpoint scroll_cells (n : nat) (i : Z) : M vga unit :=
  match n with
  | O => mret tt
  | S n => x ← cell (i + VGA_WIDTH); set_cell i x ;; scroll_cells n (i + 1)
  end.
Definition VGA_scroll : M vga unit :=
  scroll_cells (Z.to_nat (VGA_SIZE - VGA_WIDTH)) 0 ;;
  fill_cells (Z.to_nat VGA_WIDTH) (VGA_SIZE - VGA_WIDTH) 0 ;;
  modify (fun v => set_cursor (u64 ((LINE (VGA_cursor v) - 1) * VGA_WIDTH)) v).

(** A cell: the attribute and the char, which is sign-extended. *)
Definition glyph (attr c : Z) : Z := u16 (Z.lor (Z.shiftl attr 8) (sint 8 c)).

(** The function calls itself at the end of a line, with a newline: once. *)
Fixpoint display_char (depth : nat) (c : Z) : M vga unit :=
  match depth with
  | O => no_fuel
  | S depth =>
      guarded
        (if c =? 10 then
           modify (fun v => set_cursor ((LINE (VGA_cursor v) + 1) * VGA_WIDTH) v) ;;
           v ← gets id;
           if VGA_cursor v >=? VGA_WIDTH * VGA_HEIGHT then VGA_scroll else mret tt
         else if c =? 13 then
           modify (fun v => set_cursor (LINE (VGA_cursor v)) v)
         else
           v ← gets id;
           set_cell (VGA_cursor v) (glyph 0x0f c) ;;
           if COLUMN (VGA_cursor v) <? VGA_WIDTH - 1
           then modify (set_cursor (VGA_cursor v + 1))
           else display_char depth 10)
  end.
Definition VGA_display_char (c : Z) : M vga unit := display_char 2 c.

Definition VGA_display_attr_char (x y c fg bg : Z) : M vga unit :=
  guarded (set_cell (VGA_WIDTH * y + x) (glyph (Z.lor fg bg) c)).

(** The string, without its terminator. *)
Fixpoint VGA_display_str (s : list Z) : M vga unit :=
  match s with
  | [] => mret tt
  | c :: s => VGA_display_char c ;; VGA_display_str s
  end.

(** ** A terminal *)

(** Twenty-five rows of eighty cells and the place of the next char. *)
Record term := mkTerm { rows : list (list Z); row : nat; col : nat }.

Definition blank_row : list Z := repeat 0 80.
Definition newline (t : term) : term :=
  if decide (S (row t) = 25%nat) then mkTerm (tail (rows t) ++ [blank_row]) 24 0
  else mkTerm (rows t) (S (row t)) 0.
Definition put_glyph (g : Z) (t : term) : term :=
  let t' := mkTerm (alter (fun r => <[col t := g]> r) (row t) (rows t)) (row t) (S (col t)) in
  if decide (col t = 79%nat) then newline t' else t'.
Definition tput (t : term) (c : Z) : term :=
  if c =? 10 then newline t else put_glyph (glyph 0x0f c) t.

(** The screen shows the terminal, and the cursor is inside it. *)
Record shows (v : vga) (t : term) : Prop := {
  sh_rows : length (rows t) = 25%nat; sh_cols : Forall (fun r => length r = 80%nat) (rows t);
  sh_row : (row t < 25)%nat; sh_col : (col t < 80)%nat;
  sh_cells : VGA_buf v = concat (rows t);
  sh_cursor : VGA_cursor v = 80 * Z.of_nat (row t) + Z.of_nat (col t) }.

Lemma concat_length n (l : list (list Z)) : Forall (fun r => length r = n) l -> length (concat l) = (length l * n)%nat.
Proof. induction 1 as [|r l Hr _ IH]; [done|]. cbn. by rewrite length_app, IH, Hr. Qed.

Lemma concat_alter n (l : list (list Z)) i j x : Forall (fun r => length r = n) l -> (j < n)%nat ->
  concat (alter (fun r => <[j := x]> r) i l) = <[(i * n + j)%nat := x]> (concat l).
Proof.
  intros H Hj. revert i. induction H as [|r l Hr _ IH]; intros i.
  { rewrite list_insert_ge by (cbn; lia). by destruct i. }
  destruct i as [|i]; cbn [alter list_alter concat].
  - by rewrite insert_app_l by lia.
  - rewrite IH. replace (S i * n + j)%nat with (length r + (i * n + j))%nat by lia. by rewrite insert_app_r.
Qed.

(** *** The primitive steps *)

Lemma set_cell_ret i x v : 0 <= i < Z.of_nat (length (VGA_buf v)) ->
  set_cell i x v = Ret tt (set_cells (<[Z.to_nat i := x]> (VGA_buf v)) v).
Proof.
  intros Hi. unfold set_cell. rewrite bind_gets. unfold id.
  by rewrite (proj2 (Z.leb_le 0 i)), (proj2 (Z.ltb_lt i _)) by lia.
Qed.

Lemma cell_ret i x v : 0 <= i -> VGA_buf v !! Z.to_nat i = Some x -> cell i v = Ret x v.
Proof. intros Hi Hx. unfold cell. rewrite bind_gets. unfold id. by rewrite (proj2 (Z.leb_le 0 i)), Hx by done. Qed.

Lemma guarded_ret {A} (body : M vga A) v a v' :
  body (set_vga_ints false v) = Ret a v' -> vga_ints v' = false ->
  guarded body v = Ret a (set_vga_ints (vga_ints v) v').
Proof.
  intros Hb Hi. unfold guarded. rewrite bind_gets, bind_modify.
  replace (if vga_ints v then set_vga_ints false v else v) with (set_vga_ints false v)
    by (by destruct v as [? ? []]).
  rewrite (bind_ret _ _ _ _ _ Hb). rewrite bind_modify. unfold mret, M_ret.
  by destruct v as [? ? []], v' as [? ? ?]; cbn in *; subst.
Qed.

(** A loop that writes [f k] to the cells [k] from [lo] to [hi]. *)
Definition rewritten (b b' : list Z) (lo hi : nat) (f : nat -> option Z) : Prop :=
  length b' = length b /\ forall k, b' !! k = if decide (lo <= k < hi)%nat then f k else b !! k.

Lemma fill_cells_ret c n : forall i v, (i + n <= length (VGA_buf v))%nat ->
  exists b', fill_cells n (Z.of_nat i) c v = Ret tt (set_cells b' v) /\
    rewritten (VGA_buf v) b' i (i + n) (fun _ => Some (u8 c + 2 ^ 8 * u8 c)).
Proof.
  induction n as [|n IH]; intros i v Hl; cbn [fill_cells].
  { exists (VGA_buf v). split; [by destruct v|]. split; [done|]. intros k. by rewrite decide_False by lia. }
  rewrite (bind_ret _ _ _ _ _ (set_cell_ret (Z.of_nat i) _ v ltac:(lia))), Nat2Z.id.
  set (v1 := set_cells _ v). destruct (IH (S i) v1) as (b' & E & Hl' & Hk).
  { subst v1. cbn. rewrite length_insert. lia. }
  exists b'. replace (Z.of_nat i + 1) with (Z.of_nat (S i)) by lia. split; [exact E|]. subst v1. cbn [VGA_buf set_cells] in Hl', Hk.
  rewrite length_insert in Hl'. split; [done|]. intros k. rewrite Hk. destruct (decide (k = i)) as [->|Hne].
  - rewrite decide_False, decide_True by lia. apply list_lookup_insert_eq. lia.
  - rewrite list_lookup_insert_ne by done. destruct (decide (S i <= k < S i + n)%nat).
    + by rewrite decide_True by lia.
    + by rewrite decide_False by lia.
Qed.

Lemma scroll_cells_ret n : forall i v, (i + n + 80 <= length (VGA_buf v))%nat ->
  exists b', scroll_cells n (Z.of_nat i) v = Ret tt (set_cells b' v) /\
    rewritten (VGA_buf v) b' i (i + n) (fun k => VGA_buf v !! (k + 80)%nat).
Proof.
  induction n as [|n IH]; intros i v Hl; cbn [scroll_cells].
  { exists (VGA_buf v). split; [by destruct v|]. split; [done|]. intros k. by rewrite decide_False by lia. }
  destruct (lookup_lt_is_Some_2 (VGA_buf v) (i + 80)) as [x Ex]; [lia|].
  rewrite (bind_ret _ _ _ _ _ (cell_ret (Z.of_nat i + VGA_WIDTH) x v ltac:(unfold VGA_WIDTH; lia)
    ltac:(unfold VGA_WIDTH; rewrite <- Ex; f_equal; lia))).
  rewrite (bind_ret _ _ _ _ _ (set_cell_ret (Z.of_nat i) x v ltac:(lia))), Nat2Z.id.
  set (v1 := set_cells _ v). destruct (IH (S i) v1) as (b' & E & Hl' & Hk).
  { subst v1. cbn. rewrite length_insert. lia. }
  exists b'. replace (Z.of_nat i + 1) with (Z.of_nat (S i)) by lia. split; [exact E|]. subst v1. cbn [VGA_buf set_cells] in Hl', Hk.
  rewrite length_insert in Hl'. split; [done|]. intros k. rewrite Hk.
  destruct (decide (k = i)) as [->|Hne].
  - rewrite decide_False, decide_True by lia. rewrite list_lookup_insert_eq by lia. done.
  - rewrite (list_lookup_insert_ne _ i k) by done. destruct (decide (S i <= k < S i + n)%nat).
    + rewrite decide_True by lia. by rewrite list_lookup_insert_ne by lia.
    + by rewrite decide_False by lia.
Qed.

(** Scrolling drops the first row and adds a blank one. *)
Lemma VGA_scroll_ret v : length (VGA_buf v) = 2000%nat ->
  VGA_scroll v = Ret tt (set_cursor (u64 ((LINE (VGA_cursor v) - 1) * VGA_WIDTH))
                           (set_cells (drop 80 (VGA_buf v) ++ blank_row) v)).
Proof.
  intros Hl. unfold VGA_scroll.
  destruct (scroll_cells_ret (Z.to_nat (VGA_SIZE - VGA_WIDTH)) 0 v) as (b1 & E1 & Hl1 & Hk1).
  { rewrite Hl. vm_compute. lia. }
  rewrite (bind_ret _ _ _ _ _ E1).
  destruct (fill_cells_ret 0 (Z.to_nat VGA_WIDTH) 1920 (set_cells b1 v)) as (b2 & E2 & Hl2 & Hk2).
  { cbn [VGA_buf set_cells]. rewrite Hl1, Hl. vm_compute. lia. }
  change (VGA_SIZE - VGA_WIDTH) with (Z.of_nat 1920). rewrite (bind_ret _ _ _ _ _ E2). unfold modify. f_equal.
  unfold set_cursor. cbn [VGA_buf VGA_cursor vga_ints set_cells] in *. f_equal. apply list_eq. intros k.
  rewrite Hk2, Hk1. change (Z.to_nat VGA_WIDTH) with 80%nat. change (Z.to_nat (VGA_SIZE - VGA_WIDTH)) with 1920%nat.
  destruct (decide (k < 1920)%nat) as [Hlt|Hge].
  - rewrite decide_False, decide_True by lia. rewrite lookup_app_l by (rewrite length_drop; lia).
    rewrite lookup_drop. f_equal. lia.
  - rewrite lookup_app_r by (rewrite length_drop; lia). rewrite length_drop, Hl. unfold blank_row.
    destruct (decide (1920 <= k < 1920 + 80)%nat) as [Hin|Hout].
    + symmetry. apply (lookup_replicate_2 80 0). lia.
    + rewrite decide_False by lia. rewrite lookup_ge_None_2 by lia. symmetry.
      apply lookup_ge_None_2. rewrite repeat_length. lia.
Qed.

(** *** The terminal is what the screen shows *)

Lemma blank_length : length blank_row = 80%nat. Proof. done. Qed.

Lemma shows_length v t : shows v t -> length (VGA_buf v) = 2000%nat.
Proof. intros [Hr Hc _ _ -> _]. rewrite (concat_length 80) by done. by rewrite Hr. Qed.

Lemma shows_ints b v t : shows v t -> shows (set_vga_ints b v) t.
Proof. by intros []. Qed.

Lemma set_ints_twice a b v : set_vga_ints a (set_vga_ints b v) = set_vga_ints a v.
Proof. done. Qed.

(** A newline, from inside a row or just past its last cell. *)
Lemma newline_ret depth v t : VGA_buf v = concat (rows t) -> length (rows t) = 25%nat ->
  Forall (fun r => length r = 80%nat) (rows t) -> (row t < 25)%nat ->
  80 * Z.of_nat (row t) <= VGA_cursor v < 80 * Z.of_nat (row t) + 80 ->
  exists v', display_char (S depth) 10 v = Ret tt v' /\ shows v' (newline t) /\ vga_ints v' = vga_ints v.
Proof.
  intros Hb Hr Hc Hrow Hcur.
  assert (Hline : LINE (VGA_cursor v) = Z.of_nat (row t)).
  { unfold LINE, VGA_WIDTH. symmetry. apply (Z.div_unique _ _ _ (VGA_cursor v - 80 * Z.of_nat (row t))); lia. }
  assert (Hlen : length (VGA_buf v) = 2000%nat) by (rewrite Hb, (concat_length 80) by done; by rewrite Hr).
  cbn [display_char Z.eqb Pos.eqb]. unfold newline. destruct (decide (S (row t) = 25%nat)) as [Elast|Hin].
  - eexists. split.
    { eapply guarded_ret; [rewrite bind_modify, bind_gets; unfold id at 1;
      cbn [VGA_cursor set_cursor set_vga_ints]; rewrite Hline, Z.geb_leb, (proj2 (Z.leb_le _ _)) by (unfold VGA_WIDTH, VGA_HEIGHT; lia);
      apply VGA_scroll_ret; exact Hlen|done]. }
    split; [|done]. destruct (rows t) as [|r0 rs] eqn:Er; [done|]. apply Forall_cons in Hc as [Hr0 Hc].
    split; cbn [rows row col tail VGA_buf VGA_cursor set_vga_ints set_cursor set_cells length] in *.
    + rewrite length_app. cbn. lia.
    + apply Forall_app. split; [done|]. repeat constructor.
    + lia.
    + lia.
    + rewrite Hb, concat_app. cbn [concat]. rewrite app_nil_r, <- Hr0, drop_app_length. done.
    + unfold LINE, VGA_WIDTH. rewrite Z.div_mul by lia. rewrite wrap_small by (split; [lia|]; transitivity 2000; [lia|reflexivity]). lia.
  - eexists. split.
    { eapply guarded_ret; [rewrite bind_modify, bind_gets; unfold id at 1;
      cbn [VGA_cursor set_cursor set_vga_ints]; rewrite Hline, Z.geb_leb, (proj2 (Z.leb_gt _ _)) by (unfold VGA_WIDTH, VGA_HEIGHT; lia);
      reflexivity|done]. }
    split; [|done]. split; cbn [rows row col VGA_buf VGA_cursor set_vga_ints set_cursor]; try done; try lia.
    unfold VGA_WIDTH. lia.
Qed.

Lemma tput_shows c v t : c <> 13 -> shows v t ->
  exists v', VGA_display_char c v = Ret tt v' /\ shows v' (tput t c) /\ vga_ints v' = vga_ints v.
Proof.
  intros H13 Hs. pose proof (shows_length v t Hs) as Hlen. destruct Hs as [Hr Hc Hrow Hcol Hb Hcur].
  unfold VGA_display_char, tput. destruct (Z.eqb_spec c 10) as [->|H10].
  { apply newline_ret; try done. lia. }
  set (g := glyph 15 c). cbn [display_char].
  rewrite (proj2 (Z.eqb_neq c 10) H10), (proj2 (Z.eqb_neq c 13) H13).
  assert (Hcolumn : COLUMN (VGA_cursor v) = Z.of_nat (col t)).
  { unfold COLUMN, VGA_WIDTH. symmetry. apply (Z.mod_unique _ _ (Z.of_nat (row t))); lia. }
  set (rs := alter (fun r => <[col t := g]> r) (row t) (rows t)).
  assert (Hrs : length rs = 25%nat) by (subst rs; by rewrite length_alter).
  assert (Hcs : Forall (fun r => length r = 80%nat) rs).
  { subst rs. apply Forall_alter; [done|]. intros r Hr80 Hr0. by rewrite length_insert. }
  assert (Hbs : <[Z.to_nat (VGA_cursor v) := g]> (VGA_buf v) = concat rs).
  { subst rs. rewrite (concat_alter 80) by done. rewrite Hb. f_equal. lia. }
  set (v1 := set_cells (concat rs) (set_vga_ints false v)).
  assert (Hcell : set_cell (VGA_cursor (set_vga_ints false v)) g (set_vga_ints false v) = Ret tt v1).
  { rewrite set_cell_ret by (cbn; lia). subst v1. cbn [VGA_cursor VGA_buf set_vga_ints]. by rewrite Hbs. }
  unfold put_glyph. fold rs. destruct (decide (col t = 79%nat)) as [E79|Hin].
  - destruct (newline_ret 0 v1 (mkTerm rs (row t) (S (col t)))) as (v2 & E2 & Hs2 & Hi2); try done.
    { subst v1. cbn. lia. }
    exists (set_vga_ints (vga_ints v) v2). split; [|split; [by apply shows_ints|done]].
    apply guarded_ret; [|done]. rewrite bind_gets. unfold id at 1. fold g. rewrite (bind_ret _ _ _ _ _ Hcell).
    cbn [VGA_cursor set_vga_ints]. rewrite Hcolumn, (proj2 (Z.ltb_ge _ _)) by (unfold VGA_WIDTH; lia). exact E2.
  - exists (set_vga_ints (vga_ints v) (set_cursor (VGA_cursor v + 1) v1)). split; [|split; [|done]].
    + apply guarded_ret; [|done]. rewrite bind_gets. unfold id at 1. fold g. rewrite (bind_ret _ _ _ _ _ Hcell).
      cbn [VGA_cursor set_vga_ints]. by rewrite Hcolumn, (proj2 (Z.ltb_lt _ _)) by (unfold VGA_WIDTH; lia).
    + split; cbn [rows row col VGA_buf VGA_cursor set_vga_ints set_cursor set_cells v1]; try done; lia.
Qed.

(** C27: displaying any text without carriage returns does to the screen what it does to
    a terminal of 25 rows of 80 columns that wraps its lines and scrolls; the cursor
    and every access stay on the screen, and the interrupt flag is as it was. *)
Theorem terminal_refines s v t : shows v t -> Forall (fun c => c <> 13) s ->
  exists v', VGA_display_str s v = Ret tt v' /\ shows v' (fold_left tput s t) /\ vga_ints v' = vga_ints v.
Proof.
  intros Hs Hc. revert v t Hs. induction Hc as [|c s Hc _ IH]; intros v t Hs; cbn [VGA_display_str fold_left].
  { by exists v. }
  destruct (tput_shows c v t Hc Hs) as (v1 & E1 & Hs1 & Hi1). rewrite (bind_ret _ _ _ _ _ E1).
  destruct (IH v1 (tput t c) Hs1) as (v2 & E2 & Hs2 & Hi2). exists v2. repeat split; try apply Hs2; congruence.
Qed.

(** A carriage return does not go to the start of the line but to the cell of the first
    row whose column is the number of the line. *)
Lemma carriage_return_to_first_row v t : shows v t ->
  exists v', VGA_display_char 13 v = Ret tt v' /\ VGA_cursor v' = Z.of_nat (row t).
Proof.
  intros [_ _ Hrow Hcol _ Hcur]. eexists. split; [by apply guarded_ret|]. cbn. rewrite Hcur.
  unfold LINE, VGA_WIDTH. symmetry. apply (Z.div_unique _ _ _ (Z.of_nat (col t))); lia.
Qed.

(** [VGA_clear] makes every cell zero: [memset] keeps the low byte of [0x0f << 8]. *)
Lemma VGA_clear_zero v : length (VGA_buf v) = 2000%nat ->
  VGA_clear v = Ret tt (set_cells (repeat 0 2000) v).
Proof.
  intros Hl. unfold VGA_clear.
  destruct (fill_cells_ret (Z.shiftl 15 8) (Z.to_nat VGA_SIZE) 0 (set_vga_ints false v)) as (b & E & Hlb & Hk).
  { cbn [VGA_buf set_vga_ints]. rewrite Hl. vm_compute. lia. }
  erewrite guarded_ret; [|exact E|done]. f_equal. unfold set_cells, set_vga_ints. cbn [VGA_buf VGA_cursor vga_ints].
  f_equal. apply list_eq. intros k. rewrite Hk. cbn [VGA_buf set_vga_ints] in *.
  destruct (decide (k < 2000)%nat) as [Hlt|Hge].
  - rewrite decide_True by (split; [lia|]; vm_compute Z.to_nat; lia). symmetry. by apply (lookup_replicate_2 2000 0).
  - rewrite decide_False by (intros [_ H]; vm_compute Z.to_nat in H; lia).
    rewrite !lookup_ge_None_2; [done|rewrite repeat_length|]; lia.
Qed.

(** ** The screen after boot, for the witnesses *)

Definition blank_term : term := mkTerm (repeat blank_row 25) 0 0.
Definition boot_vga : vga := mkVga (repeat 0 2000) 0 false.
Lemma boot_shows : shows boot_vga blank_term.
Proof.
  split; try (vm_compute; (done || lia)). apply Forall_forall. intros r Hr.
  by apply list_elem_of_In, repeat_spec in Hr as ->.
Qed.

Lemma terminal_refines_witness :
  exists v', VGA_display_str [72; 105; 10] boot_vga = Ret tt v' /\
    shows v' (fold_left tput [72; 105; 10] blank_term) /\ vga_ints v' = false.
Proof. apply (terminal_refines [72; 105; 10] boot_vga blank_term boot_shows). repeat constructor; lia. Defined.
