(* ===== verification/Serial.v ===== *)
(** * Serial: the serial line (src/src/serial.c)

    A ring of bytes to send, the ports of the UART, and the interrupt controller. The
    state is the interrupt state, with a ring somewhere in its world. *)

From S2P Require Import Prelude RingBuffer Ports Interrupts RingDev.

(** Addresses: of the handler and of the ring. *)
Class SerialStatics := { serial_handler_addr : Z; serial_ring_addr : Z }.

(** ** Operations *)

Definition COM1 : Z := 0x3f8.
Definition INT_ENABLE_TRANSMIT_EMPTY : Z := Z.shiftl 1 1.
Definition IRQ4 : Z := 4.

Section serial.
Context {W : Type} `{HasRing W} `{Hardware}.
Abbreviation K := (M (irq_state W)).

Definition is_transmit_empty : K bool :=
  v ← portop (inb (COM1 + 5));
  mret (negb (Z.land v 0x20 =? 0)).
Definition write_serial (c : Z) : K unit := portop (outb COM1 c).

Definition serial_ring_consumer_serial_write : K unit :=
  e ← is_transmit_empty;
  if e : bool then
    c ← ringop ring_consumer_next;
    match c with Some c => write_serial c | None => mret tt end
  else mret tt.

Definition serial_transmit_ready_handler (num : Z) : K unit :=
  serial_ring_consumer_serial_write ;;
  portop (PIC_sendEOI num).

Fixpoint add_chars (buff : list Z) : K unit :=
  match buff with
  | [] => mret tt
  | c :: buff => _ ← ringop (ring_producer_add_char c); add_chars buff
  end.

(** [SER_write(buff, len)], [buff] being the [len] bytes. *)
Definition SER_write (buff : list Z) : K Z :=
  enable_ints ← gets (fun s : irq_state W => ints s);
  (if enable_ints : bool then CLI else mret tt : K unit) ;;
  add_chars buff ;;
  serial_ring_consumer_serial_write ;;
  i ← gets (fun s : irq_state W => ints s);
  (if i : bool then STI else mret tt : K unit) ;;
  (if enable_ints : bool then STI else mret tt : K unit) ;;
  mret (Z.of_nat (length buff)).

Definition SER_init `{SerialStatics} : K unit :=
  ringop (ring_init false 0) ;;
  portop (outbs [(COM1 + 1, 0x00); (COM1 + 3, 0x03); (COM1 + 2, 0xC7); (COM1 + 4, 0x0B); (COM1 + 4, 0x1E); (COM1 + 0, 0xAE)]) ;;
  echo ← portop (inb (COM1 + 0));
  if negb (echo =? 0xAE) then panic "serial chip fault!" []
  else
    IRQ_handler_set (IRQ_BASE + IRQ4) serial_handler_addr serial_ring_addr ;;
    portop (IRQ_clear_mask IRQ4) ;;
    portop (outb (COM1 + 1) INT_ENABLE_TRANSMIT_EMPTY) ;;
    portop (outb (COM1 + 4) 0x0F) ;;
    print "serial chip initialized" [].

(** ** What goes over the line *)

(** The bytes sent, in order. *)
Definition sent_on (port : Z) (tr : list io) : list Z :=
  omap (fun e => match e with Outb p v => if p =? port then Some v else None | _ => None end) tr.

Lemma sent_on_app port tr tr' : sent_on port (tr ++ tr') = sent_on port tr ++ sent_on port tr'.
Proof. apply omap_app. Qed.

(** Whether the UART is ready for a byte after the accesses [tr]. *)
Definition line_ready (tr : list io) : bool := negb (Z.land (u8 (hw tr (COM1 + 5))) 0x20 =? 0).

Lemma is_transmit_empty_ret s : exists v,
  is_transmit_empty s = Ret (line_ready (ports s)) (set_ports (ports s ++ [Inb (COM1 + 5) v]) s).
Proof. eexists. reflexivity. Qed.

(** Accesses of the data and status ports of the UART. *)
Definition line_access (e : io) : Prop :=
  match e with Inb p _ => p = COM1 + 5 | Outb p _ => p = COM1 | _ => False end.

(** One round of the consumer: the oldest byte, if the line is ready. *)
Lemma consumer_round s q : waiting s q ->
  exists s' tr, serial_ring_consumer_serial_write s = Ret tt s' /\ only_line s s' tr /\
    waiting s' (if line_ready (ports s) then tail q else q) /\
    sent_on COM1 tr = (if line_ready (ports s) then take 1 q else []) /\ Forall line_access tr.
Proof.
  intros [Hr Hq]. destruct (is_transmit_empty_ret s) as [v E].
  unfold serial_ring_consumer_serial_write. rewrite (bind_ret _ _ _ _ _ E).
  set (s1 := set_ports _ s). destruct (line_ready (ports s)); [|].
  - destruct (ring_next_spec (ring (world s1)) q Hr) as (r & En & Hr' & _).
    rewrite (bind_ret _ _ _ _ _ (ringop_ret _ s1 _ r En)). set (s2 := set_world _ s1).
    destruct q as [|c q]; cbn [head tail take] in *.
    + exists s2, [Inb (COM1 + 5) v]. split; [done|].
      split; [apply (only_line_trans s s1 s2 [Inb (COM1 + 5) v] []); [apply only_line_ports|apply only_line_ring]|]. split; [by apply waiting_set|].
      split; [done|by repeat constructor].
    + apply Forall_cons in Hq as [Hc Hq]. eexists _, [Inb (COM1 + 5) v; Outb COM1 (u8 c)].
      split; [reflexivity|]. split; [|split].
      * apply (only_line_trans s s1 _ [_] [_]); [apply only_line_ports|].
        apply (only_line_trans s1 s2 _ [] [_]); [apply only_line_ring|apply only_line_ports].
      * change (waiting s2 q). by apply waiting_set.
      * cbn. rewrite take_0, wrap_small by done. split; [done|by repeat constructor].
  - exists s1, [Inb (COM1 + 5) v]. split; [done|]. split; [apply only_line_ports|]. split; [done|].
    split; [done|by repeat constructor].
Qed.

Lemma add_chars_ret l s q : waiting s q -> Forall is_char8 l ->
  exists s', add_chars l s = Ret tt s' /\ only_line s s' [] /\ waiting s' (q ++ take (15 - length q) l).
Proof.
  intros Hw Hl. revert s q Hw. induction Hl as [|c l Hc Hl IH]; intros s q [Hr Hq]; cbn [add_chars].
  { exists s. rewrite take_nil, app_nil_r. split; [done|]. split; [apply only_line_refl|done]. }
  destruct (ring_add_spec (ring (world s)) q c Hr) as (r & E & Hr' & _).
  rewrite (bind_ret _ _ _ _ _ (ringop_ret _ s _ r E)). set (s1 := set_world _ s).
  assert (Hs1 : only_line s s1 []) by apply only_line_ring.
  destruct (Nat.ltb_spec (length q) 15) as [Hlt|Hge].
  - destruct (IH s1 (q ++ [c])) as (s2 & E2 & Hs2 & Hw2).
    { apply waiting_set; [done|]. apply Forall_app. split; [done|]. by apply Forall_singleton. }
    exists s2. split; [done|]. split; [by apply (only_line_trans s s1 s2 [] [])|].
    rewrite length_app in Hw2. cbn [length] in Hw2.
    replace (15 - length q)%nat with (S (15 - (length q + 1)))%nat by lia. cbn [take]. by rewrite <- app_assoc in Hw2.
  - destruct (IH s1 q) as (s2 & E2 & Hs2 & Hw2); [by apply waiting_set|].
    exists s2. split; [done|]. split; [by apply (only_line_trans s s1 s2 [] [])|].
    replace (15 - length q)%nat with 0%nat in * by lia. by rewrite take_0 in *.
Qed.

(** ** The line as a queue *)

(** Writes, and the interrupts that say the UART can take a byte. *)
Inductive serial_op := Write (l : list Z) | Ready.
Definition run_serial (o : serial_op) : K unit :=
  match o with
  | Write l => _ ← SER_write l; mret tt
  | Ready => serial_transmit_ready_handler (IRQ_BASE + IRQ4)
  end.
Fixpoint run_serials (os : list serial_op) : K unit :=
  match os with [] => mret tt | o :: os => run_serial o ;; run_serials os end.
Definition op_bytes (o : serial_op) : list Z := match o with Write l => l | Ready => [] end.

(** What a write leaves room for. *)
Definition accepted (q : list Z) (o : serial_op) : list Z := take (15 - length q) (op_bytes o).

Lemma run_serial_step o s q : waiting s q -> Forall is_char8 (op_bytes o) ->
  exists s' tr q', run_serial o s = Ret tt s' /\ only_line s s' tr /\ waiting s' q' /\
    sent_on COM1 tr ++ q' = q ++ accepted q o /\
    ((forall tr, line_ready tr = true) -> q' = tail (q ++ accepted q o)) /\
    (o <> Ready -> Forall line_access tr).
Proof.
  intros Hw Hl. destruct o as [l|]; cbn [run_serial op_bytes accepted] in *.
  - set (s0 := set_ints false s). assert (Hw0 : waiting s0 q) by exact Hw.
    destruct (add_chars_ret l s0 q Hw0 Hl) as (s1 & E1 & O1 & Hw1).
    destruct (consumer_round s1 _ Hw1) as (s2 & tr & E2 & O2 & Hw2 & Hs2 & Ha).
    pose proof (only_line_trans s0 s1 s2 [] tr O1 O2) as (P & I2 & T & WW). cbn [app] in P.
    pose proof (proj1 (proj2 O1)) as I1. rewrite <- I1 in I2.
    exists (set_ints (ints s) s2), tr, (if line_ready (ports s1) then tail (q ++ take (15 - length q) l) else q ++ take (15 - length q) l).
    split; [|split; [|split; [exact Hw2|split; [|split; [|done]]]]].
    + unfold SER_write. rewrite <- bind_assoc, bind_gets.
      assert (Hs0 : (if ints s then CLI else mret tt) s = Ret tt s0) by (subst s0; by destruct s as [? ? ? ? ? ? ? ? ? [] ? ? ?]).
      rewrite <- bind_assoc, (bind_ret _ _ _ _ _ Hs0), <- bind_assoc, (bind_ret _ _ _ _ _ E1).
      rewrite <- bind_assoc, (bind_ret _ _ _ _ _ E2), <- bind_assoc, bind_gets.
      replace (ints s2) with false by (rewrite I2, I1; done). rewrite <- bind_assoc, bind_mret.
      destruct s2 as [? ? ? ? ? ? ? ? ? i2 ? ? ?]. cbn in I2, I1. subst i2. rewrite I1 in *.
      by destruct (ints s).
    + repeat split; [exact P|exact T|exact WW].
    + rewrite Hs2. change (accepted q (Write l)) with (take (15 - length q) l).
      destruct (line_ready _); [|done]. by destruct (q ++ take (15 - length q) l).
    + intros Hrdy. by rewrite Hrdy.
  - destruct (consumer_round s q Hw) as (s1 & tr & E & O1 & Hw1 & Hs1 & _).
    exists (set_ports (ports s1 ++ [Outb PIC2_COMMAND PIC_EOI; Outb PIC1_COMMAND PIC_EOI]) s1),
      (tr ++ [Outb PIC2_COMMAND PIC_EOI; Outb PIC1_COMMAND PIC_EOI]), (if line_ready (ports s) then tail q else q).
    unfold accepted. cbn [op_bytes]. rewrite take_nil, app_nil_r.
    split; [|split; [|split; [exact Hw1|split; [|split; [|done]]]]].
    + unfold serial_transmit_ready_handler. rewrite (bind_ret _ _ _ _ _ E). unfold portop, zoom.
      by rewrite PIC_sendEOI_vector by (unfold IRQ_BASE, IRQ4; lia).
    + apply (only_line_trans s s1 _ tr _); [done|apply only_line_ports].
    + rewrite sent_on_app. cbn. rewrite app_nil_r, Hs1. destruct (line_ready _); [|done]. by destruct q.
    + intros Hrdy. by rewrite Hrdy.
Qed.


(** The masks after more accesses that write neither controller. *)
Lemma masked_app tr tr' k : last_out PIC1_DATA (last_out PIC1_DATA 0 tr) tr' = last_out PIC1_DATA 0 tr ->
  last_out PIC2_DATA (last_out PIC2_DATA 0 tr) tr' = last_out PIC2_DATA 0 tr -> masked (tr ++ tr') k = masked tr k.
Proof. intros H1' H2'. unfold masked. by rewrite !last_out_app, H1', H2'. Qed.

(** A UART that does not echo stops the machine; otherwise the ring is empty, the transmit
    interrupt has its handler, its line has been opened and no other, and the rest
    of the machine is as before. *)
Lemma SER_init_ret `{SerialStatics} s : length (buff (ring (world s))) = 16%nat ->
  runs SER_init s
    (fun _ s' => exists r tr, ring_rep r [] /\
       s' = set_printed (printed s ++ [("serial chip initialized"%string, [])]) (set_ports tr
         (set_irq_table (<[Z.to_nat (IRQ_BASE + IRQ4) := mkEntry serial_ring_addr serial_handler_addr]> (irq_table s))
           (set_world (set_ring r (world s)) s))) /\
       (pic_reads_back -> forall k, 0 <= k < 16 -> masked tr k = negb (k =? IRQ4) && masked (ports s) k))
    (fun msg _ => msg = "serial chip fault!"%string).
Proof.
  intros Hl. destruct (ring_init_rep false 0 _ Hl) as (r & E & Hr & _).
  unfold SER_init. eapply runs_bind_ret; [apply ringop_ret, E|]. set (s1 := set_world _ s).
  eapply runs_bind_ret; [apply (zoom_ret ports set_ports), outbs_ret|]. set (tr1 := ports s1 ++ _).
  assert (Hi : inb (COM1 + 0) tr1 = Ret (u8 (hw tr1 (COM1 + 0))) (tr1 ++ [Inb (COM1 + 0) (u8 (hw tr1 (COM1 + 0)))])) by done.
  eapply runs_bind_ret; [apply (zoom_ret ports set_ports); exact Hi|].
  destruct (negb _); [reflexivity|]. set (tr2 := tr1 ++ _) in *.
  apply (runs_bind_ret _ _ tt _ (set_irq_table (<[Z.to_nat (IRQ_BASE + IRQ4) := mkEntry serial_ring_addr serial_handler_addr]>
    (irq_table s)) (set_ports tr2 (set_ports tr1 s1)))); [reflexivity|].
  assert (Hm : forall k, masked tr2 k = masked (ports s) k).
  { intros k. subst tr2 tr1. rewrite <- app_assoc. by apply masked_app. }
  destruct (IRQ_clear_mask IRQ4 tr2) as [[] tr3| | |] eqn:E3; [|done..].
  eapply runs_bind_ret; [apply (zoom_ret ports set_ports); exact E3|].
  eapply runs_bind_ret; [apply (zoom_ret ports set_ports); reflexivity|].
  eapply runs_bind_ret; [apply (zoom_ret ports set_ports); reflexivity|].
  eexists r, _. split; [exact Hr|]. split; [reflexivity|].
  intros Hp k Hk. cbn [ports set_ports]. rewrite <- app_assoc, masked_app by done.
  destruct (irq_masks_correct IRQ4 tr2 Hp) as [_ (tr3' & E3' & Hk3)]; [unfold IRQ4; lia|].
  rewrite E3 in E3'. injection E3' as <-. by rewrite Hk3, Hm.
Qed.

End serial.

(** ** A UART, for the witnesses *)

Module SerialDemo.
(** Ready at every second look, and echoing. *)
#[export] Instance slow_uart : Hardware := fun tr port =>
  if port =? COM1 + 5 then (if Nat.even (length tr) then 0x20 else 0) else last_out port 0 tr.
End SerialDemo.

Import RingDemo SerialDemo.

