(* ===== verification/Printk.v ===== *)
(** * Printk: formatted printing (src/src/printk.c, src/include/printk.h)

    Over any console: an operation that prints a char and one that puts a char on
    the screen alone, which the sign of a number goes through. The last part runs
    it on the screen of Vga.v and the line of Serial.v. *)

From S2P Require Import Prelude RingBuffer Ports Interrupts RingDev Vga Serial.

(** ** Arguments and numbers *)

(** A variadic argument: the 64 bits of its register, or a string. *)
Inductive va := VInt (bits : Z) | VStr (s : list Z).

(** The integer types the macros are instantiated with. *)
Inductive itype := Short | Int | Long | LongLong.
Definition width (t : itype) : Z := match t with Short => 16 | Int => 32 | Long | LongLong => 64 end.
Definition uint (t : itype) (n : Z) : Z := wrap (width t) n.

Definition BUF_LEN : nat := 32.

(** The do-while loops that fill [buf], least significant digit first, [room] chars
    being free in it; past its end they have no meaning. *)
Fixpoint unsigned_digits (room : nat) (n : Z) (buf : list Z) : option (list Z) :=
  match room with
  | O => None
  | S room =>
      let buf := buf ++ [u8 (48 + n mod 10)] in
      let n := n / 10 in
      if n >? 0 then unsigned_digits room n buf else Some buf
  end.

(** [%] and [/] of a signed type round toward zero. *)
Fixpoint hex_digits (room : nat) (n : Z) (buf : list Z) : option (list Z) :=
  match room with
  | O => None
  | S room =>
      let d := Z.rem n 16 in
      let buf := buf ++ [u8 (if d <? 10 then 48 + d else 97 + d - 10)] in
      let n := Z.quot n 16 in
      if n >? 0 then hex_digits room n buf else Some buf
  end.

(** ** Operations *)

Section printk.
Context {S : Type} (put_char screen_char : Z -> M S unit).
Abbreviation P := (M S).

Definition print_char (c : Z) : P Z := put_char c ;; mret 1.

Fixpoint print_chars (l : list Z) : P unit :=
  match l with [] => mret tt | c :: l => _ ← print_char c; print_chars l end.

(** [for (i = size - 1; i >= 0; i -= 1) print_char(buf[i])] and [return size]. *)
Definition print_buf (buf : option (list Z)) : P Z :=
  match buf with
  | Some buf => print_chars (rev buf) ;; mret (Z.of_nat (length buf))
  | None => fault
  end.
Definition print_unsigned (n : Z) : P Z := print_buf (unsigned_digits BUF_LEN n []).
Definition print_hex (n : Z) : P Z := print_buf (hex_digits BUF_LEN n []).

(** [-n] of the least int or long overflows; a short is an int by then. *)
Definition print_signed (t : itype) (n : Z) : P Z :=
  if n <? 0 then
    screen_char 45 ;;
    if (n =? - 2 ^ (width t - 1)) && negb (width t =? 16) then fault
    else r ← print_unsigned (uint t (- n)); mret (1 + r)
  else print_unsigned (uint t n).

(** The type [print_hex] is instantiated with is unsigned, but for [long long]. *)
Definition print_hex_as (t : itype) (n : Z) : P Z :=
  match t with LongLong => print_hex n | _ => print_hex (uint t n) end.

Definition print_sized (t : itype) (n specifier : Z) : P Z :=
  if specifier =? 100 then print_signed t n
  else if specifier =? 117 then print_unsigned (uint t n)
  else if specifier =? 120 then print_hex_as t n
  else mret 0.

Definition print_percent : P Z := print_char 37.

Fixpoint print_string (s : list Z) (printed : Z) : P Z :=
  match s with
  | [] => mret printed
  | c :: s => r ← print_char c; print_string s (printed + r)
  end.

(** [va_arg(args, T)]: of an integer type [T] of [w] bits, or a string. *)
Definition va_int (a : option va) : P Z := match a with Some (VInt b) => mret b | _ => fault end.
Definition va_str (a : option va) : P (list Z) := match a with Some (VStr s) => mret s | _ => fault end.

(** One conversion, after the percent sign: [None] when the specifier is not one. *)
Definition print_plain (c : Z) (a : option va) : option (P Z) :=
  if c =? 115 then Some (s ← va_str a; print_string s 0)
  else if c =? 99 then Some (n ← va_int a; print_char (u8 n))
  else if c =? 100 then Some (n ← va_int a; print_signed Int (sint 32 n))
  else if c =? 117 then Some (n ← va_int a; print_unsigned (u32 n))
  else if c =? 120 then Some (n ← va_int a; print_hex (u32 n))
  else if c =? 112 then Some (n ← va_int a; print_hex (u64 n))
  else None.
Definition sized (c : Z) : option itype :=
  if c =? 104 then Some Short else if c =? 108 then Some Long else if c =? 113 then Some LongLong else None.

(** [fmt] is the string without its terminator; past the terminator the code reads
    what is behind the string. *)
Fixpoint printk_loop (fmt : list Z) (args : list va) (printed : Z) : P Z :=
  match fmt with
  | [] => mret printed
  | c :: fmt =>
      if c =? 37 then
        match fmt with
        | [] => _ ← print_char 37; _ ← print_char 0; fault
        | c :: fmt =>
            if c =? 37 then r ← print_percent; printk_loop fmt args (printed + r)
            else
              match print_plain c (head args) with
              | Some m => r ← m; printk_loop fmt (tail args) (printed + r)
              | None =>
                  match sized c with
                  | Some t =>
                      n ← va_int (head args);
                      match fmt with
                      | [] => r ← print_sized t (sint (width t) n) 0; fault
                      | c :: fmt => r ← print_sized t (sint (width t) n) c; printk_loop fmt (tail args) (printed + r)
                      end
                  | None => r ← print_char 37; r' ← print_char c; printk_loop fmt args (printed + r + r')
                  end
              end
        end
      else r ← print_char c; printk_loop fmt args (printed + r)
  end.
Definition printk (fmt : list Z) (args : list va) : P Z := printk_loop fmt args 0.

End printk.

(** ** Numerals *)

(** The value of a digit char, and of a numeral most significant digit first. *)
Definition digit_value (c : Z) : option Z :=
  if (48 <=? c) && (c <=? 57) then Some (c - 48)
  else if (97 <=? c) && (c <=? 102) then Some (c - 87) else None.
Fixpoint numeral_value (base acc : Z) (l : list Z) : option Z :=
  match l with
  | [] => Some acc
  | c :: l => d ← digit_value c; if d <? base then numeral_value base (base * acc + d) l else None
  end.

(** [l] is the numeral of [n]: its digits are of the base, it has the value, and
    starts with a zero only if it is one. *)
Definition is_numeral (base n : Z) (l : list Z) : Prop :=
  numeral_value base 0 l = Some n /\ l <> [] /\ (head l = Some 48 -> l = [48]).

Lemma numeral_value_snoc base l c acc :
  numeral_value base acc (l ++ [c]) =
    (v ← numeral_value base acc l; d ← digit_value c; if d <? base then Some (base * v + d) else None).
Proof.
  revert acc. induction l as [|x l IH]; intros acc; cbn.
  - destruct (digit_value c) as [d|]; cbn; [|done]. by destruct (d <? base).
  - destruct (digit_value x) as [d|]; cbn; [|done]. destruct (d <? base); [apply IH|done].
Qed.

(** A numeral with one more digit at its end. *)
Lemma is_numeral_snoc base n l c d : is_numeral base n l -> 0 < n -> digit_value c = Some d -> d < base ->
  is_numeral base (base * n + d) (l ++ [c]).
Proof.
  intros (Hv & Hne & Hz) Hn Hd Hlt. split; [|split].
  - rewrite numeral_value_snoc, Hv. cbn. rewrite Hd. cbn. by rewrite (proj2 (Z.ltb_lt d base)).
  - by destruct l.
  - intros Hh. destruct l as [|x l]; [done|]. cbn in Hh. injection Hh as ->. specialize (Hz eq_refl).
    injection Hz as ->. cbn in Hv. change (48 - 48) with 0 in Hv. destruct (0 <? base); [|done]. injection Hv. lia.
Qed.

Lemma is_numeral_digit base d c : digit_value c = Some d -> 0 <= d < base -> is_numeral base d [c].
Proof.
  intros Hd Hlt. split; [|split; [done|]].
  - cbn. rewrite Hd. cbn. rewrite (proj2 (Z.ltb_lt d base)) by lia. f_equal. lia.
  - cbn. congruence.
Qed.

Lemma digit_char d : 0 <= d < 16 ->
  digit_value (u8 (if d <? 10 then 48 + d else 97 + d - 10)) = Some d.
Proof.
  intros Hd. assert (Hw : forall x, 0 <= x < 256 -> u8 x = x) by (intros x Hx; by apply wrap_small).
  destruct (Z.ltb_spec d 10); rewrite Hw by lia; unfold digit_value; zcases; cbn [andb]; (lia || (f_equal; lia)).
Qed.

(** There is one numeral. *)
Lemma digit_value_inj c c' d : digit_value c = Some d -> digit_value c' = Some d -> c = c' /\ 0 <= d /\ (c <> 48 -> 0 < d).
Proof.
  unfold digit_value. zcases; cbn [andb]; intros [= <-] [= E]; lia.
Qed.
Lemma numeral_positive base l : forall acc v, numeral_value base acc l = Some v -> 0 <= acc -> 0 <= v /\ (0 < acc -> 0 < v).
Proof.
  induction l as [|c l IH]; intros acc v; cbn [numeral_value]; [by intros [= <-]|].
  destruct (digit_value c) as [d|] eqn:Ed; [|done]. cbn. destruct (Z.ltb_spec d base); [|done]. intros E Ha.
  destruct (digit_value_inj c c d Ed Ed) as (_ & Hd & _). destruct (IH _ _ E); nia.
Qed.
Lemma numeral_last base l c n : numeral_value base 0 (l ++ [c]) = Some n ->
  exists v d, numeral_value base 0 l = Some v /\ digit_value c = Some d /\ 0 <= d < base /\ n = base * v + d.
Proof.
  rewrite numeral_value_snoc. destruct (numeral_value base 0 l) as [v|]; [|done]. cbn.
  destruct (digit_value c) as [d|] eqn:Ed; [|done]. cbn. destruct (Z.ltb_spec d base); [|done]. intros [= <-].
  exists v, d. split; [done|]. split; [done|]. split; [|done]. destruct (digit_value_inj c c d Ed Ed). lia.
Qed.
(** A digit in front that is not zero counts. *)
Lemma numeral_leading base n l c : is_numeral base n (l ++ [c]) -> l <> [] ->
  exists v, numeral_value base 0 l = Some v /\ 0 < v /\ head l <> Some 48.
Proof.
  intros (Hv & _ & Hz) Hl. destruct (numeral_last _ _ _ _ Hv) as (v & d & Ev & _). exists v. split; [done|].
  destruct l as [|x l]; [done|]. assert (Hx : x <> 48). { intros ->. specialize (Hz eq_refl). by destruct l. }
  split; [|cbn; congruence]. cbn [numeral_value] in Ev. destruct (digit_value x) as [dx|] eqn:Ex; [|done]. cbn in Ev.
  destruct (digit_value_inj x x dx Ex Ex) as (_ & _ & Hpos). specialize (Hpos Hx).
  destruct (Z.ltb_spec dx base); [|done]. apply (numeral_positive base l _ v Ev); lia.
Qed.
Lemma is_numeral_unique base l : forall n l', is_numeral base n l -> is_numeral base n l' -> l = l'.
Proof.
  induction l as [|c l IH] using rev_ind; intros n l' Hn Hn'; [by destruct Hn as (_ & ? & _)|].
  destruct (exists_last (proj1 (proj2 Hn'))) as (l2 & c2 & ->).
  destruct (numeral_last _ _ _ _ (proj1 Hn)) as (v & d & Ev & Ed & Hd & En).
  destruct (numeral_last _ _ _ _ (proj1 Hn')) as (v' & d' & Ev' & Ed' & Hd' & En').
  assert (v = v' /\ d = d') as [<- <-] by (apply (Z.div_mod_unique base); lia). f_equal.
  2: { destruct (digit_value_inj c c2 d Ed Ed') as [<- _]. done. }
  destruct (decide (l = [])) as [->|Hl], (decide (l2 = [])) as [->|Hl2]; [done| | |].
  - destruct (numeral_leading _ _ _ _ Hn' Hl2) as (w & Ew & Hw & _). cbn in Ev. rewrite Ev' in Ew. injection Ew. injection Ev. lia.
  - destruct (numeral_leading _ _ _ _ Hn Hl) as (w & Ew & Hw & _). rewrite Ev in Ew. injection Ew. injection Ev'. lia.
  - destruct (numeral_leading _ _ _ _ Hn Hl) as (_ & _ & _ & Hh), (numeral_leading _ _ _ _ Hn' Hl2) as (_ & _ & _ & Hh2).
    by apply (IH v l2); (split; [done|split; [done|by intros ?]]).
Qed.

(** Any loop that peels digits off [n] writes the digits of [n] backwards, and needs
    a place for each. *)
Section digits.
Context (base : Z) (step : nat -> Z -> list Z -> option (list Z)) (char : Z -> Z).
Context (Hbase : 2 <= base).
Context (Hchar : forall d, 0 <= d < base -> digit_value (char d) = Some d).
Context (Hstep : forall room n buf, 0 <= n -> step (S room) n buf =
  if n / base >? 0 then step room (n / base) (buf ++ [char (n mod base)]) else Some (buf ++ [char (n mod base)])).

Lemma digits_numeral room : forall n buf, 0 <= n < base ^ Z.of_nat room -> (0 < room)%nat ->
  exists ds, step room n buf = Some (buf ++ rev ds) /\ is_numeral base n ds /\ (length ds <= room)%nat.
Proof.
  induction room as [|room IH]; intros n buf Hn Hr; [lia|]. rewrite Hstep by lia.
  pose proof (Z.div_mod n base ltac:(lia)) as E. pose proof (Z.mod_pos_bound n base ltac:(lia)) as Hm.
  pose proof (Hchar (n mod base) Hm) as Hd. rewrite Z.gtb_ltb. destruct (Z.ltb_spec 0 (n / base)) as [Hq|Hq].
  - rewrite Nat2Z.inj_succ, Z.pow_succ_r in Hn by lia.
    assert (Hlt : n / base < base ^ Z.of_nat room) by (apply Z.div_lt_upper_bound; lia).
    destruct room as [|room]; [change (base ^ Z.of_nat 0) with 1 in Hlt; lia|].
    destruct (IH (n / base) (buf ++ [char (n mod base)])) as (ds & Es & Hnum & Hl); [lia|lia|].
    exists (ds ++ [char (n mod base)]). rewrite Es, rev_app_distr, <- app_assoc. split; [done|]. split.
    + rewrite E at 1. by apply is_numeral_snoc with (d := n mod base); try done; lia.
    + rewrite length_app. cbn. lia.
  - assert (n / base = 0) by (pose proof (Z.div_pos n base ltac:(lia) ltac:(lia)); lia).
    exists [char (n mod base)]. split; [done|]. split; [|cbn; lia].
    replace n with (n mod base) at 1 by lia. by apply is_numeral_digit.
Qed.
End digits.

(** More room gives the same digits. *)
Lemma unsigned_digits_room a m : forall k buf res,
  unsigned_digits a k buf = Some res -> unsigned_digits (a + m) k buf = Some res.
Proof.
  induction a as [|a IH]; intros k buf res; cbn [unsigned_digits Nat.add]; [done|]. destruct (_ >? _); [apply IH|done].
Qed.
Lemma hex_digits_room a m : forall k buf res,
  hex_digits a k buf = Some res -> hex_digits (a + m) k buf = Some res.
Proof.
  induction a as [|a IH]; intros k buf res; cbn [hex_digits Nat.add]; [done|]. destruct (_ >? _); [apply IH|done].
Qed.

Lemma unsigned_digits_numeral n : in_range 64 n ->
  exists ds, unsigned_digits BUF_LEN n [] = Some (rev ds) /\ is_numeral 10 n ds /\ (length ds <= 20)%nat.
Proof.
  intros [Hn0 Hn].
  assert (Hst : forall room k buf, 0 <= k -> unsigned_digits (S room) k buf =
    if k / 10 >? 0 then unsigned_digits room (k / 10) (buf ++ [u8 (48 + k mod 10)]) else Some (buf ++ [u8 (48 + k mod 10)])) by done.
  assert (Hch : forall d, 0 <= d < 10 -> digit_value (u8 (48 + d)) = Some d).
  { intros d Hd. rewrite <- (digit_char d) by lia. by rewrite (proj2 (Z.ltb_lt d 10)) by lia. }
  destruct (digits_numeral 10 unsigned_digits (fun d => u8 (48 + d)) ltac:(lia) Hch Hst 20 n []) as (ds & E & Hnum & Hl); [|lia|].
  { change (Z.of_nat 20) with 20. change (2 ^ 64) with 18446744073709551616 in Hn.
    change (10 ^ 20) with 100000000000000000000. lia. }
  exists ds. split; [|done]. by apply (unsigned_digits_room 20 12) in E.
Qed.

Lemma hex_digits_numeral n : in_range 64 n ->
  exists ds, hex_digits BUF_LEN n [] = Some (rev ds) /\ is_numeral 16 n ds /\ (length ds <= 16)%nat.
Proof.
  intros [Hn0 Hn].
  assert (Hst : forall room k buf, 0 <= k -> hex_digits (S room) k buf =
    if k / 16 >? 0 then hex_digits room (k / 16) (buf ++ [u8 (if k mod 16 <? 10 then 48 + k mod 16 else 97 + k mod 16 - 10)])
    else Some (buf ++ [u8 (if k mod 16 <? 10 then 48 + k mod 16 else 97 + k mod 16 - 10)])).
  { intros room k buf Hk. cbn [hex_digits]. by rewrite Z.rem_mod_nonneg, Z.quot_div_nonneg by lia. }
  destruct (digits_numeral 16 hex_digits (fun d => u8 (if d <? 10 then 48 + d else 97 + d - 10)) ltac:(lia) digit_char Hst 16 n [])
    as (ds & E & Hnum & Hl); [|lia|].
  { change (16 ^ Z.of_nat 16) with (2 ^ 64). lia. }
  exists ds. split; [|done]. by apply (hex_digits_room 16 16) in E.
Qed.

(** C37: every 64-bit number is converted within its 32-char buffer, to at most 20 decimal
    and 16 hexadecimal digits, and the digits are the number's numeral. *)
Theorem digits_fit_buffer n : in_range 64 n ->
  (exists ds, unsigned_digits BUF_LEN n [] = Some (rev ds) /\ is_numeral 10 n ds /\ (length ds <= 20)%nat) /\
  (exists ds, hex_digits BUF_LEN n [] = Some (rev ds) /\ is_numeral 16 n ds /\ (length ds <= 16)%nat).
Proof. intros Hn. split; [by apply unsigned_digits_numeral|by apply hex_digits_numeral]. Qed.

(** ** What a format string prints *)

(** A char for screen and line, or for the screen alone. *)
Inductive outch := Both (c : Z) | Screen (c : Z).

(** The parts of a format string with their arguments. *)
Inductive piece :=
| Text (c : Z) | Percent | Str (s : list Z) | Chr (c : Z)
| Dec (t : itype) (n : Z) | Uns (t : itype) (n : Z) | Hex (t : itype) (n : Z) | Ptr (n : Z).

Definition size_prefix (t : itype) : list Z :=
  match t with Short => [104] | Int => [] | Long => [108] | LongLong => [113] end.
Definition piece_fmt (p : piece) : list Z :=
  match p with
  | Text c => [c] | Percent => [37; 37] | Str _ => [37; 115] | Chr _ => [37; 99]
  | Dec t _ => 37 :: size_prefix t ++ [100] | Uns t _ => 37 :: size_prefix t ++ [117]
  | Hex t _ => 37 :: size_prefix t ++ [120] | Ptr _ => [37; 112]
  end.
Definition piece_arg (p : piece) : list va :=
  match p with
  | Text _ | Percent => [] | Str s => [VStr s] | Chr c => [VInt c]
  | Dec _ n | Uns _ n | Hex _ n | Ptr n => [VInt n]
  end.
(** The argument is a value of the type, but for two of the least and the hexadecimal
    long longs from 2^63 on. *)
Definition piece_ok (p : piece) : Prop :=
  match p with
  | Text c => c <> 37 | Percent | Str _ => True | Chr c => in_range 8 c
  | Dec t n => - 2 ^ (width t - 1) < n < 2 ^ (width t - 1) \/ (t = Short /\ n = - 2 ^ 15)
  | Uns t n => in_range (width t) n
  | Hex t n => in_range (width t) n /\ (t = LongLong -> n < 2 ^ 63)
  | Ptr n => in_range 64 n
  end.
Definition piece_prints (p : piece) (out : list outch) : Prop :=
  match p with
  | Text c | Chr c => out = [Both c] | Percent => out = [Both 37] | Str s => out = Both <$> s
  | Dec _ n => exists ds, is_numeral 10 (Z.abs n) ds /\ out = (if n <? 0 then [Screen 45] else []) ++ (Both <$> ds)
  | Uns _ n => exists ds, is_numeral 10 n ds /\ out = Both <$> ds
  | Hex _ n | Ptr n => exists ds, is_numeral 16 n ds /\ out = Both <$> ds
  end.

(** What is printed is determined by the pieces. *)
Lemma piece_prints_unique p out out' : piece_prints p out -> piece_prints p out' -> out = out'.
Proof.
  destruct p; cbn [piece_prints]; try congruence; intros (ds & Hd & ->) (ds' & Hd' & ->);
    by rewrite (is_numeral_unique _ _ _ _ Hd Hd').
Qed.
Lemma pieces_print_unique ps : forall outs outs', Forall2 piece_prints ps outs -> Forall2 piece_prints ps outs' -> outs = outs'.
Proof.
  induction ps as [|p ps IH]; intros outs outs' H1 H2.
  - apply Forall2_nil_inv_l in H1 as ->. by apply Forall2_nil_inv_l in H2 as ->.
  - apply Forall2_cons_inv_l in H1 as (o & os & Ho & H1 & ->). apply Forall2_cons_inv_l in H2 as (o' & os' & Ho' & H2 & ->).
    by rewrite (piece_prints_unique p o o' Ho Ho'), (IH os os' H1 H2).
Qed.

Section prints.
Context {S : Type} (put_char screen_char : Z -> M S unit).

Fixpoint emit (l : list outch) : M S unit :=
  match l with
  | [] => mret tt
  | Both c :: l => put_char c ;; emit l
  | Screen c :: l => screen_char c ;; emit l
  end.

(** [m] puts out [out] and returns [r]. *)
Definition prints (m : M S Z) (out : list outch) (r : Z) : Prop :=
  forall s, m s = (emit out ;; mret r) s.

Lemma emit_app l1 l2 s : emit (l1 ++ l2) s = (emit l1 ;; emit l2) s.
Proof.
  revert s. induction l1 as [|[c|c] l1 IH]; intros s; cbn [emit app]; [done| |].
  all: unfold mbind, M_bind in *; destruct (_ c s) as [[] s'| | |]; [apply IH|done..].
Qed.

Lemma prints_bind (m : M S Z) (k : Z -> M S Z) o1 r1 o2 r2 :
  prints m o1 r1 -> prints (k r1) o2 r2 -> prints (m ≫= k) (o1 ++ o2) r2.
Proof.
  intros Hm Hk s. specialize (Hm s). pose proof (emit_app o1 o2 s) as Ha. unfold mbind, M_bind in *. rewrite Hm, Ha.
  destruct (emit o1 s) as [[] s'| | |]; [|done..]. apply Hk.
Qed.
Lemma prints_ret r : prints (mret r) [] r.
Proof. done. Qed.
Lemma prints_eq m o r o' r' : prints m o r -> o = o' -> r = r' -> prints m o' r'.
Proof. by intros ? <- <-. Qed.
Lemma prints_char c : prints (print_char put_char c) [Both c] 1.
Proof. intros s. unfold print_char. cbn [emit]. unfold mbind, M_bind. by destruct (put_char c s) as [[] ?| | |]. Qed.

Lemma prints_screen c m o r : prints m o r -> prints (screen_char c ;; m) (Screen c :: o) r.
Proof.
  intros Hm s. cbn [emit]. unfold prints in Hm. unfold mbind, M_bind in *.
  destruct (screen_char c s) as [[] s1| | |]; [apply Hm|done..].
Qed.

Lemma prints_chars l r : prints (print_chars put_char l ;; mret r) (Both <$> l) r.
Proof.
  induction l as [|c l IH]; [done|]. intros s. cbn [print_chars fmap list_fmap emit].
  rewrite <- bind_assoc. revert s. apply (prints_bind _ _ [Both c] 1); [apply prints_char|exact IH].
Qed.

Lemma prints_string l n : prints (print_string put_char l n) (Both <$> l) (n + Z.of_nat (length l)).
Proof.
  revert n. induction l as [|c l IH]; intros n; cbn [print_string].
  - eapply prints_eq; [apply prints_ret|done|cbn; lia].
  - rewrite fmap_cons. eapply prints_eq; [eapply prints_bind; [apply prints_char|apply IH]|done|cbn [length]; lia].
Qed.

Lemma prints_buf ds : prints (print_buf put_char (Some (rev ds))) (Both <$> ds) (Z.of_nat (length ds)).
Proof.
  unfold print_buf. rewrite rev_involutive, length_rev. apply prints_chars.
Qed.

Lemma prints_unsigned n : in_range 64 n -> exists ds, is_numeral 10 n ds /\
  prints (print_unsigned put_char n) (Both <$> ds) (Z.of_nat (length ds)).
Proof.
  intros Hn. destruct (unsigned_digits_numeral n Hn) as (ds & E & Hnum & _). exists ds. split; [done|].
  unfold print_unsigned. rewrite E. apply prints_buf.
Qed.
Lemma prints_hex n : in_range 64 n -> exists ds, is_numeral 16 n ds /\
  prints (print_hex put_char n) (Both <$> ds) (Z.of_nat (length ds)).
Proof.
  intros Hn. destruct (hex_digits_numeral n Hn) as (ds & E & Hnum & _). exists ds. split; [done|].
  unfold print_hex. rewrite E. apply prints_buf.
Qed.

(** Reading an argument at its width. *)
Lemma sint_small w n : 0 < w -> - 2 ^ (w - 1) <= n < 2 ^ (w - 1) -> sint w n = n.
Proof.
  intros Hw Hn. unfold sint, wrap. assert (Hp : 2 ^ w = 2 * 2 ^ (w - 1)) by (rewrite <- Z.pow_succ_r by lia; f_equal; lia).
  destruct (Z.lt_ge_cases n 0).
  - rewrite <- (Z.mod_unique n (2 ^ w) (-1) (n + 2 ^ w)) by lia. zcases; lia.
  - rewrite Z.mod_small by lia. zcases; lia.
Qed.
Lemma wrap_sint w n : 0 < w -> wrap w (sint w n) = wrap w n.
Proof.
  intros Hw. unfold sint. zcases; [by apply wrap_wrap; lia|].
  unfold wrap. replace (n mod 2 ^ w - 2 ^ w) with (n mod 2 ^ w + (-1) * 2 ^ w) by lia.
  rewrite Z.mod_add, Z.mod_mod by lia. done.
Qed.
Lemma width_bounds t : 16 <= width t <= 64 /\ (width t = 16 <-> t = Short).
Proof. destruct t; cbn; repeat split; try lia; done. Qed.
Lemma in_range_width t n : in_range (width t) n -> in_range 64 n.
Proof.
  pose proof (proj1 (width_bounds t)). unfold in_range. intros. 
  pose proof (Z.pow_le_mono_r 2 (width t) 64). lia.
Qed.

Lemma prints_signed t n : piece_ok (Dec t n) -> exists out, piece_prints (Dec t n) out /\
  prints (print_signed put_char screen_char t n) out (Z.of_nat (length out)).
Proof.
  intros Hok. pose proof (width_bounds t) as [Hw Hs]. cbn [piece_ok piece_prints] in *.
  assert (Hp : 2 ^ width t = 2 * 2 ^ (width t - 1)) by (rewrite <- Z.pow_succ_r by lia; f_equal; lia).
  assert (Hab : in_range (width t) (Z.abs n)).
  { unfold in_range. destruct Hok as [?|[-> ->]]; [lia|cbn; lia]. }
  destruct (prints_unsigned (Z.abs n) (in_range_width t _ Hab)) as (ds & Hnum & Hpr).
  exists ((if n <? 0 then [Screen 45] else []) ++ (Both <$> ds)). split; [by exists ds|].
  unfold print_signed. destruct (Z.ltb_spec n 0) as [Hneg|Hpos].
  - assert (Hg : (n =? - 2 ^ (width t - 1)) && negb (width t =? 16) = false).
    { destruct Hok as [?|[-> ->]]; [|done]. by rewrite (proj2 (Z.eqb_neq _ _)) by lia. }
    rewrite Hg. unfold uint. replace (- n) with (Z.abs n) by lia. rewrite wrap_small by done.
    rewrite length_app, length_fmap. cbn [app]. apply prints_screen.
    eapply prints_eq; [eapply prints_bind; [exact Hpr|apply prints_ret]|by rewrite app_nil_r|cbn [length]; lia].
  - rewrite Z.abs_eq in Hpr, Hab by lia. unfold uint. rewrite wrap_small by done. cbn [app]. rewrite length_fmap. exact Hpr.
Qed.

(** The call for a part of the format, and its place in the loop. *)
Definition piece_run (p : piece) : M S Z :=
  match p with
  | Text c | Chr c => print_char put_char c
  | Percent => print_percent put_char
  | Str s => print_string put_char s 0
  | Dec t n => print_signed put_char screen_char t n
  | Uns _ n => print_unsigned put_char n
  | Hex _ n | Ptr n => print_hex put_char n
  end.

Lemma piece_run_prints p : piece_ok p -> exists out, piece_prints p out /\
  prints (piece_run p) out (Z.of_nat (length out)).
Proof.
  destruct p as [c| |l|c|t n|t n|t n|n]; cbn [piece_ok piece_prints piece_run]; intros Hok.
  - exists [Both c]. split; [done|apply prints_char].
  - exists [Both 37]. split; [done|apply prints_char].
  - exists (Both <$> l). split; [done|]. rewrite length_fmap. apply prints_string.
  - exists [Both c]. split; [done|apply prints_char].
  - by apply prints_signed.
  - destruct (prints_unsigned n (in_range_width t n Hok)) as (ds & Hn & Hp). exists (Both <$> ds).
    rewrite length_fmap. eauto.
  - destruct (prints_hex n (in_range_width t n (proj1 Hok))) as (ds & Hn & Hp). exists (Both <$> ds).
    rewrite length_fmap. eauto.
  - destruct (prints_hex n Hok) as (ds & Hn & Hp). exists (Both <$> ds). rewrite length_fmap. eauto.
Qed.

Lemma loop_piece p fmt args printed : piece_ok p ->
  printk_loop put_char screen_char (piece_fmt p ++ fmt) (piece_arg p ++ args) printed =
  (r ← piece_run p; printk_loop put_char screen_char fmt args (printed + r)).
Proof.
  set (rest := fun m : M S Z => r ← m; printk_loop put_char screen_char fmt args (printed + r)).
  assert (Hsi : forall t n, piece_ok (Dec t n) -> sint (width t) n = n).
  { intros t n Hok. pose proof (width_bounds t). apply sint_small; [lia|]. destruct Hok as [?|[-> ->]]; [lia|done]. }
  assert (Hui : forall t n, in_range (width t) n -> uint t (sint (width t) n) = n).
  { intros t n Hok. pose proof (width_bounds t). unfold uint. rewrite wrap_sint by lia. by apply wrap_small. }
  destruct p as [c| |l|c|t n|t n|t n|n]; intros Hok; cbn [piece_run].
  - cbn. by rewrite (proj2 (Z.eqb_neq c 37) Hok).
  - done.
  - done.
  - transitivity (rest (print_char put_char (u8 c))); [done|]. cbn [piece_ok] in Hok. by rewrite wrap_small.
  - transitivity (rest (print_signed put_char screen_char t (sint (width t) n))); [by destruct t|]. by rewrite Hsi.
  - transitivity (rest (print_unsigned put_char (match t with Int => u32 n | _ => uint t (sint (width t) n) end)));
      [by destruct t|]. cbn [piece_ok] in Hok. destruct t; rewrite ?wrap_small, ?Hui by done; done.
  - destruct Hok as [Hok Hll].
    transitivity (rest (print_hex put_char (match t with Int => u32 n | LongLong => sint 64 n | _ => uint t (sint (width t) n) end)));
      [by destruct t|]. destruct t; rewrite ?wrap_small, ?Hui by done; try done.
    unfold in_range in Hok. cbn [width] in Hok. rewrite sint_small by (specialize (Hll eq_refl); lia). done.
  - transitivity (rest (print_hex put_char (u64 n))); [done|]. cbn [piece_ok] in Hok. by rewrite wrap_small.
Qed.

(** A format string made of plain chars and conversions, with an argument of its type
    for each conversion, prints each part in order - strings as they are, numbers as
    their decimal or hexadecimal numerals - takes exactly its arguments, and returns
    the number of chars printed. The sign of a negative number goes to the screen only. *)
Theorem printk_correct ps : Forall piece_ok ps ->
  exists outs, Forall2 piece_prints ps outs /\
    prints (printk put_char screen_char (concat (piece_fmt <$> ps)) (concat (piece_arg <$> ps)))
      (concat outs) (Z.of_nat (length (concat outs))).
Proof.
  intros Hps. unfold printk.
  enough (G : forall n, exists outs, Forall2 piece_prints ps outs /\
    prints (printk_loop put_char screen_char (concat (piece_fmt <$> ps)) (concat (piece_arg <$> ps)) n)
      (concat outs) (n + Z.of_nat (length (concat outs)))) by exact (G 0).
  induction Hps as [|p ps Hp Hps IH]; intros n.
  { exists []. split; [constructor|]. eapply prints_eq; [apply prints_ret|done|cbn; lia]. }
  destruct (piece_run_prints p Hp) as (out & Ho & Hpr). destruct (IH (n + Z.of_nat (length out))) as (outs & Hos & Hprs).
  exists (out :: outs). split; [by constructor|]. rewrite !fmap_cons. cbn [concat]. rewrite loop_piece by done.
  eapply prints_eq; [eapply prints_bind; [exact Hpr|exact Hprs]|done|]. rewrite length_app. lia.
Qed.

(** A lone percent sign at the end reads past the string, and so does a size without a
    conversion. *)
Lemma printk_trailing_percent s : (forall c s, exists s', put_char c s = Ret tt s') ->
  printk put_char screen_char [37] [] s = Fault.
Proof.
  intros Hp. destruct (Hp 37 s) as [s1 E1]. destruct (Hp 0 s1) as [s2 E2].
  unfold printk. cbn. unfold print_char, mbind, M_bind. by rewrite E1; cbn; rewrite E2.
Qed.

(** [%qx] of a number from 2^63 on is one char that is no digit, or one digit. *)
Lemma hex_long_long_negative n : n < 0 -> exists c, hex_digits BUF_LEN n [] = Some [c] /\ c = u8 (48 + Z.rem n 16).
Proof.
  intros Hn. exists (u8 (48 + Z.rem n 16)). split; [|done]. unfold BUF_LEN. cbn [hex_digits app].
  pose proof (Z.rem_nonpos n 16 ltac:(lia)). rewrite (proj2 (Z.ltb_lt (Z.rem n 16) 10)) by lia.
  pose proof (Z.quot_pos (- n) 16 ltac:(lia) ltac:(lia)) as Hq. rewrite Z.quot_opp_l in Hq by lia.
  rewrite Z.gtb_ltb, (proj2 (Z.ltb_ge _ _)) by lia. done.
Qed.

End prints.

(** ** The kernel's console *)

Record console := mkCon { con_ring : RingBuffer; con_screen : vga }.
#[export] Instance console_ring : HasRing console.
Proof.
  refine {| ring := con_ring; set_ring r w := mkCon r (con_screen w) |}; [done|by intros []|done].
Defined.

Section console.
Context `{Hardware}.
Abbreviation K := (M (irq_state console)).

(** The screen works with the machine's interrupt flag. *)
Definition screenop {A} (m : M vga A) : K A :=
  zoom (fun s => set_vga_ints (ints s) (con_screen (world s)))
       (fun v s => set_ints (vga_ints v) (set_world (mkCon (con_ring (world s)) v) s)) m.

(** [VGA_display_char(c); SER_write(&c, 1)]. *)
Definition con_put (c : Z) : K unit :=
  screenop (VGA_display_char c) ;;
  _ ← SER_write [c];
  mret tt.
Definition con_screen_char (c : Z) : K unit := screenop (VGA_display_char c).
Definition kernel_printk : list Z -> list va -> K Z := printk con_put con_screen_char.

(** The screen shows [t], and [q] waits for the line. *)
Definition con_shows (s : irq_state console) (t : term) (q : list Z) : Prop :=
  shows (con_screen (world s)) t /\ waiting s q.

Definition out_char (o : outch) : Z := match o with Both c | Screen c => c end.
Definition line_chars (l : list outch) : list Z := omap (fun o => match o with Both c => Some c | Screen _ => None end) l.
(** A byte other than a carriage return. *)
Definition plain_char (c : Z) : Prop := in_range 8 c /\ c <> 13.

Lemma screen_ret c s t q : con_shows s t q -> c <> 13 ->
  exists s', con_screen_char c s = Ret tt s' /\ con_shows s' (tput t c) q /\ ports s' = ports s /\ ints s' = ints s /\
    irq_table s' = irq_table s.
Proof.
  intros [Hs Hw] Hc.
  destruct (tput_shows c (set_vga_ints (ints s) (con_screen (world s))) t Hc) as (v & E & Hv & Hi); [by apply shows_ints|].
  eexists. split; [unfold con_screen_char, screenop, zoom; rewrite E; reflexivity|]. split; [|split; [done|split; [exact Hi|done]]].
  split; [exact Hv|exact Hw].
Qed.

(** What printing does to the console, a char at a time and in whole. *)
Definition printed_to (s s' : irq_state console) (t : term) (q : list Z) (l : list outch) : Prop :=
  exists q' acc, con_shows s' (fold_left tput (out_char <$> l) t) q' /\ ints s' = ints s /\
    sent_on COM1 (ports s') ++ q' = sent_on COM1 (ports s) ++ q ++ acc /\ acc `sublist_of` line_chars l /\
    irq_table s' = irq_table s /\ exists tr, ports s' = ports s ++ tr /\ Forall line_access tr.

Lemma emit_console l s t q : con_shows s t q -> Forall (fun o => plain_char (out_char o)) l ->
  exists s', emit con_put con_screen_char l s = Ret tt s' /\ printed_to s s' t q l.
Proof.
  intros Hcs Hl. revert s t q Hcs. induction Hl as [|o l Ho Hl IH]; intros s t q Hcs.
  { exists s. split; [done|]. exists q, []. rewrite app_nil_r. repeat (split; [done|]). exists []. by rewrite app_nil_r. }
  destruct o as [c|c]; cbn [out_char emit] in *; destruct Ho as [Hc H13].
  - destruct (screen_ret c s t q Hcs H13) as (s1 & E1 & [Hv1 Hw1] & P1 & I1 & T1).
    destruct (run_serial_step (Write [c]) s1 q Hw1) as (s2 & tr & q2 & E2 & (P2 & I2 & T2 & W2) & Hw2 & Hs2 & _ & Hla).
    { by apply Forall_singleton. }
    assert (Hcs2 : con_shows s2 (tput t c) q2) by (split; [rewrite W2; exact Hv1|exact Hw2]).
    destruct (IH s2 _ _ Hcs2) as (s3 & E3 & q3 & acc & Hs3 & I3 & Hsent & Hsub & T3 & tr3 & P3 & Ha3).
    exists s3. split.
    + unfold con_put. fold (con_screen_char c). rewrite <- bind_assoc, (bind_ret _ _ _ _ _ E1).
      change (_ ← SER_write [c]; mret tt) with (run_serial (W := console) (Write [c])). by rewrite (bind_ret _ _ _ _ _ E2).
    + exists q3, (accepted q (Write [c]) ++ acc). split; [exact Hs3|]. split; [congruence|]. split.
      * rewrite Hsent, P2, sent_on_app, P1, <- !app_assoc. f_equal. by rewrite !app_assoc, Hs2.
      * split; [change (line_chars (Both c :: l)) with ([c] ++ line_chars l); apply sublist_app; [apply sublist_take|done]|].
        split; [congruence|]. exists (tr ++ tr3). rewrite P3, P2, P1, app_assoc. split; [done|]. apply Forall_app. split; [by apply Hla|done].
  - destruct (screen_ret c s t q Hcs H13) as (s1 & E1 & Hcs1 & P1 & I1 & T1).
    destruct (IH s1 _ _ Hcs1) as (s3 & E3 & q3 & acc & Hs3 & I3 & Hsent & Hsub & T3 & tr3 & P3 & Ha3).
    exists s3. split; [by rewrite (bind_ret _ _ _ _ _ E1)|]. exists q3, acc. split; [exact Hs3|].
    split; [congruence|]. split; [by rewrite Hsent, P1|]. split; [done|]. split; [congruence|]. exists tr3. by rewrite P3, P1.
Qed.

(** The text of a part is plain. *)
Definition piece_plain (p : piece) : Prop :=
  match p with Text c | Chr c => plain_char c | Str s => Forall plain_char s | _ => True end.

Lemma numeral_value_plain base l acc v : numeral_value base acc l = Some v -> Forall plain_char l.
Proof.
  revert acc. induction l as [|c l IH]; intros acc; cbn; [constructor|].
  destruct (digit_value c) as [d|] eqn:Ed; cbn; [|done]. destruct (d <? base); [|done]. intros Hv. constructor; [|by eapply IH].
  revert Ed. unfold digit_value, plain_char, in_range. zcases; cbn [andb]; (done || (intros _; lia)).
Qed.

Lemma both_plain l : Forall plain_char l -> Forall (fun o => plain_char (out_char o)) (Both <$> l).
Proof. intros Hl. by apply Forall_fmap. Qed.

Lemma piece_prints_plain p out : piece_plain p -> piece_prints p out -> Forall (fun o => plain_char (out_char o)) out.
Proof.
  assert (H37 : plain_char 37) by (unfold plain_char, in_range; lia).
  assert (H45 : plain_char 45) by (unfold plain_char, in_range; lia).
  assert (Hn : forall base n ds, is_numeral base n ds -> Forall (fun o => plain_char (out_char o)) (Both <$> ds)).
  { intros base n ds (Hv & _). by eapply both_plain, numeral_value_plain. }
  destruct p as [c| |l|c|t n|t n|t n|n]; cbn [piece_plain piece_prints]; intros Hp.
  - intros ->. by apply Forall_singleton.
  - intros ->. by apply Forall_singleton.
  - intros ->. by apply both_plain.
  - intros ->. by apply Forall_singleton.
  - intros (ds & Hd & ->). apply Forall_app. split; [|by eapply Hn]. destruct (n <? 0); [by apply Forall_singleton|constructor].
  - intros (ds & Hd & ->). by eapply Hn.
  - intros (ds & Hd & ->). by eapply Hn.
  - intros (ds & Hd & ->). by eapply Hn.
Qed.

(** A whole call. *)
Lemma printk_console ps s t q : con_shows s t q -> Forall piece_ok ps -> Forall piece_plain ps ->
  exists outs s', Forall2 piece_prints ps outs /\
    kernel_printk (concat (piece_fmt <$> ps)) (concat (piece_arg <$> ps)) s = Ret (Z.of_nat (length (concat outs))) s' /\
    printed_to s s' t q (concat outs).
Proof.
  intros Hcs Hok Hpl. destruct (printk_correct con_put con_screen_char ps Hok) as (outs & Hos & Hpr).
  assert (Hplain : Forall (fun o => plain_char (out_char o)) (concat outs)).
  { clear Hpr Hok. induction Hos as [|p out ps outs Ho Hos IH]; [constructor|]. apply Forall_cons in Hpl as [Hp Hpl].
    cbn [concat]. apply Forall_app. split; [by eapply piece_prints_plain|by apply IH]. }
  destruct (emit_console (concat outs) s t q Hcs Hplain) as (s' & E & Hto).
  exists outs, s'. split; [done|]. split; [|done]. unfold kernel_printk. rewrite Hpr. by rewrite (bind_ret _ _ _ _ _ E).
Qed.


End console.

(** ** Witnesses *)

Module PrintDemo.
Import RingDemo SerialDemo.
Definition con0 : irq_state console :=
  mkIrq [] 0 8 [] (repeat (mkEntry 0 0) 256) (mkTss [] [] 0) (mkReg 0 0) (mkReg 0 0) 0 true [] []
    (mkCon zero_ring boot_vga).
Lemma con0_shows : con_shows con0 blank_term [].
Proof. split; [exact boot_shows|]. split; [exact zero_ring_rep|constructor]. Qed.
(** ["n=%d %lx %s\n"] with -42, 0xbeef and "ok". *)
Definition pieces0 : list piece :=
  [Text 110; Text 61; Dec Int (-42); Text 32; Hex Long 0xbeef; Text 32; Str [111; 107]; Text 10].
Lemma pieces0_ok : Forall piece_ok pieces0.
Proof. repeat constructor; cbn; unfold in_range; try lia; done. Qed.
Lemma pieces0_plain : Forall piece_plain pieces0.
Proof. repeat constructor; cbn; unfold in_range; try lia; done. Qed.
End PrintDemo.

Import PrintDemo RingDemo SerialDemo.

Lemma digits_fit_buffer_witness :
  (exists ds, unsigned_digits BUF_LEN (2 ^ 64 - 1) [] = Some (rev ds) /\ is_numeral 10 (2 ^ 64 - 1) ds /\ (length ds <= 20)%nat) /\
  (exists ds, hex_digits BUF_LEN (2 ^ 64 - 1) [] = Some (rev ds) /\ is_numeral 16 (2 ^ 64 - 1) ds /\ (length ds <= 16)%nat).
Proof. apply (digits_fit_buffer (2 ^ 64 - 1)). unfold in_range. lia. Defined.

Lemma printk_correct_witness :
  exists outs, Forall2 piece_prints pieces0 outs /\
    prints con_put con_screen_char (printk con_put con_screen_char (concat (piece_fmt <$> pieces0)) (concat (piece_arg <$> pieces0)))
      (concat outs) (Z.of_nat (length (concat outs))).
Proof. apply (printk_correct con_put con_screen_char pieces0 pieces0_ok). Defined.

