(* ===== verification/Md5.v ===== *)
(** * Md5: the RSA message digest used to check the kernel image
    (src/src/md5.c, src/include/md5.h)

    Bytes are [Z]s below 2^8, UINT4 is uint32_t: a [Z] below 2^32 with every sum,
    shift and complement cut to 32 bits. *)

From S2P Require Import Prelude.

(** ** The functions of md5.c *)

Definition S11 : Z := 7.
Definition S12 : Z := 12.
Definition S13 : Z := 17.
Definition S14 : Z := 22.
Definition S21 : Z := 5.
Definition S22 : Z := 9.
Definition S23 : Z := 14.
Definition S24 : Z := 20.
Definition S31 : Z := 4.
Definition S32 : Z := 11.
Definition S33 : Z := 16.
Definition S34 : Z := 23.
Definition S41 : Z := 6.
Definition S42 : Z := 10.
Definition S43 : Z := 15.
Definition S44 : Z := 21.

Definition PADDING : list Z := 0x80 :: repeat 0 63.

(** [~x] on a UINT4. *)
Definition not32 (x : Z) : Z := u32 (Z.lnot x).

Definition F (x y z : Z) : Z := Z.lor (Z.land x y) (Z.land (not32 x) z).
Definition G (x y z : Z) : Z := Z.lor (Z.land x z) (Z.land y (not32 z)).
Definition H (x y z : Z) : Z := Z.lxor (Z.lxor x y) z.
Definition I (x y z : Z) : Z := Z.lxor y (Z.lor x (not32 z)).

Definition ROTATE_LEFT (x n : Z) : Z := Z.lor (u32 (Z.shiftl x n)) (Z.shiftr x (32 - n)).

(** The registers [a], [b], [c], [d] of [MD5Transform]; a line of it, such as
    [FF(d, a, b, c, x[1], S12, 0xe8c7b756)], assigns to the first one named. *)
Record md5_state := mkState { st_a : Z; st_b : Z; st_c : Z; st_d : Z }.

Inductive reg := ra | rb | rc | rd.
Definition get_reg (r : reg) (st : md5_state) : Z :=
  match r with ra => st_a st | rb => st_b st | rc => st_c st | rd => st_d st end.
Definition set_reg (r : reg) (v : Z) (st : md5_state) : md5_state :=
  match r with
  | ra => mkState v (st_b st) (st_c st) (st_d st)
  | rb => mkState (st_a st) v (st_c st) (st_d st)
  | rc => mkState (st_a st) (st_b st) v (st_d st)
  | rd => mkState (st_a st) (st_b st) (st_c st) v
  end.

Definition FF (a b c d : reg) (x s ac : Z) (st : md5_state) : md5_state :=
  let st := set_reg a (u32 (get_reg a st + (F (get_reg b st) (get_reg c st) (get_reg d st) + x + ac))) st in
  let st := set_reg a (ROTATE_LEFT (get_reg a st) s) st in
  set_reg a (u32 (get_reg a st + get_reg b st)) st.
Definition GG (a b c d : reg) (x s ac : Z) (st : md5_state) : md5_state :=
  let st := set_reg a (u32 (get_reg a st + (G (get_reg b st) (get_reg c st) (get_reg d st) + x + ac))) st in
  let st := set_reg a (ROTATE_LEFT (get_reg a st) s) st in
  set_reg a (u32 (get_reg a st + get_reg b st)) st.
Definition HH (a b c d : reg) (x s ac : Z) (st : md5_state) : md5_state :=
  let st := set_reg a (u32 (get_reg a st + (H (get_reg b st) (get_reg c st) (get_reg d st) + x + ac))) st in
  let st := set_reg a (ROTATE_LEFT (get_reg a st) s) st in
  set_reg a (u32 (get_reg a st + get_reg b st)) st.
Definition II (a b c d : reg) (x s ac : Z) (st : md5_state) : md5_state :=
  let st := set_reg a (u32 (get_reg a st + (I (get_reg b st) (get_reg c st) (get_reg d st) + x + ac))) st in
  let st := set_reg a (ROTATE_LEFT (get_reg a st) s) st in
  set_reg a (u32 (get_reg a st + get_reg b st)) st.

Record MD5_CTX := mkMd5 { state : md5_state; count0 : Z; count1 : Z; buffer : list Z }.

Definition MD5_IV : md5_state := mkState 0x67452301 0xefcdab89 0x98badcfe 0x10325476.

(** [buffer] is left as it was. *)
Definition MD5Init (c : MD5_CTX) : MD5_CTX := mkMd5 MD5_IV 0 0 (buffer c).

Definition encode_word (w : Z) : list Z :=
  [Z.land w 0xff; Z.land (Z.shiftr w 8) 0xff; Z.land (Z.shiftr w 16) 0xff; Z.land (Z.shiftr w 24) 0xff].
Definition Encode (input : list Z) : list Z := mjoin (encode_word <$> input).

Fixpoint Decode (input : list Z) : list Z :=
  match input with
  | b0 :: b1 :: b2 :: b3 :: rest =>
      Z.lor (Z.lor (Z.lor b0 (Z.shiftl b1 8)) (Z.shiftl b2 16)) (Z.shiftl b3 24) :: Decode rest
  | _ => []
  end.

Definition md5_lines (x : Z -> Z) : list (md5_state -> md5_state) := [
  FF ra rb rc rd (x 0) S11 0xd76aa478;
  FF rd ra rb rc (x 1) S12 0xe8c7b756;
  FF rc rd ra rb (x 2) S13 0x242070db;
  FF rb rc rd ra (x 3) S14 0xc1bdceee;
  FF ra rb rc rd (x 4) S11 0xf57c0faf;
  FF rd ra rb rc (x 5) S12 0x4787c62a;
  FF rc rd ra rb (x 6) S13 0xa8304613;
  FF rb rc rd ra (x 7) S14 0xfd469501;
  FF ra rb rc rd (x 8) S11 0x698098d8;
  FF rd ra rb rc (x 9) S12 0x8b44f7af;
  FF rc rd ra rb (x 10) S13 0xffff5bb1;
  FF rb rc rd ra (x 11) S14 0x895cd7be;
  FF ra rb rc rd (x 12) S11 0x6b901122;
  FF rd ra rb rc (x 13) S12 0xfd987193;
  FF rc rd ra rb (x 14) S13 0xa679438e;
  FF rb rc rd ra (x 15) S14 0x49b40821;
  GG ra rb rc rd (x 1) S21 0xf61e2562;
  GG rd ra rb rc (x 6) S22 0xc040b340;
  GG rc rd ra rb (x 11) S23 0x265e5a51;
  GG rb rc rd ra (x 0) S24 0xe9b6c7aa;
  GG ra rb rc rd (x 5) S21 0xd62f105d;
  GG rd ra rb rc (x 10) S22 0x2441453;
  GG rc rd ra rb (x 15) S23 0xd8a1e681;
  GG rb rc rd ra (x 4) S24 0xe7d3fbc8;
  GG ra rb rc rd (x 9) S21 0x21e1cde6;
  GG rd ra rb rc (x 14) S22 0xc33707d6;
  GG rc rd ra rb (x 3) S23 0xf4d50d87;
  GG rb rc rd ra (x 8) S24 0x455a14ed;
  GG ra rb rc rd (x 13) S21 0xa9e3e905;
  GG rd ra rb rc (x 2) S22 0xfcefa3f8;
  GG rc rd ra rb (x 7) S23 0x676f02d9;
  GG rb rc rd ra (x 12) S24 0x8d2a4c8a;
  HH ra rb rc rd (x 5) S31 0xfffa3942;
  HH rd ra rb rc (x 8) S32 0x8771f681;
  HH rc rd ra rb (x 11) S33 0x6d9d6122;
  HH rb rc rd ra (x 14) S34 0xfde5380c;
  HH ra rb rc rd (x 1) S31 0xa4beea44;
  HH rd ra rb rc (x 4) S32 0x4bdecfa9;
  HH rc rd ra rb (x 7) S33 0xf6bb4b60;
  HH rb rc rd ra (x 10) S34 0xbebfbc70;
  HH ra rb rc rd (x 13) S31 0x289b7ec6;
  HH rd ra rb rc (x 0) S32 0xeaa127fa;
  HH rc rd ra rb (x 3) S33 0xd4ef3085;
  HH rb rc rd ra (x 6) S34 0x4881d05;
  HH ra rb rc rd (x 9) S31 0xd9d4d039;
  HH rd ra rb rc (x 12) S32 0xe6db99e5;
  HH rc rd ra rb (x 15) S33 0x1fa27cf8;
  HH rb rc rd ra (x 2) S34 0xc4ac5665;
  II ra rb rc rd (x 0) S41 0xf4292244;
  II rd ra rb rc (x 7) S42 0x432aff97;
  II rc rd ra rb (x 14) S43 0xab9423a7;
  II rb rc rd ra (x 5) S44 0xfc93a039;
  II ra rb rc rd (x 12) S41 0x655b59c3;
  II rd ra rb rc (x 3) S42 0x8f0ccc92;
  II rc rd ra rb (x 10) S43 0xffeff47d;
  II rb rc rd ra (x 1) S44 0x85845dd1;
  II ra rb rc rd (x 8) S41 0x6fa87e4f;
  II rd ra rb rc (x 15) S42 0xfe2ce6e0;
  II rc rd ra rb (x 6) S43 0xa3014314;
  II rb rc rd ra (x 13) S44 0x4e0811a1;
  II ra rb rc rd (x 4) S41 0xf7537e82;
  II rd ra rb rc (x 11) S42 0xbd3af235;
  II rc rd ra rb (x 2) S43 0x2ad7d2bb;
  II rb rc rd ra (x 9) S44 0xeb86d391].

Definition MD5Transform (st : md5_state) (block : list Z) : md5_state :=
  let words := Decode block in
  let x i := nth (Z.to_nat i) words 0 in
  let r := foldl (fun r line => line r) st (md5_lines x) in
  mkState (u32 (st_a st + st_a r)) (u32 (st_b st + st_b r)) (u32 (st_c st + st_c r)) (u32 (st_d st + st_d r)).

(** [MD5_memcpy(&buffer[index], input, len)]. *)
Definition copy_at (buf : list Z) (index : nat) (input : list Z) : list Z :=
  take index buf ++ input ++ drop (index + length input) buf.

(** [for (i = partLen; i + 63 < inputLen; i += 64)]: the state and [i] it ends
    with. *)
Fixpoint transform_blocks (fuel : nat) (st : md5_state) (input : list Z) (i : Z) : option (md5_state * Z) :=
  if u32 (i + 63) <? Z.of_nat (length input) then
    match fuel with
    | O => None
    | S fuel => transform_blocks fuel (MD5Transform st (take 64 (drop (Z.to_nat i) input))) input (u32 (i + 64))
    end
  else Some (st, i).

(** [inputLen] is the length of [input]; [None] when the loop does not end within
    one round per byte. *)
Definition MD5Update (c : MD5_CTX) (input : list Z) : option MD5_CTX :=
  let inputLen := Z.of_nat (length input) in
  let index := Z.land (Z.shiftr (count0 c) 3) 0x3F in
  let bits := u32 (Z.shiftl (u32 inputLen) 3) in
  let c0 := u32 (count0 c + bits) in
  let c1 := if c0 <? bits then u32 (count1 c + 1) else count1 c in
  let c1 := u32 (c1 + Z.shiftr (u32 inputLen) 29) in
  let partLen := 64 - index in
  if partLen <=? inputLen then
    let buf := copy_at (buffer c) (Z.to_nat index) (take (Z.to_nat partLen) input) in
    let st := MD5Transform (state c) buf in
    '(st, i) ← transform_blocks (length input) st input partLen;
    Some (mkMd5 st c0 c1 (copy_at buf 0 (drop (Z.to_nat i) input)))
  else Some (mkMd5 (state c) c0 c1 (copy_at (buffer c) (Z.to_nat index) input)).

Definition zero_ctx : MD5_CTX := mkMd5 (mkState 0 0 0 0) 0 0 (repeat 0 64).

(** The digest, and the context it leaves. *)
Definition MD5Final (c : MD5_CTX) : option (list Z * MD5_CTX) :=
  let bits := Encode [count0 c; count1 c] in
  let index := Z.land (Z.shiftr (count0 c) 3) 0x3f in
  let padLen := if index <? 56 then 56 - index else 120 - index in
  c ← MD5Update c (take (Z.to_nat padLen) PADDING);
  c ← MD5Update c bits;
  let st := state c in
  Some (Encode [st_a st; st_b st; st_c st; st_d st], zero_ctx).

(** ** Specification: RFC 1321 *)

(** The message followed by 0x80, zeros up to 56 mod 64 and its length in bits. *)
Definition md5_pad (msg : list Z) : list Z :=
  let n := Z.of_nat (length msg) in
  msg ++ 0x80 :: repeat 0 (Z.to_nat ((55 - n) mod 64)) ++
    (encode_word (wrap 32 (8 * n)) ++ encode_word (wrap 32 (8 * n / 2 ^ 32))).

(** [n] 64-byte blocks of [msg]. *)
Fixpoint absorb (n : nat) (st : md5_state) (msg : list Z) : md5_state :=
  match n with
  | O => st
  | S n => absorb n (MD5Transform st (take 64 msg)) (drop 64 msg)
  end.

Definition md5_spec (msg : list Z) : list Z :=
  let p := md5_pad msg in
  let st := absorb (length p / 64) MD5_IV p in
  Encode [st_a st; st_b st; st_c st; st_d st].

Lemma md5_spec_bytes msg : Forall (fun b => 0 <= b < 256) (md5_spec msg).
Proof.
  unfold md5_spec. cbv zeta. set (st := absorb _ _ _). unfold Encode. cbn [fmap list_fmap mjoin list_join encode_word app].
  assert (Hb : forall x, 0 <= Z.land x 0xff < 256).
  { intros x. change 0xff with (Z.ones 8). rewrite Z.land_ones by done. by apply Z.mod_pos_bound. }
  repeat apply Forall_cons_2; try apply Hb. constructor.
Qed.

(** The compression function of the RFC as a table-driven loop: in step [i] of
    round [r] the word, the shift and the round function are looked up, and the
    four registers rotate. *)
Definition md5_K : list Z :=
  [0xd76aa478; 0xe8c7b756; 0x242070db; 0xc1bdceee; 0xf57c0faf; 0x4787c62a; 0xa8304613; 0xfd469501;
   0x698098d8; 0x8b44f7af; 0xffff5bb1; 0x895cd7be; 0x6b901122; 0xfd987193; 0xa679438e; 0x49b40821;
   0xf61e2562; 0xc040b340; 0x265e5a51; 0xe9b6c7aa; 0xd62f105d; 0x02441453; 0xd8a1e681; 0xe7d3fbc8;
   0x21e1cde6; 0xc33707d6; 0xf4d50d87; 0x455a14ed; 0xa9e3e905; 0xfcefa3f8; 0x676f02d9; 0x8d2a4c8a;
   0xfffa3942; 0x8771f681; 0x6d9d6122; 0xfde5380c; 0xa4beea44; 0x4bdecfa9; 0xf6bb4b60; 0xbebfbc70;
   0x289b7ec6; 0xeaa127fa; 0xd4ef3085; 0x04881d05; 0xd9d4d039; 0xe6db99e5; 0x1fa27cf8; 0xc4ac5665;
   0xf4292244; 0x432aff97; 0xab9423a7; 0xfc93a039; 0x655b59c3; 0x8f0ccc92; 0xffeff47d; 0x85845dd1;
   0x6fa87e4f; 0xfe2ce6e0; 0xa3014314; 0x4e0811a1; 0xf7537e82; 0xbd3af235; 0x2ad7d2bb; 0xeb86d391].
Definition md5_shifts : list (list Z) := [[7; 12; 17; 22]; [5; 9; 14; 20]; [4; 11; 16; 23]; [6; 10; 15; 21]].

Definition round_fun (r : nat) (x y z : Z) : Z :=
  match r with
  | 0%nat => Z.lor (Z.land x y) (Z.land (not32 x) z)
  | 1%nat => Z.lor (Z.land x z) (Z.land y (not32 z))
  | 2%nat => Z.lxor (Z.lxor x y) z
  | _ => Z.lxor y (Z.lor x (not32 z))
  end.
Definition round_word (r i : nat) : nat :=
  match r with
  | 0%nat => i
  | 1%nat => (5 * i + 1) mod 16
  | 2%nat => (3 * i + 5) mod 16
  | _ => (7 * i) mod 16
  end.

Definition rfc_step (x : list Z) (st : md5_state) (i : nat) : md5_state :=
  let r := (i / 16)%nat in
  let t := u32 (st_a st + (round_fun r (st_b st) (st_c st) (st_d st) + nth (round_word r i) x 0 + nth i md5_K 0)) in
  mkState (st_d st)
          (u32 (ROTATE_LEFT t (nth (i mod 4) (nth r md5_shifts []) 0) + st_b st))
          (st_b st) (st_c st).

Definition rfc_transform (st : md5_state) (block : list Z) : md5_state :=
  let st' := foldl (rfc_step (Decode block)) st (seq 0 64) in
  mkState (u32 (st_a st + st_a st')) (u32 (st_b st + st_b st'))
          (u32 (st_c st + st_c st')) (u32 (st_d st + st_d st')).

(** Line [i] of the unrolled code names the registers rotated by [i]. *)
Definition view (i : nat) (st : md5_state) : md5_state :=
  match (i mod 4)%nat with
  | 0%nat => st
  | 1%nat => mkState (st_d st) (st_a st) (st_b st) (st_c st)
  | 2%nat => mkState (st_c st) (st_d st) (st_a st) (st_b st)
  | _ => mkState (st_b st) (st_c st) (st_d st) (st_a st)
  end.

Lemma lines_are_steps x : Forall2 (fun line i => forall st,
    rfc_step x (view i st) i = view (S i) (line st))
  (md5_lines (fun i => nth (Z.to_nat i) x 0)) (seq 0 64).
Proof. repeat (constructor; [intros []; reflexivity|]). constructor. Qed.

Lemma lines_fold x ls ks : Forall2 (fun line i => forall st,
    rfc_step x (view i st) i = view (S i) (line st)) ls ks ->
  forall k st, ks = seq k (length ks) ->
  foldl (rfc_step x) (view k st) ks = view (k + length ks) (foldl (fun r line => line r) st ls).
Proof.
  induction 1 as [|line i ls ks Hl _ IH]; intros k st Hk; cbn [length foldl].
  - by rewrite Nat.add_0_r.
  - cbn [length seq] in Hk. injection Hk as -> Hk. rewrite Hl, (IH (S k)) by done.
    f_equal. lia.
Qed.

(** The unrolled [MD5Transform] - 64 macro lines with their registers, words,
    shifts and constants written out - computes the table-driven compression
    function of the RFC on every state and block. *)
Theorem transform_is_rfc st block : MD5Transform st block = rfc_transform st block.
Proof.
  unfold MD5Transform, rfc_transform.
  pose proof (lines_fold _ _ _ (lines_are_steps (Decode block)) 0 st eq_refl) as E.
  change (view 0 st) with st in E. rewrite E. done.
Qed.

(** ** What a context stands for *)

(** [c] has taken in [m]: the state is that of its full blocks, the count its
    length in bits, the first bytes of [buffer] its rest. What lies behind them in
    [buffer] does not matter. *)
Record md5_rep (c : MD5_CTX) (m : list Z) : Prop := {
  mr_state : state c = absorb (length m / 64) MD5_IV m;
  mr_count : count0 c + 2 ^ 32 * count1 c = (8 * Z.of_nat (length m)) mod 2 ^ 64;
  mr_range : in_range 32 (count0 c) /\ in_range 32 (count1 c);
  mr_buffer : length (buffer c) = 64%nat;
  mr_rest : take (length m mod 64) (buffer c) = drop (64 * (length m / 64)) m }.

Lemma absorb_app n k st m : absorb (n + k) st m = absorb k (absorb n st m) (drop (64 * n) m).
Proof.
  revert st m. induction n as [|n IH]; intros st m; cbn [Nat.add absorb].
  - by rewrite Nat.mul_0_r, drop_0.
  - rewrite IH, drop_drop. do 2 f_equal. lia.
Qed.

(** Only the blocks are looked at. *)
Lemma absorb_prefix n st m m' : take (64 * n) m = take (64 * n) m' -> absorb n st m = absorb n st m'.
Proof.
  revert st m m'. induction n as [|n IH]; intros st m m' E; [done|]. cbn [absorb].
  assert (E1 : take 64 m = take 64 m').
  { rewrite <- (Nat.min_l 64 (64 * S n)) by lia. by rewrite <- !take_take, E. }
  rewrite E1. apply IH. rewrite !take_drop_commute.
  replace (64 + 64 * n)%nat with (64 * S n)%nat by lia. by rewrite E.
Qed.

Lemma MD5Init_rep c : length (buffer c) = 64%nat -> md5_rep (MD5Init c) [].
Proof. intros H. split; cbn; try done. Qed.

Lemma copy_at_length buf i x : (i + length x <= length buf)%nat -> length (copy_at buf i x) = length buf.
Proof. intros H. unfold copy_at. rewrite !length_app, length_take, length_drop. lia. Qed.

Lemma copy_at_prefix buf i x : (i + length x <= length buf)%nat ->
  take (i + length x) (copy_at buf i x) = take i buf ++ x.
Proof.
  intros H. unfold copy_at. rewrite app_assoc, take_app_length'; [done|].
  rewrite length_app, length_take. lia.
Qed.

(** The loop over the input's own blocks. *)
Lemma transform_blocks_spec x : Z.of_nat (length x) < 2 ^ 32 - 64 ->
  forall fuel st i, (i <= length x)%nat -> (length x - i <= 64 * fuel + 63)%nat ->
  let n := ((length x - i) / 64)%nat in
  transform_blocks fuel st x (Z.of_nat i) =
    Some (absorb n st (drop i x), Z.of_nat (i + 64 * n)).
Proof.
  intros Hx. induction fuel as [|fuel IH]; intros st i Hi Hf n; subst n; cbn [transform_blocks];
    rewrite wrap_small by (unfold in_range; lia);
    destruct (Z.ltb_spec (Z.of_nat i + 63) (Z.of_nat (length x))) as [Hlt|Hge].
  - lia.
  - rewrite Nat.div_small by lia. cbn [absorb]. do 3 f_equal. lia.
  - rewrite wrap_small by (unfold in_range; lia). rewrite Nat2Z.id.
    replace (Z.of_nat i + 64) with (Z.of_nat (i + 64)) by lia. rewrite IH by lia.
    assert (E : ((length x - i) / 64 = S ((length x - (i + 64)) / 64))%nat).
    { replace (length x - i)%nat with (length x - (i + 64) + 1 * 64)%nat by lia.
      rewrite Nat.div_add by lia. lia. }
    rewrite E. cbn [absorb]. rewrite drop_drop. do 3 f_equal. lia.
  - rewrite Nat.div_small by lia. cbn [absorb]. do 3 f_equal. lia.
Qed.

Lemma count_update c0 c1 n len : in_range 32 c0 -> in_range 32 c1 -> 0 <= len < 2 ^ 32 ->
  c0 + 2 ^ 32 * c1 = (8 * n) mod 2 ^ 64 ->
  let bits := u32 (Z.shiftl (u32 len) 3) in
  let d0 := u32 (c0 + bits) in
  let d1 := u32 ((if d0 <? bits then u32 (c1 + 1) else c1) + Z.shiftr (u32 len) 29) in
  in_range 32 d0 /\ in_range 32 d1 /\ d0 + 2 ^ 32 * d1 = (8 * (n + len)) mod 2 ^ 64.
Proof.
  intros H0 H1 Hl Hc bits d0 d1. subst d1 d0 bits. unfold in_range in *.
  rewrite (wrap_small 32 len) by (unfold in_range; lia).
  rewrite Z.shiftl_mul_pow2, Z.shiftr_div_pow2 by lia.
  split; [apply wrap_range; lia|]. split; [apply wrap_range; lia|].
  replace (8 * (n + len)) with (8 * n + 8 * len) by lia.
  rewrite Z.add_mod, <- Hc by lia. unfold wrap. clear Hc.
  change (2 ^ 3) with 8. change (2 ^ 29) with 536870912. change (2 ^ 32) with 4294967296 in *.
  change (2 ^ 64) with 18446744073709551616.
  zcases; Z.div_mod_to_equations; lia.
Qed.

(** ** Updates *)

Lemma count_index c m : md5_rep c m ->
  Z.land (Z.shiftr (count0 c) 3) 0x3F = Z.of_nat (length m mod 64).
Proof.
  intros [_ Hc [H0 H1] _ _]. change 0x3F with (Z.ones 6).
  rewrite Z.land_ones, Z.shiftr_div_pow2 by lia. rewrite Nat2Z.inj_mod. unfold in_range in *.
  change (2 ^ 3) with 8. change (2 ^ 6) with 64. change (2 ^ 32) with 4294967296 in *.
  change (2 ^ 64) with 18446744073709551616 in *. change (Z.of_nat 64) with 64.
  Z.div_mod_to_equations. lia.
Qed.

Lemma mod_facts (n : nat) : (n = 64 * (n / 64) + n mod 64 /\ n mod 64 < 64)%nat.
Proof. split; [apply Nat.div_mod; lia|apply Nat.mod_upper_bound; lia]. Qed.

Lemma div_unique (n q r : nat) : (n = 64 * q + r -> r < 64 -> n / 64 = q /\ n mod 64 = r)%nat.
Proof. intros E Hr. pose proof (mod_facts n). lia. Qed.

Definition fits32 (x : list Z) : Prop := Z.of_nat (length x) < 2 ^ 32 - 64.

(** Taking in [x] after [m]. *)
Lemma MD5Update_rep c m x : md5_rep c m -> fits32 x ->
  exists c', MD5Update c x = Some c' /\ md5_rep c' (m ++ x).
Proof.
  intros Hr Hx. unfold fits32 in Hx. pose proof (count_index c m Hr) as Hidx.
  destruct Hr as [Hst Hct [Hc0 Hc1] Hbuf Hrest].
  destruct (mod_facts (length m)) as [Hm Hk]. set (k := (length m mod 64)%nat) in *. set (q := (length m / 64)%nat) in *.
  pose proof (count_update _ _ (Z.of_nat (length m)) (Z.of_nat (length x)) Hc0 Hc1 ltac:(clear -Hx; lia) Hct) as (Hd0 & Hd1 & Hct').
  assert (Hlen : Z.of_nat (length (m ++ x)) = Z.of_nat (length m) + Z.of_nat (length x)) by (rewrite length_app; lia).
  unfold MD5Update. rewrite Hidx, Nat2Z.id.
  replace (64 - Z.of_nat k) with (Z.of_nat (64 - k)) by lia. rewrite Nat2Z.id.
  set (p := (64 - k)%nat) in *.
  destruct (Z.leb_spec (Z.of_nat p) (Z.of_nat (length x))) as [Hle|Hgt].
  - (* at least one block is complete *)
    set (buf := copy_at (buffer c) k (take p x)).
    assert (Htk : length (take p x) = p) by (rewrite length_take; lia).
    assert (Hbl : length buf = 64%nat) by (subst buf; rewrite copy_at_length; lia).
    assert (Hblk : buf = drop (64 * q) m ++ take p x).
    { rewrite <- Hrest. rewrite <- (copy_at_prefix (buffer c) k (take p x)) by lia. fold buf.
      rewrite take_ge; [done|lia]. }
    rewrite (transform_blocks_spec x Hx (length x) _ p) by lia.
    set (n := ((length x - p) / 64)%nat). destruct (mod_facts (length x - p)) as [Hn Hnr]. fold n in Hn.
    cbn [mbind option_bind]. rewrite Nat2Z.id. eexists. split; [done|].
    destruct (div_unique (length (m ++ x)) (q + S n) (length x - (p + 64 * n))) as [Ediv Emod];
      [rewrite length_app; lia|lia|].
    assert (Hdx : drop (64 * (q + S n)) (m ++ x) = drop (p + 64 * n) x).
    { rewrite drop_app_ge by lia. f_equal. lia. }
    split; cbn [state count0 count1 buffer].
    + rewrite Ediv, absorb_app. cbn [absorb].
      assert (E1 : absorb q MD5_IV (m ++ x) = state c).
      { rewrite Hst. apply absorb_prefix. rewrite take_app_le by lia. done. }
      assert (E2 : take 64 (drop (64 * q) (m ++ x)) = buf).
      { rewrite Hblk, drop_app_le by lia. rewrite take_app_ge by (rewrite length_drop; lia).
        rewrite length_drop. do 2 f_equal. lia. }
      assert (E3 : drop 64 (drop (64 * q) (m ++ x)) = drop p x).
      { rewrite drop_drop, drop_app_ge by lia. f_equal. lia. }
      by rewrite E1, E2, E3.
    + by rewrite Hlen.
    + done.
    + rewrite copy_at_length; rewrite ?length_drop, Hbl; lia.
    + rewrite Ediv, Emod, Hdx.
      pose proof (copy_at_prefix buf 0 (drop (p + 64 * n) x)) as E.
      rewrite take_0, length_drop in E. apply E. lia.
  - (* the bytes only go to the buffer *)
    eexists. split; [done|].
    destruct (div_unique (length (m ++ x)) q (k + length x)) as [Ediv Emod]; [rewrite length_app; lia|lia|].
    split; cbn [state count0 count1 buffer].
    + rewrite Ediv, Hst. apply absorb_prefix. rewrite take_app_le by lia. done.
    + by rewrite Hlen.
    + done.
    + rewrite copy_at_length; lia.
    + rewrite Ediv, Emod, copy_at_prefix by lia. rewrite Hrest, drop_app_le by lia. done.
Qed.

(** Taking in the chunks one after the other. *)
Fixpoint MD5UpdateAll (c : MD5_CTX) (xs : list (list Z)) : option MD5_CTX :=
  match xs with
  | [] => Some c
  | x :: xs => c ← MD5Update c x; MD5UpdateAll c xs
  end.

Lemma MD5UpdateAll_rep xs : forall c m, md5_rep c m -> Forall fits32 xs ->
  exists c', MD5UpdateAll c xs = Some c' /\ md5_rep c' (m ++ mjoin xs).
Proof.
  induction xs as [|x xs IH]; intros c m Hr Hx; cbn [MD5UpdateAll mjoin list_join].
  - exists c. by rewrite app_nil_r.
  - apply Forall_cons in Hx as [Hx Hxs]. destruct (MD5Update_rep c m x Hr Hx) as (c1 & -> & Hr1).
    cbn [mbind option_bind]. destruct (IH c1 _ Hr1 Hxs) as (c2 & E & Hr2).
    exists c2. split; [done|]. by rewrite app_assoc.
Qed.

(** *** Finishing *)

Lemma padding_take n : (1 <= n <= 64)%nat -> take n PADDING = 0x80 :: repeat 0 (n - 1).
Proof.
  intros Hn. unfold PADDING. destruct n as [|n]; [lia|]. cbn [take]. f_equal.
  rewrite Nat.sub_succ, Nat.sub_0_r. change (repeat 0 63) with (replicate 63 0).
  rewrite take_replicate. rewrite Nat.min_l by lia. generalize n as j. intros j.
  induction j as [|j IH]; [done|]. cbn. by rewrite IH.
Qed.

Lemma encode_count c m : md5_rep c m ->
  Encode [count0 c; count1 c] = encode_word (wrap 32 (8 * Z.of_nat (length m))) ++
    encode_word (wrap 32 (8 * Z.of_nat (length m) / 2 ^ 32)).
Proof.
  intros [_ Hc [H0 H1] _ _]. unfold in_range in *. unfold Encode. cbn [fmap list_fmap mjoin list_join].
  rewrite app_nil_r. f_equal; f_equal; unfold wrap;
  change (2 ^ 32) with 4294967296 in *; change (2 ^ 64) with 18446744073709551616 in *;
  Z.div_mod_to_equations; lia.
Qed.

Lemma MD5Final_digest c m : md5_rep c m -> MD5Final c = Some (md5_spec m, zero_ctx).
Proof.
  intros Hr. unfold MD5Final. rewrite (count_index c m Hr), (encode_count c m Hr).
  destruct (mod_facts (length m)) as [Hm Hk]. set (k := (length m mod 64)%nat) in *. set (q := (length m / 64)%nat) in *.
  set (z := Z.to_nat ((55 - Z.of_nat (length m)) mod 64)).
  assert (Hpad : Z.to_nat (if Z.of_nat k <? 56 then 56 - Z.of_nat k else 120 - Z.of_nat k) = (z + 1)%nat).
  { subst z. zcases; Z.div_mod_to_equations; lia. }
  assert (Hz : (z < 64)%nat) by (subst z; Z.div_mod_to_equations; lia).
  rewrite Hpad, padding_take by lia. replace (z + 1 - 1)%nat with z by lia.
  set (pad := 0x80 :: repeat 0 z).
  assert (Hpl : length pad = S z) by (subst pad; cbn; by rewrite repeat_length).
  destruct (MD5Update_rep c m pad Hr) as (c1 & -> & Hr1); [unfold fits32; lia|]. cbn [mbind option_bind].
  set (bits := encode_word _ ++ encode_word _).
  destruct (MD5Update_rep c1 _ bits Hr1) as (c2 & -> & Hr2); [unfold fits32; cbn; lia|]. cbn [mbind option_bind].
  assert (E : (m ++ pad) ++ bits = md5_pad m).
  { unfold md5_pad. fold bits. rewrite <- app_assoc. reflexivity. }
  rewrite E in Hr2. unfold md5_spec. rewrite (mr_state _ _ Hr2). done.
Qed.



(** The test suite of RFC 1321, A.5. *)
Definition bytes (s : string) : list Z :=
  (fun a => Z.of_nat (Ascii.nat_of_ascii a)) <$> String.list_ascii_of_string s.
Definition hex_digit (n : Z) : string :=
  match String.get (Z.to_nat n) "0123456789abcdef" with Some a => String a EmptyString | None => EmptyString end.
Definition hex (bs : list Z) : string := foldr (fun b s => (hex_digit (b / 16) +:+ hex_digit (b mod 16) +:+ s)%string) EmptyString bs.
Definition md5 (s : string) : option string :=
  '(d, _) ← (c ← MD5Update (MD5Init zero_ctx) (bytes s); MD5Final c); Some (hex d).

Example md5_empty : md5 EmptyString = Some "d41d8cd98f00b204e9800998ecf8427e"%string.
Proof. by vm_compute. Qed.
Example md5_a : md5 "a" = Some "0cc175b9c0f1b6a831c399e269772661"%string.
Proof. by vm_compute. Qed.
Example md5_abc : md5 "abc" = Some "900150983cd24fb0d6963f7d28e17f72"%string.
Proof. by vm_compute. Qed.
Example md5_alphabet : md5 "abcdefghijklmnopqrstuvwxyz" = Some "c3fcd3d76192e4007dfb496cca67e13b"%string.
Proof. by vm_compute. Qed.
Example md5_alphanumeric : md5 "ABCDEFGHIJKLMNOPQRSTUVWXYZabcdefghijklmnopqrstuvwxyz0123456789" =
  Some "d174ab98d277d9f5a5611c2c9f419d9f"%string.
Proof. by vm_compute. Qed.
Example md5_digits : md5 "12345678901234567890123456789012345678901234567890123456789012345678901234567890" =
  Some "57edf4a22be3c955ac49da2e2107b67a"%string.
Proof. by vm_compute. Qed.
