(* ===== verification/Strings.v ===== *)
(** * Strings: memory and string routines of src/src/string.c

    Over a byte memory; an address that is not in it is not mapped, and touching it is
    a fault. [char] is signed on this target: a byte compares as [sint 8]. *)

From S2P Require Import Prelude.

Abbreviation bytes := (gmap Z Z).

(** ** Operations *)

Definition ld8 (p : Z) : M bytes Z :=
  m ← gets id; match m !! p with Some b => mret b | None => fault end.
Definition st8 (p b : Z) : M bytes unit :=
  m ← gets id; match m !! p with Some _ => modify (<[p := u8 b]>) | None => fault end.

Fixpoint memset_loop (n : nat) (bdst c : Z) : M bytes unit :=
  match n with
  | O => mret tt
  | S n => st8 bdst c ;; memset_loop n (bdst + 1) c
  end.
Definition memset (dst c n : Z) : M bytes Z := memset_loop (Z.to_nat n) dst c ;; mret dst.

Fixpoint memcpy_loop (n : nat) (bdest bsrc : Z) : M bytes unit :=
  match n with
  | O => mret tt
  | S n => b ← ld8 bsrc; st8 bdest b ;; memcpy_loop n (bdest + 1) (bsrc + 1)
  end.
Definition memcpy (dest src n : Z) : M bytes Z := memcpy_loop (Z.to_nat n) dest src ;; mret dest.

Fixpoint strlen_loop (fuel : nat) (s n : Z) : M bytes Z :=
  match fuel with
  | O => no_fuel
  | S fuel =>
      b ← ld8 s;
      if negb (b =? 0) then strlen_loop fuel (s + 1) (n + 1) else mret n
  end.
(** A string ends before the mapped memory does or the scan faults: as many rounds as
    there are bytes, and one, are enough. *)
Definition strlen (s : Z) : M bytes Z :=
  m ← gets id; strlen_loop (S (size m)) s 0.

Definition strcpy (dest src : Z) : M bytes Z :=
  n ← strlen src;
  _ ← memcpy dest src n;
  st8 (dest + n) 0 ;;
  mret dest.

(** The difference of two chars. *)
Definition char_diff (x y : Z) : Z := sint 8 x - sint 8 y.

Fixpoint strcmp_loop (fuel : nat) (a b i : Z) : M bytes Z :=
  la ← strlen a;
  lb ← strlen b;
  if i <? la `min` lb then
    match fuel with
    | O => no_fuel
    | S fuel =>
        ai ← ld8 (a + i);
        bi ← ld8 (b + i);
        if negb (char_diff ai bi =? 0) then
          b0 ← ld8 (b + 0);
          mret (char_diff ai b0)
        else strcmp_loop fuel a b (i + 1)
    end
  else mret 0.
Definition strcmp (a b : Z) : M bytes Z :=
  m ← gets id; strcmp_loop (S (size m)) a b 0.

(** ** What memory holds *)

(** The bytes [l] are at [p]. *)
Definition bytes_at (m : bytes) (p : Z) (l : list Z) : Prop :=
  forall i b, l !! i = Some b -> m !! (p + Z.of_nat i) = Some b.
(** [n] bytes from [p] are mapped. *)
Definition mapped (m : bytes) (p n : Z) : Prop := forall i, 0 <= i < n -> is_Some (m !! (p + i)).
Definition is_char (b : Z) : Prop := in_range 8 b.
(** A C string: nonzero bytes and the terminator. *)
Definition cstring (m : bytes) (p : Z) (l : list Z) : Prop :=
  bytes_at m p (l ++ [0]) /\ Forall (fun b => is_char b /\ b <> 0) l.
(** [m'] is [m] with [l] at [p]. *)
Definition written (m m' : bytes) (p : Z) (l : list Z) : Prop :=
  bytes_at m' p l /\ forall q, ~ (p <= q < p + Z.of_nat (length l)) -> m' !! q = m !! q.

Lemma bytes_at_cons m p b l : bytes_at m p (b :: l) <-> m !! p = Some b /\ bytes_at m (p + 1) l.
Proof.
  split.
  - intros H. split; [by rewrite <- (H 0%nat b eq_refl), Z.add_0_r|].
    intros i b' Hi. rewrite <- (H (S i) b' Hi). f_equal. lia.
  - intros [H0 H] [|i] b' Hi; [injection Hi as <-; by rewrite Z.add_0_r|].
    rewrite <- (H i b' Hi). f_equal. lia.
Qed.

Lemma bytes_at_app_l m p l1 l2 : bytes_at m p (l1 ++ l2) -> bytes_at m p l1.
Proof. intros H i b Hi. apply H. by apply lookup_app_l_Some. Qed.

Lemma bytes_at_same m m' p l : bytes_at m p l ->
  (forall q, p <= q < p + Z.of_nat (length l) -> m' !! q = m !! q) -> bytes_at m' p l.
Proof. intros H Hs i b Hi. rewrite Hs; [by apply H|]. apply lookup_lt_Some in Hi. lia. Qed.

Lemma ld8_ret m p b : m !! p = Some b -> ld8 p m = Ret b m.
Proof. intros H. unfold ld8. rewrite bind_gets. unfold id. by rewrite H. Qed.
Lemma st8_ret m p b : is_Some (m !! p) -> st8 p b m = Ret tt (<[p := u8 b]> m).
Proof. intros [b0 H]. unfold st8. rewrite bind_gets. unfold id. by rewrite H. Qed.

(** ** memset and memcpy *)

Lemma memset_loop_spec n p c m : mapped m p (Z.of_nat n) ->
  exists m', memset_loop n p c m = Ret tt m' /\ written m m' p (repeat (u8 c) n).
Proof.
  revert p m. induction n as [|n IH]; intros p m Hm; cbn [memset_loop repeat].
  { exists m. split; [done|]. split; [by intros [|i] b|done]. }
  rewrite (bind_ret _ _ _ _ _ (st8_ret m p c ltac:(rewrite <- (Z.add_0_r p); apply Hm; lia))).
  destruct (IH (p + 1) (<[p := u8 c]> m)) as (m' & E & Hw & Hs).
  { intros i Hi. destruct (decide (p = p + 1 + i)) as [e|]; [lia|]. rewrite lookup_insert_ne by done.
    replace (p + 1 + i) with (p + (1 + i)) by lia. apply Hm. lia. }
  rewrite repeat_length in Hs. exists m'. split; [done|]. split.
  - apply bytes_at_cons. split; [|done]. rewrite Hs by lia. by apply lookup_insert_eq.
  - cbn [length]. rewrite repeat_length. intros q Hq. rewrite Hs, lookup_insert_ne by lia. done.
Qed.

Lemma memset_correct dst c n m : 0 <= n -> mapped m dst n ->
  exists m', memset dst c n m = Ret dst m' /\ written m m' dst (repeat (u8 c) (Z.to_nat n)).
Proof.
  intros Hn Hm. destruct (memset_loop_spec (Z.to_nat n) dst c m) as (m' & E & Hw).
  { by rewrite Z2Nat.id. }
  exists m'. unfold memset. by rewrite (bind_ret _ _ _ _ _ E).
Qed.

(** Copying upwards is right when the destination does not start inside the rest of
    the source. *)
Lemma memcpy_loop_spec l dest src m :
  bytes_at m src l -> Forall is_char l -> mapped m dest (Z.of_nat (length l)) ->
  dest <= src \/ src + Z.of_nat (length l) <= dest ->
  exists m', memcpy_loop (length l) dest src m = Ret tt m' /\ written m m' dest l.
Proof.
  revert dest src m. induction l as [|b l IH]; intros dest src m Hs Hc Hm Hd; cbn [length memcpy_loop].
  { exists m. split; [done|]. split; [by intros [|i] b|done]. }
  apply bytes_at_cons in Hs as [Hb Hs]. apply Forall_cons in Hc as [Hcb Hc]. cbn [length] in *.
  rewrite (bind_ret _ _ _ _ _ (ld8_ret m src b Hb)).
  rewrite (bind_ret _ _ _ _ _ (st8_ret m dest b ltac:(rewrite <- (Z.add_0_r dest); apply Hm; lia))).
  rewrite wrap_small by done.
  destruct (IH (dest + 1) (src + 1) (<[dest := b]> m)) as (m' & E & Hw & Ho).
  - apply (bytes_at_same m); [done|]. intros q Hq. apply lookup_insert_ne. lia.
  - done.
  - intros i Hi. rewrite lookup_insert_ne by lia. replace (dest + 1 + i) with (dest + (1 + i)) by lia. apply Hm. lia.
  - lia.
  - exists m'. split; [done|]. split.
    + apply bytes_at_cons. split; [|done]. rewrite Ho by lia. by apply lookup_insert_eq.
    + intros q Hq. cbn [length] in Hq. rewrite Ho, lookup_insert_ne by lia. done.
Qed.

Lemma memcpy_spec l dest src m :
  bytes_at m src l -> Forall is_char l -> mapped m dest (Z.of_nat (length l)) ->
  dest <= src \/ src + Z.of_nat (length l) <= dest ->
  exists m', memcpy dest src (Z.of_nat (length l)) m = Ret dest m' /\ written m m' dest l.
Proof.
  intros Hs Hc Hm Hd. destruct (memcpy_loop_spec l dest src m Hs Hc Hm Hd) as (m' & E & Hw).
  exists m'. unfold memcpy. rewrite Nat2Z.id. by rewrite (bind_ret _ _ _ _ _ E).
Qed.

(** ** strlen *)

Lemma strlen_loop_spec l : forall fuel s n m, cstring m s l -> (length l < fuel)%nat ->
  strlen_loop fuel s n m = Ret (n + Z.of_nat (length l)) m.
Proof.
  induction l as [|b l IH]; intros fuel s n m [Hb Hc] Hf; (destruct fuel as [|fuel]; [lia|]); cbn [strlen_loop];
    cbn [app] in Hb; apply bytes_at_cons in Hb as [Hb Hr]; rewrite (bind_ret _ _ _ _ _ (ld8_ret m s _ Hb)).
  - cbn. by rewrite Z.add_0_r.
  - apply Forall_cons in Hc as [[_ Hb0] Hc]. rewrite (proj2 (Z.eqb_neq b 0) Hb0). cbn [negb length] in *.
    rewrite IH; [f_equal; lia|done|lia].
Qed.

(** The bytes of a string are so many addresses of the memory. *)
Lemma bytes_at_size m p l : bytes_at m p l -> (length l <= size m)%nat.
Proof.
  intros H.
  assert (Hsub : (list_to_set ((fun i => p + Z.of_nat i) <$> seq 0 (length l)) : gset Z) ⊆ dom m).
  { intros q Hq. apply elem_of_list_to_set, list_elem_of_fmap in Hq as (i & -> & Hi).
    apply elem_of_seq in Hi. destruct (lookup_lt_is_Some_2 l i) as [b Eb]; [lia|].
    apply elem_of_dom. exists b. by apply H. }
  apply subseteq_size in Hsub. rewrite size_dom, size_list_to_set, length_fmap, length_seq in Hsub; [done|].
  apply NoDup_fmap_2; [intros x y; lia|apply NoDup_seq].
Qed.

Lemma strlen_spec m s l : cstring m s l -> strlen s m = Ret (Z.of_nat (length l)) m.
Proof.
  intros H. unfold strlen. rewrite bind_gets. unfold id. rewrite (strlen_loop_spec l) by
    (done || (pose proof (bytes_at_size m s (l ++ [0]) (proj1 H)) as Hs; rewrite length_app in Hs; cbn in Hs; lia)).
  done.
Qed.

(** The scan of any memory ends: with a length, or at an unmapped byte. *)
Lemma strlen_loop_total fuel s n m p : p <= s -> mapped m p (s - p) -> (size m < fuel + Z.to_nat (s - p))%nat ->
  (exists k, strlen_loop fuel s n m = Ret k m) \/ strlen_loop fuel s n m = Fault.
Proof.
  revert s n. induction fuel as [|fuel IH]; intros s n Hp Hm Hf; cbn [strlen_loop].
  - exfalso. assert (Hb : (length (seq 0 (Z.to_nat (s - p))) <= size m)%nat); [|rewrite length_seq in Hb; lia].
    rewrite <- (length_fmap (fun i => p + Z.of_nat i)), <- (size_dom m), <- (size_list_to_set (C := gset Z)).
    + apply subseteq_size. intros q Hq. apply elem_of_list_to_set, list_elem_of_fmap in Hq as (i & -> & Hi).
      apply elem_of_seq in Hi. apply elem_of_dom, Hm. lia.
    + apply NoDup_fmap_2; [intros x y; lia|apply NoDup_seq].
  - destruct (m !! s) as [b|] eqn:E.
    + rewrite (bind_ret _ _ _ _ _ (ld8_ret m s b E)). destruct (negb (b =? 0)); [|left; by exists n].
      apply IH; [lia| |lia]. intros i Hi. destruct (decide (i = s - p)) as [->|]; [|apply Hm; lia].
      replace (p + (s - p)) with s by lia. by exists b.
    + right. unfold ld8, mbind, M_bind. cbn. unfold id. by rewrite E.
Qed.

Theorem strlen_total s m : (exists k, strlen s m = Ret k m) \/ strlen s m = Fault.
Proof.
  unfold strlen. rewrite bind_gets. unfold id.
  apply (strlen_loop_total _ s 0 m s); [lia|intros i; lia|lia].
Qed.

(** ** strcpy *)

(** [strcpy] makes [dest] a copy of the string, terminator included, changes
    nothing outside it and returns it. *)
Theorem strcpy_correct dest src l m :
  cstring m src l -> mapped m dest (Z.of_nat (length l) + 1) ->
  dest <= src \/ src + Z.of_nat (length l) < dest ->
  exists m', strcpy dest src m = Ret dest m' /\ cstring m' dest l /\ written m m' dest (l ++ [0]).
Proof.
  intros [Hs Hc] Hm Hd. unfold strcpy. rewrite (bind_ret _ _ _ _ _ (strlen_spec m src l (conj Hs Hc))).
  destruct (memcpy_spec l dest src m) as (m1 & E & Hw & Ho).
  - by apply bytes_at_app_l in Hs.
  - eapply Forall_impl; [exact Hc|]. by intros b [? _].
  - intros i Hi. apply Hm. lia.
  - lia.
  - rewrite (bind_ret _ _ _ _ _ E).
    assert (Hend : is_Some (m1 !! (dest + Z.of_nat (length l)))) by (rewrite Ho by lia; apply Hm; lia).
    rewrite (bind_ret _ _ _ _ _ (st8_ret m1 _ 0 Hend)). change (u8 0) with 0.
    set (m2 := <[_ := _]> m1). exists m2. split; [done|].
    assert (Hw2 : bytes_at m2 dest (l ++ [0])).
    { intros i b Hi. subst m2. destruct (decide (i < length l)%nat) as [Hlt|Hge].
      - rewrite lookup_app_l in Hi by done. rewrite lookup_insert_ne by lia. by apply Hw.
      - rewrite lookup_app_r in Hi by lia. destruct (i - length l)%nat as [|k] eqn:Ek; [|done].
        injection Hi as <-. replace i with (length l) by lia. apply lookup_insert_eq. }
    repeat split; try done. intros q Hq. rewrite length_app in Hq. cbn in Hq. subst m2.
    rewrite lookup_insert_ne by lia. apply Ho. lia.
Qed.

(** ** strcmp *)

(** The char of the first string at the first place, in the length of both, where the
    strings differ. *)
Fixpoint mismatch (la lb : list Z) : option Z :=
  match la, lb with
  | a :: la, b :: lb => if char_diff a b =? 0 then mismatch la lb else Some a
  | _, _ => None
  end.

(** What [strcmp] returns: that char less the {e first} one of the second string. *)
Definition strcmp_value (la lb : list Z) : Z :=
  match mismatch la lb with Some x => char_diff x (nth 0 lb 0) | None => 0 end.

Lemma char_diff_0 x y : is_char x -> is_char y -> char_diff x y = 0 <-> x = y.
Proof.
  unfold is_char, in_range, char_diff, sint, wrap. intros Hx Hy.
  rewrite !Z.mod_small by lia. change (2 ^ (8 - 1)) with 128. change (2 ^ 8) with 256 in *. zcases; lia.
Qed.

Lemma bytes_at_drop m p l i : (i <= length l)%nat -> bytes_at m p l -> bytes_at m (p + Z.of_nat i) (drop i l).
Proof.
  intros Hi H j b Hj. rewrite lookup_drop in Hj. rewrite <- (H _ _ Hj). f_equal. lia.
Qed.

Lemma strcmp_loop_spec fuel a b la lb m : forall i, cstring m a la -> cstring m b lb ->
  (i <= length la `min` length lb)%nat -> (length la `min` length lb - i < fuel)%nat ->
  strcmp_loop fuel a b (Z.of_nat i) m
  = Ret (match mismatch (drop i la) (drop i lb) with Some x => char_diff x (nth 0 lb 0) | None => 0 end) m.
Proof.
  induction fuel as [|fuel IH]; intros i Ha Hb Hi Hf; [lia|].
  cbn [strcmp_loop]. rewrite (bind_ret _ _ _ _ _ (strlen_spec m a la Ha)), (bind_ret _ _ _ _ _ (strlen_spec m b lb Hb)).
  destruct (Z.ltb_spec (Z.of_nat i) (Z.of_nat (length la) `min` Z.of_nat (length lb))) as [Hlt|Hge].
  - destruct (lookup_lt_is_Some_2 la i) as [x Ex]; [lia|]. destruct (lookup_lt_is_Some_2 lb i) as [y Ey]; [lia|].
    destruct (lookup_lt_is_Some_2 lb 0) as [y0 Ey0]; [lia|].
    rewrite (bind_ret _ _ _ _ _ (ld8_ret m (a + Z.of_nat i) x (bytes_at_app_l _ _ _ _ (proj1 Ha) i x Ex))).
    rewrite (bind_ret _ _ _ _ _ (ld8_ret m (b + Z.of_nat i) y (bytes_at_app_l _ _ _ _ (proj1 Hb) i y Ey))).
    rewrite (drop_S la x i), (drop_S lb y i) by done. cbn [mismatch].
    destruct (char_diff x y =? 0); cbn [negb].
    + replace (Z.of_nat i + 1) with (Z.of_nat (S i)) by lia. apply IH; [done|done|lia|lia].
    + rewrite (bind_ret _ _ _ _ _ (ld8_ret m (b + 0) y0 (bytes_at_app_l _ _ _ _ (proj1 Hb) 0%nat y0 Ey0))).
      by rewrite (nth_lookup_Some lb 0 0 y0 Ey0).
  - destruct (Nat.le_ge_cases (length la) (length lb)).
    + rewrite (drop_ge la) by lia. done.
    + rewrite (drop_ge lb) by lia. by destruct (drop i la).
Qed.

Lemma mismatch_none la lb : Forall is_char la -> Forall is_char lb ->
  mismatch la lb = None <-> la `prefix_of` lb \/ lb `prefix_of` la.
Proof.
  revert lb. induction la as [|x la IH]; intros [|y lb] Ha Hb; cbn [mismatch].
  - split; [left; apply prefix_nil|done].
  - split; [left; apply prefix_nil|done].
  - split; [right; apply prefix_nil|done].
  - apply Forall_cons in Ha as [Hx Ha], Hb as [Hy Hb]. destruct (Z.eqb_spec (char_diff x y) 0) as [E|E].
    + apply (proj1 (char_diff_0 x y Hx Hy)) in E. subst y. rewrite IH by done. split.
      * intros [?|?]; [left|right]; by apply prefix_cons.
      * intros [H|H]; apply prefix_cons_inv_2 in H; auto.
    + split; [done|]. intros H. destruct E. apply char_diff_0; [done|done|].
      by destruct H as [H|H]; apply prefix_cons_inv_1 in H.
Qed.

Lemma mismatch_char la lb x : Forall is_char la -> mismatch la lb = Some x -> is_char x /\ (0 < length lb)%nat.
Proof.
  revert lb. induction la as [|a la IH]; intros [|b lb] Ha; cbn [mismatch]; try done.
  apply Forall_cons in Ha as [Hx Ha]. destruct (char_diff a b =? 0).
  - intros H. apply (IH lb) in H as [? _]; [|done]. split; [done|cbn; lia].
  - intros [= ->]. split; [done|cbn; lia].
Qed.

Lemma strcmp_ret a b la lb m : cstring m a la -> cstring m b lb -> strcmp a b m = Ret (strcmp_value la lb) m.
Proof.
  intros Ha Hb. unfold strcmp. rewrite bind_gets. unfold id.
  pose proof (bytes_at_size m a (la ++ [0]) (proj1 Ha)) as Hs. rewrite length_app in Hs.
  change 0 with (Z.of_nat 0). rewrite (strcmp_loop_spec _ a b la lb) by (try done; lia).
  by rewrite !drop_0.
Qed.

(** C36: comparing two strings ends, changes nothing and returns 0 for equal strings, but
    also whenever one is a prefix of the other and whenever the first differing char
    of the first string is the first char of the second. *)
Theorem strcmp_correct a b la lb m : cstring m a la -> cstring m b lb ->
  strcmp a b m = Ret (strcmp_value la lb) m /\
  (strcmp_value la lb = 0 <->
    la = lb \/ la `prefix_of` lb \/ lb `prefix_of` la \/
    exists x, mismatch la lb = Some x /\ lb !! 0%nat = Some x).
Proof.
  intros Ha Hb. split; [by apply strcmp_ret|].
  - assert (Hca : Forall is_char la) by (eapply Forall_impl; [exact (proj2 Ha)|]; by intros ? [? _]).
    assert (Hcb : Forall is_char lb) by (eapply Forall_impl; [exact (proj2 Hb)|]; by intros ? [? _]).
    unfold strcmp_value. destruct (mismatch la lb) as [x|] eqn:E.
    + destruct (mismatch_char la lb x Hca E) as [Hx Hl].
      destruct (lookup_lt_is_Some_2 lb 0) as [y Ey]; [done|]. rewrite (nth_lookup_Some lb 0 0 y Ey).
      rewrite char_diff_0 by (done || exact (proj1 (Forall_lookup _ _) Hcb _ _ Ey)).
      assert (Hnp : ~ (la `prefix_of` lb \/ lb `prefix_of` la)) by (rewrite <- mismatch_none by done; congruence).
      split.
      * intros ->. right. right. right. by exists y.
      * intros [->|[?|[?|(x' & [= <-] & ?)]]]; [|tauto|tauto|congruence]. destruct Hnp. by left.
    + apply (proj1 (mismatch_none la lb Hca Hcb)) in E. split; [tauto|done].
Qed.

(** ** Two strings in memory, for the witnesses *)

Module StringDemo.
(** ["boot"] at 16, ["boat"] at 32. *)
Definition mem0 : bytes := list_to_map
  (zip (seqZ 16 5) [98; 111; 111; 116; 0] ++ zip (seqZ 32 5) [98; 111; 97; 116; 0]).
Definition boot : list Z := [98; 111; 111; 116].
Definition boat : list Z := [98; 111; 97; 116].

Lemma check_bytes m p l : forallb (fun '(i, b) => bool_decide (m !! (p + i) = Some b)) (zip (seqZ 0 (Z.of_nat (length l))) l) = true ->
  bytes_at m p l.
Proof.
  intros H i b Hi. rewrite forallb_forall in H.
  assert (Hin : In (Z.of_nat i, b) (zip (seqZ 0 (Z.of_nat (length l))) l)).
  { apply list_elem_of_In, list_elem_of_lookup. exists i. apply lookup_zip_Some. split; [|done].
    apply lookup_lt_Some in Hi. apply lookup_seqZ. lia. }
  specialize (H _ Hin). by apply bool_decide_eq_true in H.
Qed.
Lemma boot_at : cstring mem0 16 boot.
Proof. split; [apply check_bytes; vm_compute; reflexivity|repeat constructor; unfold is_char, in_range; lia]. Qed.
Lemma boat_at : cstring mem0 32 boat.
Proof. split; [apply check_bytes; vm_compute; reflexivity|repeat constructor; unfold is_char, in_range; lia]. Qed.
End StringDemo.

Import StringDemo.

Example strcpy_boot :
  exists m', strcpy 32 16 mem0 = Ret 32 m' /\ cstring m' 32 boot /\ written mem0 m' 32 (boot ++ [0]).
Proof.
  apply (strcpy_correct 32 16 boot mem0 boot_at); [|right; vm_compute; done].
  intros i Hi. cbn in Hi. assert (i = 0 \/ i = 1 \/ i = 2 \/ i = 3 \/ i = 4) as [->|[->|[->|[->| ->]]]] by lia; (vm_compute; eexists; reflexivity).
Qed.

Lemma strcmp_correct_witness :
  strcmp 16 32 mem0 = Ret (strcmp_value boot boat) mem0 /\
  (strcmp_value boot boat = 0 <-> boot = boat \/ boot `prefix_of` boat \/ boat `prefix_of` boot \/
    exists x, mismatch boot boat = Some x /\ boat !! 0%nat = Some x).
Proof. apply (strcmp_correct 16 32 boot boat mem0 boot_at boat_at). Defined.
