(* ===== verification/Disk.v ===== *)
(** * Disk: byte buffers, the block device interface and the partition table
    (src/include/block_device.h, src/src/mbr.c, src/include/mbr.h)

    A buffer in memory is the list of its bytes; [memcpy] into it, or a device
    read into it, replaces a slice. *)

From S2P Require Import Prelude.

(** ** Bytes *)

(** [buf[off .. off + n)]; a read past the end has no meaning. *)
Definition slice (off n : nat) (buf : list Z) : option (list Z) :=
  if (off + n <=? length buf)%nat then Some (take n (drop off buf)) else None.

(** [memcpy(buf + off, src, n)]. *)
Definition put_at (off : nat) (src buf : list Z) : option (list Z) :=
  if (off + length src <=? length buf)%nat
  then Some (take off buf ++ src ++ drop (off + length src) buf) else None.

(** Little-endian fields; bytes past the end read as 0 here, the callers check the
    size first. *)
Definition byte_at (off : nat) (buf : list Z) : Z := nth off buf 0.
Definition le16 (off : nat) (buf : list Z) : Z := byte_at off buf + 2 ^ 8 * byte_at (off + 1) buf.
Definition le32 (off : nat) (buf : list Z) : Z := le16 off buf + 2 ^ 16 * le16 (off + 2) buf.

Definition is_byte (b : Z) : Prop := 0 <= b < 256.
Definition byte_of (i : Z) (x : Z) : Z := x / 2 ^ (8 * i) mod 2 ^ 8.
Definition enc16 (x : Z) : list Z := [byte_of 0 x; byte_of 1 x].
Definition enc32 (x : Z) : list Z := [byte_of 0 x; byte_of 1 x; byte_of 2 x; byte_of 3 x].

Lemma put_at_length off src buf buf' : put_at off src buf = Some buf' -> length buf' = length buf.
Proof.
  unfold put_at. destruct (Nat.leb_spec (off + length src) (length buf)); [|done].
  intros [= <-]. rewrite !length_app, length_take, length_drop. lia.
Qed.

Lemma slice_ok off n buf : (off + n <= length buf)%nat -> slice off n buf = Some (take n (drop off buf)).
Proof. intros H. unfold slice. by rewrite (proj2 (Nat.leb_le _ _) H). Qed.

Lemma byte_at_app_r l1 l2 i : byte_at (length l1 + i) (l1 ++ l2) = byte_at i l2.
Proof. unfold byte_at. rewrite app_nth2 by lia. f_equal. lia. Qed.

Lemma byte_at_drop off i buf : byte_at i (drop off buf) = byte_at (off + i) buf.
Proof.
  unfold byte_at. revert off. induction buf as [|b buf IH]; intros off.
  - rewrite drop_nil. by destruct (off + i)%nat, i.
  - destruct off as [|off]; [done|]. cbn. apply IH.
Qed.

Lemma byte_at_take n i buf : (i < n)%nat -> byte_at i (take n buf) = byte_at i buf.
Proof.
  unfold byte_at. revert n i. induction buf as [|b buf IH]; intros n i Hi; [by rewrite take_nil|].
  destruct n as [|n]; [lia|]. destruct i as [|i]; [done|]. cbn. apply IH. lia.
Qed.

Lemma le16_app_r l1 l2 i : le16 (length l1 + i) (l1 ++ l2) = le16 i l2.
Proof. unfold le16. by rewrite <- Nat.add_assoc, !byte_at_app_r. Qed.

Lemma le32_app_r l1 l2 i : le32 (length l1 + i) (l1 ++ l2) = le32 i l2.
Proof. unfold le32. by rewrite <- Nat.add_assoc, !le16_app_r. Qed.

Lemma le16_enc x rest : in_range 16 x -> le16 0 (enc16 x ++ rest) = x.
Proof.
  unfold in_range, le16, byte_at, enc16, byte_of. cbn [app nth Nat.add]. intros H.
  change (8 * 0) with 0. change (8 * 1) with 8. change (2 ^ 0) with 1. change (2 ^ 8) with 256.
  change (2 ^ 16) with 65536 in H. zdm.
Qed.

Lemma le32_enc x rest : in_range 32 x -> le32 0 (enc32 x ++ rest) = x.
Proof.
  unfold in_range, le32, le16, byte_at, enc32, byte_of. cbn [app nth Nat.add]. intros H.
  change (8 * 0) with 0. change (8 * 1) with 8. change (8 * 2) with 16. change (8 * 3) with 24.
  change (2 ^ 0) with 1. change (2 ^ 8) with 256. change (2 ^ 16) with 65536. change (2 ^ 24) with 16777216.
  change (2 ^ 32) with 4294967296 in H. zdm.
Qed.

(** ** Block devices *)

(** [struct BlockDevice]: [blk_size], and [read_block], which returns an int and
    puts a block at [dst]. *)
Class BlockDevice (D : Type) := {
  blk_size : Z;
  read_block : Z -> M D (Z * list Z) }.

(** A device that works: every read gives the block of the disk. *)
Class BlockDeviceLaws (D : Type) `{BlockDevice D} := {
  dev_holds : D -> (Z -> list Z) -> Prop;
  blk_size_ok : 0 < blk_size /\ 1024 mod blk_size = 0;
  disk_block : forall d disk n, dev_holds d disk -> length (disk n) = Z.to_nat blk_size;
  read_block_law : forall d disk n, dev_holds d disk -> in_range 64 n ->
    exists d' r, read_block n d = Ret (r, disk n) d' /\ r <> 0 /\ dev_holds d' disk }.

(** ** The master boot record *)

Record MBRPartition := mkPart { status : Z; part_type : Z; first_sector_lba : Z; num_sectors : Z }.
Record MBR := mkMBR { partitions : list MBRPartition; boot_signature : Z }.

(** The head, cylinder and sector bytes of an entry are never used. *)
Definition decode_part (buf : list Z) (i : nat) : MBRPartition :=
  let off := (446 + 16 * i)%nat in
  mkPart (byte_at off buf) (byte_at (off + 4) buf) (le32 (off + 8) buf) (le32 (off + 12) buf).
Definition decode_mbr (buf : list Z) : MBR :=
  mkMBR (decode_part buf <$> seq 0 4) (le16 510 buf).

Definition MAX_MBR_PARTITIONS : nat := 4.

Section mbr.
Context {D : Type} `{BlockDevice D}.

(** The MBR is one block; a smaller device block would leave part of it unset. *)
Definition mbr_init : M D (Z * MBR) :=
  '(r, buf) ← read_block 0;
  if Z.of_nat (length buf) <? 512 then fault else mret (r, decode_mbr buf).

Definition MBR_read_block (mbr : MBR) (part_num blk_num : Z) : M D (Z * list Z) :=
  kassert (part_num <? 4) "part_num < 4 && Driver only supports up to 4 primary partitions!" ;;
  match partitions mbr !! Z.to_nat part_num with
  | Some p => read_block (u64 (first_sector_lba p + blk_num))
  | None => fault
  end.

End mbr.

Section mbr_laws.
Context {D : Type} `{BlockDeviceLaws D}.

(** A block of a partition is the block of the disk at the partition's first
    sector plus the block number; a partition number above 3 halts. *)
Lemma MBR_read_block_correct d disk mbr n blk p :
  dev_holds d disk -> partitions mbr !! n = Some p -> length (partitions mbr) = 4%nat ->
  in_range 32 (first_sector_lba p) -> 0 <= blk < 2 ^ 63 ->
  exists d' r, MBR_read_block mbr (Z.of_nat n) blk d = Ret (r, disk (first_sector_lba p + blk)) d' /\
    r <> 0 /\ dev_holds d' disk.
Proof.
  intros Hd Hp Hl Hr Hb. apply lookup_lt_Some in Hp as Hn. unfold MBR_read_block, in_range in *.
  rewrite bind_assert by lia. rewrite Nat2Z.id, Hp, wrap_small by (unfold in_range; lia).
  apply read_block_law; [done|unfold in_range; lia].
Qed.

End mbr_laws.

(** ** A disk held in memory, for the witnesses *)

Module RamDisk.

Definition ram := Z -> list Z.

#[export] Instance ram_device : BlockDevice ram := {|
  blk_size := 512;
  read_block n := fun d => Ret (1, d n) d |}.

#[export] Instance ram_laws : BlockDeviceLaws ram.
Proof.
  refine {| dev_holds d disk := (forall n, d n = disk n) /\ forall n, length (disk n) = 512%nat |}.
  - done.
  - intros d disk n [_ Hl]. by rewrite Hl.
  - intros d disk n [Hd Hl] _. exists d, 1. split; [cbn; by rewrite Hd|done].
Defined.

(** Sector [n] is filled with [n mod 256]. *)
Definition striped : ram := fun n => repeat (n mod 256) 512.

Lemma striped_holds : dev_holds striped striped.
Proof. split; [done|]. intros n. apply repeat_length. Qed.

End RamDisk.
