(* ===== verification/Keycodes.v ===== *)
(** * Keycodes: the scan codes of the keyboard and their chars (src/include/keycodes.h,
    src/src/keycodes.c) *)

From S2P Require Import Prelude.

(** [enum KeyCode]. *)
Inductive KeyCode :=
| KEYCODE_ESCAPE_PRESSED
| KEYCODE_ONE_PRESSED
| KEYCODE_TWO_PRESSED
| KEYCODE_THREE_PRESSED
| KEYCODE_FOUR_PRESSED
| KEYCODE_FIVE_PRESSED
| KEYCODE_SIX_PRESSED
| KEYCODE_SEVEN_PRESSED
| KEYCODE_EIGHT_PRESSED
| KEYCODE_NINE_PRESSED
| KEYCODE_ZERO_ZERO_PRESSED
| KEYCODE_MINUS_PRESSED
| KEYCODE_EQUALS_PRESSED
| KEYCODE_BACKSPACE_PRESSED
| KEYCODE_TAB_PRESSED
| KEYCODE_Q_PRESSED
| KEYCODE_W_PRESSED
| KEYCODE_E_PRESSED
| KEYCODE_R_PRESSED
| KEYCODE_T_PRESSED
| KEYCODE_Y_PRESSED
| KEYCODE_U_PRESSED
| KEYCODE_I_PRESSED
| KEYCODE_O_PRESSED
| KEYCODE_P_PRESSED
| KEYCODE_LEFT_BRACKET_PRESSED
| KEYCODE_RIGHT_BRACKET_PRESSED
| KEYCODE_ENTER_PRESSED
| KEYCODE_LEFT_CONTROL_PRESSED
| KEYCODE_A_PRESSED
| KEYCODE_S_PRESSED
| KEYCODE_D_PRESSED
| KEYCODE_F_PRESSED
| KEYCODE_G_PRESSED
| KEYCODE_H_PRESSED
| KEYCODE_J_PRESSED
| KEYCODE_K_PRESSED
| KEYCODE_L_PRESSED
| KEYCODE_SEMICOLON_PRESSED
| KEYCODE_SINGLE_QUOTE_PRESSED
| KEYCODE_GRAVE_ACCENT_PRESSED
| KEYCODE_LEFT_SHIFT_PRESSED
| KEYCODE_BACKSLASH_PRESSED
| KEYCODE_Z_PRESSED
| KEYCODE_X_PRESSED
| KEYCODE_C_PRESSED
| KEYCODE_V_PRESSED
| KEYCODE_B_PRESSED
| KEYCODE_N_PRESSED
| KEYCODE_M_PRESSED
| KEYCODE_COMMA_PRESSED
| KEYCODE_PERIOD_PRESSED
| KEYCODE_SLASH_PRESSED
| KEYCODE_RIGHT_SHIFT_PRESSED
| KEYCODE_KEYPAD_STAR_PRESSED
| KEYCODE_LEFT_ALT_PRESSED
| KEYCODE_SPACE_PRESSED
| KEYCODE_CAPSLOCK_PRESSED
| KEYCODE_F_ONE_PRESSED
| KEYCODE_F_TWO_PRESSED
| KEYCODE_F_THREE_PRESSED
| KEYCODE_F_FOUR_PRESSED
| KEYCODE_F_FIVE_PRESSED
| KEYCODE_F_SIX_PRESSED
| KEYCODE_F_SEVEN_PRESSED
| KEYCODE_F_EIGHT_PRESSED
| KEYCODE_F_NINE_PRESSED
| KEYCODE_F_TEN_PRESSED
| KEYCODE_NUMBERLOCK_PRESSED
| KEYCODE_SCROLLLOCK_PRESSED
| KEYCODE_KEYPAD_SEVEN_PRESSED
| KEYCODE_KEYPAD_EIGHT_PRESSED
| KEYCODE_KEYPAD_NINE_PRESSED
| KEYCODE_KEYPAD_MINUS_PRESSED
| KEYCODE_KEYPAD_FOUR_PRESSED
| KEYCODE_KEYPAD_FIVE_PRESSED
| KEYCODE_KEYPAD_SIX_PRESSED
| KEYCODE_KEYPAD__PRESSED
| KEYCODE_KEYPAD_ONE_PRESSED
| KEYCODE_KEYPAD_TWO_PRESSED
| KEYCODE_KEYPAD_THREE_PRESSED
| KEYCODE_KEYPAD_ZERO_PRESSED
| KEYCODE_KEYPAD_PERIOD_PRESSED
| KEYCODE_F_ELEVEN_PRESSED
| KEYCODE_F_TWELVE_PRESSED
| KEYCODE_ESCAPE_RELEASED
| KEYCODE_ONE_RELEASED
| KEYCODE_TWO_RELEASED
| KEYCODE_THREE_RELEASED
| KEYCODE_FOUR_RELEASED
| KEYCODE_FIVE_RELEASED
| KEYCODE_SIX_RELEASED
| KEYCODE_SEVEN_RELEASED
| KEYCODE_EIGHT_RELEASED
| KEYCODE_NINE_RELEASED
| KEYCODE_ZERO_ZERO_RELEASED
| KEYCODE_MINUS_RELEASED
| KEYCODE_POUND_SIGNNAMEQUESTION_MARK
| KEYCODE_BACKSPACE_RELEASED
| KEYCODE_TAB_RELEASED
| KEYCODE_Q_RELEASED
| KEYCODE_W_RELEASED
| KEYCODE_E_RELEASED
| KEYCODE_R_RELEASED
| KEYCODE_T_RELEASED
| KEYCODE_Y_RELEASED
| KEYCODE_U_RELEASED
| KEYCODE_I_RELEASED
| KEYCODE_O_RELEASED
| KEYCODE_P_RELEASED
| KEYCODE_LEFT_BRACKET_RELEASED
| KEYCODE_RIGHT_BRACKET_RELEASED
| KEYCODE_ENTER_RELEASED
| KEYCODE_LEFT_CONTROL_RELEASED
| KEYCODE_A_RELEASED
| KEYCODE_S_RELEASED
| KEYCODE_D_RELEASED
| KEYCODE_F_RELEASED
| KEYCODE_G_RELEASED
| KEYCODE_H_RELEASED
| KEYCODE_J_RELEASED
| KEYCODE_K_RELEASED
| KEYCODE_L_RELEASED
| KEYCODE_SEMICOLON_RELEASED
| KEYCODE_SINGLE_QUOTE_RELEASED
| KEYCODE_GRAVE_ACCENT_BACK_TICK_RELEASED
| KEYCODE_LEFT_SHIFT_RELEASED
| KEYCODE_BACKSLASH_RELEASED
| KEYCODE_Z_RELEASED
| KEYCODE_X_RELEASED
| KEYCODE_C_RELEASED
| KEYCODE_V_RELEASED
| KEYCODE_B_RELEASED
| KEYCODE_N_RELEASED
| KEYCODE_M_RELEASED
| KEYCODE_COMMA_RELEASED
| KEYCODE_PERIOD_RELEASED
| KEYCODE_SLASH_RELEASED
| KEYCODE_RIGHT_SHIFT_RELEASED
| KEYCODE_KEYPAD_STAR_RELEASED
| KEYCODE_LEFT_ALT_RELEASED
| KEYCODE_SPACE_RELEASED
| KEYCODE_CAPSLOCK_RELEASED
| KEYCODE_F_ONE_RELEASED
| KEYCODE_F_TWO_RELEASED
| KEYCODE_F_THREE_RELEASED
| KEYCODE_F_FOUR_RELEASED
| KEYCODE_F_FIVE_RELEASED
| KEYCODE_F_SIX_RELEASED
| KEYCODE_F_SEVEN_RELEASED
| KEYCODE_F_EIGHT_RELEASED
| KEYCODE_F_NINE_RELEASED
| KEYCODE_F_TEN_RELEASED
| KEYCODE_NUMBERLOCK_RELEASED
| KEYCODE_SCROLLLOCK_RELEASED
| KEYCODE_KEYPAD_SEVEN_RELEASED
| KEYCODE_KEYPAD_EIGHT_RELEASED
| KEYCODE_KEYPAD_NINE_RELEASED
| KEYCODE_KEYPAD_MINUS_RELEASED
| KEYCODE_KEYPAD_FOUR_RELEASED
| KEYCODE_KEYPAD_FIVE_RELEASED
| KEYCODE_KEYPAD_SIX_RELEASED
| KEYCODE_KEYPAD__RELEASED
| KEYCODE_KEYPAD_ONE_RELEASED
| KEYCODE_KEYPAD_TWO_RELEASED
| KEYCODE_KEYPAD_THREE_RELEASED
| KEYCODE_KEYPAD_ZERO_RELEASED
| KEYCODE_KEYPAD_PERIOD_RELEASED
| KEYCODE_F_ELEVEN_RELEASED
| KEYCODE_F_TWELVE_RELEASED.

Definition keycode (k : KeyCode) : Z :=
  match k with
  | KEYCODE_ESCAPE_PRESSED => 0x01
  | KEYCODE_ONE_PRESSED => 0x02
  | KEYCODE_TWO_PRESSED => 0x03
  | KEYCODE_THREE_PRESSED => 0x04
  | KEYCODE_FOUR_PRESSED => 0x05
  | KEYCODE_FIVE_PRESSED => 0x06
  | KEYCODE_SIX_PRESSED => 0x07
  | KEYCODE_SEVEN_PRESSED => 0x08
  | KEYCODE_EIGHT_PRESSED => 0x09
  | KEYCODE_NINE_PRESSED => 0x0A
  | KEYCODE_ZERO_ZERO_PRESSED => 0x0B
  | KEYCODE_MINUS_PRESSED => 0x0C
  | KEYCODE_EQUALS_PRESSED => 0x0D
  | KEYCODE_BACKSPACE_PRESSED => 0x0E
  | KEYCODE_TAB_PRESSED => 0x0F
  | KEYCODE_Q_PRESSED => 0x10
  | KEYCODE_W_PRESSED => 0x11
  | KEYCODE_E_PRESSED => 0x12
  | KEYCODE_R_PRESSED => 0x13
  | KEYCODE_T_PRESSED => 0x14
  | KEYCODE_Y_PRESSED => 0x15
  | KEYCODE_U_PRESSED => 0x16
  | KEYCODE_I_PRESSED => 0x17
  | KEYCODE_O_PRESSED => 0x18
  | KEYCODE_P_PRESSED => 0x19
  | KEYCODE_LEFT_BRACKET_PRESSED => 0x1A
  | KEYCODE_RIGHT_BRACKET_PRESSED => 0x1B
  | KEYCODE_ENTER_PRESSED => 0x1C
  | KEYCODE_LEFT_CONTROL_PRESSED => 0x1D
  | KEYCODE_A_PRESSED => 0x1E
  | KEYCODE_S_PRESSED => 0x1F
  | KEYCODE_D_PRESSED => 0x20
  | KEYCODE_F_PRESSED => 0x21
  | KEYCODE_G_PRESSED => 0x22
  | KEYCODE_H_PRESSED => 0x23
  | KEYCODE_J_PRESSED => 0x24
  | KEYCODE_K_PRESSED => 0x25
  | KEYCODE_L_PRESSED => 0x26
  | KEYCODE_SEMICOLON_PRESSED => 0x27
  | KEYCODE_SINGLE_QUOTE_PRESSED => 0x28
  | KEYCODE_GRAVE_ACCENT_PRESSED => 0x29
  | KEYCODE_LEFT_SHIFT_PRESSED => 0x2A
  | KEYCODE_BACKSLASH_PRESSED => 0x2B
  | KEYCODE_Z_PRESSED => 0x2C
  | KEYCODE_X_PRESSED => 0x2D
  | KEYCODE_C_PRESSED => 0x2E
  | KEYCODE_V_PRESSED => 0x2F
  | KEYCODE_B_PRESSED => 0x30
  | KEYCODE_N_PRESSED => 0x31
  | KEYCODE_M_PRESSED => 0x32
  | KEYCODE_COMMA_PRESSED => 0x33
  | KEYCODE_PERIOD_PRESSED => 0x34
  | KEYCODE_SLASH_PRESSED => 0x35
  | KEYCODE_RIGHT_SHIFT_PRESSED => 0x36
  | KEYCODE_KEYPAD_STAR_PRESSED => 0x37
  | KEYCODE_LEFT_ALT_PRESSED => 0x38
  | KEYCODE_SPACE_PRESSED => 0x39
  | KEYCODE_CAPSLOCK_PRESSED => 0x3A
  | KEYCODE_F_ONE_PRESSED => 0x3B
  | KEYCODE_F_TWO_PRESSED => 0x3C
  | KEYCODE_F_THREE_PRESSED => 0x3D
  | KEYCODE_F_FOUR_PRESSED => 0x3E
  | KEYCODE_F_FIVE_PRESSED => 0x3F
  | KEYCODE_F_SIX_PRESSED => 0x40
  | KEYCODE_F_SEVEN_PRESSED => 0x41
  | KEYCODE_F_EIGHT_PRESSED => 0x42
  | KEYCODE_F_NINE_PRESSED => 0x43
  | KEYCODE_F_TEN_PRESSED => 0x44
  | KEYCODE_NUMBERLOCK_PRESSED => 0x45
  | KEYCODE_SCROLLLOCK_PRESSED => 0x46
  | KEYCODE_KEYPAD_SEVEN_PRESSED => 0x47
  | KEYCODE_KEYPAD_EIGHT_PRESSED => 0x48
  | KEYCODE_KEYPAD_NINE_PRESSED => 0x49
  | KEYCODE_KEYPAD_MINUS_PRESSED => 0x4A
  | KEYCODE_KEYPAD_FOUR_PRESSED => 0x4B
  | KEYCODE_KEYPAD_FIVE_PRESSED => 0x4C
  | KEYCODE_KEYPAD_SIX_PRESSED => 0x4D
  | KEYCODE_KEYPAD__PRESSED => 0x4E
  | KEYCODE_KEYPAD_ONE_PRESSED => 0x4F
  | KEYCODE_KEYPAD_TWO_PRESSED => 0x50
  | KEYCODE_KEYPAD_THREE_PRESSED => 0x51
  | KEYCODE_KEYPAD_ZERO_PRESSED => 0x52
  | KEYCODE_KEYPAD_PERIOD_PRESSED => 0x53
  | KEYCODE_F_ELEVEN_PRESSED => 0x57
  | KEYCODE_F_TWELVE_PRESSED => 0x58
  | KEYCODE_ESCAPE_RELEASED => 0x81
  | KEYCODE_ONE_RELEASED => 0x82
  | KEYCODE_TWO_RELEASED => 0x83
  | KEYCODE_THREE_RELEASED => 0x84
  | KEYCODE_FOUR_RELEASED => 0x85
  | KEYCODE_FIVE_RELEASED => 0x86
  | KEYCODE_SIX_RELEASED => 0x87
  | KEYCODE_SEVEN_RELEASED => 0x88
  | KEYCODE_EIGHT_RELEASED => 0x89
  | KEYCODE_NINE_RELEASED => 0x8A
  | KEYCODE_ZERO_ZERO_RELEASED => 0x8B
  | KEYCODE_MINUS_RELEASED => 0x8C
  | KEYCODE_POUND_SIGNNAMEQUESTION_MARK => 0x8D
  | KEYCODE_BACKSPACE_RELEASED => 0x8E
  | KEYCODE_TAB_RELEASED => 0x8F
  | KEYCODE_Q_RELEASED => 0x90
  | KEYCODE_W_RELEASED => 0x91
  | KEYCODE_E_RELEASED => 0x92
  | KEYCODE_R_RELEASED => 0x93
  | KEYCODE_T_RELEASED => 0x94
  | KEYCODE_Y_RELEASED => 0x95
  | KEYCODE_U_RELEASED => 0x96
  | KEYCODE_I_RELEASED => 0x97
  | KEYCODE_O_RELEASED => 0x98
  | KEYCODE_P_RELEASED => 0x99
  | KEYCODE_LEFT_BRACKET_RELEASED => 0x9A
  | KEYCODE_RIGHT_BRACKET_RELEASED => 0x9B
  | KEYCODE_ENTER_RELEASED => 0x9C
  | KEYCODE_LEFT_CONTROL_RELEASED => 0x9D
  | KEYCODE_A_RELEASED => 0x9E
  | KEYCODE_S_RELEASED => 0x9F
  | KEYCODE_D_RELEASED => 0xA0
  | KEYCODE_F_RELEASED => 0xA1
  | KEYCODE_G_RELEASED => 0xA2
  | KEYCODE_H_RELEASED => 0xA3
  | KEYCODE_J_RELEASED => 0xA4
  | KEYCODE_K_RELEASED => 0xA5
  | KEYCODE_L_RELEASED => 0xA6
  | KEYCODE_SEMICOLON_RELEASED => 0xA7
  | KEYCODE_SINGLE_QUOTE_RELEASED => 0xA8
  | KEYCODE_GRAVE_ACCENT_BACK_TICK_RELEASED => 0xA9
  | KEYCODE_LEFT_SHIFT_RELEASED => 0xAA
  | KEYCODE_BACKSLASH_RELEASED => 0xAB
  | KEYCODE_Z_RELEASED => 0xAC
  | KEYCODE_X_RELEASED => 0xAD
  | KEYCODE_C_RELEASED => 0xAE
  | KEYCODE_V_RELEASED => 0xAF
  | KEYCODE_B_RELEASED => 0xB0
  | KEYCODE_N_RELEASED => 0xB1
  | KEYCODE_M_RELEASED => 0xB2
  | KEYCODE_COMMA_RELEASED => 0xB3
  | KEYCODE_PERIOD_RELEASED => 0xB4
  | KEYCODE_SLASH_RELEASED => 0xB5
  | KEYCODE_RIGHT_SHIFT_RELEASED => 0xB6
  | KEYCODE_KEYPAD_STAR_RELEASED => 0xB7
  | KEYCODE_LEFT_ALT_RELEASED => 0xB8
  | KEYCODE_SPACE_RELEASED => 0xB9
  | KEYCODE_CAPSLOCK_RELEASED => 0xBA
  | KEYCODE_F_ONE_RELEASED => 0xBB
  | KEYCODE_F_TWO_RELEASED => 0xBC
  | KEYCODE_F_THREE_RELEASED => 0xBD
  | KEYCODE_F_FOUR_RELEASED => 0xBE
  | KEYCODE_F_FIVE_RELEASED => 0xBF
  | KEYCODE_F_SIX_RELEASED => 0xC0
  | KEYCODE_F_SEVEN_RELEASED => 0xC1
  | KEYCODE_F_EIGHT_RELEASED => 0xC2
  | KEYCODE_F_NINE_RELEASED => 0xC3
  | KEYCODE_F_TEN_RELEASED => 0xC4
  | KEYCODE_NUMBERLOCK_RELEASED => 0xC5
  | KEYCODE_SCROLLLOCK_RELEASED => 0xC6
  | KEYCODE_KEYPAD_SEVEN_RELEASED => 0xC7
  | KEYCODE_KEYPAD_EIGHT_RELEASED => 0xC8
  | KEYCODE_KEYPAD_NINE_RELEASED => 0xC9
  | KEYCODE_KEYPAD_MINUS_RELEASED => 0xCA
  | KEYCODE_KEYPAD_FOUR_RELEASED => 0xCB
  | KEYCODE_KEYPAD_FIVE_RELEASED => 0xCC
  | KEYCODE_KEYPAD_SIX_RELEASED => 0xCD
  | KEYCODE_KEYPAD__RELEASED => 0xCE
  | KEYCODE_KEYPAD_ONE_RELEASED => 0xCF
  | KEYCODE_KEYPAD_TWO_RELEASED => 0xD0
  | KEYCODE_KEYPAD_THREE_RELEASED => 0xD1
  | KEYCODE_KEYPAD_ZERO_RELEASED => 0xD2
  | KEYCODE_KEYPAD_PERIOD_RELEASED => 0xD3
  | KEYCODE_F_ELEVEN_RELEASED => 0xD7
  | KEYCODE_F_TWELVE_RELEASED => 0xD8
  end.

(** All of them, in the order of the declaration. *)
Definition all_keycodes : list KeyCode :=
  [KEYCODE_ESCAPE_PRESSED;
   KEYCODE_ONE_PRESSED;
   KEYCODE_TWO_PRESSED;
   KEYCODE_THREE_PRESSED;
   KEYCODE_FOUR_PRESSED;
   KEYCODE_FIVE_PRESSED;
   KEYCODE_SIX_PRESSED;
   KEYCODE_SEVEN_PRESSED;
   KEYCODE_EIGHT_PRESSED;
   KEYCODE_NINE_PRESSED;
   KEYCODE_ZERO_ZERO_PRESSED;
   KEYCODE_MINUS_PRESSED;
   KEYCODE_EQUALS_PRESSED;
   KEYCODE_BACKSPACE_PRESSED;
   KEYCODE_TAB_PRESSED;
   KEYCODE_Q_PRESSED;
   KEYCODE_W_PRESSED;
   KEYCODE_E_PRESSED;
   KEYCODE_R_PRESSED;
   KEYCODE_T_PRESSED;
   KEYCODE_Y_PRESSED;
   KEYCODE_U_PRESSED;
   KEYCODE_I_PRESSED;
   KEYCODE_O_PRESSED;
   KEYCODE_P_PRESSED;
   KEYCODE_LEFT_BRACKET_PRESSED;
   KEYCODE_RIGHT_BRACKET_PRESSED;
   KEYCODE_ENTER_PRESSED;
   KEYCODE_LEFT_CONTROL_PRESSED;
   KEYCODE_A_PRESSED;
   KEYCODE_S_PRESSED;
   KEYCODE_D_PRESSED;
   KEYCODE_F_PRESSED;
   KEYCODE_G_PRESSED;
   KEYCODE_H_PRESSED;
   KEYCODE_J_PRESSED;
   KEYCODE_K_PRESSED;
   KEYCODE_L_PRESSED;
   KEYCODE_SEMICOLON_PRESSED;
   KEYCODE_SINGLE_QUOTE_PRESSED;
   KEYCODE_GRAVE_ACCENT_PRESSED;
   KEYCODE_LEFT_SHIFT_PRESSED;
   KEYCODE_BACKSLASH_PRESSED;
   KEYCODE_Z_PRESSED;
   KEYCODE_X_PRESSED;
   KEYCODE_C_PRESSED;
   KEYCODE_V_PRESSED;
   KEYCODE_B_PRESSED;
   KEYCODE_N_PRESSED;
   KEYCODE_M_PRESSED;
   KEYCODE_COMMA_PRESSED;
   KEYCODE_PERIOD_PRESSED;
   KEYCODE_SLASH_PRESSED;
   KEYCODE_RIGHT_SHIFT_PRESSED;
   KEYCODE_KEYPAD_STAR_PRESSED;
   KEYCODE_LEFT_ALT_PRESSED;
   KEYCODE_SPACE_PRESSED;
   KEYCODE_CAPSLOCK_PRESSED;
   KEYCODE_F_ONE_PRESSED;
   KEYCODE_F_TWO_PRESSED;
   KEYCODE_F_THREE_PRESSED;
   KEYCODE_F_FOUR_PRESSED;
   KEYCODE_F_FIVE_PRESSED;
   KEYCODE_F_SIX_PRESSED;
   KEYCODE_F_SEVEN_PRESSED;
   KEYCODE_F_EIGHT_PRESSED;
   KEYCODE_F_NINE_PRESSED;
   KEYCODE_F_TEN_PRESSED;
   KEYCODE_NUMBERLOCK_PRESSED;
   KEYCODE_SCROLLLOCK_PRESSED;
   KEYCODE_KEYPAD_SEVEN_PRESSED;
   KEYCODE_KEYPAD_EIGHT_PRESSED;
   KEYCODE_KEYPAD_NINE_PRESSED;
   KEYCODE_KEYPAD_MINUS_PRESSED;
   KEYCODE_KEYPAD_FOUR_PRESSED;
   KEYCODE_KEYPAD_FIVE_PRESSED;
   KEYCODE_KEYPAD_SIX_PRESSED;
   KEYCODE_KEYPAD__PRESSED;
   KEYCODE_KEYPAD_ONE_PRESSED;
   KEYCODE_KEYPAD_TWO_PRESSED;
   KEYCODE_KEYPAD_THREE_PRESSED;
   KEYCODE_KEYPAD_ZERO_PRESSED;
   KEYCODE_KEYPAD_PERIOD_PRESSED;
   KEYCODE_F_ELEVEN_PRESSED;
   KEYCODE_F_TWELVE_PRESSED;
   KEYCODE_ESCAPE_RELEASED;
   KEYCODE_ONE_RELEASED;
   KEYCODE_TWO_RELEASED;
   KEYCODE_THREE_RELEASED;
   KEYCODE_FOUR_RELEASED;
   KEYCODE_FIVE_RELEASED;
   KEYCODE_SIX_RELEASED;
   KEYCODE_SEVEN_RELEASED;
   KEYCODE_EIGHT_RELEASED;
   KEYCODE_NINE_RELEASED;
   KEYCODE_ZERO_ZERO_RELEASED;
   KEYCODE_MINUS_RELEASED;
   KEYCODE_POUND_SIGNNAMEQUESTION_MARK;
   KEYCODE_BACKSPACE_RELEASED;
   KEYCODE_TAB_RELEASED;
   KEYCODE_Q_RELEASED;
   KEYCODE_W_RELEASED;
   KEYCODE_E_RELEASED;
   KEYCODE_R_RELEASED;
   KEYCODE_T_RELEASED;
   KEYCODE_Y_RELEASED;
   KEYCODE_U_RELEASED;
   KEYCODE_I_RELEASED;
   KEYCODE_O_RELEASED;
   KEYCODE_P_RELEASED;
   KEYCODE_LEFT_BRACKET_RELEASED;
   KEYCODE_RIGHT_BRACKET_RELEASED;
   KEYCODE_ENTER_RELEASED;
   KEYCODE_LEFT_CONTROL_RELEASED;
   KEYCODE_A_RELEASED;
   KEYCODE_S_RELEASED;
   KEYCODE_D_RELEASED;
   KEYCODE_F_RELEASED;
   KEYCODE_G_RELEASED;
   KEYCODE_H_RELEASED;
   KEYCODE_J_RELEASED;
   KEYCODE_K_RELEASED;
   KEYCODE_L_RELEASED;
   KEYCODE_SEMICOLON_RELEASED;
   KEYCODE_SINGLE_QUOTE_RELEASED;
   KEYCODE_GRAVE_ACCENT_BACK_TICK_RELEASED;
   KEYCODE_LEFT_SHIFT_RELEASED;
   KEYCODE_BACKSLASH_RELEASED;
   KEYCODE_Z_RELEASED;
   KEYCODE_X_RELEASED;
   KEYCODE_C_RELEASED;
   KEYCODE_V_RELEASED;
   KEYCODE_B_RELEASED;
   KEYCODE_N_RELEASED;
   KEYCODE_M_RELEASED;
   KEYCODE_COMMA_RELEASED;
   KEYCODE_PERIOD_RELEASED;
   KEYCODE_SLASH_RELEASED;
   KEYCODE_RIGHT_SHIFT_RELEASED;
   KEYCODE_KEYPAD_STAR_RELEASED;
   KEYCODE_LEFT_ALT_RELEASED;
   KEYCODE_SPACE_RELEASED;
   KEYCODE_CAPSLOCK_RELEASED;
   KEYCODE_F_ONE_RELEASED;
   KEYCODE_F_TWO_RELEASED;
   KEYCODE_F_THREE_RELEASED;
   KEYCODE_F_FOUR_RELEASED;
   KEYCODE_F_FIVE_RELEASED;
   KEYCODE_F_SIX_RELEASED;
   KEYCODE_F_SEVEN_RELEASED;
   KEYCODE_F_EIGHT_RELEASED;
   KEYCODE_F_NINE_RELEASED;
   KEYCODE_F_TEN_RELEASED;
   KEYCODE_NUMBERLOCK_RELEASED;
   KEYCODE_SCROLLLOCK_RELEASED;
   KEYCODE_KEYPAD_SEVEN_RELEASED;
   KEYCODE_KEYPAD_EIGHT_RELEASED;
   KEYCODE_KEYPAD_NINE_RELEASED;
   KEYCODE_KEYPAD_MINUS_RELEASED;
   KEYCODE_KEYPAD_FOUR_RELEASED;
   KEYCODE_KEYPAD_FIVE_RELEASED;
   KEYCODE_KEYPAD_SIX_RELEASED;
   KEYCODE_KEYPAD__RELEASED;
   KEYCODE_KEYPAD_ONE_RELEASED;
   KEYCODE_KEYPAD_TWO_RELEASED;
   KEYCODE_KEYPAD_THREE_RELEASED;
   KEYCODE_KEYPAD_ZERO_RELEASED;
   KEYCODE_KEYPAD_PERIOD_RELEASED;
   KEYCODE_F_ELEVEN_RELEASED;
   KEYCODE_F_TWELVE_RELEASED].

(** The enumerator an int stands for, if any. *)
Definition keycode_of (scan_code : Z) : option KeyCode :=
  List.find (fun k => keycode k =? scan_code) all_keycodes.

(** A char literal. *)
Definition ch (c : string) : Z :=
  match c with String a _ => Z.of_N (Ascii.N_of_ascii a) | EmptyString => 0 end.
Arguments ch c%_string.

(** The [switch], on an enumerator. *)
Definition key_char (k : KeyCode) : Z :=
  match k with
  | KEYCODE_A_PRESSED => ch "a"
  | KEYCODE_BACKSLASH_PRESSED => 92
  | KEYCODE_B_PRESSED => ch "b"
  | KEYCODE_COMMA_PRESSED => ch ","
  | KEYCODE_C_PRESSED => ch "c"
  | KEYCODE_D_PRESSED => ch "d"
  | KEYCODE_EIGHT_PRESSED => ch "8"
  | KEYCODE_EQUALS_PRESSED => ch "="
  | KEYCODE_E_PRESSED => ch "e"
  | KEYCODE_FIVE_PRESSED => ch "5"
  | KEYCODE_FOUR_PRESSED => ch "4"
  | KEYCODE_F_PRESSED => ch "f"
  | KEYCODE_GRAVE_ACCENT_PRESSED => ch "`"
  | KEYCODE_G_PRESSED => ch "g"
  | KEYCODE_H_PRESSED => ch "h"
  | KEYCODE_I_PRESSED => ch "i"
  | KEYCODE_J_PRESSED => ch "j"
  | KEYCODE_KEYPAD_EIGHT_PRESSED => ch "8"
  | KEYCODE_KEYPAD_FIVE_PRESSED => ch "5"
  | KEYCODE_KEYPAD_FOUR_PRESSED => ch "4"
  | KEYCODE_KEYPAD_MINUS_PRESSED => ch "-"
  | KEYCODE_KEYPAD_NINE_PRESSED => ch "9"
  | KEYCODE_KEYPAD_ONE_PRESSED => ch "1"
  | KEYCODE_KEYPAD_PERIOD_PRESSED => ch "."
  | KEYCODE_KEYPAD_SEVEN_PRESSED => ch "7"
  | KEYCODE_KEYPAD_SIX_PRESSED => ch "6"
  | KEYCODE_KEYPAD_STAR_PRESSED => ch "*"
  | KEYCODE_KEYPAD_THREE_PRESSED => ch "3"
  | KEYCODE_KEYPAD_TWO_PRESSED => ch "2"
  | KEYCODE_KEYPAD_ZERO_PRESSED => ch "0"
  | KEYCODE_K_PRESSED => ch "k"
  | KEYCODE_LEFT_BRACKET_PRESSED => ch "["
  | KEYCODE_L_PRESSED => ch "l"
  | KEYCODE_MINUS_PRESSED => ch "-"
  | KEYCODE_M_PRESSED => ch "m"
  | KEYCODE_NINE_PRESSED => ch "9"
  | KEYCODE_N_PRESSED => ch "n"
  | KEYCODE_ONE_PRESSED => ch "1"
  | KEYCODE_O_PRESSED => ch "o"
  | KEYCODE_PERIOD_PRESSED => ch "."
  | KEYCODE_P_PRESSED => ch "p"
  | KEYCODE_Q_PRESSED => ch "q"
  | KEYCODE_RIGHT_BRACKET_PRESSED => ch "]"
  | KEYCODE_R_PRESSED => ch "r"
  | KEYCODE_SEMICOLON_PRESSED => ch ";"
  | KEYCODE_SEVEN_PRESSED => ch "7"
  | KEYCODE_SINGLE_QUOTE_PRESSED => 39
  | KEYCODE_SIX_PRESSED => ch "6"
  | KEYCODE_SLASH_PRESSED => ch "/"
  | KEYCODE_SPACE_PRESSED => ch " "
  | KEYCODE_S_PRESSED => ch "s"
  | KEYCODE_TAB_PRESSED => 9
  | KEYCODE_THREE_PRESSED => ch "3"
  | KEYCODE_TWO_PRESSED => ch "2"
  | KEYCODE_T_PRESSED => ch "t"
  | KEYCODE_U_PRESSED => ch "u"
  | KEYCODE_V_PRESSED => ch "v"
  | KEYCODE_W_PRESSED => ch "w"
  | KEYCODE_X_PRESSED => ch "x"
  | KEYCODE_Y_PRESSED => ch "y"
  | KEYCODE_ZERO_ZERO_PRESSED => ch "0"
  | KEYCODE_Z_PRESSED => ch "z"
  | _ => 0
  end.

Definition scan_code_to_char (scan_code : Z) : Z :=
  match keycode_of scan_code with Some k => key_char k | None => 0 end.

(** ** What a key gives *)

(** NUL, a tab or a printable ASCII char. *)
Definition plain_char (c : Z) : bool := (c =? 0) || (c =? 9) || ((32 <=? c) && (c <? 127)).

#[export] Instance keycode_eq_dec : EqDecision KeyCode.
Proof. solve_decision. Defined.

Lemma all_keycodes_complete k : k ∈ all_keycodes.
Proof. apply list_elem_of_In. destruct k; vm_compute; tauto. Qed.
Lemma every_key (P : KeyCode -> bool) : forallb P all_keycodes = true -> forall k, P k = true.
Proof. intros H k. by eapply (proj1 (forallb_forall P all_keycodes)), list_elem_of_In, all_keycodes_complete. Qed.

(** An int stands for an enumerator exactly when it is its value. *)
Lemma keycode_of_Some n k : keycode_of n = Some k <-> keycode k = n.
Proof.
  assert (Hk : forall k, keycode_of (keycode k) = Some k) by (intros []; reflexivity).
  split; [|by intros <-]. intros E. apply find_some in E as [_ E]. by apply Z.eqb_eq.
Qed.

Lemma scan_code_plain n : plain_char (scan_code_to_char n) = true.
Proof. unfold scan_code_to_char. destruct (keycode_of n) as [k|]; [|done]. revert k. by apply every_key. Qed.


(** Every digit and every lower-case letter is on some key. *)
Lemma alphanumeric_keys c : (48 <= c <= 57 \/ 97 <= c <= 122) -> exists n, scan_code_to_char n = c.
Proof.
  intros Hc. assert (H : forallb (fun i => existsb (fun k => key_char k =? Z.of_nat i) all_keycodes) (seq 48 10 ++ seq 97 26) = true)
    by by vm_compute.
  rewrite forallb_forall in H. specialize (H (Z.to_nat c)). rewrite Z2Nat.id in H by lia.
  destruct (proj1 (existsb_exists _ _) (H ltac:(apply in_app_iff; rewrite !in_seq; lia))) as (k & _ & E).
  exists (keycode k). unfold scan_code_to_char. rewrite (proj2 (keycode_of_Some _ k) eq_refl). lia.
Qed.
