(* ===== verification/Ps2.v ===== *)
(** * Ps2: the keyboard (src/src/ps2.c, src/include/ps2.h)

    The controller is polled over the ports; the interrupt handler translates key codes
    into the keyboard's ring, from which threads read. *)

From S2P Require Import Prelude Keycodes RingBuffer Ports Interrupts RingDev.

(** ** Constants *)

Definition PS2_DATA_PORT : Z := 0x60.
Definition PS2_STATUS_COMMAND_PORT : Z := 0x64.
Definition PS2_COMMAND_ENABLE_FIRST_PORT : Z := 0xAE.
Definition PS2_COMMAND_DISABLE_FIRST_PORT : Z := 0xAD.
Definition PS2_COMMAND_DISABLE_SECOND_PORT : Z := 0xA7.
Definition PS2_COMMAND_READ_BYTE_ZERO : Z := 0x20.
Definition PS2_COMMAND_WRITE_BYTE_ZERO : Z := 0x60.
Definition PS2_COMMAND_SELF_TEST : Z := 0xAA.
Definition PS2_COMMAND_TEST_FIRST_PORT : Z := 0xAB.
Definition PS2_DEVICE_RESET : Z := 0xFF.
Definition PS2_DEVICE_GET_SET_SCAN_CODE_SET : Z := 0xF0.
Definition PS2_DEVICE_ACK : Z := 0xFA.
Definition PS2_DEVICE_RESEND : Z := 0xFE.
Definition PS2_DEVICE_RESET_SUCCESS : Z := 0xAA.
Definition PS2_SELF_TEST_PASS : Z := 0x55.
Definition PS2_INTERFACE_PORT_PASS : Z := 0x00.
Definition PS2_READ_DATA_NO_TIMEOUT : Z := -1.
Definition PS2_READ_DATA_RESONABLE_TIMEOUT : Z := 10000.
Definition IRQ1 : Z := 1.
Definition PS2_INTERRUPT_NUM : Z := IRQ_BASE + IRQ1.

(** The flags of [struct Ps2Status] and [struct Ps2ControllerConfig] that are used, in the
    byte they are packed in. *)
Definition output_status (status : Z) : bool := get_flag 0 status.
Definition input_status (status : Z) : bool := get_flag 1 status.
Definition set_fist_port_interrupt (b : bool) (config : Z) : Z := set_flag 0 b config.
Definition set_first_port_clock (b : bool) (config : Z) : Z := set_flag 4 b config.
Definition set_first_port_translation (b : bool) (config : Z) : Z := set_flag 6 b config.

(** ** The controller *)

Section controller.
Context `{Hardware}.
Abbreviation I := (M (list io)).
(** How often a status is polled where the code has no timeout. *)
Context (fuel : nat).

Definition ps2_get_status : I Z := inb PS2_STATUS_COMMAND_PORT.

Definition ps2_send_command (command : Z) : I unit :=
  status ← ps2_get_status;
  _ ← poll fuel input_status PS2_STATUS_COMMAND_PORT status;
  outb PS2_STATUS_COMMAND_PORT command.

Definition ps2_send_data (data : Z) : I unit :=
  status ← ps2_get_status;
  _ ← poll fuel input_status PS2_STATUS_COMMAND_PORT status;
  outb PS2_DATA_PORT data.

(** [while (!status.output_status && timeout != 0)]: the timeout that is left. *)
Fixpoint wait_output (fuel : nat) (status timeout : Z) : I Z :=
  if negb (output_status status) && negb (timeout =? 0) then
    match fuel with
    | O => no_fuel
    | S fuel =>
        status ← ps2_get_status;
        wait_output fuel status (if timeout >? 0 then timeout - 1 else timeout)
    end
  else mret timeout.

(** The byte put at [data] when the function returns true. *)
Definition ps2_read_data (timeout : Z) : I (option Z) :=
  status ← ps2_get_status;
  timeout ← wait_output fuel status timeout;
  if negb (timeout =? 0) then frame_data ← inb PS2_DATA_PORT; mret (Some frame_data)
  else mret None.

(** Without a timeout the read cannot fail; if it did, [data] would be unset. *)
Definition ps2_read_data_block : I Z :=
  data ← ps2_read_data PS2_READ_DATA_NO_TIMEOUT;
  match data with Some data => mret data | None => fault end.

Definition ps2_get_controller_config : I Z :=
  ps2_send_command PS2_COMMAND_READ_BYTE_ZERO ;;
  ps2_read_data_block.

(** The loop over [reset_seq]: [n] slots are left from [reset_len] on. *)
Fixpoint read_reset_seq (n reset_len : nat) (reset_seq : list Z) : I (list Z) :=
  match n with
  | O => mret reset_seq
  | S n =>
      data ← ps2_read_data PS2_READ_DATA_RESONABLE_TIMEOUT;
      match data with
      | Some data => read_reset_seq n (S reset_len) (<[reset_len := data]> reset_seq)
      | None => mret reset_seq
      end
  end.

End controller.

(** ** The driver *)

(** Waking the threads of a queue, the queue [ring_init] takes from [kmalloc] and
    the address of the handler. *)
Class KeyboardEnv (W : Type) := {
  unblock_all : Z -> M (irq_state W) unit;
  keyboard_queue : Z;
  ps2_irq_handler_addr : Z }.

Section keyboard.
Context {W : Type} `{HasRing W} `{Hardware} `{KeyboardEnv W}.
Abbreviation K := (M (irq_state W)).
Context (fuel : nat).

Definition ps2_irq_handler (num : Z) : K unit :=
  code ← portop (ps2_read_data_block fuel);
  (if code =? keycode KEYCODE_ENTER_PRESSED then
     _ ← ringop (ring_producer_add_char 10); mret tt
   else
     let c := scan_code_to_char code in
     if negb (c =? 0) then _ ← ringop (ring_producer_add_char c); mret tt else mret tt : K unit) ;;
  r ← ringop (gets id);
  unblock_all (blocked r) ;;
  portop (PIC_sendEOI num).

(** [reset_seq] is an array on the stack: [stack] is what it holds at first. *)
Definition ps2_initialize (stack : list Z) : K unit :=
  print "Initializing keyboard..." [] ;;
  portop (ps2_send_command fuel PS2_COMMAND_DISABLE_FIRST_PORT) ;;
  portop (ps2_send_command fuel PS2_COMMAND_DISABLE_SECOND_PORT) ;;
  status ← portop ps2_get_status;
  (if output_status status then _ ← portop (ps2_read_data_block fuel); mret tt else mret tt : K unit) ;;
  print "Set controller config..." [] ;;
  config ← portop (ps2_get_controller_config fuel);
  let config := set_fist_port_interrupt false config in
  let config := set_first_port_translation false config in
  let config := set_first_port_clock (negb true) config in
  portop (ps2_send_command fuel PS2_COMMAND_WRITE_BYTE_ZERO) ;;
  portop (ps2_send_data fuel config) ;;
  print "Run Self Tests..." [] ;;
  portop (ps2_send_command fuel PS2_COMMAND_SELF_TEST) ;;
  test ← portop (ps2_read_data_block fuel);
  if negb (test =? PS2_SELF_TEST_PASS) then panic "PS2 Controller Self Test Failure. Stopping." [] else
  portop (ps2_send_command fuel PS2_COMMAND_TEST_FIRST_PORT) ;;
  test ← portop (ps2_read_data_block fuel);
  if negb (test =? PS2_INTERFACE_PORT_PASS) then panic "PS2 Port Test Failure. Stopping." [] else
  print "Reset Device..." [] ;;
  portop (ps2_send_data fuel PS2_DEVICE_RESET) ;;
  reset_seq ← portop (read_reset_seq fuel 4 0 stack);
  let b0 := nth 0 reset_seq 0 in
  let b1 := nth 1 reset_seq 0 in
  if (negb (b0 =? PS2_DEVICE_ACK) || negb (b1 =? PS2_DEVICE_RESET_SUCCESS)) &&
     (negb (b0 =? PS2_DEVICE_RESET_SUCCESS) || negb (b1 =? PS2_DEVICE_ACK))
  then panic "PS2 Reset failure" [] else
  portop (ps2_send_data fuel PS2_DEVICE_GET_SET_SCAN_CODE_SET) ;;
  scan ← portop (ps2_read_data_block fuel);
  if negb (scan =? PS2_DEVICE_ACK) && negb (scan =? PS2_DEVICE_RESEND)
  then panic "Failed to request setting scan code." [] else
  portop (ps2_send_data fuel 0x01) ;;
  ack ← portop (ps2_read_data_block fuel);
  if negb (ack =? PS2_DEVICE_ACK) then panic "Failed to set scan set." [] else
  print "Keyboard Initialized." [] ;;
  print "Enable Interrupts..." [] ;;
  ringop (ring_init true keyboard_queue) ;;
  IRQ_handler_set PS2_INTERRUPT_NUM ps2_irq_handler_addr 0 ;;
  portop (IRQ_clear_mask IRQ1) ;;
  config ← portop (ps2_get_controller_config fuel);
  let config := set_fist_port_interrupt true config in
  portop (ps2_send_command fuel PS2_COMMAND_WRITE_BYTE_ZERO) ;;
  portop (ps2_send_data fuel config) ;;
  print "Enable Port..." [] ;;
  portop (ps2_send_command fuel PS2_COMMAND_ENABLE_FIRST_PORT).

Definition ps2_echo : K unit :=
  code ← portop (ps2_read_data_block fuel);
  if code =? keycode KEYCODE_ENTER_PRESSED then print newline []
  else
    let c := scan_code_to_char code in
    if negb (c =? 0) then print "%c" [c] else mret tt.

(** [char] is signed. *)
Definition getc (wakes : list (K unit)) : K Z :=
  c ← ring_block_next wakes;
  mret (sint 8 c).

End keyboard.

(** ** A controller with a keyboard

    What the accesses mean to an 8042 with a keyboard: the bytes it has yet to give, its
    configuration byte, whether the next byte of data is one, and how many keys were
    read since its port was enabled. *)

Record ctl := mkCtl { answers : list Z; config : Z; expects : bool; scanned : option nat }.

Definition ctl_command (c : Z) (k : ctl) : ctl :=
  if c =? PS2_COMMAND_READ_BYTE_ZERO then mkCtl (answers k ++ [config k]) (config k) false (scanned k)
  else if c =? PS2_COMMAND_WRITE_BYTE_ZERO then mkCtl (answers k) (config k) true (scanned k)
  else if c =? PS2_COMMAND_SELF_TEST then mkCtl (answers k ++ [PS2_SELF_TEST_PASS]) (config k) false (scanned k)
  else if c =? PS2_COMMAND_TEST_FIRST_PORT then mkCtl (answers k ++ [PS2_INTERFACE_PORT_PASS]) (config k) false (scanned k)
  else if c =? PS2_COMMAND_DISABLE_FIRST_PORT then mkCtl (answers k) (set_first_port_clock true (config k)) false None
  else if c =? PS2_COMMAND_ENABLE_FIRST_PORT then mkCtl (answers k) (set_first_port_clock false (config k)) false (Some 0%nat)
  else if c =? PS2_COMMAND_DISABLE_SECOND_PORT then mkCtl (answers k) (set_flag 5 true (config k)) false (scanned k)
  else k.
Definition ctl_data (v : Z) (k : ctl) : ctl :=
  if expects k then mkCtl (answers k) (u8 v) false (scanned k)
  else if v =? PS2_DEVICE_RESET then mkCtl (answers k ++ [PS2_DEVICE_ACK; PS2_DEVICE_RESET_SUCCESS]) (config k) false (scanned k)
  else mkCtl (answers k ++ [PS2_DEVICE_ACK]) (config k) false (scanned k).
(** Reading a byte: an answer, or else the next key. *)
Definition ctl_read (k : ctl) : ctl :=
  mkCtl (tail (answers k)) (config k) (expects k) (match answers k with [] => S <$> scanned k | _ => scanned k end).

Definition observe (k : ctl) (e : io) : ctl :=
  match e with
  | Outb p v => if p =? PS2_STATUS_COMMAND_PORT then ctl_command v k else if p =? PS2_DATA_PORT then ctl_data v k else k
  | Inb p _ => if p =? PS2_DATA_PORT then ctl_read k else k
  | _ => k
  end.
(** From the state [k0] at power on. *)
Definition ctl_of (k0 : ctl) (tr : list io) : ctl := fold_left observe tr k0.

(** It takes a byte, and offers one it has, within [patience] looks at its status; until
    its port is enabled it offers none it does not have. *)
Class GoodController `{Hardware} (k0 : ctl) (patience : nat) : Prop := {
  gc_input : forall tr, (patience <= looks PS2_STATUS_COMMAND_PORT tr)%nat ->
    input_status (u8 (hw tr PS2_STATUS_COMMAND_PORT)) = false;
  gc_output : forall tr, answers (ctl_of k0 tr) <> [] -> (patience <= looks PS2_STATUS_COMMAND_PORT tr)%nat ->
    output_status (u8 (hw tr PS2_STATUS_COMMAND_PORT)) = true;
  gc_none : forall tr, answers (ctl_of k0 tr) = [] -> scanned (ctl_of k0 tr) = None ->
    output_status (u8 (hw tr PS2_STATUS_COMMAND_PORT)) = false;
  gc_data : forall tr c l, answers (ctl_of k0 tr) = c :: l -> u8 (hw tr PS2_DATA_PORT) = c }.

(** Someone types [keys] once the port is enabled: each key is offered within [patience] looks. *)
Class Typing `{Hardware} (k0 : ctl) (keys : list Z) (patience : nat) : Prop := {
  ty_ready : forall tr n, answers (ctl_of k0 tr) = [] -> scanned (ctl_of k0 tr) = Some n ->
    (patience <= looks PS2_STATUS_COMMAND_PORT tr)%nat -> output_status (u8 (hw tr PS2_STATUS_COMMAND_PORT)) = true;
  ty_key : forall tr n, answers (ctl_of k0 tr) = [] -> scanned (ctl_of k0 tr) = Some n -> u8 (hw tr PS2_DATA_PORT) = nth n keys 0 }.

(** Accesses of the keyboard's two ports. *)
Definition kbd_access (e : io) : Prop :=
  match e with Inb p _ | Outb p _ => p = PS2_DATA_PORT \/ p = PS2_STATUS_COMMAND_PORT | _ => False end.

(** Waiting for a byte that is offered within [patience] looks. *)
Lemma wait_output_ready `{Hardware} (offered : list io -> Prop) patience fuel :
  (forall tr v, offered tr -> offered (tr ++ [Inb PS2_STATUS_COMMAND_PORT v])) ->
  (forall tr, offered tr -> (patience <= looks PS2_STATUS_COMMAND_PORT tr)%nat -> output_status (u8 (hw tr PS2_STATUS_COMMAND_PORT)) = true) ->
  forall status timeout tr, offered tr -> ((patience < looks PS2_STATUS_COMMAND_PORT tr)%nat -> output_status status = true) ->
  (patience < looks PS2_STATUS_COMMAND_PORT tr + fuel)%nat ->
  timeout < 0 \/ Z.of_nat patience < timeout + Z.of_nat (looks PS2_STATUS_COMMAND_PORT tr) - 1 -> timeout <> 0 ->
  exists tr' t, wait_output fuel status timeout tr = Ret t (tr ++ tr') /\ t <> 0 /\ reads_only PS2_STATUS_COMMAND_PORT tr'.
Proof.
  intros Hkeep Hready. induction fuel as [|fuel IH]; intros status timeout tr Ha Hs Hf Ht Hz; cbn [wait_output];
    rewrite (proj2 (Z.eqb_neq timeout 0) Hz); cbn [negb]; rewrite andb_true_r;
    (destruct (output_status status) eqn:Es; cbn [negb];
      [exists [], timeout; rewrite app_nil_r; split; [done|split; [done|constructor]]|]).
  { discriminate Hs. lia. }
  unfold ps2_get_status. set (v := u8 (hw tr PS2_STATUS_COMMAND_PORT)). set (tr1 := tr ++ [Inb PS2_STATUS_COMMAND_PORT v]).
  assert (Hin : inb PS2_STATUS_COMMAND_PORT tr = Ret v tr1) by done. rewrite (bind_ret _ _ _ _ _ Hin).
  assert (Hl : looks PS2_STATUS_COMMAND_PORT tr1 = S (looks PS2_STATUS_COMMAND_PORT tr)) by apply looks_snoc.
  destruct (IH v (if timeout >? 0 then timeout - 1 else timeout) tr1) as (tr' & t & E & Ht' & Hr).
  - by apply Hkeep.
  - intros Hlt. apply Hready; [done|lia].
  - lia.
  - rewrite Z.gtb_ltb. zcases; lia.
  - rewrite Z.gtb_ltb. zcases; lia.
  - exists (Inb PS2_STATUS_COMMAND_PORT v :: tr'), t. split; [|split; [done|by constructor; [exists v|]]].
    rewrite E. subst tr1. by rewrite <- app_assoc.
Qed.

Section good_controller.
Context `{Hardware} (k0 : ctl) (patience : nat) `{!GoodController k0 patience}.
Abbreviation I := (M (list io)).

(** The operation returns [a]; it accesses only the keyboard and leaves the controller
    in state [k]. *)
Definition gives {A} (m : I A) (tr : list io) (a : A) (k : ctl) : Prop :=
  exists tr', m tr = Ret a (tr ++ tr') /\ Forall kbd_access tr' /\ ctl_of k0 (tr ++ tr') = k.

Lemma ctl_of_app tr tr' : ctl_of k0 (tr ++ tr') = fold_left observe tr' (ctl_of k0 tr).
Proof. apply fold_left_app. Qed.

Lemma ctl_of_other tr tr' : Forall (fun e => ~ kbd_access e) tr' -> ctl_of k0 (tr ++ tr') = ctl_of k0 tr.
Proof.
  intros Hq. rewrite ctl_of_app. generalize (ctl_of k0 tr). induction Hq as [|e tr' He _ IH]; intros k; [done|].
  cbn [fold_left]. rewrite IH. destruct e as [p v|p v|p v|p v]; try done; cbn [observe kbd_access] in *.
  - by destruct (Z.eqb_spec p PS2_DATA_PORT); [subst; destruct He; left|].
  - destruct (Z.eqb_spec p PS2_STATUS_COMMAND_PORT); [subst; destruct He; by right|].
    by destruct (Z.eqb_spec p PS2_DATA_PORT); [subst; destruct He; left|].
Qed.

Lemma looks_quiet tr tr' : reads_only PS2_STATUS_COMMAND_PORT tr' ->
  ctl_of k0 (tr ++ tr') = ctl_of k0 tr /\ Forall kbd_access tr'.
Proof.
  intros Hr. rewrite ctl_of_app. generalize (ctl_of k0 tr). induction Hr as [|e tr' [v ->] _ IH]; intros k; [by split|].
  cbn [fold_left observe]. destruct (IH k) as [E F]. split; [exact E|]. constructor; [by right|done].
Qed.

Lemma send_ret fuel port c tr : (patience < fuel)%nat -> kbd_access (Outb port c) ->
  gives (status ← ps2_get_status; _ ← poll fuel input_status PS2_STATUS_COMMAND_PORT status; outb port c) tr tt
    (observe (ctl_of k0 tr) (Outb port (u8 c))).
Proof.
  intros Hf Hp. unfold ps2_get_status. set (v := u8 (hw tr PS2_STATUS_COMMAND_PORT)). set (tr1 := tr ++ [Inb PS2_STATUS_COMMAND_PORT v]).
  destruct (poll_ret input_status PS2_STATUS_COMMAND_PORT patience fuel v tr1) as (v' & tr2 & E & _ & Hr).
  - exact gc_input.
  - subst tr1. rewrite looks_snoc. intros Hl. apply gc_input. lia.
  - lia.
  - exists ([Inb PS2_STATUS_COMMAND_PORT v] ++ tr2 ++ [Outb port (u8 c)]).
    destruct (looks_quiet tr1 tr2 Hr) as [Ek Hk]. rewrite !app_assoc. fold tr1. split; [|split].
    + unfold inb. unfold mbind at 1, M_bind at 1. fold v tr1. by rewrite (bind_ret _ _ _ _ _ E).
    + apply Forall_app. split; [apply Forall_app; split; [repeat constructor; by right|done]|by constructor].
    + rewrite (ctl_of_app (tr1 ++ tr2)), Ek. subst tr1. rewrite ctl_of_app. reflexivity.
Qed.

Lemma inb_status tr : let v := u8 (hw tr PS2_STATUS_COMMAND_PORT) in
  ps2_get_status tr = Ret v (tr ++ [Inb PS2_STATUS_COMMAND_PORT v]) /\
  ctl_of k0 (tr ++ [Inb PS2_STATUS_COMMAND_PORT v]) = ctl_of k0 tr /\
  looks PS2_STATUS_COMMAND_PORT (tr ++ [Inb PS2_STATUS_COMMAND_PORT v]) = S (looks PS2_STATUS_COMMAND_PORT tr).
Proof.
  intros v. split; [done|]. split; [|apply looks_snoc]. apply (looks_quiet tr [_]). repeat constructor. by exists v.
Qed.

(** Reading a byte the controller has. *)
Lemma read_data_ret fuel timeout tr c l : (patience < fuel)%nat -> timeout < 0 \/ Z.of_nat patience < timeout ->
  answers (ctl_of k0 tr) = c :: l ->
  gives (ps2_read_data fuel timeout) tr (Some c) (mkCtl l (config (ctl_of k0 tr)) (expects (ctl_of k0 tr)) (scanned (ctl_of k0 tr))).
Proof.
  intros Hf Ht Ha. unfold ps2_read_data. destruct (inb_status tr) as (Ei & Ek & El). set (v := u8 (hw tr PS2_STATUS_COMMAND_PORT)) in *.
  set (tr1 := tr ++ [_]) in *. unfold gives. rewrite (bind_ret _ _ _ _ _ Ei).
  destruct (wait_output_ready (fun tr => answers (ctl_of k0 tr) <> []) patience fuel) with (status := v) (timeout := timeout) (tr := tr1)
    as (tr2 & t & E & Ht' & Hr).
  - intros tr' v' Hn. by rewrite (proj1 (looks_quiet tr' [Inb PS2_STATUS_COMMAND_PORT v'] ltac:(repeat constructor; by exists v'))).
  - apply gc_output.
  - by rewrite Ek, Ha.
  - rewrite El. intros Hl. apply gc_output; [by rewrite Ha|lia].
  - lia.
  - rewrite El. lia.
  - lia.
  - rewrite (bind_ret _ _ _ _ _ E), (proj2 (Z.eqb_neq t 0) Ht'). cbn [negb].
    destruct (looks_quiet tr1 tr2 Hr) as [Ek2 Hk]. rewrite Ek in Ek2. rewrite <- Ek2 in Ha.
    exists ([Inb PS2_STATUS_COMMAND_PORT v] ++ tr2 ++ [Inb PS2_DATA_PORT c]). rewrite !app_assoc. fold tr1. split; [|split].
    + unfold inb. unfold mbind, M_bind. by rewrite (gc_data (tr1 ++ tr2) c l Ha).
    + apply Forall_app. split; [apply Forall_app; split; [repeat constructor; by right|done]|repeat constructor; by left].
    + rewrite (ctl_of_app (tr1 ++ tr2)), Ek2 in *. cbn. unfold ctl_read. by rewrite Ha.
Qed.

Lemma kbd_block_ret fuel tr c l : (patience < fuel)%nat -> answers (ctl_of k0 tr) = c :: l ->
  gives (ps2_read_data_block fuel) tr c (mkCtl l (config (ctl_of k0 tr)) (expects (ctl_of k0 tr)) (scanned (ctl_of k0 tr))).
Proof.
  intros Hf Ha. destruct (read_data_ret fuel PS2_READ_DATA_NO_TIMEOUT tr c l Hf ltac:(by left) Ha) as (tr' & E & Hk).
  exists tr'. split; [|done]. unfold ps2_read_data_block. by rewrite (bind_ret _ _ _ _ _ E).
Qed.
End good_controller.

(** *** Timeouts *)

Section timeouts.
Context `{Hardware}.

(** A byte is offered at one of the next [n] looks. *)
Fixpoint arrives (n : nat) (tr : list io) : bool :=
  match n with
  | O => false
  | S n => let v := u8 (hw tr PS2_STATUS_COMMAND_PORT) in output_status v || arrives n (tr ++ [Inb PS2_STATUS_COMMAND_PORT v])
  end.

Lemma wait_output_timeout n : forall fuel status tr, (n <= fuel)%nat ->
  exists t tr', wait_output fuel status (Z.of_nat n) tr = Ret t (tr ++ tr') /\ reads_only PS2_STATUS_COMMAND_PORT tr' /\
    (length tr' <= n)%nat /\ negb (t =? 0) = negb (n =? 0)%nat && (output_status status || arrives (n - 1) tr).
Proof.
  induction n as [|n IH]; intros fuel status tr Hf.
  { exists 0, []. rewrite app_nil_r. split; [|by repeat split; try constructor]. destruct fuel; cbn [wait_output]; by rewrite andb_false_r. }
  destruct fuel as [|fuel]; [lia|]. cbn [wait_output]. rewrite (proj2 (Z.eqb_neq (Z.of_nat (S n)) 0)) by lia.
  cbn [negb]. rewrite andb_true_r. destruct (output_status status) eqn:Es; cbn [negb orb].
  { exists (Z.of_nat (S n)), []. rewrite app_nil_r. split; [done|]. split; [constructor|]. split; [cbn; lia|].
    rewrite (proj2 (Z.eqb_neq (Z.of_nat (S n)) 0)) by lia. done. }
  unfold ps2_get_status. set (v := u8 (hw tr PS2_STATUS_COMMAND_PORT)). set (tr1 := tr ++ [Inb PS2_STATUS_COMMAND_PORT v]).
  assert (Hin : inb PS2_STATUS_COMMAND_PORT tr = Ret v tr1) by done. rewrite (bind_ret _ _ _ _ _ Hin).
  rewrite Z.gtb_ltb, (proj2 (Z.ltb_lt 0 (Z.of_nat (S n)))) by lia. replace (Z.of_nat (S n) - 1) with (Z.of_nat n) by lia.
  destruct (IH fuel v tr1 ltac:(lia)) as (t & tr' & E & Hr & Hl & Ht).
  exists t, (Inb PS2_STATUS_COMMAND_PORT v :: tr'). split; [rewrite E; subst tr1; by rewrite <- app_assoc|].
  split; [by constructor; [exists v|]|]. split; [cbn; lia|]. rewrite Ht. cbn [Nat.eqb negb andb].
  replace (S n - 1)%nat with n by lia. destruct n as [|n]; [done|]. cbn [Nat.eqb negb andb arrives]. fold v tr1.
  by replace (S n - 1)%nat with n by lia.
Qed.

(** C39: whatever the controller does, reading with a timeout ends after at most two accesses
    more than the timeout, and gives a byte exactly when one was offered at one of
    that many looks at the status; a timeout of 0 never reads. *)
Theorem ps2_read_data_timeout n fuel tr : (n <= fuel)%nat ->
  exists r tr', ps2_read_data fuel (Z.of_nat n) tr = Ret r (tr ++ tr') /\ (length tr' <= n + 2)%nat /\
    (match r with Some _ => true | None => false end) = arrives n tr /\
    (forall b, r = Some b -> in_range 8 b /\ last tr' = Some (Inb PS2_DATA_PORT b)) /\
    (r = None -> reads_only PS2_STATUS_COMMAND_PORT tr').
Proof.
  intros Hf. unfold ps2_read_data, ps2_get_status. set (v := u8 (hw tr PS2_STATUS_COMMAND_PORT)).
  set (tr1 := tr ++ [Inb PS2_STATUS_COMMAND_PORT v]).
  assert (Hin : inb PS2_STATUS_COMMAND_PORT tr = Ret v tr1) by done. rewrite (bind_ret _ _ _ _ _ Hin).
  destruct (wait_output_timeout n fuel v tr1 Hf) as (t & tr2 & E & Hr & Hl & Ht). rewrite (bind_ret _ _ _ _ _ E), Ht.
  assert (Ha : arrives n tr = negb (n =? 0)%nat && (output_status v || arrives (n - 1) tr1)).
  { destruct n as [|n]; [done|]. cbn [Nat.eqb negb andb arrives]. by replace (S n - 1)%nat with n by lia. }
  rewrite <- Ha. destruct (arrives n tr).
  - eexists _, ([Inb PS2_STATUS_COMMAND_PORT v] ++ tr2 ++ [Inb PS2_DATA_PORT (u8 (hw (tr1 ++ tr2) PS2_DATA_PORT))]).
    rewrite !app_assoc. fold tr1. split; [reflexivity|]. split; [rewrite !length_app; cbn; lia|]. split; [done|]. split; [|done].
    intros b [= <-]. split; [by apply (wrap_range 8)|apply last_snoc].
  - exists None, (Inb PS2_STATUS_COMMAND_PORT v :: tr2). split; [subst tr1; by rewrite <- app_assoc|]. split; [cbn; lia|].
    split; [done|]. split; [done|]. intros _. by constructor; [exists v|].
Qed.

End timeouts.

(** ** Initialization *)

Lemma set_flag_byte lo b c : 0 <= lo < 8 -> in_range 8 c -> in_range 8 (set_flag lo b c).
Proof. intros. unfold set_flag. apply set_bits_range; lia || done. Qed.

Section init.
Context {W : Type} `{HasRing W} `{Hardware} `{KeyboardEnv W}.
Context (k0 : ctl) (patience fuel : nat) `{!GoodController k0 patience} (Hfuel : (patience < fuel)%nat).
Implicit Types (s : irq_state W) (k : ctl).

(** [s] is [s0] but for output and accesses of the keyboard, its controller in state [k]. *)
Definition only_kbd s0 k s : Prop :=
  exists tr p, s = set_ports (ports s0 ++ tr) (set_printed p s0) /\ Forall kbd_access tr /\ ctl_of k0 (ports s) = k.

Lemma only_kbd_refl s : only_kbd s (ctl_of k0 (ports s)) s.
Proof. exists [], (printed s). rewrite app_nil_r. split; [by destruct s|by split]. Qed.

Definition ends {A} (m : M (irq_state W) A) s (P : A -> irq_state W -> Prop) : Prop := exists a s', m s = Ret a s' /\ P a s'.

Section steps.
Context {B : Type} (s0 : irq_state W) (P : B -> irq_state W -> Prop).

Lemma ends_port {A} (m : M (list io) A) (f : A -> M (irq_state W) B) s k k' a : only_kbd s0 k s ->
  (forall tr, ctl_of k0 tr = k -> gives k0 m tr a k') -> (forall s', only_kbd s0 k' s' -> ends (f a) s' P) ->
  ends (portop m ≫= f) s P.
Proof.
  intros (tr & p & -> & Ht & Hk) Hm Hf. destruct (Hm _ Hk) as (tr' & E & Ht' & Hk').
  unfold ends. rewrite (bind_ret _ _ _ _ _ (zoom_ret ports set_ports m a _ _ E)). apply Hf.
  exists (tr ++ tr'), p. split; [|split; [by apply Forall_app|done]]. cbn. by rewrite app_assoc.
Qed.
Lemma ends_print fmt args (f : unit -> M (irq_state W) B) s k : only_kbd s0 k s ->
  (forall s', only_kbd s0 k s' -> ends (f tt) s' P) -> ends (print fmt args ≫= f) s P.
Proof.
  intros (tr & p & -> & Ht & Hk) Hf. unfold ends, print. rewrite bind_modify. apply Hf. by exists tr, (p ++ [(fmt, args)]).
Qed.
End steps.

(** What each operation does to a controller in a known state. *)
Lemma command_gives c tr k k' : ctl_of k0 tr = k -> ctl_command (u8 c) k = k' -> gives k0 (ps2_send_command fuel c) tr tt k'.
Proof.
  intros <- <-. unfold ps2_send_command.
  apply (send_ret k0 patience fuel PS2_STATUS_COMMAND_PORT c tr Hfuel). by right.
Qed.
Lemma data_gives v tr k k' : ctl_of k0 tr = k -> ctl_data (u8 v) k = k' -> gives k0 (ps2_send_data fuel v) tr tt k'.
Proof.
  intros <- <-. unfold ps2_send_data.
  apply (send_ret k0 patience fuel PS2_DATA_PORT v tr Hfuel). by left.
Qed.
Lemma block_gives tr c l cfg x o : ctl_of k0 tr = mkCtl (c :: l) cfg x o -> gives k0 (ps2_read_data_block fuel) tr c (mkCtl l cfg x o).
Proof. intros Hk. pose proof (kbd_block_ret k0 patience fuel tr c l Hfuel ltac:(by rewrite Hk)) as Hg. by rewrite Hk in Hg. Qed.

Lemma kbd_bind {A B} (m : M (list io) A) (f : A -> M (list io) B) tr a b k k' : gives k0 m tr a k ->
  (forall tr', ctl_of k0 tr' = k -> gives k0 (f a) tr' b k') -> gives k0 (m ≫= f) tr b k'.
Proof.
  intros (tr1 & E1 & T1 & K1) Hf. destruct (Hf _ K1) as (tr2 & E2 & T2 & K2). exists (tr1 ++ tr2).
  rewrite (bind_ret _ _ _ _ _ E1), E2, app_assoc. split; [done|]. split; [by apply Forall_app|done].
Qed.
Lemma gives_mret {A} (a : A) tr k : ctl_of k0 tr = k -> gives k0 (mret a) tr a k.
Proof. intros Hk. exists []. rewrite app_nil_r. by split. Qed.

Lemma get_config_gives tr cfg o : ctl_of k0 tr = mkCtl [] cfg false o ->
  gives k0 (ps2_get_controller_config fuel) tr cfg (mkCtl [] cfg false o).
Proof.
  intros Hk. unfold ps2_get_controller_config. eapply kbd_bind; [by eapply command_gives|].
  intros tr' Hk'. by apply block_gives.
Qed.

Lemma arrives_none n : forall tr, answers (ctl_of k0 tr) = [] -> scanned (ctl_of k0 tr) = None -> arrives n tr = false.
Proof.
  induction n as [|n IH]; intros tr Ha Ho; [done|]. cbn [arrives]. rewrite (gc_none tr Ha Ho). cbn [orb].
  apply IH; by destruct (inb_status k0 tr) as (_ & -> & _).
Qed.

Lemma read_empty_gives n tr k : (n <= fuel)%nat -> ctl_of k0 tr = k -> answers k = [] -> scanned k = None ->
  gives k0 (ps2_read_data fuel (Z.of_nat n)) tr None k.
Proof.
  intros Hn <- Ha Ho. unfold ps2_read_data. destruct (inb_status k0 tr) as (Ei & Ek & _). unfold gives. rewrite (bind_ret _ _ _ _ _ Ei).
  set (v := u8 (hw tr PS2_STATUS_COMMAND_PORT)) in *. set (tr1 := tr ++ [_]) in *.
  destruct (wait_output_timeout n fuel v tr1 Hn) as (t & tr2 & E & Hr & _ & Ht).
  assert (Hv : output_status v = false) by by apply gc_none.
  rewrite Hv, arrives_none, andb_false_r in Ht by (by rewrite Ek).
  rewrite (bind_ret _ _ _ _ _ E), Ht. destruct (looks_quiet k0 tr1 tr2 Hr) as [Ek2 Hk].
  exists ([Inb PS2_STATUS_COMMAND_PORT v] ++ tr2). rewrite app_assoc. fold tr1. split; [done|].
  split; [|by rewrite Ek2, Ek]. constructor; [by right|done].
Qed.

(** The acknowledgement of a reset, and then nothing within the timeout. *)
Lemma reset_gives tr stack cfg x : Z.of_nat patience < PS2_READ_DATA_RESONABLE_TIMEOUT <= Z.of_nat fuel ->
  ctl_of k0 tr = mkCtl [PS2_DEVICE_ACK; PS2_DEVICE_RESET_SUCCESS] cfg x None ->
  gives k0 (read_reset_seq fuel 4 0 stack) tr (<[1%nat := PS2_DEVICE_RESET_SUCCESS]> (<[0%nat := PS2_DEVICE_ACK]> stack)) (mkCtl [] cfg x None).
Proof.
  intros [Hp Hf] Hk. cbn [read_reset_seq].
  eapply kbd_bind. { apply (read_data_ret k0 patience fuel _ tr PS2_DEVICE_ACK); [done|by right|by rewrite Hk]. }
  intros tr1 Hk1. rewrite Hk in Hk1. cbn [config expects] in Hk1.
  eapply kbd_bind. { apply (read_data_ret k0 patience fuel _ tr1 PS2_DEVICE_RESET_SUCCESS); [done|by right|by rewrite Hk1]. }
  intros tr2 Hk2. rewrite Hk1 in Hk2. cbn [config expects] in Hk2.
  eapply (kbd_bind _ _ _ None); [|intros tr3 Hk3; exact (gives_mret _ tr3 _ Hk3)].
  rewrite <- (Z2Nat.id PS2_READ_DATA_RESONABLE_TIMEOUT) by done. apply read_empty_gives; [lia|done..].
Qed.

(** The configuration the driver ends with: [cfg] was there at first. *)
Definition port_disabled (cfg : Z) : Z := set_flag 5 true (set_first_port_clock true cfg).
Definition first_config (cfg : Z) : Z :=
  set_first_port_clock false (set_first_port_translation false (set_fist_port_interrupt false (port_disabled cfg))).
Definition final_config (cfg : Z) : Z := set_first_port_clock false (set_fist_port_interrupt true (first_config cfg)).

(** The first part: up to the device that scans. *)
Lemma final_config_flags cfg : get_flag 0 (final_config cfg) = true /\ get_flag 4 (final_config cfg) = false /\
  get_flag 6 (final_config cfg) = false /\ get_flag 5 (final_config cfg) = true /\ get_flag 1 (final_config cfg) = get_flag 1 cfg /\
  get_flag 2 (final_config cfg) = get_flag 2 cfg.
Proof.
  unfold final_config, first_config, port_disabled, set_first_port_clock, set_first_port_translation, set_fist_port_interrupt.
  rewrite !get_flag_set_same by lia. repeat split; repeat first [rewrite get_flag_set_same by lia | rewrite get_flag_set_other by lia]; done.
Qed.

(** One port operation or message of the driver. *)
Ltac k_print := eapply ends_print; [eassumption|intros ? ?].
Ltac k_port lem := eapply ends_port; [eassumption|intros ? ?; lem|intros ? ?]; cbv beta.
Ltac k_command k' := k_port ltac:(apply (command_gives _ _ _ k' ltac:(eassumption)); reflexivity).
Ltac k_data k' := k_port ltac:(apply (data_gives _ _ _ k' ltac:(eassumption)); reflexivity).
Ltac k_config c := k_port ltac:(apply (data_gives _ _ _ (mkCtl [] c false None) ltac:(eassumption)); cbn; by rewrite wrap_wrap, (wrap_small 8)).
Ltac k_block := k_port ltac:(eapply block_gives; eassumption).

Lemma ends_assoc {A B C} (m : M (irq_state W) A) (f : A -> M (irq_state W) B) (g : B -> M (irq_state W) C) s P :
  ends (m ≫= (fun x => f x ≫= g)) s P -> ends ((m ≫= f) ≫= g) s P.
Proof. unfold ends. by rewrite bind_assoc. Qed.

(** The flush: afterwards nothing is left to read. *)
Lemma flush_ends {B} s0 s l cfg (rest : M (irq_state W) B) P : l = [] \/ (length l = 1%nat /\ patience = 0%nat) ->
  only_kbd s0 (mkCtl l cfg false None) s -> (forall s', only_kbd s0 (mkCtl [] cfg false None) s' -> ends (rest) s' P) ->
  ends (status ← portop ps2_get_status;
        (if output_status status then _ ← portop (ps2_read_data_block fuel); mret tt else mret tt) ;; rest) s P.
Proof.
  intros Hl (tr & p & -> & Ht & Hk) Hf. set (s := set_ports _ _) in *.
  destruct (inb_status k0 (ports s)) as (Ei & Ek & _). unfold ends. rewrite (bind_ret _ _ _ _ _ (zoom_ret ports set_ports _ _ _ _ Ei)).
  set (v := u8 (hw (ports s) PS2_STATUS_COMMAND_PORT)) in *. set (s1 := set_ports (ports s ++ _) s).
  assert (Hs1 : only_kbd s0 (mkCtl l cfg false None) s1).
  { exists (tr ++ [Inb PS2_STATUS_COMMAND_PORT v]), p. split; [cbn; by rewrite app_assoc|]. split.
    - apply Forall_app. split; [done|repeat constructor; by right].
    - change (ports s1) with (ports s ++ [Inb PS2_STATUS_COMMAND_PORT v]). by rewrite Ek. }
  destruct Hl as [->|[Hl Hp]].
  - assert (Hv : output_status v = false) by (apply gc_none; by rewrite Hk). rewrite Hv, bind_mret. by apply Hf.
  - assert (Hv : output_status v = true) by (apply gc_output; [rewrite Hk; by destruct l|lia]). rewrite Hv.
    destruct l as [|c [|? ?]]; [done| |done]. apply ends_assoc. eapply ends_port; [exact Hs1|intros ? ?; by eapply block_gives|].
    intros s' Hs'. unfold ends. rewrite bind_mret. by apply Hf.
Qed.

(** All that the initialization changes: output, the ring, the interrupt table, and accesses
    of the keyboard and of the first controller's mask. *)
Definition init_access (e : io) : Prop :=
  kbd_access e \/ match e with Inb p _ | Outb p _ => p = PIC1_DATA | _ => False end.
Definition set_up s s' : Prop := exists r tr p,
  s' = set_irq_table (<[Z.to_nat PS2_INTERRUPT_NUM := mkEntry 0 ps2_irq_handler_addr]> (irq_table s))
         (set_world (set_ring r (world s)) (set_printed p (set_ports (ports s ++ tr) s))) /\ Forall init_access tr.

Lemma kbd_init_access tr : Forall kbd_access tr -> Forall init_access tr.
Proof. intros Hk. eapply Forall_impl; [exact Hk|]. by left. Qed.

Lemma set_up_trans s k1 s1 s2 k3 s3 : only_kbd s k1 s1 -> set_up s1 s2 -> only_kbd s2 k3 s3 -> set_up s s3.
Proof.
  intros (tr1 & p1 & -> & Ht1 & _) (r & tr2 & p2 & -> & Ht2) (tr3 & p3 & -> & Ht3 & _).
  exists r, (tr1 ++ tr2 ++ tr3), p3. split; [cbn; by rewrite <- !app_assoc|].
  apply Forall_app. split; [by apply kbd_init_access|]. apply Forall_app. split; [done|by apply kbd_init_access].
Qed.

(** Setting up for interrupts. *)
Lemma handler_ends s (rest : M (irq_state W) unit) P : length (buff (ring (world s))) = 16%nat ->
  (forall s', ctl_of k0 (ports s') = ctl_of k0 (ports s) -> waiting s' [] -> blocked (ring (world s')) = keyboard_queue ->
    set_up s s' ->
    Z.testbit (last_out PIC1_DATA 0 (ports s')) IRQ1 = false -> ends rest s' P) ->
  ends (ringop (ring_init true keyboard_queue) ;; IRQ_handler_set PS2_INTERRUPT_NUM ps2_irq_handler_addr 0 ;;
        portop (IRQ_clear_mask IRQ1) ;; rest) s P.
Proof.
  intros Hr Hrest. destruct (ring_init_rep true keyboard_queue _ Hr) as (r & E & Hr' & Hb).
  unfold ends. rewrite (bind_ret _ _ _ _ _ (ringop_ret _ s _ r E)). set (s1 := set_world _ s).
  set (s2 := set_irq_table (<[Z.to_nat PS2_INTERRUPT_NUM := mkEntry 0 ps2_irq_handler_addr]> (irq_table s1)) s1).
  assert (E2 : IRQ_handler_set PS2_INTERRUPT_NUM ps2_irq_handler_addr 0 s1 = Ret tt s2) by done.
  rewrite (bind_ret _ _ _ _ _ E2). set (v := u8 (hw (ports s2) PIC1_DATA)).
  set (w := u8 (u8 (Z.land v (Z.lnot (Z.shiftl 1 1))))). set (s3 := set_ports ((ports s2 ++ [Inb PIC1_DATA v]) ++ [Outb PIC1_DATA w]) s2).
  assert (E3 : portop (IRQ_clear_mask IRQ1) s2 = Ret tt s3) by done. rewrite (bind_ret _ _ _ _ _ E3). apply Hrest.
  - subst s3. cbn [ports set_ports]. by rewrite <- app_assoc, ctl_of_app.
  - apply (waiting_set s); [done|constructor].
  - cbn [world set_ports set_irq_table s3 s2 s1 set_world]. by rewrite ring_set, Hb.
  - exists r, [Inb PIC1_DATA v; Outb PIC1_DATA w], (printed s). split; [|do 2 (constructor; [by right|]); constructor]. subst s3 s2 s1. destruct s. cbn. by rewrite <- app_assoc.
  - subst s3. cbn [ports set_ports]. rewrite last_out_app. cbn [last_out fold_left Z.eqb PIC1_DATA Pos.eqb]. subst w.
    unfold IRQ1. rewrite !testbit_wrap by lia. rewrite Z.land_spec, Z.lnot_spec by lia. cbn. apply andb_false_r.
Qed.

Lemma only_kbd_keeps s k s' : only_kbd s k s' -> world s' = world s /\ irq_table s' = irq_table s /\
  last_out PIC1_DATA 0 (ports s') = last_out PIC1_DATA 0 (ports s).
Proof.
  intros (tr & p & -> & Ht & _). split; [done|]. split; [done|]. cbn [ports set_ports]. rewrite last_out_app.
  generalize (last_out PIC1_DATA 0 (ports s)). induction Ht as [|e tr He _ IH]; intros d; [done|].
  cbn [last_out fold_left]. change (last_out PIC1_DATA (match e with Outb p v => if p =? PIC1_DATA then v else d | _ => d end) tr = d).
  destruct e; try done; try apply IH. destruct He as [-> | ->]; apply IH.
Qed.

(** C20: with a controller and a keyboard that work, initialization returns: the controller
    then reports the keyboard's bytes by interrupt, untranslated, its second port off
    and the rest of its configuration as it was, with no byte of an answer left over;
    the handler is installed, the keyboard's line of the interrupt controller open and
    its ring empty, whatever was on the stack; nothing else changes. At most one byte may have been waiting
    before, if the controller shows it at the first look. *)
Theorem keyboard_initialized s stack l cfg o : Z.of_nat patience < PS2_READ_DATA_RESONABLE_TIMEOUT <= Z.of_nat fuel ->
  ctl_of k0 (ports s) = mkCtl l cfg false o -> l = [] \/ (length l = 1%nat /\ patience = 0%nat) -> in_range 8 cfg ->
  (2 <= length stack)%nat -> length (buff (ring (world s))) = 16%nat ->
  exists s' cfg', ps2_initialize fuel stack s = Ret tt s' /\ ctl_of k0 (ports s') = mkCtl [] cfg' false (Some 0%nat) /\
    get_flag 0 cfg' = true /\ get_flag 4 cfg' = false /\ get_flag 6 cfg' = false /\ get_flag 5 cfg' = true /\
    get_flag 1 cfg' = get_flag 1 cfg /\ get_flag 2 cfg' = get_flag 2 cfg /\
    waiting s' [] /\ blocked (ring (world s')) = keyboard_queue /\ set_up s s' /\
    Z.testbit (last_out PIC1_DATA 0 (ports s')) IRQ1 = false.
Proof.
  intros Hpf Hk Hl Hcfg Hst Hring.
  assert (Hc1 : in_range 8 (port_disabled cfg)) by by repeat apply set_flag_byte.
  assert (Hc2 : in_range 8 (first_config cfg)) by by repeat apply set_flag_byte.
  assert (Hc3 : in_range 8 (set_fist_port_interrupt true (first_config cfg))) by by repeat apply set_flag_byte.
  pose proof (only_kbd_refl s) as Hs. rewrite Hk in Hs.
  enough (He : ends (ps2_initialize fuel stack) s (fun _ s' => ctl_of k0 (ports s') = mkCtl [] (final_config cfg) false (Some 0%nat) /\
    waiting s' [] /\ blocked (ring (world s')) = keyboard_queue /\ set_up s s' /\
    Z.testbit (last_out PIC1_DATA 0 (ports s')) IRQ1 = false)).
  { destruct He as ([] & s' & E & Hk' & Hrest). exists s', (final_config cfg). pose proof (final_config_flags cfg) as Hflags. tauto. }
  unfold ps2_initialize. k_print. k_command (mkCtl l (set_first_port_clock true cfg) false None). k_command (mkCtl l (port_disabled cfg) false None).
  eapply flush_ends; [exact Hl|eassumption|intros ? ?]. k_print.
  k_port ltac:(by apply get_config_gives). k_command (mkCtl [] (port_disabled cfg) true None).
  k_config (first_config cfg). k_print.
  k_command (mkCtl [PS2_SELF_TEST_PASS] (first_config cfg) false None). k_block.
  k_command (mkCtl [PS2_INTERFACE_PORT_PASS] (first_config cfg) false None). k_block. k_print.
  k_data (mkCtl [PS2_DEVICE_ACK; PS2_DEVICE_RESET_SUCCESS] (first_config cfg) false None).
  k_port ltac:(by apply reset_gives). destruct stack as [|b0 [|b1 stack]]; [cbn in Hst; lia..|].
  change (nth 0 _ 0) with PS2_DEVICE_ACK. change (nth 1 _ 0) with PS2_DEVICE_RESET_SUCCESS.
  cbn [negb orb andb Z.eqb PS2_DEVICE_ACK PS2_DEVICE_RESET_SUCCESS Pos.eqb].
  k_data (mkCtl [PS2_DEVICE_ACK] (first_config cfg) false None). k_block.
  k_data (mkCtl [PS2_DEVICE_ACK] (first_config cfg) false None). k_block. k_print. k_print.
  match goal with Hs' : only_kbd s _ ?s1 |- ends _ ?s1 _ => pose proof (only_kbd_keeps _ _ _ Hs') as (Hw & Hi & _);
    rename Hs' into Hbefore; pose proof Hbefore as (? & ? & _ & _ & Hk1) end.
  apply handler_ends; [by rewrite Hw|]. intros s1 Ek Hring1 Hb1 Ht1 Hm1. rewrite Hk1 in Ek.
  pose proof (only_kbd_refl s1) as Hs1. rewrite Ek in Hs1.
  k_port ltac:(by apply get_config_gives). k_command (mkCtl [] (first_config cfg) true None).
  k_config (set_fist_port_interrupt true (first_config cfg)). k_print.
  match goal with Hs' : only_kbd s1 _ ?s2 |- ends _ ?s2 _ => destruct Hs' as (tr & p & -> & Htr & Hk2) end.
  destruct (command_gives PS2_COMMAND_ENABLE_FIRST_PORT _ _ (mkCtl [] (final_config cfg) false (Some 0%nat)) Hk2 eq_refl) as (tr' & E & Htr' & Hk3).
  eexists tt, _. split; [exact (zoom_ret ports set_ports _ _ _ _ E)|]. split; [exact Hk3|].
  split; [exact Hring1|]. split; [exact Hb1|].
  assert (Hlast : only_kbd s1 (mkCtl [] (final_config cfg) false (Some 0%nat)) (set_ports ((ports s1 ++ tr) ++ tr') (set_printed p s1))).
  { exists (tr ++ tr'), p. rewrite app_assoc. split; [done|]. split; [by apply Forall_app|exact Hk3]. }
  split; [exact (set_up_trans _ _ _ _ _ _ Hbefore Ht1 Hlast)|].
  destruct (only_kbd_keeps _ _ _ Hlast) as (_ & _ & Hlo). cbn [ports set_ports] in *. by rewrite Hlo.
Qed.
End init.

(** ** Typing *)

(** The chars of a key code. *)
Definition typed (code : Z) : list Z :=
  if code =? keycode KEYCODE_ENTER_PRESSED then [10]
  else if scan_code_to_char code =? 0 then [] else [scan_code_to_char code].
Definition text (keys : list Z) : list Z := concat (typed <$> keys).

Lemma typed_ascii code : Forall (fun c => 0 <= c < 128) (typed code) /\ (length (typed code) <= 1)%nat.
Proof.
  unfold typed. destruct (_ =? _); [split; [repeat constructor; lia|done]|].
  pose proof (scan_code_plain code) as Hp. destruct (scan_code_to_char code =? 0); split; cbn; try done; try lia.
  unfold plain_char in Hp. repeat constructor; lia.
Qed.

(** Waking threads touches neither the ring nor the ports. *)
Class QuietWake (W : Type) `{HasRing W} `{KeyboardEnv W} : Prop := 
  wake_quiet : forall q s, exists s', unblock_all q s = Ret tt s' /\ ring (world s') = ring (world s) /\ ports s' = ports s.

(** Interrupts of the keyboard, and reads by a thread, which may wait for [n] of them. *)
Inductive kb_op := Key | Getc.

Section typing_ops.
Context {W : Type} `{HasRing W} `{Hardware} `{!KeyboardEnv W}.
Definition run_kb (fuel n : nat) (o : kb_op) : M (irq_state W) (list Z) :=
  match o with
  | Key => ps2_irq_handler fuel PS2_INTERRUPT_NUM ;; mret []
  | Getc => c ← getc (replicate n (ps2_irq_handler fuel PS2_INTERRUPT_NUM)); mret [c]
  end.
Fixpoint run_kbs (fuel n : nat) (os : list kb_op) : M (irq_state W) (list Z) :=
  match os with [] => mret [] | o :: os => l ← run_kb fuel n o; l' ← run_kbs fuel n os; mret (l ++ l') end.
End typing_ops.

(** On lists: the keys to come and the chars waiting. *)
Definition deposit (k : Z) (q : list Z) : list Z := if (length q <? 15)%nat then q ++ typed k else q.
Fixpoint await (keys q : list Z) : option (Z * list Z * list Z) :=
  match q with
  | c :: q => Some (c, keys, q)
  | [] => match keys with [] => None | k :: keys => await keys (deposit k []) end
  end.
Lemma await_waiting keys c q : await keys (c :: q) = Some (c, keys, q).
Proof. by destruct keys. Qed.
Fixpoint kb_spec (os : list kb_op) (keys q : list Z) : option (list Z * list Z * list Z) :=
  match os with
  | [] => Some ([], keys, q)
  | Key :: os => match keys with [] => None | k :: keys => kb_spec os keys (deposit k q) end
  | Getc :: os => '(c, keys, q) ← await keys q; '(out, keys, q) ← kb_spec os keys q; Some (c :: out, keys, q)
  end.

Section typing.
Context {W : Type} `{HasRing W} `{Hardware} `{!KeyboardEnv W} `{!QuietWake W}.
Context (k0 : ctl) (all : list Z) (patience fuel : nat) `{!Typing k0 all patience} (Hfuel : (patience < fuel)%nat).
Implicit Types (s : irq_state W).

(** The port is enabled and [n] keys were read. *)
Definition at_key (tr : list io) (n : nat) : Prop := answers (ctl_of k0 tr) = [] /\ scanned (ctl_of k0 tr) = Some n.

Lemma at_key_looks tr tr' n : at_key tr n -> reads_only PS2_STATUS_COMMAND_PORT tr' -> at_key (tr ++ tr') n.
Proof. intros [Ha Hn] Hr. destruct (looks_quiet k0 tr tr' Hr) as [E _]. unfold at_key. by rewrite E. Qed.
Lemma at_key_other tr tr' n : at_key tr n -> Forall (fun e => ~ kbd_access e) tr' -> at_key (tr ++ tr') n.
Proof. intros [Ha Hn] Hq. unfold at_key. by rewrite ctl_of_other. Qed.

Lemma key_block_ret tr n : at_key tr n ->
  exists tr', ps2_read_data_block fuel tr = Ret (nth n all 0) tr' /\ at_key tr' (S n).
Proof.
  intros Hat. unfold ps2_read_data_block, ps2_read_data, ps2_get_status. set (v := u8 (hw tr PS2_STATUS_COMMAND_PORT)).
  set (tr1 := tr ++ [Inb PS2_STATUS_COMMAND_PORT v]).
  assert (Hin : inb PS2_STATUS_COMMAND_PORT tr = Ret v tr1) by done. rewrite <- bind_assoc, (bind_ret _ _ _ _ _ Hin).
  assert (Hl : looks PS2_STATUS_COMMAND_PORT tr1 = S (looks PS2_STATUS_COMMAND_PORT tr)) by apply looks_snoc.
  assert (Hkeep : forall tr v, at_key tr n -> at_key (tr ++ [Inb PS2_STATUS_COMMAND_PORT v]) n).
  { intros tr' v' Hat'. apply at_key_looks; [done|]. repeat constructor. by exists v'. }
  assert (Hready : forall tr, at_key tr n -> (patience <= looks PS2_STATUS_COMMAND_PORT tr)%nat ->
    output_status (u8 (hw tr PS2_STATUS_COMMAND_PORT)) = true) by (intros tr' [Ha Hn]; by apply (ty_ready tr' n)).
  destruct (wait_output_ready (fun tr => at_key tr n) patience fuel Hkeep Hready v PS2_READ_DATA_NO_TIMEOUT tr1)
    as (tr2 & t & E & Ht & Hr); [by apply Hkeep|intros Hlt; apply Hready; [done|lia]|lia|by left|done|].
  assert (Hat2 : at_key (tr1 ++ tr2) n) by (apply at_key_looks; [by apply Hkeep|done]).
  rewrite <- bind_assoc, (bind_ret _ _ _ _ _ E), (proj2 (Z.eqb_neq t 0) Ht). cbn [negb]. destruct Hat2 as [Ha Hn].
  exists ((tr1 ++ tr2) ++ [Inb PS2_DATA_PORT (nth n all 0)]). split.
  - unfold inb. unfold mbind, M_bind. by rewrite (ty_key (tr1 ++ tr2) n Ha Hn).
  - unfold at_key. rewrite ctl_of_app. cbn. unfold ctl_read. by rewrite Ha, Hn.
Qed.

Lemma at_key_eoi tr n : at_key tr n -> at_key (tr ++ [Outb PIC2_COMMAND PIC_EOI; Outb PIC1_COMMAND PIC_EOI]) n.
Proof. clear Hfuel. intros Hat. apply at_key_other; [done|]. repeat constructor; cbn; unfold PIC2_COMMAND, PIC1_COMMAND, PS2_DATA_PORT, PS2_STATUS_COMMAND_PORT; lia. Qed.

(** [q] waits in the ring, [keys] are yet to come. *)
Definition typing s (keys q : list Z) : Prop :=
  waiting s q /\ Forall (fun c => 0 <= c < 128) q /\ exists n, at_key (ports s) n /\ drop n all = keys.

Lemma next_key n k keys : drop n all = k :: keys -> nth n all 0 = k /\ drop (S n) all = keys.
Proof.
  intros Hd. split.
  - rewrite <- (Nat.add_0_r n), <- nth_skipn. change (nth 0 (drop n all) 0 = k). by rewrite Hd.
  - rewrite <- (Nat.add_1_r n), <- drop_drop, Hd. done.
Qed.

(** The handler puts the chars of the key into the ring. *)
Lemma deposit_ret s q k : waiting s q -> Forall (fun c => 0 <= c < 128) q ->
  exists s', (if k =? keycode KEYCODE_ENTER_PRESSED then
                _ ← ringop (ring_producer_add_char 10); mret tt
              else
                let c := scan_code_to_char k in
                if negb (c =? 0) then _ ← ringop (ring_producer_add_char c); mret tt else mret tt) s = Ret tt s' /\
    only_chars s s' /\ waiting s' (deposit k q) /\ Forall (fun c => 0 <= c < 128) (deposit k q).
Proof.
  clear Hfuel. intros [Hr Hc] Ha. destruct (typed_ascii k) as [Hk _].
  assert (Hd : Forall (fun c => 0 <= c < 128) (deposit k q)).
  { unfold deposit. destruct (_ <? _)%nat; [by apply Forall_app|done]. }
  assert (Hd8 : Forall is_char8 (deposit k q)).
  { eapply Forall_impl; [exact Hd|]. intros c Hc'. cbv beta in Hc'. unfold is_char8, in_range. lia. }
  assert (Hadd : forall c, typed k = [c] -> exists s', (_ ← ringop (ring_producer_add_char c); mret tt) s = Ret tt s' /\
    only_chars s s' /\ waiting s' (deposit k q)).
  { intros c Hkc. destruct (ring_add_spec (ring (world s)) q c Hr) as (r & E & Hr' & Hb).
    rewrite (bind_ret _ _ _ _ _ (ringop_ret _ s _ r E)). eexists. split; [reflexivity|]. split; [by exists r|].
    apply waiting_set; [|done]. unfold deposit. by rewrite Hkc. }
  cbv zeta. destruct (k =? keycode KEYCODE_ENTER_PRESSED) eqn:Ee.
  { destruct (Hadd 10) as (s' & E & Hp & Hw); [unfold typed; by rewrite Ee|]. by exists s'. }
  destruct (scan_code_to_char k =? 0) eqn:Ez; cbn [negb].
  - exists s. split; [done|]. split; [apply only_chars_refl|]. split; [|done].
    unfold deposit, typed. rewrite Ee, Ez, app_nil_r. by destruct (_ <? _)%nat.
  - destruct (Hadd (scan_code_to_char k)) as (s' & E & Hp & Hw); [unfold typed; by rewrite Ee, Ez|]. by exists s'.
Qed.

(** One interrupt. *)
Lemma irq_ret s k keys q : typing s (k :: keys) q ->
  exists s', ps2_irq_handler fuel PS2_INTERRUPT_NUM s = Ret tt s' /\ typing s' keys (deposit k q).
Proof.
  intros (Hw & Ha & n & Hat & Hd). destruct (next_key n k keys Hd) as [Hkey Hd']. destruct (key_block_ret (ports s) n Hat) as (tr & E & Hn).
  unfold ps2_irq_handler. rewrite Hkey in E. rewrite (bind_ret _ _ _ _ _ (zoom_ret ports set_ports _ _ _ _ E)). set (s1 := set_ports tr s).
  destruct (deposit_ret s1 q k Hw Ha) as (s2 & E2 & Hoc & Hw2 & Ha2). rewrite (bind_ret _ _ _ _ _ E2).
  assert (P2 : ports s2 = tr) by (by destruct Hoc as (? & -> & _)).
  assert (E3 : ringop (gets id) s2 = Ret (ring (world s2)) (set_world (set_ring (ring (world s2)) (world s2)) s2)) by done.
  rewrite (bind_ret _ _ _ _ _ E3). set (s3 := set_world _ s2). assert (R3 : ring (world s3) = ring (world s2)) by apply ring_set.
  destruct (wake_quiet (blocked (ring (world s2))) s3) as (s4 & E4 & R4 & P4). rewrite (bind_ret _ _ _ _ _ E4).
  eexists. split; [apply (zoom_ret ports set_ports), PIC_sendEOI_vector; done|].
  assert (P : ports s4 = tr) by (rewrite P4; exact P2).
  split; [|split; [exact Ha2|]].
  - destruct Hw2 as [Hr2 Hc2]. split; [|exact Hc2]. cbn [world set_ports]. by rewrite R4, R3.
  - exists (S n). split; [|done]. cbn [ports set_ports]. rewrite P. by apply at_key_eoi.
Qed.

(** A char that waits is taken at once. *)
Lemma take_ret s keys c q wakes : typing s keys (c :: q) ->
  exists s', block_next_loop wakes s = Ret c s' /\ typing s' keys q /\ 0 <= c < 128 /\ only_chars s s'.
Proof.
  intros ([Hr Hc] & Ha & Hk). apply Forall_cons in Hc as [_ Hc]. apply Forall_cons in Ha as [Hc0 Ha].
  assert (E : ringop (gets id) s = Ret (ring (world s)) (set_world (set_ring (ring (world s)) (world s)) s)) by done.
  set (s1 := set_world _ s) in E. assert (R1 : ring (world s1) = ring (world s)) by apply ring_set.
  destruct (take_char_ret (ring (world s1)) c q) as (r & Et & Hr' & Hb & _); [by rewrite R1|].
  exists (set_world (set_ring r (world s1)) s1). split; [|split; [|split; [exact Hc0|]]].
  - transitivity (ringop take_char s1); [|by apply ringop_ret]. 
    pose proof (rep_empty _ _ Hr) as He. rewrite bool_decide_false in He by done.
    destruct wakes; cbn [block_next_loop]; by rewrite (bind_ret _ _ _ _ _ E), He.
  - split; [by apply waiting_set|done].
  - apply (only_chars_trans s s1); [|by exists r]. subst s1. exists (ring (world s)). by split.
Qed.

(** Waiting for a char. *)
Lemma await_ret n : forall s keys q c keys' q', typing s keys q -> (length keys <= n)%nat -> await keys q = Some (c, keys', q') ->
  exists s', block_next_loop (replicate n (ps2_irq_handler fuel PS2_INTERRUPT_NUM)) s = Ret c s' /\ typing s' keys' q' /\
    0 <= c < 128 /\ (length keys' <= length keys)%nat.
Proof.
  induction n as [|n IH]; intros s keys q c keys' q' Ht Hn Ha.
  - destruct q as [|c0 q]; [by destruct keys; [|cbn in Hn; lia]|]. rewrite await_waiting in Ha. injection Ha as <- <- <-.
    destruct (take_ret s keys c0 q [] Ht) as (s' & E & Ht' & Hc & _). by exists s'.
  - destruct q as [|c0 q].
    + destruct keys as [|k keys]; [done|]. cbn [await length replicate block_next_loop] in *. destruct Ht as ([Hr Hc] & Ha' & Hk).
      assert (E : ringop (gets id) s = Ret (ring (world s)) (set_world (set_ring (ring (world s)) (world s)) s)) by done.
      set (s1 := set_world _ s) in E. rewrite (bind_ret _ _ _ _ _ E), (rep_empty _ _ Hr), bool_decide_true by done.
      destruct (irq_ret s1 k keys []) as (s2 & E2 & Ht2). { split; [by apply waiting_set|done]. }
      rewrite (bind_ret _ _ _ _ _ E2). unfold CLI. rewrite bind_modify.
      destruct (IH (set_ints false s2) keys (deposit k []) c keys' q' Ht2 ltac:(lia) Ha) as (s' & E' & Ht' & Hc' & Hl).
      exists s'. split; [done|]. split; [done|]. split; [done|lia].
    + rewrite await_waiting in Ha. injection Ha as <- <- <-. destruct (take_ret s keys c0 q (replicate (S n) (ps2_irq_handler fuel PS2_INTERRUPT_NUM)) Ht) as (s' & E & Ht' & Hc & _).
      by exists s'.
Qed.

Lemma getc_ret n s keys q c keys' q' : typing s keys q -> (length keys <= n)%nat -> await keys q = Some (c, keys', q') ->
  exists s', getc (replicate n (ps2_irq_handler fuel PS2_INTERRUPT_NUM)) s = Ret c s' /\ typing s' keys' q' /\ (length keys' <= length keys)%nat.
Proof.
  intros Ht Hn Ha. destruct (await_ret n (set_ints false s) keys q c keys' q' Ht Hn Ha) as (s' & E & Ht' & Hc & Hl).
  exists (set_ints true s'). split; [|by split]. unfold getc, ring_block_next, CLI, STI. rewrite <- bind_assoc, bind_modify.
  rewrite <- bind_assoc, (bind_ret _ _ _ _ _ E). rewrite <- bind_assoc, bind_modify. rewrite bind_mret. unfold mret, M_ret. f_equal.
  unfold sint. rewrite wrap_small by (unfold in_range; lia). by rewrite (proj2 (Z.ltb_lt _ _)) by (change (2 ^ (8 - 1)) with 128; lia).
Qed.
End typing.

(** What the lists say: chars come out in the order of the keys. *)
Lemma await_text keys : forall q c keys' q', await keys q = Some (c, keys', q') ->
  exists used, keys = used ++ keys' /\ c :: q' = q ++ text used.
Proof.
  induction keys as [|k keys IH]; intros [|c0 q] c keys' q'; cbn [await]; try done.
  - intros [= <- <- <-]. exists []. cbn. by rewrite app_nil_r.
  - intros Ha. destruct (IH _ _ _ _ Ha) as (used & -> & E). exists (k :: used). split; [done|]. rewrite E. cbn. done.
  - intros [= <- <- <-]. exists []. cbn. by rewrite app_nil_r.
Qed.

Lemma deposit_sublist k q : deposit k q `sublist_of` q ++ typed k.
Proof. unfold deposit. destruct (_ <? _)%nat; [done|]. by apply sublist_inserts_r. Qed.

Lemma kb_spec_text os : forall keys q out keys' q', kb_spec os keys q = Some (out, keys', q') ->
  exists used, keys = used ++ keys' /\ out ++ q' `sublist_of` q ++ text used /\
    (Forall (eq Getc) os -> out ++ q' = q ++ text used).
Proof.
  induction os as [|[|] os IH]; intros keys q out keys' q'; cbn [kb_spec].
  - intros [= <- <- <-]. exists []. cbn. by rewrite app_nil_r.
  - destruct keys as [|k keys]; [done|]. intros Hs. destruct (IH _ _ _ _ _ Hs) as (used & -> & Hsub & _).
    exists (k :: used). split; [done|]. split; [|by intros [? _]%Forall_cons].
    change (text (k :: used)) with (typed k ++ text used). rewrite app_assoc. etrans; [exact Hsub|].
    apply sublist_app; [apply deposit_sublist|done].
  - intros Hs. destruct (await keys q) as [[[c keys1] q1]|] eqn:Ea; [|done]. cbn in Hs.
    destruct (kb_spec os keys1 q1) as [[[out1 keys2] q2]|] eqn:Es; [|done]. injection Hs as <- <- <-.
    destruct (await_text _ _ _ _ _ Ea) as (u1 & -> & E1). destruct (IH _ _ _ _ _ Es) as (u2 & -> & Hsub & Heq).
    exists (u1 ++ u2). split; [by rewrite app_assoc|].
    assert (Et : q ++ text (u1 ++ u2) = c :: q1 ++ text u2).
    { unfold text. rewrite fmap_app, concat_app, app_assoc. fold (text u1). by rewrite <- E1. }
    rewrite Et. cbn [app]. split; [apply sublist_skip; exact Hsub|]. intros [_ Hg]%Forall_cons. cbn. by rewrite Heq.
Qed.

Section keyboard_claim.
Context {W : Type} `{HasRing W} `{Hardware} `{!KeyboardEnv W} `{!QuietWake W}.
Context (k0 : ctl) (all : list Z) (patience fuel : nat) `{!Typing k0 all patience} (Hfuel : (patience < fuel)%nat).

(** C19: for any sequence of keyboard interrupts and reads in which every read is followed
    by a key it can wait for, the reads return what the lists say: the chars of the
    keys in the order they were pressed; those of keys pressed while 15 chars wait are
    lost, and when every interrupt finds a thread waiting in [getc] none is. *)
Theorem keyboard_refines n os s keys q out keys' q' : typing k0 all s keys q -> (length keys <= n)%nat ->
  kb_spec os keys q = Some (out, keys', q') ->
  (exists s', run_kbs fuel n os s = Ret out s' /\ typing k0 all s' keys' q') /\
  exists used, keys = used ++ keys' /\ out ++ q' `sublist_of` q ++ text used /\
    (Forall (eq Getc) os -> out ++ q' = q ++ text used).
Proof.
  intros Ht Hn Hs. split; [|by eapply kb_spec_text].
  revert s keys q out Ht Hn Hs. induction os as [|[|] os IH]; intros s keys q out Ht Hn Hs; cbn [kb_spec run_kbs run_kb] in *.
  - injection Hs as <- <- <-. by exists s.
  - destruct keys as [|k keys]; [done|]. destruct (irq_ret k0 all patience fuel Hfuel s k keys q Ht) as (s1 & E1 & Ht1).
    destruct (IH s1 keys _ out Ht1 ltac:(cbn in Hn; lia) Hs) as (s2 & E2 & Ht2). exists s2.
    rewrite <- bind_assoc, (bind_ret _ _ _ _ _ E1), bind_mret, (bind_ret _ _ _ _ _ E2). done.
  - destruct (await keys q) as [[[c keys1] q1]|] eqn:Ea; [|done]. cbn in Hs.
    destruct (kb_spec os keys1 q1) as [[[out1 keys2] q2]|] eqn:Es; [|done]. injection Hs as <- <- <-.
    destruct (getc_ret k0 all patience fuel Hfuel n s keys q c keys1 q1 Ht Hn Ea) as (s1 & E1 & Ht1 & Hl).
    destruct (IH s1 keys1 q1 out1 Ht1 ltac:(lia) Es) as (s2 & E2 & Ht2). exists s2.
    rewrite <- bind_assoc, (bind_ret _ _ _ _ _ E1), bind_mret, (bind_ret _ _ _ _ _ E2). done.
Qed.

End keyboard_claim.

(** ** A keyboard, for the witnesses

    A controller as documented, at which someone types [keys]; the other ports are
    those of [other]. *)

Section device.
Context (k0 : ctl) (keys : list Z) (other : Hardware).

Definition kbd_device : Hardware := fun tr port =>
  let k := ctl_of k0 tr in
  if port =? PS2_STATUS_COMMAND_PORT then match answers k, scanned k with [], None => 0 | _, _ => 1 end
  else if port =? PS2_DATA_PORT then
    match answers k, scanned k with c :: _, _ => c | [], Some n => nth n keys 0 | [], None => 0 end
  else other tr port.

Definition ctl_bytes (k : ctl) : Prop := Forall is_char8 (answers k) /\ is_char8 (config k).

Lemma observe_bytes k e : ctl_bytes k -> ctl_bytes (observe k e).
Proof.
  destruct k as [l c x o]. intros [Hl Hc]. cbn [answers config] in *.
  assert (Hf : forall lo b, 0 <= lo < 8 -> is_char8 (set_flag lo b c)) by (intros; by apply set_flag_byte).
  assert (Ha : forall l', Forall is_char8 l' -> Forall is_char8 (l ++ l')) by (intros; by apply Forall_app).
  assert (Hb : forall b, 0 <= b < 256 -> is_char8 b) by (intros b Hb; exact Hb).
  destruct e as [p v|p v|p v|p v]; cbn [observe]; try by split.
  - destruct (p =? PS2_DATA_PORT); [|by split]. split; [|done]. cbn. destruct Hl; [constructor|done].
  - unfold ctl_command, ctl_data, set_first_port_clock. cbn [answers config expects].
    repeat match goal with |- context [if ?b then _ else _] => destruct b end; split; cbn [answers config];
      first [done | apply Hf; lia | apply (wrap_range 8); lia | apply Ha; repeat constructor; first [done | apply Hb; done]].
Qed.

Context (Hk0 : ctl_bytes k0) (Hkeys : Forall (in_range 8) keys).

Lemma ctl_of_bytes tr : ctl_bytes (ctl_of k0 tr).
Proof.
  induction tr as [|e tr IH] using rev_ind; [done|]. unfold ctl_of in *. rewrite fold_left_app. by apply observe_bytes.
Qed.

Lemma device_good : @GoodController kbd_device k0 0.
Proof.
  split; unfold hw, kbd_device.
  - intros tr _. rewrite Z.eqb_refl. by destruct (answers (ctl_of k0 tr)), (scanned (ctl_of k0 tr)).
  - intros tr Ha _. rewrite Z.eqb_refl. by destruct (answers (ctl_of k0 tr)).
  - intros tr Ha Ho. by rewrite Z.eqb_refl, Ha, Ho.
  - intros tr c l Ha. cbn [Z.eqb PS2_DATA_PORT PS2_STATUS_COMMAND_PORT Pos.eqb]. rewrite Ha.
    destruct (ctl_of_bytes tr) as [Hb _]. rewrite Ha in Hb. apply Forall_cons_1 in Hb as [Hb _]. by apply (wrap_small 8).
Qed.

Lemma device_types : @Typing kbd_device k0 keys 0.
Proof.
  split; unfold hw, kbd_device.
  - intros tr n Ha Hn _. by rewrite Z.eqb_refl, Ha, Hn.
  - intros tr n Ha Hn. cbn [Z.eqb PS2_DATA_PORT PS2_STATUS_COMMAND_PORT Pos.eqb]. rewrite Ha, Hn. apply (wrap_small 8).
    destruct (nth_in_or_default n keys 0) as [Hin | ->]; [|done].
    rewrite Forall_forall in Hkeys. by apply Hkeys, list_elem_of_In.
Qed.
End device.

Module Ps2Demo.
Import RingDemo.
#[export] Instance demo_env : KeyboardEnv RingBuffer :=
  {| unblock_all := fun _ => mret tt; keyboard_queue := 0x5000; ps2_irq_handler_addr := 0x101000 |}.

(** At power on it has a byte to flush; later the port is enabled. *)
Definition at_power_on : ctl := mkCtl [0x1C] 0x45 false None.
Definition enabled : ctl := mkCtl [] 0x61 false (Some 0%nat).
(** "hi" and enter, with a press and a release for each key. *)
Definition keys_hi : list Z := [0x23; 0xA3; 0x17; 0x97; 0x1C; 0x9C].
Lemma keys_hi_bytes : Forall (in_range 8) keys_hi.
Proof. repeat constructor; unfold in_range; lia. Qed.

Definition demo_controller : Hardware := kbd_device at_power_on keys_hi (fun _ _ => 0xff).
#[export] Instance demo_good : @GoodController demo_controller at_power_on 0.
Proof. apply device_good. by split; [apply Forall_singleton|]. Qed.
Definition demo_typing : Hardware := kbd_device enabled keys_hi (fun _ _ => 0xff).
#[export] Instance demo_types : @Typing demo_typing enabled keys_hi 0.
Proof. apply device_types, keys_hi_bytes. Qed.
#[export] Instance demo_wake : QuietWake RingBuffer.
Proof. intros q s. by exists s. Qed.
End Ps2Demo.

Import RingDemo Ps2Demo.

Lemma keyboard_initialized_witness :
  exists s' cfg', @ps2_initialize RingBuffer _ demo_controller _ (Z.to_nat 20000) [7; 7; 7; 7] ring0 = Ret tt s' /\
    ctl_of at_power_on (ports s') = mkCtl [] cfg' false (Some 0%nat) /\
    get_flag 0 cfg' = true /\ get_flag 4 cfg' = false /\ get_flag 6 cfg' = false /\ get_flag 5 cfg' = true /\
    get_flag 1 cfg' = get_flag 1 0x45 /\ get_flag 2 cfg' = get_flag 2 0x45 /\
    waiting s' [] /\ blocked (ring (world s')) = keyboard_queue /\
    @set_up RingBuffer _ _ ring0 s' /\
    Z.testbit (last_out PIC1_DATA 0 (ports s')) IRQ1 = false.
Proof.
  assert (Hf : (0 < Z.to_nat 20000)%nat) by lia.
  apply (@keyboard_initialized RingBuffer _ demo_controller _ at_power_on 0 (Z.to_nat 20000) demo_good Hf ring0 [7; 7; 7; 7] [0x1C] 0x45 None).
  - split; [done|]. rewrite Z2Nat.id; done.
  - reflexivity.
  - right. split; reflexivity.
  - split; lia.
  - cbn. lia.
  - reflexivity.
Defined.

Lemma ps2_read_data_timeout_witness :
  exists r tr', @ps2_read_data demo_controller 10 (Z.of_nat 3) [] = Ret r ([] ++ tr') /\ (length tr' <= 3 + 2)%nat /\
    (match r with Some _ => true | None => false end) = @arrives demo_controller 3 [] /\
    (forall b, r = Some b -> in_range 8 b /\ last tr' = Some (Inb PS2_DATA_PORT b)) /\
    (r = None -> reads_only PS2_STATUS_COMMAND_PORT tr').
Proof. apply (@ps2_read_data_timeout demo_controller 3 10 []). lia. Defined.

Lemma keyboard_refines_witness :
  (exists s', @run_kbs RingBuffer _ demo_typing _ 1 6 [Key; Getc; Key; Getc; Getc] ring0 = Ret [104; 105; 10] s' /\
     typing enabled keys_hi s' [0x9C] []) /\
  exists used, keys_hi = used ++ [0x9C] /\ [104; 105; 10] ++ [] `sublist_of` [] ++ text used /\
    (Forall (eq Getc) [Key; Getc; Key; Getc; Getc] -> [104; 105; 10] ++ [] = [] ++ text used).
Proof.
  apply (@keyboard_refines RingBuffer _ demo_typing _ _ enabled keys_hi 0 1 _ ltac:(lia) 6 [Key; Getc; Key; Getc; Getc] ring0 keys_hi []).
  - split; [exact ring0_waiting|]. split; [constructor|]. by exists 0%nat.
  - cbn. lia.
  - vm_compute. reflexivity.
Defined.
