(* ===== verification/Echo.v ===== *)
(** * Echo: the keyboard's thread (keyboard_io of src/src/kmain.c)

    The thread initializes the keyboard and then prints every char it reads. It puts the
    keyboard of Ps2.v and the console of Printk.v together, on any machine that has both
    ([HasConsole]) and on which a blocked reader is woken by the keyboard ([Reader]): here
    one on which waiting is nothing but interrupts, in KeyboardWait.v the whole kernel. *)

From S2P Require Import Prelude RingBuffer Ports Interrupts RingDev Vga Serial Printk Keycodes Ps2.

(** ** The machine *)

(** A world with the keyboard's ring and a console. *)
Class HasConsole (W : Type) `{HasRing W} := {
  con : W -> console; set_con : console -> W -> W;
  con_set : forall c w, con (set_con c w) = c;
  ring_set_con : forall c w, ring (set_con c w) = ring w;
  con_set_ring : forall r w, con (set_ring r w) = con w }.

(** The same machine around another world. *)
Definition around {W W'} (w : W') (s : irq_state W) : irq_state W' :=
  mkIrq (table s) (top s) (kernel_desc_offset s) (idt s) (irq_table s) (tss s)
    (cpu_gdtr s) (cpu_idtr s) (cpu_tr s) (ints s) (ports s) (printed s) w.

Section console_of.
Context {W : Type} `{HasConsole W}.
Definition console_of (s : irq_state W) : irq_state console := around (con (world s)) s.
Definition put_console (c : irq_state console) (s : irq_state W) : irq_state W :=
  around (set_con (world c) (world s)) c.
Definition conop {A} (m : M (irq_state console) A) : M (irq_state W) A := zoom console_of put_console m.
End console_of.

(** ** [keyboard_io]

    [rounds] are the turns of the endless loop; [wakes] is what may happen while the
    thread waits in a turn. *)

Section thread.
Context {W : Type} `{HasConsole W} `{Hardware} `{!KeyboardEnv W}.
Abbreviation K := (M (irq_state W)).

Fixpoint echo_loop (rounds : nat) (wakes : list (K unit)) : K unit :=
  match rounds with
  | O => mret tt
  | S rounds =>
      c ← getc wakes;
      _ ← conop (kernel_printk [37; 99] [VInt c]);
      echo_loop rounds wakes
  end.

Definition keyboard_io (fuel : nat) (stack : list Z) (rounds : nat) (wakes : list (K unit)) : K unit :=
  ps2_initialize fuel stack ;;
  echo_loop rounds wakes.

(** ** What reading leaves alone

    Nothing is sent over the line, and the console is as it was. *)

Definition mute {A} (m : M (list io) A) : Prop :=
  forall tr a tr', m tr = Ret a tr' -> sent_on COM1 tr' = sent_on COM1 tr.

Lemma mute_bind {A B} (m : M (list io) A) (k : A -> M (list io) B) : mute m -> (forall a, mute (k a)) -> mute (m ≫= k).
Proof. intros Hm Hk tr b tr' (a & tr1 & E1 & E2)%bind_Ret_inv. by rewrite (Hk a _ _ _ E2), (Hm _ _ _ E1). Qed.
Lemma mute_ret {A} (a : A) : mute (mret a).
Proof. by intros tr b tr' [= _ ->]. Qed.
Lemma mute_inb p : mute (inb p).
Proof. intros tr v tr' [= _ <-]. rewrite sent_on_app. cbn. by rewrite app_nil_r. Qed.
Lemma mute_outb p v : p <> COM1 -> mute (outb p v).
Proof. intros Hp tr a tr' [= _ <-]. rewrite sent_on_app. cbn. by rewrite (proj2 (Z.eqb_neq p COM1) Hp), app_nil_r. Qed.

Lemma mute_wait fuel : forall status timeout, mute (wait_output fuel status timeout).
Proof.
  induction fuel as [|fuel IH]; intros status timeout; cbn [wait_output]; destruct (_ && _); try apply mute_ret; [done|].
  apply mute_bind; [apply mute_inb|]. intros v. apply IH.
Qed.

Lemma mute_read_block fuel : mute (ps2_read_data_block fuel).
Proof.
  apply mute_bind; [|intros [d|]; [apply mute_ret|done]].
  apply mute_bind; [apply mute_inb|intros status]. apply mute_bind; [apply mute_wait|intros t].
  destruct (negb _); [|apply mute_ret]. apply mute_bind; [apply mute_inb|intros v; apply mute_ret].
Qed.

Definition apart {A} (m : K A) : Prop :=
  forall s a s', m s = Ret a s' -> con (world s') = con (world s) /\ sent_on COM1 (ports s') = sent_on COM1 (ports s).

Lemma apart_bind {A B} (m : K A) (k : A -> K B) : apart m -> (forall a, apart (k a)) -> apart (m ≫= k).
Proof.
  intros Hm Hk s b s' (a & s1 & E1 & E2)%bind_Ret_inv. destruct (Hm _ _ _ E1) as [C1 S1], (Hk a _ _ _ E2) as [C2 S2].
  split; congruence.
Qed.
Lemma apart_ret {A} (a : A) : apart (mret a).
Proof. by intros s b s' [= _ ->]. Qed.
Lemma apart_port {A} (m : M (list io) A) : mute m -> apart (portop m).
Proof.
  intros Hm s a s'. unfold portop, zoom. destruct (m (ports s)) as [b tr| | |] eqn:E; [|done..].
  intros [= <- <-]. split; [done|]. cbn. by apply Hm in E.
Qed.
Lemma apart_ring {A} (m : M RingBuffer A) : apart (ringop m).
Proof. intros s a s'. unfold ringop, zoom. destruct (m _); [|done..]. intros [= <- <-]. split; [apply con_set_ring|done]. Qed.
Lemma apart_ints b : apart (modify (set_ints b)).
Proof. by intros s a s' [= _ <-]. Qed.

(** The keyboard's handler, when waking a thread prints nothing. *)
Lemma apart_irq fuel num : (forall q, apart (unblock_all q)) -> apart (ps2_irq_handler fuel num).
Proof.
  intros Hwake. assert (Hadd : forall c, apart (_ ← ringop (ring_producer_add_char c); mret tt : K unit))
    by (intros c; apply apart_bind; [apply apart_ring|intros ?; apply apart_ret]).
  apply apart_bind; [apply apart_port, mute_read_block|intros code].
  apply apart_bind; [|intros _; apply apart_bind; [apply apart_ring|intros r; apply apart_bind; [apply Hwake|intros _]]].
  - destruct (_ =? _); [apply Hadd|]. cbv zeta. destruct (negb _); [apply Hadd|apply apart_ret].
  - apply apart_port. unfold PIC_sendEOI. destruct (_ >=? _); [|by apply mute_outb].
    apply mute_bind; [by apply mute_outb|intros _; by apply mute_outb].
Qed.

Lemma apart_getc n (wake : K unit) : apart wake -> apart (getc (replicate n wake)).
Proof.
  intros Hw. apply apart_bind; [|intros c; apply apart_ret]. apply apart_bind; [apply apart_ints|intros _].
  apply apart_bind; [|intros c; apply apart_bind; [apply apart_ints|intros _; apply apart_ret]].
  induction n as [|n IH]; cbn [replicate block_next_loop]; (apply apart_bind; [apply apart_ring|intros r]);
    destruct (_ =? _); try apply apart_ring; [done|].
  apply apart_bind; [exact Hw|intros _]. apply apart_bind; [apply apart_ints|intros _; exact IH].
Qed.

End thread.

(** ** Readers

    What the loop relies on: [rd_state s keys q] says that keys [keys] are to come and
    chars [q] wait in the ring; [getc] takes the next char, each [wake] being a key that
    comes while the thread waits, and leaves the console alone; and printing does not get
    in the way. *)
Class Reader (W : Type) `{HasConsole W} `{Hardware} `{!KeyboardEnv W} (wake : M (irq_state W) unit) := {
  rd_state : irq_state W -> list Z -> list Z -> Prop;
  rd_getc : forall n s keys q c keys' q', rd_state s keys q -> (length keys <= n)%nat ->
    await keys q = Some (c, keys', q') ->
    exists s', getc (replicate n wake) s = Ret c s' /\ rd_state s' keys' q' /\ (length keys' <= length keys)%nat /\
      con (world s') = con (world s) /\ sent_on COM1 (ports s') = sent_on COM1 (ports s);
  rd_print : forall s s1 keys q, rd_state s keys q -> irq_table s1 = irq_table s -> ints s1 = ints s ->
    (exists tr, ports s1 = ports s ++ tr /\ Forall line_access tr) -> rd_state (put_console s1 s) keys q }.

Section echo.
Context {W : Type} `{HasConsole W} `{Hardware} `{!KeyboardEnv W} (wake : M (irq_state W) unit) `{!Reader W wake}.

(** Keys [keys] are to come and [q] waits to be read; the screen shows [t], and [ql] waits
    for the line. *)
Record at_desk (s : irq_state W) (keys q : list Z) (t : term) (ql : list Z) : Prop := {
  ad_reads : rd_state s keys q;
  ad_console : con_shows (console_of s) t ql;
  ad_plain : Forall Printk.plain_char q }.

Lemma typed_plain k : Forall Printk.plain_char (typed k).
Proof.
  unfold typed, Printk.plain_char, in_range. destruct (_ =? _); [by apply Forall_singleton|].
  pose proof (scan_code_plain k) as Hp. unfold Keycodes.plain_char in Hp.
  destruct (scan_code_to_char k =? 0); [constructor|]. apply Forall_singleton. lia.
Qed.

Lemma text_plain keys : Forall Printk.plain_char (text keys).
Proof.
  apply Forall_concat, Forall_fmap, Forall_forall. intros k _. apply typed_plain.
Qed.

(** ** One turn *)

(** Printing a char that was read. *)
Lemma echo_char s keys q t ql c : at_desk s keys q t ql -> Printk.plain_char c ->
  exists s' ql' acc, conop (kernel_printk [37; 99] [VInt c]) s = Ret 1 s' /\ at_desk s' keys q (tput t c) ql' /\
    sent_on COM1 (ports s') ++ ql' = sent_on COM1 (ports s) ++ ql ++ acc /\ acc `sublist_of` [c].
Proof.
  intros [Hrd Hcon Hq] [Hc8 H13].
  destruct (printk_console [Chr c] (console_of s) t ql Hcon) as (outs & s1 & Hos & E & ql' & acc & Hs1 & Hints & Hsent & Hsub & Htab & Htr);
    [by apply Forall_singleton..|].
  apply Forall2_cons_inv_l in Hos as (o & outs' & -> & ->%Forall2_nil_inv_l & ->).
  cbn in E, Hsub, Hs1. exists (put_console s1 s), ql', acc. split; [by apply (zoom_ret console_of put_console)|].
  split; [|split; [exact Hsent|exact Hsub]]. split; [by apply rd_print| |done].
  destruct Hs1 as [Hv [Hr Hc]]. split; [|split; [|done]]; cbn [console_of put_console around world] in *; by rewrite con_set.
Qed.

(** Reading a char leaves the console as it is. *)
Lemma read_char n s keys q t ql c keys' q' : at_desk s keys q t ql -> (length keys <= n)%nat -> await keys q = Some (c, keys', q') ->
  exists s', getc (replicate n wake) s = Ret c s' /\ at_desk s' keys' q' t ql /\
    Printk.plain_char c /\ (length keys' <= length keys)%nat /\ sent_on COM1 (ports s') = sent_on COM1 (ports s).
Proof.
  intros [Hrd [Hv Hw] Hq] Hn Ha.
  destruct (rd_getc n s keys q c keys' q' Hrd Hn Ha) as (s' & E & Hrd' & Hl & Ec & Es).
  destruct (await_text _ _ _ _ _ Ha) as (used & _ & Eq).
  assert (Hp : Forall Printk.plain_char (c :: q')) by (rewrite Eq; apply Forall_app; split; [done|apply text_plain]).
  apply Forall_cons in Hp as [Hpc Hpq]. exists s'. split; [done|]. split; [|done]. split; [done| |done].
  destruct Hw as [Hr Hc]. split; [cbn [world console_of around]; by rewrite Ec|]. split; [|done]. cbn in *. by rewrite Ec.
Qed.

(** ** What is typed is shown *)

Lemma echo_loop_ret rounds : forall n s keys q t ql out keys' q', at_desk s keys q t ql -> (length keys <= n)%nat ->
  kb_spec (replicate rounds Getc) keys q = Some (out, keys', q') ->
  exists s' ql' acc, echo_loop rounds (replicate n wake) s = Ret tt s' /\
    at_desk s' keys' q' (fold_left tput out t) ql' /\
    sent_on COM1 (ports s') ++ ql' = sent_on COM1 (ports s) ++ ql ++ acc /\ acc `sublist_of` out.
Proof.
  induction rounds as [|rounds IH]; intros n s keys q t ql out keys' q' Hd Hn Hs; cbn [replicate kb_spec echo_loop] in *.
  { injection Hs as <- <- <-. exists s, ql, []. by rewrite app_nil_r. }
  destruct (await keys q) as [[[c keys1] q1]|] eqn:Ea; [|done]. cbn in Hs.
  destruct (kb_spec (replicate rounds Getc) keys1 q1) as [[[out1 keys2] q2]|] eqn:Es; [|done]. injection Hs as <- <- <-.
  destruct (read_char n s keys q t ql c keys1 q1 Hd Hn Ea) as (s1 & E1 & Hd1 & Hc & Hl & Hp1).
  destruct (echo_char s1 keys1 q1 t ql c Hd1 Hc) as (s2 & ql2 & acc2 & E2 & Hd2 & Hp2 & Hsub2).
  destruct (IH n s2 keys1 q1 _ ql2 out1 keys2 q2 Hd2 ltac:(lia) Es) as (s3 & ql3 & acc3 & E3 & Hd3 & Hp3 & Hsub3).
  exists s3, ql3, (acc2 ++ acc3). rewrite (bind_ret _ _ _ _ _ E1), (bind_ret _ _ _ _ _ E2). split; [exact E3|].
  split; [exact Hd3|]. split; [|by apply (sublist_app acc2 [c])].
  rewrite Hp3, app_assoc, Hp2, Hp1. by rewrite <- !app_assoc.
Qed.

(** What the reads of the loop are on lists: one char each, none lost. *)
Lemma reads_length rounds : forall keys q out keys' q', kb_spec (replicate rounds Getc) keys q = Some (out, keys', q') ->
  length out = rounds.
Proof.
  induction rounds as [|rounds IH]; intros keys q out keys' q'; cbn [replicate kb_spec]; [by intros [= <- _ _]|].
  intros Hs. destruct (await keys q) as [[[c keys1] q1]|]; [|done]. cbn in Hs.
  destruct (kb_spec _ keys1 q1) as [[[out1 keys2] q2]|] eqn:Es; [|done]. injection Hs as <- _ _. cbn. by rewrite (IH _ _ _ _ _ Es).
Qed.
Lemma reads_text rounds keys q out keys' q' : kb_spec (replicate rounds Getc) keys q = Some (out, keys', q') ->
  exists used, keys = used ++ keys' /\ out ++ q' = q ++ text used.
Proof.
  intros Hs. destruct (kb_spec_text _ _ _ _ _ _ Hs) as (used & E & _ & Heq). exists used. split; [done|].
  by apply Heq, Forall_replicate.
Qed.

(** What is typed appears on the screen. From any state in which the keyboard is up, with
    chars [q] waiting to be read and keys [keys] to come, [rounds] turns of the thread's
    loop - each of which finds a char or waits for the keyboard until there is one -
    return, and no key is lost: the chars printed and those still waiting
    are those that waited before and then the text of the keys that were pressed,
    in order. The screen shows them as a terminal would, and the line gets them, after what
    was waiting for it, as far as its ring has room. *)
Theorem keyboard_echoes rounds n s keys q t ql out keys' q' : at_desk s keys q t ql -> (length keys <= n)%nat ->
  kb_spec (replicate rounds Getc) keys q = Some (out, keys', q') ->
  (exists s' ql' acc, echo_loop rounds (replicate n wake) s = Ret tt s' /\
     at_desk s' keys' q' (fold_left tput out t) ql' /\
     sent_on COM1 (ports s') ++ ql' = sent_on COM1 (ports s) ++ ql ++ acc /\ acc `sublist_of` out) /\
  length out = rounds /\ exists used, keys = used ++ keys' /\ out ++ q' = q ++ text used.
Proof.
  intros Hd Hn Hs. split; [by eapply echo_loop_ret|]. split.
  - by eapply reads_length.
  - by eapply reads_text.
Qed.

End echo.

(** ** A desk: waiting is nothing but interrupts of the keyboard *)

Record desk := mkDesk { dk_keys : RingBuffer; dk_con : console }.

#[export] Instance desk_ring : HasRing desk.
Proof. refine {| ring := dk_keys; set_ring r w := mkDesk r (dk_con w) |}; [done|by intros []|done]. Defined.
#[export] Instance desk_console : HasConsole desk.
Proof. by refine {| con := dk_con; set_con c w := mkDesk (dk_keys w) c |}. Defined.

(** The accesses of the line are none of the keyboard. *)
Lemma line_not_kbd tr : Forall line_access tr -> Forall (fun e => ~ kbd_access e) tr.
Proof.
  intros Ha. eapply Forall_impl; [exact Ha|]. intros [p v|p v|p v|p v]; cbn; try by auto.
  all: intros ->; unfold COM1, PS2_DATA_PORT, PS2_STATUS_COMMAND_PORT; lia.
Qed.

(** The ring's reader is at the same place after printing. *)
Lemma typing_print {W : Type} `{HasConsole W} k0 all (s : irq_state W) s1 keys q : typing k0 all s keys q ->
  (exists tr, ports s1 = ports s ++ tr /\ Forall line_access tr) -> typing k0 all (put_console s1 s) keys q.
Proof.
  intros ([Hr Hc] & Ha & n & Hk & Hd) (tr & Hp & Hla). split; [split; [|done]|split; [done|exists n; split; [|done]]].
  - cbn [world put_console around]. by rewrite ring_set_con.
  - cbn [ports put_console around]. rewrite Hp. by apply at_key_other, line_not_kbd.
Qed.

Section interrupts_only.
Context {W : Type} `{HasConsole W} `{Hardware} `{!KeyboardEnv W} `{!QuietWake W}.
Context (Hwake : forall q, apart (unblock_all (W := W) q)).
Context (k0 : ctl) (all : list Z) (patience fuel : nat) `{!Typing k0 all patience} (Hfuel : (patience < fuel)%nat).

Definition interrupt_reader : Reader W (ps2_irq_handler fuel PS2_INTERRUPT_NUM).
Proof.
  refine {| rd_state s keys q := typing k0 all s keys q |}.
  - intros n s keys q c keys' q' Ht Hn Ha. destruct (getc_ret k0 all patience fuel Hfuel n s keys q c keys' q' Ht Hn Ha) as (s' & E & Ht' & Hl).
    exists s'. split; [done|]. split; [done|]. split; [done|].
    by apply (apart_getc n _ (apart_irq fuel PS2_INTERRUPT_NUM Hwake) s c).
  - intros s s1 keys q Ht _ _ Htr. by apply typing_print.
Defined.
End interrupts_only.

(** ** An example *)

Module DeskDemo.
Import Ps2Demo.
#[export] Instance desk_env : KeyboardEnv desk :=
  {| unblock_all := fun _ => mret tt; keyboard_queue := 0x5000; ps2_irq_handler_addr := 0x101000 |}.
(** Someone types "hi" and enter, and the UART is slow. *)
#[export] Instance desk_hw : Hardware := kbd_device enabled keys_hi SerialDemo.slow_uart.
#[export] Instance desk_types : Typing enabled keys_hi 0.
Proof. apply device_types, keys_hi_bytes. Qed.
Definition desk0 : irq_state desk :=
  mkIrq [] 0 8 [] (repeat (mkEntry 0 0) 256) (mkTss [] [] 0) (mkReg 0 0) (mkReg 0 0) 0 true [] []
    (mkDesk zero_ring (mkCon zero_ring boot_vga)).

(** Three turns show "hi" in the first row and go to the next. *)
Example desk_shows_hi :
  match echo_loop 3 (replicate 6 (ps2_irq_handler 1 PS2_INTERRUPT_NUM)) desk0 with
  | Ret _ s => (take 2 (VGA_buf (con_screen (dk_con (world s)))), VGA_cursor (con_screen (dk_con (world s))))
  | _ => ([], 0)
  end = ([0x0f68; 0x0f69], 80).
Proof. vm_compute. reflexivity. Qed.
End DeskDemo.
