(* ===== verification/Ata.v ===== *)
(** * Ata: the disk driver (src/src/block_device.c, src/include/block_device.h)

    The driver over the ports and the interrupt state. A request is a block of the
    allocator holding a link; the addresses [kmalloc] hands out, the wait of
    [PROC_block_on] and [PROC_unblock_head] are parameters, which DiskWait.v gives for the
    whole kernel. The last part shows that
    on a disk without errors the driver is a block device in the sense of Disk.v, so
    that the file system of Ext2.v runs on it. *)

From S2P Require Import Prelude Ports Interrupts Disk.

(** ** State *)

(** [struct ATARequest]; [queue_head] is the head of its [block_queue]. *)
Record ATARequest := mkReq { blk_num : Z; queue_head : Z; next : Z }.

(** [struct ATABlockDevice] and the requests in memory. *)
Record ATABlockDevice := mkAta {
  dev_blk_size : Z; tot_length : Z; ata_base : Z; ata_master : Z; slave : Z; irq : Z;
  req_head : Z; req_tail : Z; reqs : gmap Z ATARequest }.
Definition set_queue h t (a : ATABlockDevice) := mkAta (dev_blk_size a) (tot_length a) (ata_base a) (ata_master a)
  (slave a) (irq a) h t (reqs a).
Definition set_reqs m (a : ATABlockDevice) := mkAta (dev_blk_size a) (tot_length a) (ata_base a) (ata_master a)
  (slave a) (irq a) (req_head a) (req_tail a) m.
Definition set_req_next n (r : ATARequest) := mkReq (blk_num r) (queue_head r) n.

(** A world with the device in it. *)
Class HasAta (W : Type) := {
  ata : W -> ATABlockDevice; set_ata : ATABlockDevice -> W -> W;
  ata_set : forall a w, ata (set_ata a w) = a }.

(** ** The queue of requests *)

Section queue.
Abbreviation Q := (M ATABlockDevice).

(** [req->...] *)
Definition get_req (p : Z) : Q ATARequest :=
  a ← gets id; match reqs a !! p with Some r => mret r | None => fault end.
Definition put_req (p : Z) (r : ATARequest) : Q unit :=
  a ← gets id; match reqs a !! p with Some _ => modify (fun a => set_reqs (<[p := r]> (reqs a)) a) | None => fault end.

Definition ata_req_queue (req : Z) : Q unit :=
  r ← get_req req;
  put_req req (set_req_next 0 r) ;;
  a ← gets id;
  if negb (req_tail a =? 0) then
    t ← get_req (req_tail a);
    put_req (req_tail a) (set_req_next req t) ;;
    modify (fun a => set_queue (req_head a) req a)
  else modify (set_queue req req).

Definition ata_req_unqueue : Q Z :=
  a ← gets id;
  if req_head a =? 0 then mret 0
  else
    let req := req_head a in
    r ← get_req req;
    modify (fun a => set_queue (next r) (req_tail a) a) ;;
    modify (fun a => if req_head a =? 0 then set_queue (req_head a) (req_head a) a else a) ;;
    put_req req (set_req_next 0 r) ;;
    mret req.

End queue.

(** ** Registers *)

Definition REG_DATA : Z := 0.
Definition REG_SEC_CNT : Z := 2.
Definition REG_SEC_NUM : Z := 3.
Definition REG_CYL_LO : Z := 4.
Definition REG_CYL_HI : Z := 5.
Definition REG_DEVSEL : Z := 6.
Definition REG_STATUS : Z := 7.
Definition REG_CMD : Z := 7.
Definition REG_ALT_STS : Z := 0.
Definition REG_DEV_CTL : Z := 0.
Definition CMD_IDENTIFY : Z := 0xEC.
Definition CMD_READ_SECTORS_EXT : Z := 0x24.
Definition STATUS_ERR : Z := Z.shiftl 1 0.
Definition STATUS_DRQ : Z := Z.shiftl 1 3.
Definition STATUS_BSY : Z := Z.shiftl 1 7.
Definition BLOCK_SIZE : Z := 512.
Definition IRQ2 : Z := 2.
Definition IRQ14 : Z := 14.

Inductive ATADevType := ATADEV_PATAPI | ATADEV_SATAPI | ATADEV_PATA | ATADEV_SATA | ATADEV_UNKNOWN.

Definition bits_set (v mask : Z) : bool := negb (Z.land v mask =? 0).

Section registers.
Context `{Hardware}.
Abbreviation I := (M (list io)).

Definition ata_soft_reset (ctl_base : Z) (interrupts : bool) : I unit :=
  outb (ctl_base + REG_DEV_CTL) 0x4 ;;
  outb (ctl_base + REG_DEV_CTL) (Z.lor 0x0 (Z.b2z (negb interrupts))).

Definition detect_devtype (slavebit base ctl_base : Z) : I ATADevType :=
  ata_soft_reset ctl_base false ;;
  outb (base + REG_DEVSEL) (Z.lor 0xA0 (Z.shiftl slavebit 4)) ;;
  _ ← inb ctl_base; _ ← inb ctl_base; _ ← inb ctl_base; _ ← inb ctl_base;
  cl ← inb (base + REG_CYL_LO);
  ch ← inb (base + REG_CYL_HI);
  mret (if (cl =? 0x14) && (ch =? 0xEB) then ATADEV_PATAPI
        else if (cl =? 0x69) && (ch =? 0x96) then ATADEV_SATAPI
        else if (cl =? 0) && (ch =? 0) then ATADEV_PATA
        else if (cl =? 0x3c) && (ch =? 0xc3) then ATADEV_SATA
        else ATADEV_UNKNOWN).

Fixpoint read_words (n : nat) (port : Z) (block : list Z) : I (list Z) :=
  match n with
  | O => mret block
  | S n => w ← inw port; read_words n port (block ++ [w])
  end.

(** [for (i = 104; i >= 100; --i) sectors = (sectors << 8) | block[i]]. *)
Fixpoint identify_sectors (n : nat) (i : Z) (block : list Z) (sectors : Z) : Z :=
  match n with
  | O => sectors
  | S n => identify_sectors n (i - 1) block (Z.lor (u64 (Z.shiftl sectors 8)) (nth (Z.to_nat i) block 0))
  end.

Definition dev_identify (fuel : nat) (base : Z) : I Z :=
  outw (base + REG_SEC_CNT) 0 ;;
  outw (base + REG_SEC_NUM) 0 ;;
  outw (base + REG_CYL_LO) 0 ;;
  outw (base + REG_CYL_HI) 0 ;;
  outw (base + REG_CMD) CMD_IDENTIFY ;;
  status ← inb (base + REG_STATUS);
  kassert (negb (status =? 0)) "status != 0 && ATA Device wasn't present actually" ;;
  status ← poll fuel (fun v => bits_set v STATUS_BSY) (base + REG_STATUS) status;
  status ← poll fuel (fun v => negb (bits_set v (Z.lor STATUS_DRQ STATUS_ERR))) (base + REG_STATUS) status;
  kassert (negb (bits_set status STATUS_ERR)) "!(status & STATUS_ERR) && Error when reading IDENTIFY data" ;;
  block ← read_words 256 (base + REG_DATA) [];
  mret (identify_sectors 5 104 block 0).

(** The command for one sector. *)
Definition ata_req_execute (fuel : nat) (a : ATABlockDevice) (blk : Z) : I unit :=
  let sector_count := 1 in
  outb (ata_base a + REG_DEVSEL) (Z.lor 0x40 (Z.shiftl (slave a) 4)) ;;
  status ← inb (ata_base a + REG_ALT_STS);
  _ ← poll fuel (fun v => bits_set v STATUS_BSY) (ata_base a + REG_ALT_STS) status;
  outb (ata_base a + REG_SEC_CNT) (Z.shiftr sector_count 8) ;;
  outb (ata_base a + REG_SEC_NUM) (Z.land (Z.shiftr blk 24) 0xFF) ;;
  outb (ata_base a + REG_CYL_LO) (Z.land (Z.shiftr blk 32) 0xFF) ;;
  outb (ata_base a + REG_CYL_HI) (Z.land (Z.shiftr blk 40) 0xFF) ;;
  outb (ata_base a + REG_SEC_CNT) (Z.land sector_count 0xFF) ;;
  outb (ata_base a + REG_SEC_NUM) (Z.land blk 0xFF) ;;
  outb (ata_base a + REG_CYL_LO) (Z.land (Z.shiftr blk 8) 0xFF) ;;
  outb (ata_base a + REG_CYL_HI) (Z.land (Z.shiftr blk 16) 0xFF) ;;
  outb (ata_base a + REG_CMD) CMD_READ_SECTORS_EXT.

End registers.

(** ** The driver *)

(** The block [kmalloc] gives for a request, and the waits of the scheduler: what
    happens from blocking on the queue of a request until this thread runs again, and
    what waking its first thread does. *)
Class AtaEnv (W : Type) := {
  new_req : gmap Z ATARequest -> Z;
  block_on : Z -> M (irq_state W) unit;
  unblock_head : Z -> M (irq_state W) unit }.

(** Addresses of the handler and of the device. *)
Class AtaStatics := { read_block_handler_addr : Z; ata_addr : Z }.

Section driver.
Context {W : Type} `{HasAta W} `{Hardware} `{AtaEnv W}.
Abbreviation K := (M (irq_state W)).
(** How often a status register is polled before giving up on the machine. *)
Context (fuel : nat).

Definition ataop {A} (m : M ATABlockDevice A) : K A :=
  zoom (fun s => ata (world s)) (fun a s => set_world (set_ata a (world s)) s) m.
Definition get_ata : K ATABlockDevice := gets (fun s => ata (world s)).

Definition ata_req_queue_execute (req : Z) : K unit :=
  a ← get_ata;
  if req_head a =? 0 then
    ataop (ata_req_queue req) ;;
    r ← ataop (get_req req);
    portop (ata_req_execute fuel a (blk_num r))
  else ataop (ata_req_queue req).

Definition read_block_handler (number : Z) : K unit :=
  a ← get_ata;
  _ ← portop (inb (ata_base a + REG_STATUS));
  r ← ataop (get_req (req_head a));
  (if negb (queue_head r =? 0) then unblock_head (req_head a) else mret tt : K unit) ;;
  portop (PIC_sendEOI number).

(** [(status & STATUS_BSY) || !(status & (STATUS_DRQ | STATUS_ERR))] *)
Definition not_ready (status : Z) : bool :=
  bits_set status STATUS_BSY || negb (bits_set status (Z.lor STATUS_DRQ STATUS_ERR)).

Fixpoint wait_ready (fuel : nat) (status : Z) : K unit :=
  if not_ready status then
    match fuel with
    | O => no_fuel
    | S fuel =>
        a ← get_ata;
        _ ← ataop (get_req (req_head a));
        block_on (req_head a) ;;
        CLI ;;
        a ← get_ata;
        status ← portop (inb (ata_master a + REG_ALT_STS));
        wait_ready fuel status
    end
  else mret tt.

(** The words read, as bytes in memory. *)
Definition word_bytes (w : Z) : list Z := enc16 w.

(** The value returned and what is put at [dst]. *)
Definition ata_48_read_block (n : Z) : K (Z * list Z) :=
  req ← gets (fun s => new_req (reqs (ata (world s))));
  ataop (modify (fun a => set_reqs (<[req := mkReq n 0 0]> (reqs a)) a)) ;;
  CLI ;;
  ata_req_queue_execute req ;;
  a ← get_ata;
  status ← portop (inb (ata_master a + REG_ALT_STS));
  wait_ready fuel status ;;
  STI ;;
  a ← get_ata;
  words ← portop (read_words (Z.to_nat (dev_blk_size a / 2)) (ata_base a + REG_DATA) []);
  freed ← ataop ata_req_unqueue;
  ataop (modify (fun a => set_reqs (delete freed (reqs a)) a)) ;;
  mret (1, concat (word_bytes <$> words)).

(** The new device, [None] when there is no PATA disk. *)
Definition ata_probe `{AtaStatics} (base master slavebit irq : Z) : K (option ATABlockDevice) :=
  dev_type ← portop (detect_devtype slavebit base master);
  match dev_type with
  | ATADEV_PATA =>
      sectors ← portop (dev_identify fuel base);
      kassert (0 <? sectors) "sectors > 0 && ATA device might not support 48 bit addressing" ;;
      print "Found ATA device with %lx sectors" [sectors] ;;
      let a := mkAta BLOCK_SIZE sectors base master slavebit irq 0 0 ∅ in
      portop (ata_soft_reset base true) ;;
      IRQ_handler_set (IRQ_BASE + IRQ14) read_block_handler_addr ata_addr ;;
      portop (IRQ_clear_mask IRQ2) ;;
      portop (IRQ_clear_mask IRQ14) ;;
      mret (Some a)
  | _ =>
      print "ATA Driver only supports PATA Devices!" [] ;;
      mret None
  end.

End driver.

(** [registered_devs]: most recent first. *)
Definition BLK_register (dev : Z) (registered_devs : list Z) : Z * list Z := (1, dev :: registered_devs).

(** ** The queue is a queue *)

(** The requests of [l] are linked from [p]. *)
Fixpoint linked (m : gmap Z ATARequest) (p : Z) (l : list Z) : Prop :=
  match l with
  | [] => p = 0
  | x :: l => p = x /\ x <> 0 /\ exists r, m !! x = Some r /\ linked m (next r) l
  end.
Definition queue_rep (a : ATABlockDevice) (l : list Z) : Prop :=
  linked (reqs a) (req_head a) l /\ NoDup l /\ req_tail a = default 0 (last l).

(** What a request asks for. *)
Definition asked (r : ATARequest) : Z * Z := (blk_num r, queue_head r).

(** [a'] is [a] but for the queue and its links: every request asks for what it did. *)
Definition same_requests (a a' : ATABlockDevice) : Prop :=
  a' = set_reqs (reqs a') (set_queue (req_head a') (req_tail a') a) /\
  forall p, asked <$> reqs a !! p = asked <$> reqs a' !! p.

Lemma linked_same m m' p l : linked m p l -> (forall x, x ∈ l -> m' !! x = m !! x) -> linked m' p l.
Proof.
  revert p. induction l as [|x l IH]; intros p; cbn [linked]; [done|]. intros (-> & Hx & r & Er & Hl) Hs.
  split; [done|]. split; [done|]. exists r. rewrite Hs by (by left). split; [done|].
  apply IH; [done|]. intros y Hy. apply Hs. by right.
Qed.

Lemma linked_in m p l x : linked m p l -> x ∈ l -> is_Some (m !! x) /\ x <> 0.
Proof.
  revert p. induction l as [|y l IH]; intros p; cbn [linked]; [by intros _ ?%elem_of_nil|].
  intros (_ & Hy & r & Er & Hl) [->|Hx]%elem_of_cons; [by split|]. by eapply IH.
Qed.

(** Linking a request behind the last. *)
Lemma linked_snoc m p l t r x rx : linked m p (l ++ [t]) -> NoDup (l ++ [t]) -> x ∉ l ++ [t] -> x <> 0 ->
  m !! t = Some r -> m !! x = Some rx -> next rx = 0 ->
  linked (<[t := set_req_next x r]> m) p ((l ++ [t]) ++ [x]).
Proof.
  intros Hl Hnd Hx Hx0 Et Ex Hn. revert p Hl Hnd Hx. induction l as [|y l IH]; intros p Hl Hnd Hx; cbn [app linked] in *.
  - destruct Hl as (-> & Ht & r0 & Er0 & _). split; [done|]. split; [done|]. exists (set_req_next x r).
    rewrite lookup_insert_eq. split; [done|]. split; [done|]. split; [done|]. exists rx.
    rewrite lookup_insert_ne; [done|]. intros ->. apply Hx. by left.
  - destruct Hl as (-> & Hy & r0 & Er0 & Hl). apply NoDup_cons in Hnd as [Hny Hnd].
    split; [done|]. split; [done|]. exists r0. rewrite lookup_insert_ne.
    + split; [done|]. apply IH; [done|done|]. intros Hin. apply Hx. by right.
    + intros ->. apply Hny. apply elem_of_app. right. by left.
Qed.

Lemma get_req_ret p r a : reqs a !! p = Some r -> get_req p a = Ret r a.
Proof. intros E. unfold get_req. rewrite bind_gets. unfold id. by rewrite E. Qed.
Lemma put_req_ret p r a : is_Some (reqs a !! p) -> put_req p r a = Ret tt (set_reqs (<[p := r]> (reqs a)) a).
Proof. intros [r0 E]. unfold put_req. rewrite bind_gets. unfold id. by rewrite E. Qed.

Lemma same_requests_refl a : same_requests a a.
Proof. split; [by destruct a|done]. Qed.
Lemma same_requests_trans a b c : same_requests a b -> same_requests b c -> same_requests a c.
Proof.
  intros [E1 H1] [E2 H2]. split; [|intros p; by rewrite H1]. rewrite E2, E1. reflexivity.
Qed.
Lemma same_requests_queue h t a : same_requests a (set_queue h t a).
Proof. split; [by destruct a|done]. Qed.
Lemma same_requests_next p r n a : reqs a !! p = Some r ->
  same_requests a (set_reqs (<[p := set_req_next n r]> (reqs a)) a).
Proof.
  intros E. split; [by destruct a|]. intros q. cbn [reqs set_reqs]. destruct (decide (q = p)) as [->|Hne].
  - by rewrite lookup_insert_eq, E.
  - by rewrite lookup_insert_ne.
Qed.

Lemma queue_ret a l req r : queue_rep a l -> reqs a !! req = Some r -> req ∉ l -> req <> 0 ->
  exists a', ata_req_queue req a = Ret tt a' /\ queue_rep a' (l ++ [req]) /\ same_requests a a'.
Proof.
  intros (Hl & Hnd & Ht) Er Hin H0. unfold ata_req_queue.
  rewrite (bind_ret _ _ _ _ _ (get_req_ret req r a Er)).
  rewrite (bind_ret _ _ _ _ _ (put_req_ret req (set_req_next 0 r) a ltac:(by exists r))).
  set (a1 := set_reqs _ a). rewrite bind_gets. unfold id at 1.
  assert (Hs1 : same_requests a a1) by by apply same_requests_next.
  assert (Er1 : reqs a1 !! req = Some (set_req_next 0 r)) by (subst a1; apply lookup_insert_eq).
  assert (Hl1 : linked (reqs a1) (req_head a1) l).
  { apply (linked_same (reqs a)); [exact Hl|]. intros x Hx. subst a1. cbn. apply lookup_insert_ne. by intros ->. }
  assert (Hnd' : NoDup (l ++ [req])).
  { apply NoDup_app. split; [done|]. split; [|apply NoDup_singleton]. intros x Hx ->%list_elem_of_singleton. done. }
  assert (Ht1 : req_tail a1 = default 0 (last l)) by exact Ht. unfold id. rewrite !Ht1.
  destruct (last l) as [t|] eqn:El; cbn [from_option id].
  - apply last_Some in El as [l' ->].
    destruct (linked_in (reqs a1) _ _ t Hl1) as [[rt Et] Ht0]; [apply elem_of_app; right; by left|].
    rewrite (proj2 (Z.eqb_neq t 0) Ht0). cbn [negb].
    rewrite (bind_ret _ _ _ _ _ (get_req_ret t rt a1 Et)).
    rewrite (bind_ret _ _ _ _ _ (put_req_ret t (set_req_next req rt) a1 ltac:(by exists rt))).
    eexists. split; [reflexivity|]. split.
    + split; [|split; [done|]]; cbn [reqs req_head req_tail set_queue set_reqs].
      * apply (linked_snoc _ _ _ _ _ _ (set_req_next 0 r)); done.
      * by rewrite last_snoc.
    + eapply same_requests_trans; [exact Hs1|]. eapply same_requests_trans; [by apply same_requests_next|].
      apply same_requests_queue.
  - apply last_None in El as ->. eexists. split; [reflexivity|]. split.
    + split; [|split; [done|done]]. cbn [reqs req_head set_queue app linked]. split; [done|]. split; [done|].
      by exists (set_req_next 0 r).
    + eapply same_requests_trans; [exact Hs1|]. apply same_requests_queue.
Qed.

Lemma unqueue_ret a l : queue_rep a l ->
  exists a', ata_req_unqueue a = Ret (default 0 (head l)) a' /\ queue_rep a' (tail l) /\ same_requests a a'.
Proof.
  intros (Hl & Hnd & Ht). unfold ata_req_unqueue. rewrite bind_gets. unfold id.
  destruct l as [|x l]; cbn [linked head tail default] in *.
  { rewrite Hl. exists a. split; [done|]. split; [by split|apply same_requests_refl]. }
  destruct Hl as (Hh & Hx & r & Er & Hl). rewrite !Hh, (proj2 (Z.eqb_neq x 0) Hx).
  rewrite (bind_ret _ _ _ _ _ (get_req_ret x r a Er)). rewrite !bind_modify.
  set (a1 := set_queue (next r) (req_tail a) a).
  set (a2 := if req_head a1 =? 0 then _ else a1).
  assert (H2 : reqs a2 = reqs a /\ req_head a2 = next r /\ req_tail a2 = default 0 (last l) /\ same_requests a a2).
  { subst a2 a1. cbn [req_head set_queue]. destruct l as [|y l]; cbn [linked] in Hl.
    - rewrite Hl. done.
    - destruct Hl as (Hy & Hy0 & _). rewrite Hy, (proj2 (Z.eqb_neq y 0) Hy0). done. }
  destruct H2 as (R2 & N2 & T2 & S2). rewrite <- R2 in Er.
  rewrite (bind_ret _ _ _ _ _ (put_req_ret x (set_req_next 0 r) a2 ltac:(by exists r))).
  eexists. split; [reflexivity|]. apply NoDup_cons in Hnd as [Hnx Hnd]. split.
  - split; [|done]. cbn [reqs req_head set_reqs]. rewrite R2, N2. apply (linked_same (reqs a)); [exact Hl|].
    intros y Hy. apply lookup_insert_ne. by intros ->.
  - eapply same_requests_trans; [exact S2|]. by apply same_requests_next.
Qed.

(** *** Sequences *)

Inductive queue_op := Enqueue (req : Z) | Dequeue.
Definition run_qop (o : queue_op) : M ATABlockDevice Z :=
  match o with Enqueue req => ata_req_queue req ;; mret req | Dequeue => ata_req_unqueue end.
Fixpoint run_qops (os : list queue_op) : M ATABlockDevice (list Z) :=
  match os with [] => mret [] | o :: os => x ← run_qop o; xs ← run_qops os; mret (x :: xs) end.

(** On a list: in at the back, out at the front, 0 from an empty one. *)
Fixpoint list_qops (os : list queue_op) (l : list Z) : list Z * list Z :=
  match os with
  | [] => ([], l)
  | Enqueue req :: os => let (xs, l') := list_qops os (l ++ [req]) in (req :: xs, l')
  | Dequeue :: os => let (xs, l') := list_qops os (tail l) in (default 0 (head l) :: xs, l')
  end.
(** Each request that goes in exists and is not in the queue. *)
Fixpoint qops_ok (known : Z -> Prop) (os : list queue_op) (l : list Z) : Prop :=
  match os with
  | [] => True
  | Enqueue req :: os => known req /\ req <> 0 /\ (req ∉ l) /\ qops_ok known os (l ++ [req])
  | Dequeue :: os => qops_ok known os (tail l)
  end.

Lemma same_requests_known a a' p : same_requests a a' -> is_Some (reqs a !! p) -> is_Some (reqs a' !! p).
Proof. intros [_ H] [r Er]. specialize (H p). rewrite Er in H. destruct (reqs a' !! p); [done|]. done. Qed.

(** C16: the linked requests are a queue: any sequence of insertions and removals returns
    what it does on a list, removal at the front and insertion at the back, and leaves
    what every request asks for alone. *)
Theorem ata_queue_fifo os a l : queue_rep a l -> qops_ok (fun p => is_Some (reqs a !! p)) os l ->
  exists a', run_qops os a = Ret (list_qops os l).1 a' /\ queue_rep a' (list_qops os l).2 /\ same_requests a a'.
Proof.
  revert a l. induction os as [|o os IH]; intros a l Hq Hok; cbn [run_qops list_qops].
  { exists a. split; [done|]. split; [done|apply same_requests_refl]. }
  assert (Hstep : forall a1 l1, same_requests a a1 -> queue_rep a1 l1 -> qops_ok (fun p => is_Some (reqs a !! p)) os l1 ->
    exists a', run_qops os a1 = Ret (list_qops os l1).1 a' /\ queue_rep a' (list_qops os l1).2 /\ same_requests a a').
  { intros a1 l1 Hs Hq1 Hok1. destruct (IH a1 l1 Hq1) as (a' & E & Hq' & Hs').
    - clear -Hok1 Hs. revert l1 Hok1. induction os as [|[req|] os IHo]; intros l1; cbn [qops_ok]; [done| |apply IHo].
      intros (Hk & H0 & Hin & Hok). split; [by apply (same_requests_known a)|]. auto.
    - exists a'. split; [done|]. split; [done|by eapply same_requests_trans]. }
  destruct o as [req|]; cbn [qops_ok run_qop] in *.
  - destruct Hok as ([r Er] & H0 & Hin & Hok). destruct (queue_ret a l req r Hq Er Hin H0) as (a1 & E1 & Hq1 & Hs1).
    destruct (Hstep a1 _ Hs1 Hq1 Hok) as (a' & E & Hq' & Hs').
    exists a'. rewrite <- bind_assoc, (bind_ret _ _ _ _ _ E1), bind_mret, (bind_ret _ _ _ _ _ E).
    by destruct (list_qops os (l ++ [req])).
  - destruct (unqueue_ret a l Hq) as (a1 & E1 & Hq1 & Hs1). destruct (Hstep a1 _ Hs1 Hq1 Hok) as (a' & E & Hq' & Hs').
    exists a'. rewrite (bind_ret _ _ _ _ _ E1), (bind_ret _ _ _ _ _ E). by destruct (list_qops os (tail l)).
Qed.

(** ** The drive

    What a drive makes of the accesses to its registers: for LBA48 each holds the last
    two bytes written; a read command starts the transfer of a number of sectors from
    an address, the words of which are given once the status says so. *)

Record transfer := mkTransfer { t_lba : Z; t_count : Z; t_polls : nat; t_ready : bool; t_words : nat }.
Record drive := mkDrive {
  r_cnt : Z * Z; r_num : Z * Z; r_lo : Z * Z; r_hi : Z * Z; r_transfer : option transfer }.

Definition shift_in (v : Z) (r : Z * Z) : Z * Z := (r.2, v).
Definition drive_lba (d : drive) : Z :=
  (r_num d).2 + 2 ^ 8 * (r_lo d).2 + 2 ^ 16 * (r_hi d).2 + 2 ^ 24 * (r_num d).1 + 2 ^ 32 * (r_lo d).1 + 2 ^ 40 * (r_hi d).1.
Definition drive_count (d : drive) : Z := (r_cnt d).2 + 2 ^ 8 * (r_cnt d).1.

Definition PRIM_IO_BASE : Z := 0x1F0.
Definition PRIM_CTL_BASE : Z := 0x3F6.

Definition on_transfer (f : transfer -> transfer) (d : drive) : drive :=
  mkDrive (r_cnt d) (r_num d) (r_lo d) (r_hi d) (f <$> r_transfer d).

(** The drive of the primary channel sees an access. *)
Definition observe (d : drive) (e : io) : drive :=
  match e with
  | Outb p v =>
      if p =? PRIM_IO_BASE + REG_SEC_CNT then mkDrive (shift_in v (r_cnt d)) (r_num d) (r_lo d) (r_hi d) (r_transfer d)
      else if p =? PRIM_IO_BASE + REG_SEC_NUM then mkDrive (r_cnt d) (shift_in v (r_num d)) (r_lo d) (r_hi d) (r_transfer d)
      else if p =? PRIM_IO_BASE + REG_CYL_LO then mkDrive (r_cnt d) (r_num d) (shift_in v (r_lo d)) (r_hi d) (r_transfer d)
      else if p =? PRIM_IO_BASE + REG_CYL_HI then mkDrive (r_cnt d) (r_num d) (r_lo d) (shift_in v (r_hi d)) (r_transfer d)
      else if (p =? PRIM_IO_BASE + REG_CMD) && (v =? CMD_READ_SECTORS_EXT) then
        mkDrive (r_cnt d) (r_num d) (r_lo d) (r_hi d) (Some (mkTransfer (drive_lba d) (drive_count d) 0 false 0))
      else d
  | Inb p v =>
      if p =? PRIM_CTL_BASE then
        on_transfer (fun t => mkTransfer (t_lba t) (t_count t) (S (t_polls t)) (t_ready t || negb (not_ready v)) (t_words t)) d
      else d
  | Inw p _ =>
      if p =? PRIM_IO_BASE + REG_DATA then
        on_transfer (fun t => mkTransfer (t_lba t) (t_count t) (t_polls t) (t_ready t) (S (t_words t))) d
      else d
  | Outw _ _ => d
  end.
Definition drive0 : drive := mkDrive (0, 0) (0, 0) (0, 0) (0, 0) None.
Definition drive_of (tr : list io) : drive := fold_left observe tr drive0.

Lemma drive_of_app tr tr' : drive_of (tr ++ tr') = fold_left observe tr' (drive_of tr).
Proof. apply fold_left_app. Qed.

(** The transfer has given all its words. *)
Definition idle (d : drive) : Prop :=
  match r_transfer d with Some t => 256 * t_count t <= Z.of_nat (t_words t) | None => True end.

(** A drive that holds the words [sectors] and makes no errors: it is ready within
    [patience] looks at its status, gives the words of the transfer in order, and while
    idle its data register reads with a clear bit 7 - the driver looks for BSY there. *)
Class GoodDrive `{Hardware} (sectors : Z -> list Z) (patience : nat) : Prop := {
  gd_sectors : forall n, length (sectors n) = 256%nat /\ Forall (in_range 16) (sectors n);
  gd_ready : forall tr t, r_transfer (drive_of tr) = Some t -> t_words t = 0%nat -> (patience <= t_polls t)%nat ->
    not_ready (u8 (hw tr PRIM_CTL_BASE)) = false;
  gd_words : forall tr t, r_transfer (drive_of tr) = Some t -> t_ready t = true -> Z.of_nat (t_words t) < 256 * t_count t ->
    sectors ((t_lba t + Z.of_nat (t_words t) / 256) mod 2 ^ 48) !! (t_words t mod 256)%nat = Some (u16 (hw tr PRIM_IO_BASE));
  gd_idle : forall tr, idle (drive_of tr) -> bits_set (u8 (hw tr PRIM_IO_BASE)) STATUS_BSY = false }.

(** An access the drive does not see. *)
Definition quiet (e : io) : Prop := forall d, observe d e = d.
Lemma drive_of_quiet tr tr' : Forall quiet tr' -> drive_of (tr ++ tr') = drive_of tr.
Proof.
  intros Hq. rewrite drive_of_app. generalize (drive_of tr). clear tr. induction Hq as [|e tr' He _ IH]; intros d; [done|].
  cbn [fold_left]. by rewrite He.
Qed.

(** *** The command *)

(** The six bytes of a 48-bit address. *)
Lemma lba_bytes n : 0 <= n ->
  u8 (Z.land n 0xFF) + 2 ^ 8 * u8 (Z.land (Z.shiftr n 8) 0xFF) + 2 ^ 16 * u8 (Z.land (Z.shiftr n 16) 0xFF)
  + 2 ^ 24 * u8 (Z.land (Z.shiftr n 24) 0xFF) + 2 ^ 32 * u8 (Z.land (Z.shiftr n 32) 0xFF)
  + 2 ^ 40 * u8 (Z.land (Z.shiftr n 40) 0xFF) = n mod 2 ^ 48.
Proof.
  intros Hn. assert (Hb : forall k, 0 <= k -> u8 (Z.land (Z.shiftr n k) 0xFF) = n / 2 ^ k mod 2 ^ 8).
  { intros k Hk. change 0xFF with (Z.ones 8). by apply land_field. }
  rewrite <- (Z.shiftr_0_r n) at 1. rewrite !Hb by lia. change (2 ^ 0) with 1. rewrite Z.div_1_r.
  assert (Hr : forall k, 0 < k -> n mod 2 ^ (k + 8) = n mod 2 ^ k + 2 ^ k * (n / 2 ^ k mod 2 ^ 8)).
  { intros k Hk. rewrite Z.pow_add_r by lia. apply Z.rem_mul_r; lia. }
  pose proof (Hr 40 eq_refl) as E40. pose proof (Hr 32 eq_refl) as E32. pose proof (Hr 24 eq_refl) as E24.
  pose proof (Hr 16 eq_refl) as E16. pose proof (Hr 8 eq_refl) as E8.
  change (40 + 8) with 48 in E40. change (32 + 8) with 40 in E32. change (24 + 8) with 32 in E24.
  change (16 + 8) with 24 in E16. change (8 + 8) with 16 in E8.
  rewrite E40, E32, E24, E16, E8. lia.
Qed.

Section command.
Context `{Hardware} (sectors : Z -> list Z) (patience : nat) `{!GoodDrive sectors patience}.

(** The driver's device is the primary channel's. *)
Definition primary (a : ATABlockDevice) : Prop :=
  ata_base a = PRIM_IO_BASE /\ ata_master a = PRIM_CTL_BASE /\ dev_blk_size a = BLOCK_SIZE.

(** The registers take two bytes each, then the command. *)
Lemma observe_command d c0 n0 l0 h0 c1 n1 l1 h1 :
  fold_left observe [Outb 0x1F2 c0; Outb 0x1F3 n0; Outb 0x1F4 l0; Outb 0x1F5 h0; Outb 0x1F2 c1; Outb 0x1F3 n1;
                     Outb 0x1F4 l1; Outb 0x1F5 h1; Outb 0x1F7 0x24] d
  = mkDrive (c0, c1) (n0, n1) (l0, l1) (h0, h1)
      (Some (mkTransfer (n1 + 2 ^ 8 * l1 + 2 ^ 16 * h1 + 2 ^ 24 * n0 + 2 ^ 32 * l0 + 2 ^ 40 * h0) (c1 + 2 ^ 8 * c0) 0 false 0)).
Proof. by destruct d. Qed.

(** What is written for sector [n]. *)
Definition command_writes (n : Z) : list (Z * Z) :=
  [(PRIM_IO_BASE + REG_SEC_CNT, Z.shiftr 1 8); (PRIM_IO_BASE + REG_SEC_NUM, Z.land (Z.shiftr n 24) 0xFF);
   (PRIM_IO_BASE + REG_CYL_LO, Z.land (Z.shiftr n 32) 0xFF); (PRIM_IO_BASE + REG_CYL_HI, Z.land (Z.shiftr n 40) 0xFF);
   (PRIM_IO_BASE + REG_SEC_CNT, Z.land 1 0xFF); (PRIM_IO_BASE + REG_SEC_NUM, Z.land n 0xFF);
   (PRIM_IO_BASE + REG_CYL_LO, Z.land (Z.shiftr n 8) 0xFF); (PRIM_IO_BASE + REG_CYL_HI, Z.land (Z.shiftr n 16) 0xFF);
   (PRIM_IO_BASE + REG_CMD, CMD_READ_SECTORS_EXT)].

Lemma execute_ret fuel a n tr : primary a -> 0 <= n -> idle (drive_of tr) ->
  exists tr', ata_req_execute fuel a n tr = Ret tt tr' /\
    r_transfer (drive_of tr') = Some (mkTransfer (n mod 2 ^ 48) 1 0 false 0).
Proof.
  intros (Hb & Hm & _) Hn Hi. unfold ata_req_execute. rewrite Hb. cbv zeta.
  set (sel := u8 (Z.lor 0x40 (Z.shiftl (slave a) 4))).
  set (tr1 := tr ++ [Outb (PRIM_IO_BASE + REG_DEVSEL) sel]).
  assert (Hi1 : idle (drive_of tr1)) by (subst tr1; by rewrite drive_of_app).
  assert (Hfirst : outb (PRIM_IO_BASE + REG_DEVSEL) (Z.lor 0x40 (Z.shiftl (slave a) 4)) tr = Ret tt tr1) by done.
  rewrite (bind_ret _ _ _ _ _ Hfirst). clear Hfirst.
  change (PRIM_IO_BASE + REG_ALT_STS) with PRIM_IO_BASE. pose proof (gd_idle tr1 Hi1) as Hst.
  set (v := u8 (hw tr1 PRIM_IO_BASE)) in *. set (tr2 := tr1 ++ [Inb PRIM_IO_BASE v]).
  assert (Hin : inb PRIM_IO_BASE tr1 = Ret v tr2) by done. rewrite (bind_ret _ _ _ _ _ Hin). clear Hin.
  assert (Hpoll : poll fuel (fun v => bits_set v STATUS_BSY) PRIM_IO_BASE v tr2 = Ret v tr2).
  { destruct fuel; cbn [poll]; by rewrite Hst. }
  rewrite (bind_ret _ _ _ _ _ Hpoll). clear Hpoll Hst.
  exists (tr2 ++ out_events (command_writes n)). split; [rewrite <- outbs_ret; reflexivity|]. rewrite drive_of_app.
  change (out_events (command_writes n)) with
    [Outb 0x1F2 (u8 (Z.shiftr 1 8)); Outb 0x1F3 (u8 (Z.land (Z.shiftr n 24) 0xFF)); Outb 0x1F4 (u8 (Z.land (Z.shiftr n 32) 0xFF));
     Outb 0x1F5 (u8 (Z.land (Z.shiftr n 40) 0xFF)); Outb 0x1F2 (u8 (Z.land 1 0xFF)); Outb 0x1F3 (u8 (Z.land n 0xFF));
     Outb 0x1F4 (u8 (Z.land (Z.shiftr n 8) 0xFF)); Outb 0x1F5 (u8 (Z.land (Z.shiftr n 16) 0xFF)); Outb 0x1F7 0x24].
  rewrite observe_command, lba_bytes by done. reflexivity.
Qed.

Lemma read_words_ret k : forall t tr block, r_transfer (drive_of tr) = Some t -> t_ready t = true -> t_count t = 1 ->
  (t_words t + k = 256)%nat ->
  exists tr', read_words k (PRIM_IO_BASE + REG_DATA) block tr = Ret (block ++ drop (t_words t) (sectors (t_lba t mod 2 ^ 48))) tr' /\
    idle (drive_of tr').
Proof.
  change (PRIM_IO_BASE + REG_DATA) with PRIM_IO_BASE.
  induction k as [|k IH]; intros t tr block Ht Hr Hc Hk; cbn [read_words].
  - exists tr. split.
    + rewrite drop_ge, app_nil_r; [done|]. rewrite (proj1 (gd_sectors _)). lia.
    + unfold idle. rewrite Ht. lia.
  - pose proof (gd_words tr t Ht Hr ltac:(lia)) as Hw. rewrite Z.div_small, Z.add_0_r, Nat.mod_small in Hw by lia.
    set (w := u16 (hw tr PRIM_IO_BASE)) in *. set (tr1 := tr ++ [Inw PRIM_IO_BASE w]).
    assert (Hin : inw PRIM_IO_BASE tr = Ret w tr1) by done. rewrite (bind_ret _ _ _ _ _ Hin).
    destruct (IH (mkTransfer (t_lba t) (t_count t) (t_polls t) (t_ready t) (S (t_words t))) tr1 (block ++ [w])) as (tr' & E & Hid);
      [|done|done|cbn; lia|].
    { subst tr1. rewrite drive_of_app. cbn. unfold on_transfer. cbn. by rewrite Ht. }
    exists tr'. split; [|done]. rewrite E. cbn [t_lba t_words]. rewrite <- app_assoc. cbn [app].
    by rewrite <- (drop_S _ w (t_words t) Hw).
Qed.

End command.

(** ** Reading a block *)

(** Requests ask their threads to wait as they did; a new one is the only one, and no thread
    waits for it. *)
Definition request_kept (new : gmap Z ATARequest -> Z) (m : gmap Z ATARequest) (p : Z) (r : ATARequest) : Prop :=
  match m !! p with
  | Some r0 => queue_head r = queue_head r0
  | None => m = ∅ /\ p = new m /\ queue_head r = 0
  end.

(** [kmalloc] gives a fresh block. From the states in which the thread may wait ([qw_ok]),
    which the driver's own work does not leave, what other threads and interrupts do while this
    thread waits leaves the device and its requests alone and is not seen by the
    drive: they may take the drive's interrupt, but use no disk themselves. *)
Class QuietWait (W : Type) `{HasAta W} `{AtaEnv W} := {
  qw_ok : irq_state W -> Prop;
  qw_fresh : forall m, new_req m <> 0 /\ m !! new_req m = None;
  qw_ints : forall b s, qw_ok s -> qw_ok (set_ints b s);
  qw_ports : forall tr s, qw_ok s -> qw_ok (set_ports tr s);
  qw_ata : forall a s, qw_ok s -> (forall p r, reqs a !! p = Some r -> request_kept new_req (reqs (ata (world s))) p r) ->
    qw_ok (set_world (set_ata a (world s)) s);
  qw_wait : forall p s, qw_ok s -> primary (ata (world s)) -> p = req_head (ata (world s)) -> is_Some (reqs (ata (world s)) !! p) ->
    exists s' tr, block_on p s = Ret tt s' /\ qw_ok s' /\ ata (world s') = ata (world s) /\
    ports s' = ports s ++ tr /\ Forall quiet tr }.

Section read.
Context {W : Type} `{HasAta W} `{Hardware} `{!AtaEnv W} `{!QuietWait W}.
Context (sectors : Z -> list Z) (patience : nat) `{!GoodDrive sectors patience}.
Implicit Types (s : irq_state W).

Lemma ataop_ret {A} (m : M ATABlockDevice A) s x a :
  m (ata (world s)) = Ret x a -> ataop m s = Ret x (set_world (set_ata a (world s)) s).
Proof.
  intros E. unfold ataop.
  by apply (zoom_ret (fun s => ata (world s)) (fun a s => set_world (set_ata a (world s)) s)).
Qed.
Lemma portop_ret {A} (m : M (list io) A) s x tr : m (ports s) = Ret x tr -> portop m s = Ret x (set_ports tr s).
Proof. intros E. unfold portop. by apply (zoom_ret ports set_ports). Qed.

(** The driver's own changes of the requests. *)
Lemma qw_same a s : qw_ok s -> same_requests (ata (world s)) a -> qw_ok (set_world (set_ata a (world s)) s).
Proof.
  intros Hok [_ Hk]. apply qw_ata; [done|]. intros p r Er. unfold request_kept. specialize (Hk p). rewrite Er in Hk.
  destruct (reqs (ata (world s)) !! p) as [r0|]; [|done]. injection Hk. done.
Qed.
Lemma qw_refl s : qw_ok s -> qw_ok (set_world (set_ata (ata (world s)) (world s)) s).
Proof. intros Hok. apply qw_same; [done|apply same_requests_refl]. Qed.

Lemma ataop_modify f s : ataop (modify f) s = Ret tt (set_world (set_ata (f (ata (world s))) (world s)) s).
Proof. done. Qed.

(** The wait ends, with the drive ready: each round looks at the status once more. *)
Lemma wait_ready_ret fuel : forall s v t, qw_ok s -> primary (ata (world s)) ->
  is_Some (reqs (ata (world s)) !! req_head (ata (world s))) ->
  r_transfer (drive_of (ports s)) = Some t -> t_words t = 0%nat -> (not_ready v = false -> t_ready t = true) ->
  ((patience < t_polls t)%nat -> not_ready v = false) -> (patience < t_polls t + fuel)%nat ->
  exists s' t', wait_ready fuel v s = Ret tt s' /\ qw_ok s' /\ ata (world s') = ata (world s) /\
    r_transfer (drive_of (ports s')) = Some t' /\ t_lba t' = t_lba t /\ t_count t' = t_count t /\
    t_words t' = 0%nat /\ t_ready t' = true.
Proof.
  induction fuel as [|fuel IH]; intros s v t Hok Hp Hq Ht Hw Hv Hpat Hf; cbn [wait_ready];
    (destruct (not_ready v) eqn:Ev; [|exists s, t; by auto 10]).
  { discriminate Hpat. lia. }
  destruct Hq as [r Er]. unfold get_ata. rewrite bind_gets.
  rewrite (bind_ret _ _ _ _ _ (ataop_ret _ s r _ (get_req_ret _ _ _ Er))).
  set (s1 := set_world _ s). assert (A1 : ata (world s1) = ata (world s)) by apply ata_set.
  destruct (qw_wait (req_head (ata (world s))) s1)
    as (s2 & tr & Eb & Hok2 & A2 & P2 & Htr); [by apply qw_refl|by rewrite A1|by rewrite A1|rewrite A1; by exists r|]. rewrite A1 in A2.
  rewrite (bind_ret _ _ _ _ _ Eb). unfold CLI. rewrite bind_modify, bind_gets. set (s3 := set_ints false s2).
  change (ata (world s3)) with (ata (world s2)). rewrite A2. destruct Hp as (Hb & Hm & Hs).
  rewrite Hm. change (PRIM_CTL_BASE + REG_ALT_STS) with PRIM_CTL_BASE.
  set (v' := u8 (hw (ports s3) PRIM_CTL_BASE)). set (s4 := set_ports (ports s3 ++ [Inb PRIM_CTL_BASE v']) s3).
  rewrite (bind_ret _ _ _ _ _ (portop_ret (inb PRIM_CTL_BASE) s3 v' _ eq_refl)). fold s4.
  assert (D3 : r_transfer (drive_of (ports s3)) = Some t).
  { change (ports s3) with (ports s2). rewrite P2, drive_of_quiet by done. exact Ht. }
  destruct (IH s4 v' (mkTransfer (t_lba t) (t_count t) (S (t_polls t)) (t_ready t || negb (not_ready v')) (t_words t)))
    as (s' & t' & E & Hok' & A' & Ht' & Hrest).
  - by apply qw_ports, qw_ints.
  - change (ata (world s4)) with (ata (world s2)). by rewrite A2.
  - change (ata (world s4)) with (ata (world s2)). rewrite A2. by exists r.
  - change (ports s4) with (ports s3 ++ [Inb PRIM_CTL_BASE v']). rewrite drive_of_app.
    cbn [fold_left observe]. rewrite Z.eqb_refl. unfold on_transfer. cbn [r_transfer]. by rewrite D3.
  - exact Hw.
  - cbn [t_ready]. intros ->. apply orb_true_r.
  - cbn [t_polls]. intros Hlt. apply (gd_ready (ports s3) t); [exact D3|exact Hw|lia].
  - cbn [t_polls]. lia.
  - exists s', t'. split; [exact E|]. split; [exact Hok'|]. split; [|exact (conj Ht' Hrest)]. rewrite A'. exact A2.
Qed.

(** The device holds a disk: nothing waits, nothing is under way. *)
Definition holds (s : irq_state W) (disk : Z -> list Z) : Prop :=
  qw_ok s /\ primary (ata (world s)) /\ queue_rep (ata (world s)) [] /\ reqs (ata (world s)) = ∅ /\ idle (drive_of (ports s)) /\
  forall n, disk n = concat (word_bytes <$> sectors (n mod 2 ^ 48)).

Lemma queue_execute_ret fuel a req r s : ata (world s) = a -> queue_rep a [] -> reqs a !! req = Some r -> req <> 0 ->
  qw_ok s -> primary a -> 0 <= blk_num r -> idle (drive_of (ports s)) ->
  exists s', ata_req_queue_execute fuel req s = Ret tt s' /\ qw_ok s' /\ queue_rep (ata (world s')) [req] /\
    same_requests a (ata (world s')) /\
    r_transfer (drive_of (ports s')) = Some (mkTransfer (blk_num r mod 2 ^ 48) 1 0 false 0).
Proof.
  intros Ha Hq Er Hnz Hok Hp Hn Hi. destruct (queue_ret a [] req r Hq Er ltac:(apply not_elem_of_nil) Hnz) as (a1 & E1 & Hq1 & Hs1).
  unfold ata_req_queue_execute, get_ata. rewrite bind_gets, Ha. destruct Hq as (Hh & _ & _). cbn [linked] in Hh.
  rewrite (proj2 (Z.eqb_eq _ _) Hh). rewrite <- Ha in E1. rewrite (bind_ret _ _ _ _ _ (ataop_ret _ s _ _ E1)).
  set (s1 := set_world _ s). assert (A1 : ata (world s1) = a1) by apply ata_set.
  destruct (same_requests_known a a1 req Hs1 ltac:(by exists r)) as [r1 Er1].
  assert (Hr1 : blk_num r1 = blk_num r).
  { destruct Hs1 as [_ Hk]. specialize (Hk req). rewrite Er, Er1 in Hk. cbn in Hk. unfold asked in Hk. congruence. }
  rewrite <- A1 in Er1. rewrite (bind_ret _ _ _ _ _ (ataop_ret _ s1 _ _ (get_req_ret _ _ _ Er1))).
  set (s2 := set_world _ s1). assert (A2 : ata (world s2) = a1) by (rewrite <- A1; apply ata_set). rewrite Hr1.
  destruct (execute_ret sectors patience fuel a (blk_num r) (ports s2) Hp Hn Hi) as (tr & Ex & Ht).
  exists (set_ports tr s2). split; [exact (portop_ret _ s2 _ _ Ex)|].
  assert (Hok1 : qw_ok s1) by (apply qw_same; [done|by rewrite Ha]). split; [by apply qw_ports, qw_refl|].
  change (ata (world (set_ports tr s2))) with (ata (world s2)). by rewrite A2.
Qed.

Lemma primary_same a a' : same_requests a a' -> primary a -> primary a'.
Proof. intros [-> _]. done. Qed.

(** Reading a block of an idle device. *)
Lemma read_block_ret fuel s disk n : (patience < fuel)%nat -> holds s disk -> 0 <= n ->
  exists s', ata_48_read_block fuel n s = Ret (1, disk n) s' /\ holds s' disk.
Proof.
  intros Hfuel (Hok & Hp & Hq & H0q & Hi & Hd) Hn. set (a := ata (world s)) in *. unfold ata_48_read_block. rewrite bind_gets.
  fold a. set (req := new_req (reqs a)). destruct (qw_fresh (reqs a)) as [Hnz Hfr]. fold req in Hnz, Hfr.
  set (a1 := set_reqs (<[req := mkReq n 0 0]> (reqs a)) a).
  rewrite (bind_ret _ _ _ _ _ (ataop_modify _ s)). fold a. fold a1. unfold CLI at 1. rewrite bind_modify.
  set (s1 := set_ints false _). assert (A1 : ata (world s1) = a1) by apply ata_set.
  assert (Hok1 : qw_ok s1).
  { apply qw_ints, qw_ata; [done|]. intros p r. unfold a1, request_kept. cbn [reqs set_reqs]. rewrite lookup_insert_Some.
    fold a. intros [[<- <-]|[_ Er]]; [by rewrite Hfr|by rewrite Er]. }
  assert (Hq1 : queue_rep a1 []) by (destruct Hq as (? & ? & ?); repeat split; done).
  destruct (queue_execute_ret fuel a1 req (mkReq n 0 0) s1 A1 Hq1 ltac:(apply lookup_insert_eq) Hnz Hok1 Hp Hn Hi)
    as (s2 & E2 & Hok2 & Hq2 & Hs2 & Ht2).
  rewrite (bind_ret _ _ _ _ _ E2). unfold get_ata. rewrite bind_gets.
  destruct (primary_same a1 _ Hs2 Hp) as (Hb2 & Hm2 & Hz2). rewrite Hm2.
  change (PRIM_CTL_BASE + REG_ALT_STS) with PRIM_CTL_BASE. set (v := u8 (hw (ports s2) PRIM_CTL_BASE)).
  set (s3 := set_ports (ports s2 ++ [Inb PRIM_CTL_BASE v]) s2).
  rewrite (bind_ret _ _ _ _ _ (portop_ret (inb PRIM_CTL_BASE) s2 v _ eq_refl)). fold s3.
  assert (Hh2 : req_head (ata (world s2)) = req) by apply Hq2.
  destruct (wait_ready_ret fuel s3 v (mkTransfer (n mod 2 ^ 48) 1 1 (negb (not_ready v)) 0))
    as (s4 & t & E4 & Hok4 & A4 & Ht4 & Hl4 & Hc4 & Hw4 & Hr4); [by apply qw_ports|by split| | |done|by intros Hv; cbn; rewrite Hv| |cbn; lia|].
  { change (ata (world s3)) with (ata (world s2)). rewrite Hh2.
    apply (same_requests_known a1); [done|]. exists (mkReq n 0 0). apply lookup_insert_eq. }
  { change (ports s3) with (ports s2 ++ [Inb PRIM_CTL_BASE v]). rewrite drive_of_app.
    cbn [fold_left observe]. rewrite Z.eqb_refl. unfold on_transfer. cbn [r_transfer]. by rewrite Ht2. }
  { cbn [t_polls]. intros Hlt. apply (gd_ready (ports s2) _ Ht2); [done|cbn; lia]. }
  rewrite (bind_ret _ _ _ _ _ E4). unfold STI. rewrite bind_modify, bind_gets. set (s5 := set_ints true s4).
  change (ata (world s5)) with (ata (world s4)). rewrite A4. change (ata (world s3)) with (ata (world s2)).
  rewrite Hz2, Hb2. change (Z.to_nat (BLOCK_SIZE / 2)) with 256%nat. cbn [t_lba t_count] in *.
  destruct (read_words_ret sectors patience 256 t (ports s5) [] Ht4 Hr4 Hc4 ltac:(lia)) as (tr & E5 & Hid).
  rewrite (bind_ret _ _ _ _ _ (portop_ret _ s5 _ _ E5)). set (s6 := set_ports tr s5).
  assert (A6 : ata (world s6) = ata (world s2)) by exact A4.
  destruct (unqueue_ret (ata (world s2)) [req] Hq2) as (a7 & E7 & Hq7 & Hs7). rewrite <- A6 in E7.
  rewrite (bind_ret _ _ _ _ _ (ataop_ret _ s6 _ _ E7)). set (s7 := set_world _ s6).
  assert (A7 : ata (world s7) = a7) by apply ata_set. cbn [head from_option id tail] in *.
  assert (Hok7 : qw_ok s7) by (apply qw_same; [by apply qw_ports, qw_ints|by rewrite A6]).
  set (a8 := set_reqs (delete req (reqs (ata (world s7)))) (ata (world s7))).
  rewrite (bind_ret _ _ _ _ _ (ataop_modify _ s7)). fold a8.
  eexists. split.
  - rewrite Hd. unfold mret, M_ret. rewrite Hw4, drop_0, Hl4, Z.mod_mod by done. reflexivity.
  - assert (A8 : forall s, ata (world (set_world (set_ata a8 (world s)) s)) = a8) by (intros; apply ata_set).
    unfold holds. rewrite A8. unfold a8. rewrite A7. split; [|split; [|split; [|split; [|split; [exact Hid|exact Hd]]]]].
    + apply qw_ata; [done|]. intros p r. rewrite A7. cbn [reqs set_reqs]. rewrite lookup_delete_Some. intros [_ Er].
      unfold request_kept. by rewrite Er.
    + exact (primary_same (ata (world s2)) a7 Hs7 (conj Hb2 (conj Hm2 Hz2))).
    + exact Hq7.
    + apply map_empty. intros p. cbn [reqs set_reqs]. apply lookup_delete_None.
      destruct (decide (req = p)) as [|Hne]; [by left|right].
      assert (Hdom : forall q, reqs a7 !! q = None <-> reqs a1 !! q = None).
      { intros q. rewrite <- !(fmap_None asked), <- (proj2 Hs7), <- (proj2 Hs2). done. }
      apply Hdom. unfold a1. cbn [reqs set_reqs]. by rewrite lookup_insert_ne, H0q.
Qed.

End read.

(** ** The driver as a block device *)

Section device.
Context {W : Type} `{HasAta W} `{Hardware} `{!AtaEnv W} `{!QuietWait W}.
Context (sectors : Z -> list Z) (patience fuel : nat) `{!GoodDrive sectors patience} (Hfuel : (patience < fuel)%nat).

(** What [ata_probe] puts in [struct BlockDevice]. *)
Definition ata_device : BlockDevice (irq_state W) :=
  {| blk_size := BLOCK_SIZE; read_block := ata_48_read_block fuel |}.

Lemma words_length l : length (concat (word_bytes <$> l)) = (2 * length l)%nat.
Proof. induction l as [|w l IH]; [done|]. rewrite fmap_cons. cbn [concat length app word_bytes enc16]. rewrite IH. lia. Qed.

(** The driver keeps the promise of Disk.v: everything proved of Ext2.v holds over it. *)
Definition ata_device_laws : @BlockDeviceLaws (irq_state W) ata_device.
Proof.
  refine (@Build_BlockDeviceLaws (irq_state W) ata_device (holds sectors) _ _ _).
  - done.
  - intros s disk n (_ & _ & _ & _ & _ & Hd). rewrite Hd, words_length, (proj1 (gd_sectors _)). done.
  - intros s disk n Hs Hn. destruct (read_block_ret sectors patience fuel s disk n Hfuel Hs (proj1 Hn)) as (s' & E & Hs').
    by exists s', 1.
Defined.

(** Reads one after another. *)
Fixpoint read_all (ns : list Z) : M (irq_state W) (list (list Z)) :=
  match ns with
  | [] => mret []
  | n :: ns => '(_, b) ← ata_48_read_block fuel n; bs ← read_all ns; mret (b :: bs)
  end.


(** A request put on a busy device reaches the drive only if someone else starts it: no
    port is accessed. Nobody does: the reader whose request ends removes it and leaves
    the next one waiting ([ata_48_read_block] does not start it). *)
Lemma busy_request_not_started req r s l x : queue_rep (ata (world s)) (x :: l) ->
  reqs (ata (world s)) !! req = Some r -> req ∉ x :: l -> req <> 0 ->
  exists s', ata_req_queue_execute fuel req s = Ret tt s' /\ ports s' = ports s /\ queue_rep (ata (world s')) (x :: l ++ [req]).
Proof.
  intros Hq Er Hin Hnz. destruct (queue_ret _ _ req r Hq Er Hin Hnz) as (a' & E & Hq' & _).
  destruct Hq as ((Hh & Hx & _) & _ & _). unfold ata_req_queue_execute, get_ata. rewrite bind_gets, Hh, (proj2 (Z.eqb_neq _ _) Hx).
  eexists. split; [exact (ataop_ret _ s _ _ E)|]. split; [done|]. cbn [world set_world]. by rewrite ata_set.
Qed.

End device.

(** [ata_probe] resets through the data port of the drive (offset 0 of the base it is
    given), where the control port was meant. *)
Lemma reset_writes `{Hardware} base tr :
  ata_soft_reset base true tr = Ret tt (tr ++ [Outb base 4; Outb base 0]).
Proof.
  unfold ata_soft_reset, outb, REG_DEV_CTL. rewrite Z.add_0_r, bind_modify. unfold modify. by rewrite <- app_assoc.
Qed.

(** The words 100 to 104 of IDENTIFY, each shifted by eight bits only: the count of a disk
    of 65536 sectors or more overlaps its neighbour, and word 104 is not part of it. *)
Lemma identify_overlap w0 w1 : in_range 16 w0 -> in_range 16 w1 ->
  identify_sectors 5 104 (repeat 0 100 ++ [w0; w1; 0; 0; 0]) 0 = Z.lor (Z.shiftl w1 8) w0.
Proof.
  intros H0 H1. change (Z.lor (u64 (Z.shiftl (Z.lor (u64 (Z.shiftl 0 8)) w1) 8)) w0 = Z.lor (Z.shiftl w1 8) w0).
  rewrite Z.shiftl_0_l, Z.lor_0_l. f_equal. unfold in_range in *. rewrite Z.shiftl_mul_pow2 by lia.
  apply wrap_small. unfold in_range. lia.
Qed.

(** ** Finding the drive *)

(** A PATA drive on the primary channel that answers IDENTIFY, within [patience] looks at
    its status, with [count] sectors as the driver computes them. *)
Class PataDrive `{Hardware} (count : Z) (patience : nat) : Prop := {
  pd_signature : forall tr, u8 (hw tr (PRIM_IO_BASE + REG_CYL_LO)) = 0 /\ u8 (hw tr (PRIM_IO_BASE + REG_CYL_HI)) = 0;
  pd_present : forall tr, u8 (hw tr (PRIM_IO_BASE + REG_STATUS)) <> 0;
  pd_no_error : forall tr, bits_set (u8 (hw tr (PRIM_IO_BASE + REG_STATUS))) STATUS_ERR = false;
  pd_ready : forall tr, (patience <= looks (PRIM_IO_BASE + REG_STATUS) tr)%nat ->
    bits_set (u8 (hw tr (PRIM_IO_BASE + REG_STATUS))) STATUS_BSY = false /\
    bits_set (u8 (hw tr (PRIM_IO_BASE + REG_STATUS))) (Z.lor STATUS_DRQ STATUS_ERR) = true;
  pd_identify : forall tr, r_transfer (drive_of tr) = None -> exists block tr',
    read_words 256 (PRIM_IO_BASE + REG_DATA) [] tr = Ret block tr' /\ identify_sectors 5 104 block 0 = count;
  pd_count : 0 < count }.

Section probe.
Context `{Hardware} (count : Z) (patience fuel : nat) `{!PataDrive count patience} (Hfuel : (patience < fuel)%nat).
Abbreviation I := (M (list io)).

(** The operation returns, with a result in [Q], and starts no transfer. *)
Definition no_transfer (tr : list io) : Prop := r_transfer (drive_of tr) = None.
Definition calm {A} (m : I A) (tr : list io) (Q : A -> list io -> Prop) : Prop :=
  exists a tr', m tr = Ret a tr' /\ no_transfer tr' /\ Q a tr'.

Lemma calm_bind {A B} (m : I A) (f : A -> I B) tr Q Q' : calm m tr Q' ->
  (forall a tr', no_transfer tr' -> Q' a tr' -> calm (f a) tr' Q) -> calm (m ≫= f) tr Q.
Proof. intros (a & tr' & E & Hn & Hq) Hf. unfold calm. rewrite (bind_ret _ _ _ _ _ E). by apply Hf. Qed.

Lemma no_transfer_event tr e : no_transfer tr ->
  match e with Outb p v => (p, v) <> (PRIM_IO_BASE + REG_CMD, CMD_READ_SECTORS_EXT) | _ => True end -> no_transfer (tr ++ [e]).
Proof.
  unfold no_transfer. rewrite drive_of_app. cbn [fold_left]. generalize (drive_of tr). intros d Hd He.
  destruct e as [p v|p v|p v|p v]; cbn [observe]; [| |destruct (p =? _); [|done]; cbn; by rewrite Hd|done].
  - destruct (p =? _); [|done]. cbn. by rewrite Hd.
  - destruct (p =? PRIM_IO_BASE + REG_SEC_CNT); [done|]. destruct (p =? PRIM_IO_BASE + REG_SEC_NUM); [done|].
    destruct (p =? PRIM_IO_BASE + REG_CYL_LO); [done|]. destruct (p =? PRIM_IO_BASE + REG_CYL_HI); [done|].
    destruct (Z.eqb_spec p (PRIM_IO_BASE + REG_CMD)) as [->|]; cbn [andb]; [|done].
    destruct (Z.eqb_spec v CMD_READ_SECTORS_EXT) as [->|]; [by destruct He|done].
Qed.

Lemma calm_inb p tr : no_transfer tr -> calm (inb p) tr (fun v tr' => v = u8 (hw tr p) /\ tr' = tr ++ [Inb p v]).
Proof. intros Hn. eexists _, _. split; [reflexivity|]. split; [by apply no_transfer_event|done]. Qed.
Lemma calm_outb p v tr : no_transfer tr -> p <> PRIM_IO_BASE + REG_CMD -> calm (outb p v) tr (fun _ _ => True).
Proof. intros Hn Hp. eexists _, _. split; [reflexivity|]. split; [|done]. apply no_transfer_event; [done|]. congruence. Qed.
Lemma calm_outw p v tr : no_transfer tr -> calm (outw p v) tr (fun _ _ => True).
Proof. intros Hn. eexists _, _. split; [reflexivity|]. split; [by apply no_transfer_event|done]. Qed.
Lemma calm_inw p tr : no_transfer tr -> calm (inw p) tr (fun _ _ => True).
Proof. intros Hn. eexists _, _. split; [reflexivity|]. split; [by apply no_transfer_event|done]. Qed.
Lemma calm_ret {A} (a : A) tr (Q : A -> list io -> Prop) : no_transfer tr -> Q a tr -> calm (mret a) tr Q.
Proof. intros Hn Hq. by exists a, tr. Qed.

Lemma calm_assert b text tr : no_transfer tr -> b = true -> calm (kassert b text) tr (fun _ tr' => tr' = tr).
Proof. intros Hn ->. by apply calm_ret. Qed.

Ltac calm_step lem := eapply calm_bind; [lem|cbv beta].

Lemma calm_reset base b tr : no_transfer tr -> base + REG_DEV_CTL <> PRIM_IO_BASE + REG_CMD ->
  calm (ata_soft_reset base b) tr (fun _ _ => True).
Proof.
  intros Hn Hb. unfold ata_soft_reset. calm_step ltac:(by apply calm_outb). intros _ tr1 Hn1 _. by apply calm_outb.
Qed.

Lemma calm_detect tr : no_transfer tr -> calm (detect_devtype 0 PRIM_IO_BASE PRIM_CTL_BASE) tr (fun t _ => t = ATADEV_PATA).
Proof.
  intros Hn. unfold detect_devtype. calm_step ltac:(by apply calm_reset). intros _ tr1 Hn1 _.
  calm_step ltac:(by apply calm_outb). intros _ tr2 Hn2 _. clear tr tr1 Hn Hn1.
  do 4 (calm_step ltac:(by apply calm_inb); intros _ ? ? _).
  calm_step ltac:(by apply calm_inb). intros cl tr3 Hn3 [-> _]. calm_step ltac:(by apply calm_inb). intros ch tr4 Hn4 [-> _].
  apply calm_ret; [done|]. by rewrite (proj1 (pd_signature _)), (proj2 (pd_signature _)).
Qed.

Lemma calm_poll test tr status : no_transfer tr ->
  (forall tr, (patience <= looks (PRIM_IO_BASE + REG_STATUS) tr)%nat -> test (u8 (hw tr (PRIM_IO_BASE + REG_STATUS))) = false) ->
  ((patience < looks (PRIM_IO_BASE + REG_STATUS) tr)%nat -> test status = false) ->
  (exists tr0, status = u8 (hw tr0 (PRIM_IO_BASE + REG_STATUS)) /\ tr = tr0 ++ [Inb (PRIM_IO_BASE + REG_STATUS) status]) ->
  calm (poll fuel test (PRIM_IO_BASE + REG_STATUS) status) tr (fun v tr' => test v = false /\
    exists tr0, v = u8 (hw tr0 (PRIM_IO_BASE + REG_STATUS)) /\ tr' = tr0 ++ [Inb (PRIM_IO_BASE + REG_STATUS) v]).
Proof.
  intros Hn Ht Hs Hst. assert (Hf : (patience < looks (PRIM_IO_BASE + REG_STATUS) tr + fuel)%nat) by lia.
  revert status tr Hn Hs Hst Hf. clear Hfuel. induction fuel as [|n IH]; intros status tr Hn Hs Hst Hf; cbn [poll];
    (destruct (test status) eqn:Et; [|by apply calm_ret]).
  { discriminate Hs. lia. }
  calm_step ltac:(by apply calm_inb). intros v tr1 Hn1 [-> ->]. apply IH; [done| | |].
  - rewrite looks_snoc. intros Hl. apply Ht. lia.
  - by exists tr.
  - rewrite looks_snoc. lia.
Qed.

Lemma calm_words n : forall tr block, no_transfer tr -> calm (read_words n (PRIM_IO_BASE + REG_DATA) block) tr (fun _ _ => True).
Proof.
  induction n as [|n IH]; intros tr block Hn; cbn [read_words]; [by apply calm_ret|].
  calm_step ltac:(by apply calm_inw). intros w tr1 Hn1 _. by apply IH.
Qed.

Lemma calm_identify tr : no_transfer tr -> calm (dev_identify fuel PRIM_IO_BASE) tr (fun n _ => n = count).
Proof.
  intros Hn. unfold dev_identify. do 5 (calm_step ltac:(by apply calm_outw); intros _ ? ? _).
  calm_step ltac:(by apply calm_inb). intros v tr1 Hn1 [Ev ->].
  calm_step ltac:(apply calm_assert; [done|by rewrite Ev, (proj2 (Z.eqb_neq _ _) (pd_present _))]). intros _ ? _ ->.
  calm_step ltac:(apply calm_poll; [done|intros; by apply pd_ready|rewrite looks_snoc, Ev; intros; apply pd_ready; lia|by eexists]).
  clear v Ev Hn1. intros v ? Hn1 (_ & tr2 & Ev & ->).
  calm_step ltac:(apply calm_poll; [done|intros trx Hp; by rewrite (proj2 (pd_ready trx Hp))
    |rewrite looks_snoc, Ev; intros Hl; by rewrite (proj2 (pd_ready tr2 ltac:(lia)))|by eexists]).
  clear v Ev Hn1. intros v ? Hn1 (_ & tr3 & Ev & ->).
  calm_step ltac:(apply calm_assert; [done|by rewrite Ev, pd_no_error]). intros _ ? _ ->.
  destruct (pd_identify _ Hn1) as (block & tr4 & E & Ec). destruct (calm_words 256 _ [] Hn1) as (block' & tr4' & E' & Hn4 & _).
  rewrite E in E'. injection E' as <- <-. exists count, tr4. split; [|exact (conj Hn4 eq_refl)].
  rewrite (bind_ret _ _ _ _ _ E). unfold mret, M_ret. by rewrite Ec.
Qed.
End probe.

Section probe_driver.
Context {W : Type} `{HasAta W} `{Hardware} `{!AtaEnv W} `{!AtaStatics}.
Context (count : Z) (patience fuel : nat) `{!PataDrive count patience} (Hfuel : (patience < fuel)%nat).

Lemma calm_clear_mask l tr : no_transfer tr -> calm (IRQ_clear_mask l) tr (fun _ _ => True).
Proof.
  intros Hn. unfold IRQ_clear_mask. destruct (l <? 8).
  all: eapply calm_bind; [by apply calm_inb|]; intros v tr1 Hn1 _; by apply calm_outb.
Qed.

(** The machine once the disk is found: what was accessed, the handler in the table, the
    message. *)
Definition probed (tr : list io) (s : irq_state W) : irq_state W :=
  set_printed (printed s ++ [("Found ATA device with %lx sectors"%string, [count])])
    (set_ports tr (set_irq_table (<[46%nat := mkEntry ata_addr read_block_handler_addr]> (irq_table s)) s)).

(** The disk is found, with an empty queue; its interrupt has its handler and the lines
    of the second controller and of the disk are open. *)
Lemma ata_probe_ret (s : irq_state W) : no_transfer (ports s) ->
  exists tr, ata_probe fuel PRIM_IO_BASE PRIM_CTL_BASE 0 IRQ14 s
      = Ret (Some (mkAta BLOCK_SIZE count PRIM_IO_BASE PRIM_CTL_BASE 0 IRQ14 0 0 ∅)) (probed tr s) /\
    no_transfer tr.
Proof.
  intros Hn. unfold ata_probe.
  destruct (calm_detect count patience (ports s) Hn) as (? & tr1 & E1 & Hn1 & ->).
  rewrite (bind_ret _ _ _ _ _ (portop_ret _ s _ _ E1)). set (s1 := set_ports tr1 s).
  destruct (calm_identify count patience fuel Hfuel (ports s1) Hn1) as (? & tr2 & E2 & Hn2 & ->).
  rewrite (bind_ret _ _ _ _ _ (portop_ret _ s1 _ _ E2)). set (s2 := set_ports tr2 s1).
  rewrite bind_assert by (apply Z.ltb_lt, pd_count). unfold print. rewrite bind_modify. set (s3 := set_printed _ s2). cbv zeta.
  destruct (calm_reset PRIM_IO_BASE true (ports s3) Hn2) as (? & tr4 & E4 & Hn4 & _); [done|].
  rewrite (bind_ret _ _ _ _ _ (portop_ret _ s3 _ _ E4)). set (s4 := set_ports tr4 s3).
  set (s5 := set_irq_table (<[46%nat := mkEntry ata_addr read_block_handler_addr]> (irq_table s4)) s4).
  assert (E5 : IRQ_handler_set (IRQ_BASE + IRQ14) read_block_handler_addr ata_addr s4 = Ret tt s5) by done.
  rewrite (bind_ret _ _ _ _ _ E5).
  destruct (calm_clear_mask IRQ2 (ports s5) Hn4) as (? & tr6 & E6 & Hn6 & _).
  rewrite (bind_ret _ _ _ _ _ (portop_ret _ s5 _ _ E6)). set (s6 := set_ports tr6 s5).
  destruct (calm_clear_mask IRQ14 (ports s6) Hn6) as (? & tr7 & E7 & Hn7 & _).
  rewrite (bind_ret _ _ _ _ _ (portop_ret _ s6 _ _ E7)). by exists tr7.
Qed.
End probe_driver.

(** ** A drive, for the witnesses *)

Module AtaDemo.
(** A drive that holds [secs], is busy for two looks and then ready, and identifies itself
    with words that are all 1. *)
Definition drive_port (port : Z) : bool :=
  (PRIM_IO_BASE <=? port) && (port <=? PRIM_IO_BASE + REG_STATUS) || (port =? PRIM_CTL_BASE).
Definition drive_answers (secs : Z -> list Z) : Hardware := fun tr port =>
  if port =? PRIM_IO_BASE + REG_STATUS then 0x48
  else match r_transfer (drive_of tr) with
  | Some t =>
      if port =? PRIM_CTL_BASE then (if (2 <=? t_polls t)%nat then 0x48 else 0x80)
      else if (port =? PRIM_IO_BASE) && (Z.of_nat (t_words t) <? 256 * t_count t)
      then nth (t_words t mod 256) (secs ((t_lba t + Z.of_nat (t_words t) / 256) mod 2 ^ 48)) 0
      else 0
  | None => if port =? PRIM_IO_BASE then 1 else 0
  end.

(** A machine with this drive; [other] is behind the other ports of [drive_among]. *)
Definition has_drive (h : Hardware) (secs : Z -> list Z) : Prop :=
  forall tr port, drive_port port = true -> h tr port = drive_answers secs tr port.
Definition drive_among (other : Hardware) (secs : Z -> list Z) : Hardware := fun tr port =>
  if drive_port port then drive_answers secs tr port else other tr port.
Definition drive_with : (Z -> list Z) -> Hardware := drive_among (fun _ _ => 0).
Lemma drive_among_has other secs : has_drive (drive_among other secs) secs.
Proof. intros tr port Hp. unfold drive_among. by rewrite Hp. Qed.

Section has_drive.
Context (h : Hardware) (secs : Z -> list Z) (Hh : has_drive h secs).

Lemma drive_with_good : (forall n, length (secs n) = 256%nat /\ Forall (in_range 16) (secs n)) -> @GoodDrive h secs 2.
Proof.
  intros Hsecs. split; unfold hw.
  - exact Hsecs.
  - intros tr t Ht _ Hp. rewrite Hh by done. unfold drive_answers.
    rewrite Ht, (proj2 (Nat.leb_le _ _) Hp). done.
  - intros tr t Ht _ Hw. rewrite Hh by done. unfold drive_answers. rewrite Ht, (proj2 (Z.ltb_lt _ _) Hw).
    change (PRIM_IO_BASE =? PRIM_IO_BASE + REG_STATUS) with false. change (PRIM_IO_BASE =? PRIM_CTL_BASE) with false.
    change (PRIM_IO_BASE =? PRIM_IO_BASE) with true. cbn [andb]. cbv iota.
    destruct (Hsecs ((t_lba t + Z.of_nat (t_words t) / 256) mod 2 ^ 48)) as [Hl Hr].
    revert Hl Hr. generalize (secs ((t_lba t + Z.of_nat (t_words t) / 256) mod 2 ^ 48)). intros l Hl Hr.
    assert (Hm : (t_words t mod 256 < 256)%nat) by (apply Nat.mod_upper_bound; lia).
    destruct (lookup_lt_is_Some_2 l (t_words t mod 256)%nat) as [w Ew]; [lia|].
    rewrite Ew, (nth_lookup_Some _ _ _ w Ew), (wrap_small 16); [done|]. exact (proj1 (Forall_lookup _ _) Hr _ _ Ew).
  - intros tr Hi. rewrite Hh by done. unfold drive_answers, idle in *.
    destruct (r_transfer (drive_of tr)) as [t|]; [|done]. by rewrite (proj2 (Z.ltb_ge _ _) Hi), andb_false_r.
Qed.

Lemma drive_with_identify n : forall block tr, no_transfer tr -> exists tr',
  @read_words h n (PRIM_IO_BASE + REG_DATA) block tr = Ret (block ++ replicate n 1) tr'.
Proof.
  induction n as [|n IH]; intros block tr Hn; cbn [read_words].
  - exists tr. by rewrite app_nil_r.
  - assert (E : @inw h (PRIM_IO_BASE + REG_DATA) tr = Ret 1 (tr ++ [Inw (PRIM_IO_BASE + REG_DATA) 1])).
    { unfold inw, hw. rewrite Hh by done. unfold drive_answers. by rewrite Hn. }
    rewrite (bind_ret _ _ _ _ _ E). destruct (IH (block ++ [1]) _ (no_transfer_event tr (Inw (PRIM_IO_BASE + REG_DATA) 1) Hn Logic.I)) as (tr' & E').
    exists tr'. rewrite E', <- app_assoc. done.
Qed.

Definition ones_count : Z := 0x0101010101.
Lemma drive_with_pata patience : @PataDrive h ones_count patience.
Proof.
  split; unfold hw; try (intros tr; rewrite !Hh by done; done).
  - intros tr. rewrite (Hh tr (PRIM_IO_BASE + REG_CYL_LO)), (Hh tr (PRIM_IO_BASE + REG_CYL_HI)) by done. unfold drive_answers.
    change (PRIM_IO_BASE + REG_CYL_LO =? PRIM_IO_BASE) with false. change (PRIM_IO_BASE + REG_CYL_HI =? PRIM_IO_BASE) with false.
    cbn [andb]. by destruct (r_transfer (drive_of tr)).
  - intros tr Hn. destruct (drive_with_identify 256 [] tr Hn) as (tr' & E). exists (replicate 256 1), tr'. by split.
  - done.
Qed.
End has_drive.

Definition demo_sectors (n : Z) : list Z := replicate 256 (n mod 2 ^ 16).
#[export] Instance demo_drive : Hardware := drive_with demo_sectors.
#[export] Instance demo_good : GoodDrive demo_sectors 2.
Proof.
  apply drive_with_good; [apply drive_among_has|]. intros n. split; [apply length_replicate|]. apply Forall_replicate. apply (wrap_range 16). lia.
Qed.

#[export] Instance just_ata : HasAta ATABlockDevice := {| ata := fun w => w; set_ata := fun a _ => a; ata_set := fun _ _ => eq_refl |}.
Definition fresh_key (m : gmap Z ATARequest) : Z := 1 + foldr Z.max 0 (map_to_list m).*1.
Lemma fresh_key_spec m : fresh_key m <> 0 /\ m !! fresh_key m = None.
Proof.
  unfold fresh_key. assert (Hmax : forall l : list Z, 0 <= foldr Z.max 0 l /\ forall x, x ∈ l -> x <= foldr Z.max 0 l).
  { induction l as [|y l [IH0 IH]]; cbn [foldr]; split; [lia|by intros x ?%elem_of_nil|lia|].
    intros x [->|Hx]%elem_of_cons; [lia|]. specialize (IH x Hx). lia. }
  destruct (Hmax (map_to_list m).*1) as [H0 Hle]. split; [lia|].
  apply eq_None_not_Some. intros [r Er]. apply elem_of_map_to_list in Er.
  specialize (Hle _ (list_elem_of_fmap_2 fst _ _ Er)). cbn [fst] in Hle. lia.
Qed.
(** The waiting thread is woken by the drive's interrupt. *)
Definition no_wait : AtaEnv ATABlockDevice :=
  {| new_req := fun m => fresh_key m; block_on := fun _ => fault; unblock_head := fun _ => mret tt |}.
Definition woken_by (h : Hardware) : AtaEnv ATABlockDevice :=
  {| new_req := @new_req _ no_wait; block_on := fun _ => STI ;; @read_block_handler _ _ h no_wait 46; unblock_head := fun _ => mret tt |}.
Definition woken_quiet (h : Hardware) : @QuietWait ATABlockDevice _ (woken_by h).
Proof.
  refine (Build_QuietWait _ _ (woken_by h) (fun _ => True) fresh_key_spec _ _ _ _); [done..|].
  intros p s _ (Hb & _) -> [r Er]. cbn [block_on woken_by]. unfold STI. rewrite bind_modify. unfold read_block_handler, get_ata.
  rewrite bind_gets. set (s1 := set_ints true s). change (ata (world s1)) with (ata (world s)). rewrite Hb.
  set (v := u8 (hw (ports s1) (PRIM_IO_BASE + REG_STATUS))).
  rewrite (bind_ret _ _ _ _ _ (portop_ret (inb (PRIM_IO_BASE + REG_STATUS)) s1 v _ eq_refl)).
  set (s2 := set_ports _ s1). rewrite (bind_ret _ _ _ _ _ (ataop_ret _ s2 r _ (get_req_ret _ _ _ Er))).
  exists (set_ports (ports s2 ++ [Outb PIC2_COMMAND PIC_EOI; Outb PIC1_COMMAND PIC_EOI]) s2), 
    [Inb (PRIM_IO_BASE + REG_STATUS) v; Outb PIC2_COMMAND PIC_EOI; Outb PIC1_COMMAND PIC_EOI].
  split; [|split; [done|split; [done|split]]].
  - transitivity (portop (PIC_sendEOI 46) s2); [by destruct (negb _)|]. apply portop_ret, PIC_sendEOI_vector. done.
  - subst s2 s1. cbn [ports set_ports]. by rewrite <- app_assoc.
  - repeat constructor; intros d; by destruct d.
Defined.
#[export] Instance by_interrupt : AtaEnv ATABlockDevice := woken_by demo_drive.
#[export] Instance demo_quiet : QuietWait ATABlockDevice := woken_quiet demo_drive.
Definition ata0 : irq_state ATABlockDevice :=
  mkIrq [] 0 8 [] (repeat (mkEntry 0 0) 256) (mkTss [] [] 0) (mkReg 0 0) (mkReg 0 0) 0 true [] []
    (mkAta 512 1000 PRIM_IO_BASE PRIM_CTL_BASE 0 14 0 0 ∅).
Definition demo_disk (n : Z) : list Z := concat (word_bytes <$> demo_sectors (n mod 2 ^ 48)).
Lemma ata0_holds : holds demo_sectors ata0 demo_disk.
Proof. split; [done|]. split; [done|]. split; [|done]. split; [done|]. split; [apply NoDup_nil_2|done]. Qed.

Definition three_reqs : ATABlockDevice :=
  mkAta 512 1000 PRIM_IO_BASE PRIM_CTL_BASE 0 14 1 1 {[1 := mkReq 7 0 0; 2 := mkReq 9 0 0; 3 := mkReq 11 0 0]}.
Lemma three_reqs_queue : queue_rep three_reqs [1].
Proof. split; [|split; [apply NoDup_singleton|done]]. split; [done|]. split; [done|]. by exists (mkReq 7 0 0). Qed.
End AtaDemo.

Import AtaDemo.

Lemma ata_queue_fifo_witness :
  exists a', run_qops [Enqueue 2; Dequeue; Enqueue 3; Dequeue; Dequeue; Dequeue] three_reqs = Ret [2; 1; 3; 2; 3; 0] a' /\
    queue_rep a' [] /\ same_requests three_reqs a'.
Proof.
  apply (ata_queue_fifo [Enqueue 2; Dequeue; Enqueue 3; Dequeue; Dequeue; Dequeue] three_reqs [1] three_reqs_queue).
  cbn [qops_ok tail app]. split; [by eexists|]. split; [lia|].
  split; [by intros ?%list_elem_of_singleton|]. split; [by eexists|]. split; [lia|].
  split; [by intros ?%list_elem_of_singleton|done].
Defined.

