(* ===== verification/Ext2.v ===== *)
(** * Ext2: the read-only ext2 file system (src/src/ext2.c) over a partition of a
    block device, and the list of file systems (src/src/fs.c)

    The buffers the code takes from [kmalloc] are its own until it frees them or
    returns them, so they are values here; what is kept of the allocator is the
    number of blocks not freed. *)

From S2P Require Import Prelude Disk.

(** ** On-disk structures *)

Record Ext2SuperBlock := mkSB {
  num_inodes : Z; num_blocks : Z; log_sub_10_block_size : Z; num_group_blocks : Z;
  num_group_inodes : Z; ext2_signature : Z; inode_size : Z }.

(** The fields of the packed struct that the driver reads. *)
Definition decode_sb (b : list Z) : Ext2SuperBlock :=
  mkSB (le32 0 b) (le32 4 b) (le32 24 b) (le32 32 b) (le32 40 b) (le16 56 b) (le32 88 b).

(** [grp_table[i].start_block_addr_inode_table]: entries of 32 bytes. *)
Definition start_block_addr_inode_table (grp_table : list Z) (i : nat) : option Z :=
  e ← slice (32 * i) 32 grp_table; Some (le32 8 e).

Record Ext2Inode := mkExtInode {
  mode : Z; uid : Z; size_low : Z; gid : Z; direct_blocks : list Z;
  singly_indirect_block : Z; doubly_indirect_block : Z; triply_indirect_block : Z; size_high : Z }.

Definition EXT2_INODE_SIZE : nat := 112.
Definition NUM_DIRECT_BLOCKS : Z := 12.

Definition decode_inode (b : list Z) : Ext2Inode :=
  mkExtInode (le16 0 b) (le16 2 b) (le32 4 b) (le16 24 b)
    ((fun i => le32 (40 + 4 * i) b) <$> seq 0 12) (le32 88 b) (le32 92 b) (le32 96 b) (le32 108 b).

Definition EXT2_OFFSET : Z := 1024.
Definition EXT2_SB_SIZE : Z := 1024.

Record Ext2VfsSuperBlock := mkVsb {
  block_size : Z; num_groups : Z; v_mbr : MBR; part_num : Z; grp_table : list Z; ext_sb : Ext2SuperBlock }.

(** [struct Ext2VfsInode]: [struct Inode] and the ext2 inode. *)
Record Ext2VfsInode := mkInode {
  ino : Z; st_mode : Z; st_uid : Z; st_gid : Z; st_size : Z; ext_in : Ext2Inode }.

(** [struct Ext2File]; [cursor] is an int. *)
Record Ext2File := mkFile { f_inode : Ext2VfsInode; cursor : Z }.

(** The device and the number of blocks taken from [kmalloc] and not freed. *)
Record ext2 (D : Type) := mkExt2 { dev : D; live_blocks : Z }.
Arguments mkExt2 {D}. Arguments dev {D}. Arguments live_blocks {D}.

(** ** Operations *)

Section operations.
Context {D : Type} `{BlockDevice D}.
Abbreviation E := (M (ext2 D)).

Definition devop {A} (m : M D A) : E A := zoom dev (fun d s => mkExt2 d (live_blocks s)) m.
Definition kmalloc_block : E unit := modify (fun s => mkExt2 (dev s) (live_blocks s + 1)).
Definition kfree_block : E unit := modify (fun s => mkExt2 (dev s) (live_blocks s - 1)).

(** A pure access that has no meaning out of range. *)
Definition checked {A} (x : option A) : E A := match x with Some a => mret a | None => fault end.

(** [MBR_read_block(dev, mbr, part, blk, dst + off)], [dst] being the buffer. *)
Definition read_into (mbr : MBR) (part blk : Z) (off : nat) (dst : list Z) : E (Z * list Z) :=
  '(r, b) ← devop (MBR_read_block mbr part blk);
  dst ← checked (put_at off b dst);
  mret (r, dst).

(** Uninitialised bytes of a fresh buffer; no theorem depends on them. *)
Definition fresh_buffer (n : Z) : list Z := repeat 0 (Z.to_nat n).

(** The loops over [n] blocks from [blk]; the first form ignores the result. *)
Fixpoint read_blocks (n : nat) (mbr : MBR) (part blk : Z) (off : nat) (dst : list Z) : E (list Z) :=
  match n with
  | O => mret dst
  | S n =>
      '(_, dst) ← read_into mbr part blk off dst;
      read_blocks n mbr part (u64 (blk + 1)) (off + Z.to_nat blk_size) dst
  end.
Fixpoint read_blocks_checked (n : nat) (mbr : MBR) (part blk : Z) (off : nat) (dst : list Z) : E (bool * list Z) :=
  match n with
  | O => mret (true, dst)
  | S n =>
      '(r, dst) ← read_into mbr part blk off dst;
      if r =? 0 then mret (false, dst)
      else read_blocks_checked n mbr part (u64 (blk + 1)) (off + Z.to_nat blk_size) dst
  end.

Definition ext2_superblock_init (mbr : MBR) (num_part : Z) : E (Ext2SuperBlock * list Z) :=
  let sb_start := EXT2_OFFSET / blk_size in
  let sb_sectors := u16 (EXT2_SB_SIZE / blk_size) in
  sb ← read_blocks (Z.to_nat sb_sectors) mbr num_part sb_start 0 (fresh_buffer EXT2_SB_SIZE);
  '(_, grp) ← read_into mbr num_part (sb_start + sb_sectors) 0 (fresh_buffer blk_size);
  mret (decode_sb sb, grp).

(** [for (i = 0; i < n; ++i) number *= 2] on 64 bits. *)
Fixpoint pow2_loop (n : nat) (number : Z) : Z :=
  match n with O => number | S n => pow2_loop n (u64 (number * 2)) end.
Definition pow2 (n : Z) : Z := pow2_loop (Z.to_nat n) 1.

Definition ext2_read_block (vsb : Ext2VfsSuperBlock) (block_num : Z) (dst : list Z) : E (bool * list Z) :=
  let num_sectors := block_size vsb / blk_size in
  let sector_num := u64 (block_num * num_sectors) in
  read_blocks_checked (Z.to_nat num_sectors) (v_mbr vsb) (part_num vsb) sector_num 0 dst.

(** [((uint32_t * )buf)[i]]. *)
Definition word_of (buf : list Z) (i : Z) : E Z :=
  b ← checked (slice (4 * Z.to_nat i) 4 buf); mret (le32 0 b).

Definition read_inode_block (vsb : Ext2VfsSuperBlock) (vino : Ext2VfsInode) (block : Z) (dst : list Z) : E (list Z) :=
  let x := ext_in vino in
  let num_indirect_per := block_size vsb / 4 in
  let n1 := u64 (block - NUM_DIRECT_BLOCKS) in
  let n2 := u64 (n1 - num_indirect_per) in
  let n3 := u64 (n2 - u64 (num_indirect_per * num_indirect_per)) in
  if block <? NUM_DIRECT_BLOCKS then
    b ← checked (direct_blocks x !! Z.to_nat block);
    '(_, dst) ← ext2_read_block vsb b dst;
    mret dst
  else if n1 <? num_indirect_per then
    kmalloc_block ;;
    '(_, indirect_block) ← ext2_read_block vsb (singly_indirect_block x) (fresh_buffer (block_size vsb));
    b ← word_of indirect_block n1;
    '(_, dst) ← ext2_read_block vsb b dst;
    kfree_block ;;
    mret dst
  else if n2 <? u64 (num_indirect_per * num_indirect_per) then
    let single_off := n2 / num_indirect_per in
    let double_off := n2 mod num_indirect_per in
    kmalloc_block ;;
    '(_, indirect_block) ← ext2_read_block vsb (singly_indirect_block x) (fresh_buffer (block_size vsb));
    kmalloc_block ;;
    b ← word_of indirect_block single_off;
    '(_, indirecter_block) ← ext2_read_block vsb b (fresh_buffer (block_size vsb));
    b ← word_of indirect_block double_off;
    '(_, dst) ← ext2_read_block vsb b dst;
    kfree_block ;;
    kfree_block ;;
    mret dst
  else if n3 <? u64 (u64 (num_indirect_per * num_indirect_per) * num_indirect_per) then
    let sq := u64 (num_indirect_per * num_indirect_per) in
    let single_off := n3 / sq in
    let double_off := n3 mod sq in
    let triple_off := double_off / num_indirect_per in
    let quad_off := double_off mod num_indirect_per in
    kmalloc_block ;;
    '(_, indirect_block) ← ext2_read_block vsb (doubly_indirect_block x) (fresh_buffer (block_size vsb));
    kmalloc_block ;;
    b ← word_of indirect_block single_off;
    '(_, indirecter_block) ← ext2_read_block vsb b (fresh_buffer (block_size vsb));
    kmalloc_block ;;
    b ← word_of indirecter_block triple_off;
    '(_, indirecter_block) ← ext2_read_block vsb b indirecter_block;
    b ← word_of indirect_block quad_off;
    '(_, dst) ← ext2_read_block vsb b dst;
    kfree_block ;;
    kfree_block ;;
    kfree_block ;;
    mret dst
  else mret dst.

Definition ext2_vfs_inode_init (x : Ext2Inode) (n : Z) : E Ext2VfsInode :=
  kmalloc_block ;;
  mret (mkInode (u32 n) (mode x) (uid x) (gid x)
          (Z.lor (u64 (Z.shiftl (size_high x) 32)) (size_low x)) x).

Definition read_inode (vsb : Ext2VfsSuperBlock) (inode_num : Z) : E (option Ext2VfsInode) :=
  let sb := ext_sb vsb in
  if inode_num >? num_inodes sb then mret None
  else if num_group_inodes sb =? 0 then fault
  else
    let group_idx := u64 (inode_num - 1) / num_group_inodes sb in
    if group_idx >=? num_groups vsb then mret None
    else
      table ← checked (start_block_addr_inode_table (grp_table vsb) (Z.to_nat group_idx));
      let index_idx := u64 (inode_num - 1) mod num_group_inodes sb in
      let block_idx := u64 (index_idx * inode_size sb) / block_size vsb in
      let block_offset := u64 (index_idx * inode_size sb) mod block_size vsb in
      let block_num := u64 (table + block_idx) in
      let num_sectors := block_size vsb / blk_size in
      let sector_num := u64 (block_num * num_sectors) in
      kmalloc_block ;;
      buf ← read_blocks (Z.to_nat num_sectors) (v_mbr vsb) (part_num vsb) sector_num 0 (fresh_buffer (block_size vsb));
      kmalloc_block ;;
      b ← checked (slice (Z.to_nat block_offset) EXT2_INODE_SIZE buf);
      kfree_block ;;
      vin ← ext2_vfs_inode_init (decode_inode b) inode_num;
      mret (Some vin).

(** The callback of [readdir] is called on each entry: what it is given, in order. *)
Definition entry_call : Type := list Z * option Ext2VfsInode.

(** The inner loop: the entries of one block from offset [off]. Buffers are 16-byte
    aligned, so aligning the address aligns the offset. *)
Fixpoint readdir_block (fuel : nat) (vsb : Ext2VfsSuperBlock) (content : list Z) (off : Z)
    (acc : list entry_call) : E (list entry_call) :=
  if off <? block_size vsb then
    h ← checked (slice (Z.to_nat off) 4 content);
    if le32 0 h =? 0 then mret acc
    else
      match fuel with
      | O => no_fuel
      | S fuel =>
          hdr ← checked (slice (Z.to_nat off) 8 content);
          kmalloc_block ;;
          name ← checked (slice (Z.to_nat off + 8) (Z.to_nat (byte_at 6 hdr)) content);
          entry_ino ← read_inode vsb (le32 0 hdr);
          kfree_block ;;
          readdir_block fuel vsb content (align_pointer (off + le16 4 hdr) 4 true) (acc ++ [(name, entry_ino)])
      end
  else mret acc.

Fixpoint readdir_blocks (n : nat) (vsb : Ext2VfsSuperBlock) (vino : Ext2VfsInode) (i : Z)
    (content : list Z) (acc : list entry_call) : E (list entry_call) :=
  match n with
  | O => mret acc
  | S n =>
      content ← read_inode_block vsb vino i content;
      acc ← readdir_block (Z.to_nat (block_size vsb)) vsb content 0 acc;
      readdir_blocks n vsb vino (i + 1) content acc
  end.

Definition blocks_of (vsb : Ext2VfsSuperBlock) (size : Z) : Z :=
  size / block_size vsb + Z.b2z (negb (size mod block_size vsb =? 0)).

(** The returned bool and the calls of the callback. *)
Definition readdir (vsb : Ext2VfsSuperBlock) (vino : Ext2VfsInode) : E (bool * list entry_call) :=
  if Z.land (st_mode vino) 0x4000 =? 0 then mret (false, [])
  else
    kmalloc_block ;;
    acc ← readdir_blocks (Z.to_nat (blocks_of vsb (st_size vino))) vsb vino 0 (fresh_buffer (block_size vsb)) [];
    mret (true, acc).

Definition ext2_file_open (vino : Ext2VfsInode) : E Ext2File :=
  kmalloc_block ;; mret (mkFile vino 0).

(** The sum of two nonnegative ints. *)
Definition int_add (a b : Z) : E Z := checked (if a + b <? 2 ^ 31 then Some (a + b) else None).

(** The loop of [ext2_file_read]: the bytes put at [dst] in order, each round's
    after the last's, and the cursor. *)
Fixpoint file_read_loop (fuel : nat) (vsb : Ext2VfsSuperBlock) (vino : Ext2VfsInode) (len : Z)
    (bytes_read cur block : Z) (content out : list Z) : E (Z * Z * list Z) :=
  if (bytes_read <? len) && (cur <? st_size vino) then
    match fuel with
    | O => no_fuel
    | S fuel =>
        content ← read_inode_block vsb vino block content;
        let bs := block_size vsb in
        '(start, copied) ←
          (if negb (cur mod bs =? 0) then mret (cur mod bs, bs - cur mod bs)
           else if bytes_read + bs >=? len then mret (0, len - bytes_read)
           else if cur + bs >=? st_size vino then mret (0, st_size vino - cur)
           else mret (0, bs));
        chunk ← checked (slice (Z.to_nat start) (Z.to_nat copied) content);
        bytes_read ← int_add bytes_read copied;
        cur ← int_add cur copied;
        file_read_loop fuel vsb vino len bytes_read cur (block + 1) content (out ++ chunk)
    end
  else mret (bytes_read, cur, out).

(** The result is the count, the bytes copied to [dst] and the file. *)
Definition ext2_file_read (vsb : Ext2VfsSuperBlock) (f : Ext2File) (len : Z) : E (Z * list Z * Ext2File) :=
  kmalloc_block ;;
  '(n, cur, out) ← file_read_loop (Z.to_nat len) vsb (f_inode f) len 0 (cursor f)
     (cursor f / block_size vsb) (fresh_buffer (block_size vsb)) [];
  mret (n, out, mkFile (f_inode f) cur).

Definition ext2_vfs_superblock_init (sb : Ext2SuperBlock) (grp : list Z) (mbr : MBR) (part : Z) :
    E (Ext2VfsSuperBlock * option Ext2VfsInode) :=
  kmalloc_block ;;
  if num_group_blocks sb =? 0 then fault
  else
    let vsb := mkVsb (pow2 (u32 (log_sub_10_block_size sb + 10)))
      (num_blocks sb / num_group_blocks sb + Z.b2z (negb (num_blocks sb mod num_group_blocks sb =? 0)))
      mbr part grp sb in
    root_inode ← read_inode vsb 2;
    mret (vsb, root_inode).

(** The partitions from [p] on. *)
Fixpoint probe_parts (n : nat) (mbr : MBR) (p : Z) : E (option (Ext2VfsSuperBlock * option Ext2VfsInode)) :=
  match n with
  | O => mret None
  | S n =>
      e ← checked (partitions mbr !! Z.to_nat p);
      if part_type e =? 0 then mret None
      else if num_sectors e >=? 2 then
        kmalloc_block ;;
        kmalloc_block ;;
        '(sb, grp) ← ext2_superblock_init mbr p;
        if ext2_signature sb =? 0xEF53 then
          v ← ext2_vfs_superblock_init sb grp mbr p;
          mret (Some v)
        else probe_parts n mbr (p + 1)
      else probe_parts n mbr (p + 1)
  end.

Definition ext2_probe : E (option (Ext2VfsSuperBlock * option Ext2VfsInode)) :=
  kmalloc_block ;;
  '(_, mbr) ← devop mbr_init;
  probe_parts MAX_MBR_PARTITIONS mbr 0.

End operations.

(** ** What the disk holds *)

Section spec.
Context {D : Type} `{BlockDeviceLaws D}.
Context (disk : Z -> list Z) (vsb : Ext2VfsSuperBlock).

(** [n] sectors of the disk from sector [k]. *)
Fixpoint sectors (k : Z) (n : nat) : list Z :=
  match n with O => [] | S n => disk k ++ sectors (k + 1) n end.

Definition part_lba (mbr : MBR) (part : Z) : Z :=
  match partitions mbr !! Z.to_nat part with Some p => first_sector_lba p | None => 0 end.
Definition per_block : Z := block_size vsb / blk_size.

(** Block [b] of the file system. *)
Definition fsblock (b : Z) : list Z :=
  sectors (part_lba (v_mbr vsb) (part_num vsb) + b * per_block) (Z.to_nat per_block).

(** Block [i] of an inode: its direct blocks, then the words of its singly
    indirect block. *)
Definition direct_span : Z := NUM_DIRECT_BLOCKS + block_size vsb / 4.
Definition inode_block_num (x : Ext2Inode) (i : Z) : Z :=
  if i <? NUM_DIRECT_BLOCKS then nth (Z.to_nat i) (direct_blocks x) 0
  else le32 (4 * Z.to_nat (i - NUM_DIRECT_BLOCKS)) (fsblock (singly_indirect_block x)).
Definition inode_block (x : Ext2Inode) (i : Z) : list Z := fsblock (inode_block_num x i).

(** Byte [j] of the inode's content. *)
Definition file_byte (x : Ext2Inode) (j : Z) : Z :=
  byte_at (Z.to_nat (j mod block_size vsb)) (inode_block x (j / block_size vsb)).
Definition file_bytes (x : Ext2Inode) (j : Z) (n : nat) : list Z :=
  (fun k => file_byte x (j + Z.of_nat k)) <$> seq 0 n.

(** Inode [n]: its index in its group selects [inode_size] bytes of the group's
    table. *)
Definition inode_at (table n : Z) : Ext2VfsInode :=
  let off := (n - 1) mod num_group_inodes (ext_sb vsb) * inode_size (ext_sb vsb) in
  let x := decode_inode (drop (Z.to_nat (off mod block_size vsb)) (fsblock (table + off / block_size vsb))) in
  mkInode n (mode x) (uid x) (gid x) (size_low x + 2 ^ 32 * size_high x) x.

Definition part_ok (mbr : MBR) (part : Z) : Prop :=
  0 <= part < 4 /\ length (partitions mbr) = 4%nat /\ in_range 32 (part_lba mbr part).

(** A mounted file system: block sizes from 1 to 64 kilobytes. *)
Definition vsb_ok : Prop :=
  part_ok (v_mbr vsb) (part_num vsb) /\ block_size vsb mod 1024 = 0 /\ 0 < block_size vsb <= 65536.

End spec.

(** [gives disk m Q k]: from any state whose device holds [disk], [m] returns a
    result in [Q], the device still holds [disk], and [k] more blocks are taken from
    [kmalloc] than given back. *)
Definition gives {D A} `{BlockDeviceLaws D} (disk : Z -> list Z) (m : M (ext2 D) A)
    (Q : A -> Prop) (k : Z) : Prop :=
  forall s, dev_holds (dev s) disk -> exists a s', m s = Ret a s' /\ Q a /\
    dev_holds (dev s') disk /\ live_blocks s' = live_blocks s + k.

Section reading.
Context {D : Type} `{BlockDeviceLaws D}.
Context (disk : Z -> list Z).
Implicit Types (vsb : Ext2VfsSuperBlock).

Lemma gives_bind {A B} (m : M (ext2 D) A) (f : A -> M (ext2 D) B) P Q k1 k2 k :
  gives disk m P k1 -> (forall a, P a -> gives disk (f a) Q k2) -> k = k1 + k2 ->
  gives disk (m ≫= f) Q k.
Proof.
  intros Hm Hf -> s Hs. destruct (Hm s Hs) as (a & s1 & E & HP & Hs1 & L1).
  destruct (Hf a HP s1 Hs1) as (b & s2 & E2 & HQ & Hs2 & L2).
  exists b, s2. rewrite (bind_ret f m a s s1 E). repeat split; try done. lia.
Qed.
Lemma gives_ret {A} (a : A) (Q : A -> Prop) : Q a -> gives disk (mret a) Q 0.
Proof. intros HQ s Hs. exists a, s. repeat split; try done. lia. Qed.
Lemma gives_weaken {A} (m : M (ext2 D) A) (P Q : A -> Prop) k :
  gives disk m P k -> (forall a, P a -> Q a) -> gives disk m Q k.
Proof. intros Hm HPQ s Hs. destruct (Hm s Hs) as (a & s' & ? & ? & ?). exists a, s'. auto. Qed.
Lemma gives_kmalloc : gives disk kmalloc_block (fun _ => True) 1.
Proof. intros [d l] Hs. eexists _, _. repeat split; done. Qed.
Lemma gives_kfree : gives disk kfree_block (fun _ => True) (-1).
Proof. intros [d l] Hs. eexists _, _. repeat split; done. Qed.
Lemma gives_checked {A} (x : option A) (Q : A -> Prop) :
  (exists a, x = Some a /\ Q a) -> gives disk (checked x) Q 0.
Proof. intros (a & -> & HQ). by apply gives_ret. Qed.

(** [x ← checked o; ...] with [o] known to be [Some]. *)
Lemma gives_bind_checked {A B} (x : option A) (a : A) (f : A -> M (ext2 D) B) Q k :
  x = Some a -> gives disk (f a) Q k -> gives disk (checked x ≫= f) Q k.
Proof. intros -> Hf s Hs. exact (Hf s Hs). Qed.

(** [kmalloc_block ;; m] and [kfree_block ;; m]. *)
Lemma gives_kmalloc_then {B} (f : unit -> M (ext2 D) B) Q k :
  gives disk (f tt) Q (k - 1) -> gives disk (kmalloc_block ≫= f) Q k.
Proof. intros Hf. eapply gives_bind; [apply gives_kmalloc|intros [] _; exact Hf|lia]. Qed.
Lemma gives_kfree_then {B} (f : unit -> M (ext2 D) B) Q k :
  gives disk (f tt) Q (k + 1) -> gives disk (kfree_block ≫= f) Q k.
Proof. intros Hf. eapply gives_bind; [apply gives_kfree|intros [] _; exact Hf|lia]. Qed.

Lemma blk_size_le : 0 < blk_size <= 1024.
Proof.
  destruct blk_size_ok as [? Hm]. split; [done|].
  destruct (Z.le_gt_cases blk_size 1024); [done|]. rewrite Z.mod_small in Hm; lia.
Qed.

Lemma sectors_length k n : (exists d : D, dev_holds d disk) ->
  length (sectors disk k n) = (n * Z.to_nat blk_size)%nat.
Proof.
  intros [d Hd]. revert k. induction n as [|n IH]; intros k; [done|].
  cbn [sectors Nat.mul]. by rewrite length_app, IH, (disk_block d disk k Hd).
Qed.

(** A sector goes to its place in the buffer. *)
Lemma gives_read_into mbr part blk off dst :
  part_ok mbr part -> 0 <= blk < 2 ^ 62 -> (off + Z.to_nat blk_size <= length dst)%nat ->
  gives disk (read_into (D := D) mbr part blk off dst)
    (fun '(r, dst') => r <> 0 /\
       dst' = take off dst ++ disk (part_lba mbr part + blk) ++ drop (off + Z.to_nat blk_size) dst) 0.
Proof.
  intros (Hp & Hl & Hr) Hb Hoff [d l] Hs. cbn [dev] in Hs. unfold part_lba in *.
  destruct (lookup_lt_is_Some_2 (partitions mbr) (Z.to_nat part)) as [p Ep]; [lia|]. rewrite Ep in *.
  unfold in_range in Hr.
  destruct (read_block_law d disk (first_sector_lba p + blk) Hs) as (d' & r & E & Hr0 & Hs');
    [unfold in_range; lia|].
  pose proof (disk_block d disk (first_sector_lba p + blk) Hs) as Hlen.
  eexists (r, _), (mkExt2 d' l). split.
  - unfold read_into. rewrite (bind_ret _ _ (r, disk (first_sector_lba p + blk)) _ (mkExt2 d' l)).
    + unfold put_at. rewrite Hlen, (proj2 (Nat.leb_le _ _) Hoff). reflexivity.
    + unfold devop. rewrite (zoom_ret _ _ _ (r, disk (first_sector_lba p + blk)) d'); [done|].
      unfold MBR_read_block. rewrite bind_assert by lia. rewrite Ep.
      rewrite wrap_small by (unfold in_range; lia). exact E.
  - cbn [dev live_blocks]. repeat split; try done. lia.
Qed.

Lemma put_join (dst blk rest : list Z) (off n m : nat) :
  length blk = n -> (off + n <= length dst)%nat -> (off + n + m <= length dst)%nat ->
  let mid := take off dst ++ blk ++ drop (off + n) dst in
  take (off + n) mid ++ rest ++ drop (off + n + m) mid
  = take off dst ++ (blk ++ rest) ++ drop (off + (n + m)) dst.
Proof.
  intros Hn H1 H2 mid. subst mid n.
  assert (Ht : length (take off dst ++ blk) = (off + length blk)%nat) by (rewrite length_app, length_take; lia).
  rewrite (app_assoc (take off dst) blk), <- !Ht, take_app_length, drop_app.
  rewrite drop_ge, app_nil_l by lia.
  replace (length (take off dst ++ blk) + m - length (take off dst ++ blk))%nat with m by lia.
  by rewrite drop_drop, Ht, <- !app_assoc, Nat.add_assoc.
Qed.

Lemma gives_read_blocks_checked n mbr part blk off dst :
  part_ok mbr part -> 0 <= blk -> blk + Z.of_nat n < 2 ^ 62 ->
  (off + n * Z.to_nat blk_size <= length dst)%nat ->
  gives disk (read_blocks_checked (D := D) n mbr part blk off dst)
    (eq (true, take off dst ++ sectors disk (part_lba mbr part + blk) n ++ drop (off + n * Z.to_nat blk_size) dst)) 0.
Proof.
  intros Hp Hb. revert blk off dst Hb. induction n as [|n IH]; intros blk off dst Hb0 Hb Hoff.
  { apply gives_ret. cbn [sectors app Nat.mul]. by rewrite Nat.add_0_r, take_drop. }
  intros s Hs. pose proof (disk_block (dev s) disk (part_lba mbr part + blk) Hs) as Hlen.
  revert s Hs. eapply gives_bind; [apply gives_read_into; [done|lia|lia]| |reflexivity].
  intros [r dst'] [Hr ->]. rewrite (proj2 (Z.eqb_neq r 0) Hr).
  rewrite wrap_small by (unfold in_range; lia).
  assert (Hl' : length (take off dst ++ disk (part_lba mbr part + blk) ++ drop (off + Z.to_nat blk_size) dst) = length dst)
    by (rewrite !length_app, length_take, length_drop; lia).
  eapply gives_weaken; [apply IH; [lia|lia|rewrite Hl'; lia]|].
  intros ? <-. f_equal. rewrite put_join by (first [exact Hlen | lia]).
  cbn [sectors Nat.mul]. by rewrite Z.add_assoc.
Qed.

Lemma gives_read_blocks n mbr part blk off dst :
  part_ok mbr part -> 0 <= blk -> blk + Z.of_nat n < 2 ^ 62 ->
  (off + n * Z.to_nat blk_size <= length dst)%nat ->
  gives disk (read_blocks (D := D) n mbr part blk off dst)
    (eq (take off dst ++ sectors disk (part_lba mbr part + blk) n ++ drop (off + n * Z.to_nat blk_size) dst)) 0.
Proof.
  intros Hp Hb. revert blk off dst Hb. induction n as [|n IH]; intros blk off dst Hb0 Hb Hoff.
  { apply gives_ret. cbn [sectors app Nat.mul]. by rewrite Nat.add_0_r, take_drop. }
  intros s Hs. pose proof (disk_block (dev s) disk (part_lba mbr part + blk) Hs) as Hlen.
  revert s Hs. eapply gives_bind; [apply gives_read_into; [done|lia|lia]| |reflexivity].
  intros [r dst'] [Hr ->].
  rewrite wrap_small by (unfold in_range; lia).
  assert (Hl' : length (take off dst ++ disk (part_lba mbr part + blk) ++ drop (off + Z.to_nat blk_size) dst) = length dst)
    by (rewrite !length_app, length_take, length_drop; lia).
  eapply gives_weaken; [apply IH; [lia|lia|rewrite Hl'; lia]|].
  intros ? <-. rewrite put_join by (first [exact Hlen | lia]).
  cbn [sectors Nat.mul]. by rewrite Z.add_assoc.
Qed.

Lemma per_block_ok vsb : vsb_ok vsb ->
  1 <= per_block vsb <= 65536 /\ (Z.to_nat (per_block vsb) * Z.to_nat blk_size = Z.to_nat (block_size vsb))%nat.
Proof.
  intros (_ & Hm & Hs). pose proof blk_size_le as Hb. destruct blk_size_ok as [_ Hk]. unfold per_block.
  assert (E : block_size vsb mod blk_size = 0).
  { apply Z.mod_divide; [lia|]. apply (Z.divide_trans _ 1024); apply Z.mod_divide; lia. }
  apply Z.div_exact in E; [|lia]. remember (block_size vsb / blk_size) as q eqn:Eq. clear Eq.
  rewrite E in Hs. split; [nia|]. rewrite E, <- Z2Nat.inj_mul by nia. f_equal. lia.
Qed.

Lemma fsblock_length vsb b : vsb_ok vsb -> (exists d : D, dev_holds d disk) ->
  length (fsblock disk vsb b) = Z.to_nat (block_size vsb).
Proof. intros Hv Hd. unfold fsblock. rewrite sectors_length by done. by apply per_block_ok. Qed.

(** A buffer of one block gets the file-system block, whatever it held. *)
Lemma gives_ext2_read_block vsb b dst :
  vsb_ok vsb -> 0 <= b < 2 ^ 40 -> length dst = Z.to_nat (block_size vsb) ->
  gives disk (ext2_read_block (D := D) vsb b dst) (eq (true, fsblock disk vsb b)) 0.
Proof.
  intros Hv Hb Hl. pose proof (per_block_ok vsb Hv) as [Hp Hn]. destruct Hv as (Hpart & _ & _).
  unfold ext2_read_block. fold (per_block vsb). cbv zeta.
  rewrite wrap_small by (unfold in_range; nia).
  eapply gives_weaken; [apply gives_read_blocks_checked; [done|nia|nia|lia]|].
  intros ? <-. f_equal. rewrite take_0, Nat.add_0_l, Hn, <- Hl, drop_all, app_nil_r. done.
Qed.

Lemma fresh_buffer_length n : length (fresh_buffer n) = Z.to_nat n.
Proof. apply repeat_length. Qed.

Lemma le32_drop off i buf : le32 i (drop off buf) = le32 (off + i) buf.
Proof. unfold le32, le16. by rewrite !byte_at_drop, !Nat.add_assoc. Qed.
Lemma le32_take n i buf : (i + 4 <= n)%nat -> le32 i (take n buf) = le32 i buf.
Proof. intros. unfold le32, le16. by rewrite !byte_at_take by lia. Qed.

Lemma gives_word_of buf i : (4 * Z.to_nat i + 4 <= length buf)%nat ->
  gives disk (word_of (D := D) buf i) (eq (le32 (4 * Z.to_nat i) buf)) 0.
Proof.
  intros Hl. unfold word_of. eapply gives_bind_checked; [apply slice_ok; exact Hl|].
  apply gives_ret. rewrite le32_take by lia. by rewrite le32_drop, Nat.add_0_r.
Qed.

End reading.

(** ** Inode blocks and file contents *)

Lemma le32_range i buf : Forall is_byte buf -> in_range 32 (le32 i buf).
Proof.
  intros Hb. assert (G : forall k, 0 <= byte_at k buf < 256).
  { intros k. unfold byte_at. destruct (decide (k < length buf)%nat) as [Hk|Hk].
    - by apply (proj1 (Forall_nth is_byte 0 buf) Hb).
    - rewrite nth_overflow by lia. lia. }
  unfold in_range, le32, le16. pose proof (G i). pose proof (G (i + 1)%nat).
  pose proof (G (i + 2)%nat). pose proof (G (i + 2 + 1)%nat). lia.
Qed.

Lemma take_drop_bytes off n buf : (off + n <= length buf)%nat ->
  take n (drop off buf) = (fun k => byte_at (off + k) buf) <$> seq 0 n.
Proof.
  intros Hl. apply list_eq. intros i. destruct (decide (i < n)%nat) as [Hi|Hi].
  - rewrite lookup_take_lt, lookup_drop, list_lookup_fmap, lookup_seq_lt by lia. cbn.
    destruct (lookup_lt_is_Some_2 buf (off + i)) as [b Eb]; [lia|]. rewrite Eb. f_equal.
    symmetry. by apply nth_lookup_Some.
  - rewrite !lookup_ge_None_2; [done| |]; rewrite ?length_fmap, ?length_seq, ?length_take; lia.
Qed.

(** The block pointers an inode on disk has. *)
Definition ext_inode_ok (x : Ext2Inode) : Prop :=
  length (direct_blocks x) = 12%nat /\ Forall (in_range 32) (direct_blocks x) /\ in_range 32 (singly_indirect_block x).

(** The inode with another doubly indirect pointer. *)
Definition with_doubly (v : Z) (x : Ext2Inode) : Ext2Inode :=
  mkExtInode (mode x) (uid x) (size_low x) (gid x) (direct_blocks x) (singly_indirect_block x) v
    (triply_indirect_block x) (size_high x).

Section files.
Context {D : Type} `{BlockDeviceLaws D}.
Context (disk : Z -> list Z) (Hdisk : forall n, Forall is_byte (disk n)).
Context (vsb : Ext2VfsSuperBlock) (Hvsb : vsb_ok vsb).

Lemma sectors_bytes k n : Forall is_byte (sectors disk k n).
Proof.
  revert k. induction n as [|n IH]; intros k; [constructor|]. cbn [sectors].
  apply Forall_app. split; [apply Hdisk|apply IH].
Qed.

Lemma inode_block_num_range x i : ext_inode_ok x -> 0 <= i -> in_range 32 (inode_block_num disk vsb x i).
Proof.
  intros (Hl & Hd & Hs) Hi. unfold inode_block_num, NUM_DIRECT_BLOCKS. destruct (Z.ltb_spec i 12).
  - apply (proj1 (Forall_nth _ 0 _) Hd). lia.
  - apply le32_range, sectors_bytes.
Qed.

(** The three ways to a block that [direct_span] covers. *)
Lemma gives_read_inode_block vino i dst :
  ext_inode_ok (ext_in vino) -> 0 <= i < direct_span vsb -> length dst = Z.to_nat (block_size vsb) ->
  gives disk (read_inode_block (D := D) vsb vino i dst) (eq (inode_block disk vsb (ext_in vino) i)) 0.
Proof.
  intros Hx Hi Hl s Hs. pose proof (ex_intro (fun d => dev_holds d disk) (dev s) Hs) as Hd. revert s Hs.
  pose proof (inode_block_num_range (ext_in vino) i Hx ltac:(lia)) as Hr.
  destruct Hx as (Hl12 & HD & HS). unfold inode_block. unfold direct_span, NUM_DIRECT_BLOCKS in Hi.
  unfold read_inode_block, inode_block_num, NUM_DIRECT_BLOCKS in *. unfold in_range in Hr, HS. cbv zeta.
  revert Hr. destruct (Z.ltb_spec i 12) as [Hlt|Hge]; intros Hr.
  - destruct (lookup_lt_is_Some_2 (direct_blocks (ext_in vino)) (Z.to_nat i)) as [b Eb]; [lia|].
    rewrite (nth_lookup_Some _ _ 0 b Eb) in *.
    eapply gives_bind_checked; [exact Eb|].
    eapply gives_bind; [apply gives_ext2_read_block; [done|lia|done]| |reflexivity].
    intros ? <-. by apply gives_ret.
  - destruct Hvsb as (_ & Hm & Hb).
    rewrite (wrap_small 64 (i - 12)) by (unfold in_range; zdm). rewrite (proj2 (Z.ltb_lt (i - 12) (block_size vsb / 4))) by lia.
    apply gives_kmalloc_then.
    eapply gives_bind; [apply gives_ext2_read_block; [done|lia|apply fresh_buffer_length]| |].
    2: reflexivity.
    intros ? <-. eapply gives_bind.
    { apply gives_word_of. rewrite fsblock_length by done. zdm. }
    2: reflexivity.
    intros ? <-. eapply gives_bind; [apply gives_ext2_read_block; [done|lia|done]| |reflexivity].
    intros ? <-. apply gives_kfree_then. by apply gives_ret.
Qed.

(** Block [i] of an inode is read through its direct block pointers or its singly
    indirect block, and what was taken from the allocator is given back. *)
Theorem read_inode_block_correct vino i dst s :
  dev_holds (dev s) disk -> ext_inode_ok (ext_in vino) -> 0 <= i < direct_span vsb ->
  length dst = Z.to_nat (block_size vsb) ->
  exists s', read_inode_block vsb vino i dst s = Ret (inode_block disk vsb (ext_in vino) i) s' /\
    dev_holds (dev s') disk /\ live_blocks s' = live_blocks s.
Proof.
  intros Hs Hx Hi Hl. destruct (gives_read_inode_block vino i dst Hx Hi Hl s Hs) as (? & s' & E & <- & Hs' & L).
  exists s'. repeat split; try done. lia.
Qed.

(** Beyond the reach of the singly indirect block the doubly indirect pointer of
    the inode is never looked at: the range is read through the singly indirect
    block again. *)
Theorem doubly_indirect_unused n md u g sz x v i dst :
  direct_span vsb <= i < direct_span vsb + (block_size vsb / 4) * (block_size vsb / 4) ->
  read_inode_block (D := D) vsb (mkInode n md u g sz (with_doubly v x)) i dst
  = read_inode_block vsb (mkInode n md u g sz x) i dst.
Proof.
  intros Hi. destruct Hvsb as (_ & Hm & Hb). unfold direct_span, NUM_DIRECT_BLOCKS in Hi.
  assert (Hq : 0 < block_size vsb / 4 <= 16384) by zdm.
  set (q := block_size vsb / 4) in *.
  unfold read_inode_block, NUM_DIRECT_BLOCKS. fold q. cbv zeta.
  rewrite (wrap_small 64 (i - 12)), (wrap_small 64 (i - 12 - q)), (wrap_small 64 (q * q)) by (unfold in_range; nia).
  rewrite !(proj2 (Z.ltb_ge i 12)), !(proj2 (Z.ltb_ge (i - 12) q)), !(proj2 (Z.ltb_lt (i - 12 - q) (q * q))) by lia.
  reflexivity.
Qed.

Lemma file_bytes_app x c n k : file_bytes disk vsb x c (n + k) =
  file_bytes disk vsb x c n ++ file_bytes disk vsb x (c + Z.of_nat n) k.
Proof.
  unfold file_bytes. rewrite seq_app, fmap_app. f_equal. cbn.
  rewrite <- (Nat.add_0_r n) at 1. rewrite <- fmap_add_seq, <- list_fmap_compose.
  apply list_fmap_ext. intros ? k' _. cbn. f_equal. lia.
Qed.

(** A chunk within one block. *)
Lemma file_bytes_slice x c n : (exists d : D, dev_holds d disk) -> 0 <= c -> 0 <= n ->
  c mod block_size vsb + n <= block_size vsb ->
  slice (Z.to_nat (c mod block_size vsb)) (Z.to_nat n) (inode_block disk vsb x (c / block_size vsb))
  = Some (file_bytes disk vsb x c (Z.to_nat n)).
Proof.
  intros Hd Hc Hn Hle. destruct (Hvsb) as (_ & _ & Hb).
  pose proof (Z.mod_pos_bound c (block_size vsb) ltac:(lia)) as Hm.
  assert (Hl : length (inode_block disk vsb x (c / block_size vsb)) = Z.to_nat (block_size vsb)) by by apply fsblock_length.
  rewrite slice_ok by lia. f_equal. rewrite take_drop_bytes by lia.
  unfold file_bytes. apply list_fmap_ext. intros k k' Hk. apply lookup_seq in Hk as [-> Hk].
  unfold file_byte. cbn [Nat.add].
  assert (Hq : (c + Z.of_nat k) / block_size vsb = c / block_size vsb /\
               (c + Z.of_nat k) mod block_size vsb = c mod block_size vsb + Z.of_nat k).
  { pose proof (Z.div_mod c (block_size vsb) ltac:(lia)).
    split; symmetry; [apply (Z.div_unique _ _ _ (c mod block_size vsb + Z.of_nat k))
                     |apply (Z.mod_unique _ _ (c / block_size vsb))]; lia. }
  destruct Hq as [-> ->]. f_equal. lia.
Qed.

Lemma gives_int_add a b : a + b < 2 ^ 31 -> gives disk (int_add (D := D) a b) (eq (a + b)) 0.
Proof. intros. apply gives_checked. exists (a + b). by rewrite (proj2 (Z.ltb_lt _ _)) by lia. Qed.

(** How far a read from [cur] of [len] bytes goes, and when the code stops there: the
    request ends inside the file, or beyond the file's last block. *)
Definition read_end (size cur len : Z) : Z := cur `max` ((cur + len) `min` size).
Definition read_stops (size cur len : Z) : Prop :=
  cur + len <= size \/ blocks_of vsb size * block_size vsb < cur + len.

(** An unaligned cursor: the first copy runs to the end of its block. *)
Definition first_fits (size cur len : Z) : Prop :=
  cur mod block_size vsb = 0 \/ (cur / block_size vsb + 1) * block_size vsb <= read_end size cur len.

Lemma blocks_of_bound size : 0 <= size ->
  size <= blocks_of vsb size * block_size vsb /\
  (forall k, k * block_size vsb < size -> (k + 1) * block_size vsb <= blocks_of vsb size * block_size vsb).
Proof.
  intros Hs. destruct Hvsb as (_ & _ & Hb). unfold blocks_of.
  pose proof (Z.div_mod size (block_size vsb) ltac:(lia)) as E.
  pose proof (Z.mod_pos_bound size (block_size vsb) ltac:(lia)) as Hm.
  destruct (Z.eqb_spec (size mod block_size vsb) 0) as [E0|E0]; cbn [negb Z.b2z].
  - split; [nia|]. intros k Hk. assert (k < size / block_size vsb) by nia. nia.
  - split; [nia|]. intros k Hk. assert (k <= size / block_size vsb) by nia. nia.
Qed.

(** What one round copies: never nothing, never past the end, up to a block boundary
    or to the end. *)
Definition round_copied (size len r cur : Z) : Z :=
  let bs := block_size vsb in
  if negb (cur mod bs =? 0) then bs - cur mod bs
  else if r + bs >=? len then len - r
  else if cur + bs >=? size then size - cur else bs.

Lemma round_copied_ok size len r cur :
  0 <= cur < size -> 0 <= r < len ->
  first_fits size cur (len - r) -> read_stops size cur (len - r) ->
  let c := round_copied size len r cur in
  0 < c /\ cur mod block_size vsb + c <= block_size vsb /\ cur + c <= read_end size cur (len - r) /\
  (cur + c = read_end size cur (len - r) \/
   (cur + c) mod block_size vsb = 0 /\ (cur + c) / block_size vsb = cur / block_size vsb + 1).
Proof.
  intros Hcur Hr Hf Hs c. subst c. destruct Hvsb as (_ & _ & Hb).
  destruct (blocks_of_bound size ltac:(lia)) as [_ Hbl].
  pose proof (Z.div_mod cur (block_size vsb) ltac:(lia)) as E.
  pose proof (Z.mod_pos_bound cur (block_size vsb) ltac:(lia)) as Hm.
  set (bs := block_size vsb) in *. set (q := cur / bs) in *.
  assert (Hnext : cur + (bs - cur mod bs) = (q + 1) * bs) by lia.
  assert (Hal : (q + 1) * bs mod bs = 0 /\ (q + 1) * bs / bs = q + 1)
    by (rewrite Z.mod_mul, Z.div_mul; lia).
  unfold round_copied, first_fits, read_stops, read_end in *. fold bs q in Hf, Hs |- *. cbv zeta.
  destruct (Z.eqb_spec (cur mod bs) 0) as [E0|E0]; cbn [negb].
  - specialize (Hbl q). assert (Hq : q * bs = cur) by lia.
    rewrite !Z.geb_leb. zcases; rewrite ?E0; try lia.
    repeat split; [lia|lia|lia|]. right. replace (cur + bs) with ((q + 1) * bs) by lia. done.
  - rewrite Hnext. repeat split; try lia; right; done.
Qed.

Lemma gives_file_read_loop vino len : ext_inode_ok (ext_in vino) ->
  st_size vino <= direct_span vsb * block_size vsb ->
  forall fuel r cur content out, len - r <= Z.of_nat fuel -> 0 <= r -> 0 <= cur ->
  r <= cur -> cur + (len - r) < 2 ^ 31 -> length content = Z.to_nat (block_size vsb) ->
  first_fits (st_size vino) cur (len - r) -> read_stops (st_size vino) cur (len - r) ->
  let e := read_end (st_size vino) cur (len - r) in
  gives disk (file_read_loop (D := D) fuel vsb vino len r cur (cur / block_size vsb) content out)
    (eq (r + (e - cur), e, out ++ file_bytes disk vsb (ext_in vino) cur (Z.to_nat (e - cur)))) 0.
Proof.
  intros Hx Hsz. pose proof Hvsb as (_ & _ & Hb).
  induction fuel as [|fuel IH]; intros r cur content out Hfu Hr Hc Hrc Hov Hl Hf Hst e;
    cbn [file_read_loop]; subst e;
    (destruct (Z.ltb_spec r len) as [Hlt|Hge]; cbn [andb];
     [destruct (Z.ltb_spec cur (st_size vino)) as [Hlt2|Hge2]|]).
  1: lia.
  1, 2, 4, 5: apply gives_ret; unfold read_end in *;
    match goal with |- context [?y `max` ?x] => replace (y `max` x) with y by lia end;
    rewrite Z.sub_diag, Z.add_0_r; cbn; by rewrite app_nil_r.
  intros s Hs. pose proof (ex_intro (fun d => dev_holds d disk) (dev s) Hs) as Hd. revert s Hs.
  assert (Hq : 0 <= cur / block_size vsb < direct_span vsb).
  { split; [apply Z.div_pos; lia|apply Z.div_lt_upper_bound; lia]. }
  destruct (round_copied_ok (st_size vino) len r cur) as (C1 & C2 & C3 & C4); try done.
  set (c := round_copied (st_size vino) len r cur) in *.
  eapply gives_bind; [by apply gives_read_inode_block| |reflexivity]. intros ? <-.
  eapply (gives_bind _ _ _ (eq (cur mod block_size vsb, c)) _ 0 0); [| |reflexivity].
  { subst c. unfold round_copied.
    destruct (Z.eqb_spec (cur mod block_size vsb) 0) as [E0|E0]; cbn [negb]; [rewrite E0|by apply gives_ret].
    destruct (r + block_size vsb >=? len); [by apply gives_ret|].
    destruct (cur + block_size vsb >=? st_size vino); by apply gives_ret. }
  intros ? <-. pose proof (Z.mod_pos_bound cur (block_size vsb) ltac:(lia)).
  eapply gives_bind_checked; [apply file_bytes_slice; [done|lia|lia|lia]|].
  assert (Hre : read_end (st_size vino) cur (len - r) <= cur + (len - r)) by (unfold read_end; lia).
  eapply gives_bind; [apply gives_int_add; lia| |reflexivity]. intros ? <-.
  eapply gives_bind; [apply gives_int_add; lia| |reflexivity]. intros ? <-.
  assert (He : read_end (st_size vino) (cur + c) (len - (r + c)) = read_end (st_size vino) cur (len - r))
    by (unfold read_end in *; lia).
  destruct C4 as [C4|[C4 C5]].
  - (* the end is reached: the next test leaves the loop *)
    assert (Hout : (r + c <? len) && (cur + c <? st_size vino) = false).
    { unfold read_end in C4. destruct (Z.ltb_spec (r + c) len), (Z.ltb_spec (cur + c) (st_size vino)); try done; lia. }
    destruct fuel; cbn [file_read_loop]; rewrite Hout; apply gives_ret;
      rewrite <- C4; (f_equal; [f_equal; lia|]); do 2 f_equal; f_equal; lia.
  - rewrite <- C5. eapply gives_weaken; [apply IH; try lia|].
    + by apply fsblock_length.
    + left. done.
    + unfold read_stops in *. lia.
    + intros ? <-. rewrite He. f_equal; [f_equal; lia|].
      rewrite <- app_assoc. f_equal.
      replace (Z.to_nat (read_end (st_size vino) cur (len - r) - cur))
        with (Z.to_nat c + Z.to_nat (read_end (st_size vino) cur (len - r) - (cur + c)))%nat by lia.
      rewrite file_bytes_app. do 2 f_equal. lia.
Qed.

Lemma gives_file_read f len :
  let x := ext_in (f_inode f) in let size := st_size (f_inode f) in
  let e := read_end size (cursor f) len in
  ext_inode_ok x -> size <= direct_span vsb * block_size vsb ->
  0 <= cursor f -> 0 <= len -> cursor f + len < 2 ^ 31 ->
  first_fits size (cursor f) len -> read_stops size (cursor f) len ->
  gives disk (ext2_file_read vsb f len)
    (eq (e - cursor f, file_bytes disk vsb x (cursor f) (Z.to_nat (e - cursor f)), mkFile (f_inode f) e)) 1.
Proof.
  intros x size e Hx Hsz Hc Hl Hov Hf Hst. unfold ext2_file_read. apply gives_kmalloc_then.
  eapply gives_bind; [apply gives_file_read_loop; rewrite ?Z.sub_0_r; try done; try lia; apply fresh_buffer_length| |reflexivity].
  intros ? <-. apply gives_ret. rewrite Z.sub_0_r. done.
Qed.


(** A request that its first block can fill is given in full, wherever the file ends. *)
Theorem ext2_file_read_ignores_size f len s :
  let x := ext_in (f_inode f) in
  dev_holds (dev s) disk -> ext_inode_ok x -> st_size (f_inode f) <= direct_span vsb * block_size vsb ->
  0 <= cursor f < st_size (f_inode f) -> cursor f mod block_size vsb = 0 ->
  0 < len <= block_size vsb -> cursor f + len < 2 ^ 31 ->
  exists s', ext2_file_read vsb f len s
    = Ret (len, file_bytes disk vsb x (cursor f) (Z.to_nat len), mkFile (f_inode f) (cursor f + len)) s'.
Proof.
  intros x Hs Hx Hsz Hc Hal Hl Hov. pose proof (ex_intro (fun d => dev_holds d disk) (dev s) Hs) as Hd.
  enough (G : gives disk (ext2_file_read vsb f len)
    (eq (len, file_bytes disk vsb x (cursor f) (Z.to_nat len), mkFile (f_inode f) (cursor f + len))) 1).
  { destruct (G s Hs) as (? & s' & E & <- & ? & ?). exists s'. done. }
  unfold ext2_file_read. apply gives_kmalloc_then.
  destruct (Z.to_nat len) as [|fuel] eqn:Ef in |- * at 1; [lia|]. cbn [file_read_loop].
  rewrite (proj2 (Z.ltb_lt 0 len)), (proj2 (Z.ltb_lt (cursor f) _)) by lia. cbn [andb].
  assert (Hq : 0 <= cursor f / block_size vsb < direct_span vsb).
  { split; [apply Z.div_pos; lia|apply Z.div_lt_upper_bound; lia]. }
  eapply (gives_bind _ _ _ (eq (len, cursor f + len, file_bytes disk vsb x (cursor f) (Z.to_nat len))) _ 0 0);
    [|intros ? <-; by apply gives_ret|done].
  eapply gives_bind; [apply gives_read_inode_block; [done|done|apply fresh_buffer_length]| |reflexivity].
  intros ? <-. rewrite Hal. cbn [negb Z.eqb]. rewrite Z.geb_leb, (proj2 (Z.leb_le _ _)) by lia.
  rewrite Z.sub_0_r. eapply gives_bind_checked.
  { pose proof (file_bytes_slice x (cursor f) len Hd ltac:(lia) ltac:(lia) ltac:(lia)) as E.
    rewrite Hal in E. exact E. }
  eapply gives_bind; [apply gives_int_add; lia| |reflexivity]. intros ? <-.
  eapply gives_bind; [apply gives_int_add; lia| |reflexivity]. intros ? <-.
  rewrite Z.add_0_l, app_nil_l.
  destruct fuel; cbn [file_read_loop]; rewrite Z.ltb_irrefl; by apply gives_ret.
Qed.

(** *** Inodes *)

(** A superblock whose inodes lie whole in their blocks. *)
Record sb_ok : Prop := {
  ok_inodes : in_range 32 (num_inodes (ext_sb vsb));
  ok_group : 0 < num_group_inodes (ext_sb vsb) < 2 ^ 32;
  ok_size : 112 <= inode_size (ext_sb vsb) /\ block_size vsb mod inode_size (ext_sb vsb) = 0;
  ok_groups : 0 <= num_groups vsb <= 2 ^ 32;
  ok_table : 32 * num_groups vsb <= Z.of_nat (length (grp_table vsb)) \/
             32 * ((num_inodes (ext_sb vsb) - 1) / num_group_inodes (ext_sb vsb) + 1) <= Z.of_nat (length (grp_table vsb));
  ok_bytes : Forall is_byte (grp_table vsb) }.

(** The inode table of a group, and what [read_inode] is to find. *)
Definition group_table (g : Z) : Z := le32 (32 * Z.to_nat g + 8) (grp_table vsb).
Definition find_inode (n : Z) : option Ext2VfsInode :=
  let g := (n - 1) / num_group_inodes (ext_sb vsb) in
  if (n =? 0) || (num_inodes (ext_sb vsb) <? n) || (num_groups vsb <=? g) then None
  else Some (inode_at disk vsb (group_table g) n).
Definition inode_cost (o : option Ext2VfsInode) : Z := match o with Some _ => 2 | None => 0 end.

Lemma decode_inode_take off n buf : (112 <= n)%nat ->
  decode_inode (take n (drop off buf)) = decode_inode (drop off buf).
Proof.
  intros Hn. unfold decode_inode. cbn [seq fmap list_fmap].
  rewrite !le32_take by lia. unfold le16. by rewrite !byte_at_take by lia.
Qed.

Lemma decode_inode_ok buf : Forall is_byte buf -> ext_inode_ok (decode_inode buf).
Proof.
  intros Hb. repeat split; [|apply le32_range; done ..].
  apply Forall_fmap, Forall_true. intros i. by apply le32_range.
Qed.

Lemma size_or hi lo : in_range 32 hi -> in_range 32 lo ->
  Z.lor (u64 (Z.shiftl hi 32)) lo = lo + 2 ^ 32 * hi.
Proof.
  intros Hh Hl. rewrite wrap_small by (rewrite Z.shiftl_mul_pow2 by lia; unfold in_range in *; lia).
  rewrite <- Z.lxor_lor, <- Z.add_nocarry_lxor; [rewrite Z.shiftl_mul_pow2; lia|..];
    apply Z.bits_inj'; intros i Hi; rewrite Z.land_spec, Z.bits_0, Z.shiftl_spec by lia;
    (destruct (decide (i < 32)); [by rewrite Z.testbit_neg_r by lia|]);
    by rewrite (in_range_bits 32 lo i), andb_false_r by (done || lia).
Qed.

Lemma forall_byte_drop n l : Forall is_byte l -> Forall is_byte (drop n l).
Proof. apply Forall_drop. Qed.

Lemma gives_inode_init x n : gives disk (ext2_vfs_inode_init (D := D) x n)
  (eq (mkInode (u32 n) (mode x) (uid x) (gid x) (Z.lor (u64 (Z.shiftl (size_high x) 32)) (size_low x)) x)) 1.
Proof. apply gives_kmalloc_then. by apply gives_ret. Qed.

Lemma gives_read_inode n : sb_ok -> in_range 64 n ->
  gives disk (read_inode (D := D) vsb n) (eq (find_inode n)) (inode_cost (find_inode n)).
Proof.
  intros [Hni Hg [Hz Hzm] Hgs Ht Hby] Hn. unfold in_range in Hni, Hn.
  pose proof (Hvsb) as (Hp & Hm & Hb). unfold read_inode, find_inode. cbv zeta.
  set (ngi := num_group_inodes (ext_sb vsb)) in *. set (isz := inode_size (ext_sb vsb)) in *.
  rewrite Z.gtb_ltb. destruct (Z.ltb_spec (num_inodes (ext_sb vsb)) n) as [Hbig|Hbig].
  { rewrite orb_true_r. by apply gives_ret. }
  rewrite (proj2 (Z.eqb_neq ngi 0)) by lia. rewrite orb_false_r, Z.geb_leb.
  destruct (Z.eqb_spec n 0) as [->|Hn0].
  { change (u64 (0 - 1)) with (2 ^ 64 - 1).
    rewrite (proj2 (Z.leb_le _ _)); [by apply gives_ret|]. apply Z.div_le_lower_bound; [lia|]. nia. }
  rewrite (wrap_small 64 (n - 1)) by (unfold in_range; lia). cbn [orb].
  destruct (Z.leb_spec (num_groups vsb) ((n - 1) / ngi)) as [Hgr|Hgr]; [by apply gives_ret|].
  cbn [inode_cost]. set (g := (n - 1) / ngi) in *.
  assert (Hg0 : 0 <= g) by (apply Z.div_pos; lia).
  assert (Hgl : (32 * Z.to_nat g + 32 <= length (grp_table vsb))%nat).
  { destruct Ht as [Ht|Ht]; [lia|].
    assert (g <= (num_inodes (ext_sb vsb) - 1) / ngi) by (apply Z.div_le_mono; lia). lia. }
  eapply gives_bind_checked.
  { unfold start_block_addr_inode_table. rewrite slice_ok by done. cbn.
    rewrite le32_take by lia. rewrite le32_drop. reflexivity. }
  pose proof (Z.mod_pos_bound (n - 1) ngi ltac:(lia)) as Hi. set (i := (n - 1) mod ngi) in *.
  assert (Hiz : isz <= block_size vsb).
  { destruct (Z.le_gt_cases isz (block_size vsb)); [done|]. rewrite Z.mod_small in Hzm; lia. }
  rewrite (wrap_small 64 (i * isz)) by (unfold in_range; nia).
  assert (Ho : 0 <= i * isz / block_size vsb <= i).
  { split; [apply Z.div_pos; nia|]. apply Z.div_le_upper_bound; nia. }
  fold (group_table g). assert (Hgt : in_range 32 (group_table g)) by by apply le32_range.
  unfold in_range in Hgt. rewrite (wrap_small 64 (group_table g + _)) by (unfold in_range; lia).
  destruct (per_block_ok vsb Hvsb) as [Hpb Hpn]. fold (per_block vsb).
  rewrite wrap_small by (unfold in_range; nia).
  apply gives_kmalloc_then.
  eapply gives_bind; [apply gives_read_blocks; [done|nia|nia|rewrite fresh_buffer_length; lia]| |].
  2: reflexivity.
  intros ? <-. rewrite take_0, app_nil_l, Nat.add_0_l, Hpn, drop_ge, app_nil_r by (rewrite fresh_buffer_length; lia).
  fold (fsblock disk vsb (group_table g + i * isz / block_size vsb)).
  apply gives_kmalloc_then. intros s Hs.
  pose proof (fsblock_length disk vsb (group_table g + i * isz / block_size vsb) Hvsb
    (ex_intro (fun d => dev_holds d disk) (dev s) Hs)) as Hlb. revert s Hs.
  assert (Hoff : 0 <= (i * isz) mod block_size vsb /\ (i * isz) mod block_size vsb + 112 <= block_size vsb).
  { pose proof (Z.mod_pos_bound (i * isz) (block_size vsb) ltac:(lia)) as Hmb. split; [lia|].
    apply Z.div_exact in Hzm; [|lia]. set (q := block_size vsb / isz) in *.
    rewrite Hzm in Hmb |- *. rewrite (Z.mul_comm i), Z.mul_mod_distr_l in * by nia.
    assert (i mod q < q) by (apply Z.mod_pos_bound; nia). nia. }
  eapply gives_bind_checked; [apply slice_ok; unfold EXT2_INODE_SIZE; lia|].
  apply gives_kfree_then. eapply (gives_bind _ _ _ _ _ 1 0); [apply gives_inode_init| |reflexivity].
  intros ? <-. apply gives_ret. f_equal. unfold inode_at. cbv zeta. fold isz ngi i.
  unfold EXT2_INODE_SIZE. rewrite decode_inode_take by lia.
  rewrite size_or, wrap_small by (unfold in_range; try lia; apply le32_range, forall_byte_drop, sectors_bytes).
  done.
Qed.

(** Inode [n] is decoded from its place in the table of its group; inode 0, an inode
    beyond the file system's or of a group it does not have is refused. *)
Theorem read_inode_correct n s : sb_ok -> in_range 64 n -> dev_holds (dev s) disk ->
  exists s', read_inode vsb n s = Ret (find_inode n) s' /\ dev_holds (dev s') disk /\
    live_blocks s' = live_blocks s + inode_cost (find_inode n) /\
    (forall v, find_inode n = Some v -> ino v = n /\ ext_inode_ok (ext_in v)).
Proof.
  intros Hsb Hn Hs. destruct (gives_read_inode n Hsb Hn s Hs) as (? & s' & E & <- & Hs' & L).
  exists s'. repeat split; try done; unfold find_inode in H1; cbv zeta in H1;
    destruct (_ || _); try done; injection H1 as <-; [done|..];
    apply decode_inode_ok, forall_byte_drop, sectors_bytes.
Qed.

(** *** Directories *)

(** A directory entry: its header, name and the padding to its [entry_size]. *)
Record dirent := mkDirent { d_ino : Z; d_name : list Z; d_type : Z; d_pad : list Z }.
Definition entry_size (e : dirent) : Z := Z.of_nat (8 + length (d_name e) + length (d_pad e)).
Definition enc_dirent (e : dirent) : list Z :=
  enc32 (d_ino e) ++ enc16 (entry_size e) ++ [Z.of_nat (length (d_name e)); d_type e] ++ d_name e ++ d_pad e.
Definition dirent_ok (e : dirent) : Prop :=
  1 <= d_ino e < 2 ^ 32 /\ (length (d_name e) < 256)%nat /\ entry_size e mod 4 = 0 /\ entry_size e < 2 ^ 16.

(** A directory block: entries up to its end, or up to one without an inode. *)
Definition dir_block (es : list dirent) (tail : list Z) : list Z := concat (enc_dirent <$> es) ++ tail.
Definition dir_block_ok (es : list dirent) (tail : list Z) : Prop :=
  Forall dirent_ok es /\ (tail = [] \/ (4 <= length tail)%nat /\ le32 0 tail = 0).

(** What the callback is given for an entry. *)
Definition entry_seen (e : dirent) : entry_call := (d_name e, find_inode (d_ino e)).
Definition entries_cost (es : list dirent) : Z :=
  foldr (fun e k => inode_cost (find_inode (d_ino e)) + k) 0 es.

Lemma enc_dirent_length e : Z.of_nat (length (enc_dirent e)) = entry_size e.
Proof. unfold enc_dirent, entry_size. rewrite !length_app. cbn. lia. Qed.

(** The header and the name of an entry, wherever it is in a block. *)
Lemma dirent_fields pre e rest : dirent_ok e ->
  slice (length pre) 4 (pre ++ enc_dirent e ++ rest) = Some (enc32 (d_ino e)) /\
  slice (length pre) 8 (pre ++ enc_dirent e ++ rest)
    = Some (enc32 (d_ino e) ++ enc16 (entry_size e) ++ [Z.of_nat (length (d_name e)); d_type e]) /\
  slice (length pre + 8) (length (d_name e)) (pre ++ enc_dirent e ++ rest) = Some (d_name e).
Proof.
  intros (Hi & Hn & _ & Hs). pose proof (enc_dirent_length e) as El. unfold entry_size in El.
  repeat split; (rewrite slice_ok by (rewrite !length_app; lia)); f_equal.
  - rewrite drop_app_length. unfold enc_dirent. rewrite <- !app_assoc. reflexivity.
  - rewrite drop_app_length. unfold enc_dirent. rewrite <- !app_assoc. reflexivity.
  - rewrite drop_app_ge by lia. replace (length pre + 8 - length pre)%nat with 8%nat by lia.
    unfold enc_dirent. rewrite <- !app_assoc. cbn. apply take_app_length.
Qed.

Lemma gives_readdir_block es : sb_ok -> forall fuel pre tail acc,
  dir_block_ok es tail -> (length es <= fuel)%nat ->
  Z.of_nat (length pre) mod 4 = 0 ->
  Z.of_nat (length (pre ++ dir_block es tail)) = block_size vsb ->
  gives disk (readdir_block (D := D) fuel vsb (pre ++ dir_block es tail) (Z.of_nat (length pre)) acc)
    (eq (acc ++ (entry_seen <$> es))) (entries_cost es).
Proof.
  intros Hsb. induction es as [|e es IH]; intros fuel pre tail acc [Hes Ht] Hf Hal Hlen.
  - cbn [fmap list_fmap entries_cost foldr]. rewrite app_nil_r. unfold dir_block in *. cbn [concat fmap list_fmap app] in *.
    rewrite length_app in Hlen. destruct fuel; cbn [readdir_block]; rewrite Nat2Z.id;
      (destruct (Z.ltb_spec (Z.of_nat (length pre)) (block_size vsb)) as [Hlt|Hge]; [|by apply gives_ret]);
      (destruct Ht as [->|[Hl4 H0']]; [cbn in *; lia|]);
      (eapply gives_bind_checked; [apply slice_ok; rewrite length_app; lia|]);
      rewrite drop_app_length, le32_take, H0' by lia; by apply gives_ret.
  - destruct fuel as [|fuel]; [cbn in Hf; lia|]. apply Forall_cons in Hes as [He Hes].
    unfold dir_block in *. cbn [fmap list_fmap concat] in *. rewrite <- !app_assoc in *.
    destruct (dirent_fields pre e (concat (enc_dirent <$> es) ++ tail) He) as (F4 & F8 & Fn).
    destruct He as (Hi & Hn & H4 & H16). pose proof (enc_dirent_length e) as El.
    rewrite !length_app in Hlen. cbn [readdir_block]. rewrite Nat2Z.id.
    rewrite (proj2 (Z.ltb_lt _ _)) by (unfold entry_size in El; lia).
    eapply gives_bind_checked; [exact F4|].
    rewrite <- (app_nil_r (enc32 _)), le32_enc by (unfold in_range; lia).
    rewrite (proj2 (Z.eqb_neq _ _)) by lia.
    eapply gives_bind_checked; [exact F8|].
    assert (E6 : byte_at 6 (enc32 (d_ino e) ++ enc16 (entry_size e) ++ [Z.of_nat (length (d_name e)); d_type e])
                 = Z.of_nat (length (d_name e))) by reflexivity.
    assert (E4 : le16 4 (enc32 (d_ino e) ++ enc16 (entry_size e) ++ [Z.of_nat (length (d_name e)); d_type e]) = entry_size e).
    { change 4%nat with (length (enc32 (d_ino e)) + 0)%nat. rewrite le16_app_r. apply le16_enc.
      unfold in_range, entry_size in *. lia. }
    rewrite E6, E4, le32_enc, Nat2Z.id by (unfold in_range; lia).
    apply gives_kmalloc_then. eapply gives_bind_checked; [exact Fn|].
    eapply gives_bind; [apply gives_read_inode; [done|unfold in_range; lia]| |].
    2: instantiate (1 := -1 + entries_cost es); cbn [entries_cost foldr]; fold (entries_cost es); lia.
    intros ? <-. apply gives_kfree_then.
    assert (Ha : align_pointer (Z.of_nat (length pre) + entry_size e) 4 true = Z.of_nat (length (pre ++ enc_dirent e))).
    { unfold align_pointer. rewrite length_app, Nat2Z.inj_add, El.
      replace ((Z.of_nat (length pre) + entry_size e) mod 4) with 0 by zdm. done. }
    rewrite Ha. replace (-1 + entries_cost es + 1) with (entries_cost es) by lia.
    rewrite (app_assoc pre). fold (dir_block es tail).
    eapply gives_weaken; [apply IH|].
    + done.
    + cbn in Hf. lia.
    + rewrite length_app, Nat2Z.inj_add, El. zdm.
    + unfold dir_block. rewrite !length_app. lia.
    + intros ? <-. cbn [fmap list_fmap]. by rewrite <- app_assoc.
Qed.

Lemma entries_le_length es tail : (length es <= length (dir_block es tail))%nat.
Proof.
  unfold dir_block. rewrite length_app. enough (length es <= length (concat (enc_dirent <$> es)))%nat by lia.
  induction es as [|e es IH]; [done|]. rewrite fmap_cons. cbn [concat length].
  pose proof (enc_dirent_length e) as El. unfold entry_size in El. rewrite length_app. lia.
Qed.

(** A directory on disk: the blocks of its content. *)
Definition dir_on_disk (x : Ext2Inode) (blocks : list (list dirent * list Z)) (first : Z) : Prop :=
  forall i b, blocks !! i = Some b ->
    dir_block_ok b.1 b.2 /\ inode_block disk vsb x (first + Z.of_nat i) = dir_block b.1 b.2.

Lemma gives_readdir_blocks vino blocks : sb_ok -> ext_inode_ok (ext_in vino) -> forall i content acc,
  0 <= i -> i + Z.of_nat (length blocks) <= direct_span vsb ->
  length content = Z.to_nat (block_size vsb) -> dir_on_disk (ext_in vino) blocks i ->
  gives disk (readdir_blocks (D := D) (length blocks) vsb vino i content acc)
    (eq (acc ++ (entry_seen <$> concat blocks.*1))) (entries_cost (concat blocks.*1)).
Proof.
  intros Hsb Hx. induction blocks as [|b blocks IH]; intros i content acc Hi Hsp Hl Hd; cbn [length readdir_blocks].
  { apply gives_ret. cbn. by rewrite app_nil_r. }
  cbn [length] in Hsp. destruct (Hd 0%nat b eq_refl) as [Hb Eb]. rewrite Z.add_0_r in Eb.
  intros s Hs. pose proof (fsblock_length disk vsb (inode_block_num disk vsb (ext_in vino) i) Hvsb
    (ex_intro (fun d => dev_holds d disk) (dev s) Hs)) as Hlb.
  fold (inode_block disk vsb (ext_in vino) i) in Hlb. revert s Hs. pose proof (Hvsb) as (_ & _ & Hbs).
  eapply gives_bind; [apply gives_read_inode_block; [done|lia|done]| |reflexivity]. intros ? <-.
  pose proof (gives_readdir_block b.1 Hsb (Z.to_nat (block_size vsb)) [] b.2 acc Hb) as G.
  cbn [app length Z.of_nat] in G. rewrite <- Eb in G. pose proof (entries_le_length b.1 b.2) as Hle. rewrite <- Eb in Hle.
  eapply gives_bind; [apply G; [lia|done|lia]| |].
  2: instantiate (1 := entries_cost (concat blocks.*1)).
  - intros ? <-. eapply gives_weaken; [apply IH; try done; try lia|].
    + intros j b' Hj. replace (i + 1 + Z.of_nat j) with (i + Z.of_nat (S j)) by lia. by apply Hd.
    + intros ? <-. cbn [fmap list_fmap concat]. by rewrite fmap_app, app_assoc.
  - cbn [fmap list_fmap concat]. generalize (concat blocks.*1). clear. intros l.
    induction b.1 as [|e es IHe]; cbn [entries_cost foldr app]; fold (entries_cost l); [done|].
    unfold entries_cost in *. rewrite IHe. lia.
Qed.

Lemma gives_readdir vino blocks : sb_ok -> ext_inode_ok (ext_in vino) -> Z.land (st_mode vino) 0x4000 <> 0 ->
  Z.of_nat (length blocks) = blocks_of vsb (st_size vino) -> Z.of_nat (length blocks) <= direct_span vsb ->
  dir_on_disk (ext_in vino) blocks 0 ->
  gives disk (readdir vsb vino) (eq (true, entry_seen <$> concat blocks.*1)) (1 + entries_cost (concat blocks.*1)).
Proof.
  intros Hsb Hx Hm Hn Hsp Hd. unfold readdir. rewrite (proj2 (Z.eqb_neq _ _) Hm). apply gives_kmalloc_then. rewrite <- Hn, Nat2Z.id.
  eapply (gives_bind _ _ _ _ _ (entries_cost (concat blocks.*1)) 0).
  - apply gives_readdir_blocks; try done. apply fresh_buffer_length.
  - intros ? <-. by apply gives_ret.
  - lia.
Qed.


End files.

(** ** Mounting *)

(** *** The list of file systems (src/src/fs.c)

    [impls]: a probe is a function of the device, which is in the state. *)
Section fs.
Context {S SB : Type}.
Definition FS_register (probe : M S (option SB)) (impls : list (M S (option SB))) : list (M S (option SB)) :=
  probe :: impls.
Fixpoint FS_probe (impls : list (M S (option SB))) : M S (option SB) :=
  match impls with
  | [] => mret None
  | probe :: next =>
      sb ← probe;
      match sb with Some _ => mret sb | None => FS_probe next end
  end.
End fs.

Definition ext2_init {D} `{BlockDevice D} := FS_register (ext2_probe (D := D)).

Section mounting.
Context {D : Type} `{BlockDeviceLaws D}.
Context (disk : Z -> list Z) (Hdisk : forall n, Forall is_byte (disk n)).

(** The superblock and the group table of partition [p], the file system they
    describe, and the first partition that has one. *)
Definition disk_mbr : MBR := decode_mbr (disk 0).
Definition sb_at (p : Z) : Ext2SuperBlock :=
  decode_sb (sectors disk (part_lba disk_mbr p + 1024 / blk_size) (Z.to_nat (1024 / blk_size))).
Definition mounted (p : Z) : Ext2VfsSuperBlock :=
  mkVsb (2 ^ (log_sub_10_block_size (sb_at p) + 10))
    (num_blocks (sb_at p) / num_group_blocks (sb_at p) + Z.b2z (negb (num_blocks (sb_at p) mod num_group_blocks (sb_at p) =? 0)))
    disk_mbr p (disk (part_lba disk_mbr p + 2 * (1024 / blk_size))) (sb_at p).
Fixpoint ext2_partition (n : nat) (p : Z) : option Z :=
  match n with
  | O => None
  | S n =>
      match partitions disk_mbr !! Z.to_nat p with
      | Some e =>
          if part_type e =? 0 then None
          else if (num_sectors e >=? 2) && (ext2_signature (sb_at p) =? 0xEF53) then Some p
          else ext2_partition n (p + 1)
      | None => None
      end
  end.

Lemma pow2_loop_spec n k : 0 <= k -> k + Z.of_nat n < 64 -> pow2_loop n (2 ^ k) = 2 ^ (k + Z.of_nat n).
Proof.
  revert k. induction n as [|n IH]; intros k Hk Hn; cbn [pow2_loop]; [by rewrite Z.add_0_r|].
  assert (E : 2 ^ k * 2 = 2 ^ (k + 1)) by (rewrite Z.pow_add_r by lia; lia).
  assert (2 ^ (k + 1) < 2 ^ 64) by (apply Z.pow_lt_mono_r; lia).
  rewrite E, wrap_small, IH by (unfold in_range; lia). f_equal. lia.
Qed.

Lemma pow2_spec n : 0 <= n < 64 -> pow2 n = 2 ^ n.
Proof. intros Hn. unfold pow2. change 1 with (2 ^ 0). rewrite pow2_loop_spec by lia. f_equal. lia. Qed.

Lemma part_ok_mbr p : 0 <= p < 4 -> part_ok disk_mbr p.
Proof.
  intros Hp. unfold part_ok. repeat split; try lia; try done; unfold part_lba.
  1: destruct (_ !! _) as [e|] eqn:E; [|done]. 2: destruct (_ !! _) as [e|] eqn:E; [|done].
  all: cbn [disk_mbr decode_mbr partitions] in E; apply list_lookup_fmap_Some in E as (i & -> & _);
    by apply le32_range.
Qed.

Lemma disk_block_length k : (exists d : D, dev_holds d disk) -> length (disk k) = Z.to_nat blk_size.
Proof. intros [d Hd]. by apply (disk_block d). Qed.

Lemma sb_sectors_ok : 1 <= 1024 / blk_size <= 1024 /\
  (Z.to_nat (1024 / blk_size) * Z.to_nat blk_size = 1024)%nat.
Proof.
  pose proof blk_size_le. destruct blk_size_ok as [_ Hm]. apply Z.div_exact in Hm; [|lia].
  set (q := 1024 / blk_size) in *. split; [nia|]. rewrite <- Z2Nat.inj_mul by nia. lia.
Qed.

Lemma gives_superblock_init p : 0 <= p < 4 ->
  gives disk (ext2_superblock_init (D := D) disk_mbr p) (eq (sb_at p, disk (part_lba disk_mbr p + 2 * (1024 / blk_size)))) 0.
Proof.
  intros Hp s Hs. pose proof (ex_intro (fun d => dev_holds d disk) (dev s) Hs) as Hd. revert s Hs.
  destruct sb_sectors_ok as [Hq Hn]. pose proof blk_size_le.
  unfold ext2_superblock_init, EXT2_OFFSET, EXT2_SB_SIZE. cbv zeta.
  rewrite (wrap_small 16) by (unfold in_range; lia).
  pose proof (part_ok_mbr p Hp) as Hpo.
  eapply gives_bind; [apply gives_read_blocks; [done|lia|lia|rewrite fresh_buffer_length; lia]| |reflexivity].
  intros ? <-. rewrite take_0, app_nil_l, Nat.add_0_l, Hn, drop_ge, app_nil_r by (rewrite fresh_buffer_length; lia).
  eapply (gives_bind _ _ _ _ _ 0 0); [apply gives_read_into; [done|lia|rewrite fresh_buffer_length; lia]| |done].
  intros [r grp] [_ ->]. apply gives_ret. unfold sb_at. f_equal.
  rewrite take_0, app_nil_l, drop_ge, app_nil_r by (rewrite fresh_buffer_length; lia). f_equal. lia.
Qed.

(** What is expected of the file system that is found. *)
Definition mount_ok (o : option Z) : Prop :=
  forall p, o = Some p -> vsb_ok (mounted p) /\ sb_ok (mounted p) /\
    num_group_blocks (sb_at p) <> 0 /\ log_sub_10_block_size (sb_at p) <= 6.
Definition mount_result (o : option Z) : option (Ext2VfsSuperBlock * option Ext2VfsInode) :=
  p ← o; Some (mounted p, find_inode disk (mounted p) 2).

Lemma gives_vfs_superblock_init p : 0 <= p < 4 -> mount_ok (Some p) ->
  gives disk (ext2_vfs_superblock_init (D := D) (sb_at p) (disk (part_lba disk_mbr p + 2 * (1024 / blk_size))) disk_mbr p)
    (eq (mounted p, find_inode disk (mounted p) 2)) (1 + inode_cost (find_inode disk (mounted p) 2)).
Proof.
  intros Hp Hok. destruct (Hok p eq_refl) as (Hv & Hsb & Hg & Hlog).
  unfold ext2_vfs_superblock_init. apply gives_kmalloc_then. rewrite (proj2 (Z.eqb_neq _ _) Hg).
  assert (Hl0 : 0 <= log_sub_10_block_size (sb_at p)) by (by apply le32_range, sectors_bytes).
  rewrite wrap_small, pow2_spec by (unfold in_range; lia). fold (mounted p). cbv zeta.
  eapply (gives_bind _ _ _ _ _ (inode_cost (find_inode disk (mounted p) 2)) 0).
  - by apply gives_read_inode; [..|unfold in_range; lia].
  - intros ? <-. by apply gives_ret.
  - lia.
Qed.

Lemma gives_probe_parts n p : 0 <= p -> p + Z.of_nat n <= 4 -> mount_ok (ext2_partition n p) ->
  exists k, gives disk (probe_parts (D := D) n disk_mbr p) (eq (mount_result (ext2_partition n p))) k.
Proof.
  revert p. induction n as [|n IH]; intros p Hp Hn Hok; cbn [probe_parts ext2_partition] in *.
  { exists 0. by apply gives_ret. }
  destruct (lookup_lt_is_Some_2 (partitions disk_mbr) (Z.to_nat p)) as [e Ee]; [cbn; lia|].
  rewrite Ee in Hok |- *.
  enough (exists k, gives disk (if part_type e =? 0 then mret None
      else if num_sectors e >=? 2 then kmalloc_block ;; kmalloc_block ;;
        '(sb, grp) ← ext2_superblock_init disk_mbr p;
        if ext2_signature sb =? 0xEF53 then v ← ext2_vfs_superblock_init sb grp disk_mbr p; mret (Some v)
        else probe_parts n disk_mbr (p + 1)
      else probe_parts (D := D) n disk_mbr (p + 1))
    (eq (mount_result (if part_type e =? 0 then None
      else if (num_sectors e >=? 2) && (ext2_signature (sb_at p) =? 0xEF53) then Some p
      else ext2_partition n (p + 1)))) k) as [k G].
  { exists k. eapply gives_bind_checked; [reflexivity|exact G]. }
  destruct (part_type e =? 0); [exists 0; by apply gives_ret|].
  destruct (num_sectors e >=? 2); cbn [andb] in *; [|by apply IH; try lia].
  destruct (ext2_signature (sb_at p) =? 0xEF53) eqn:Es.
  - eexists. do 2 apply gives_kmalloc_then.
    eapply (gives_bind _ _ _ _ _ 0); [apply gives_superblock_init; lia| |].
    { intros ? <-. rewrite Es. eapply (gives_bind _ _ _ _ _ _ 0); [apply gives_vfs_superblock_init; [lia|done]| |].
      - intros ? <-. by apply gives_ret.
      - reflexivity. }
    instantiate (1 := 2 + (1 + inode_cost (find_inode disk (mounted p) 2) + 0)). lia.
  - destruct (IH (p + 1)) as [k G]; [lia|lia|done|]. exists (2 + k). do 2 apply gives_kmalloc_then.
    eapply (gives_bind _ _ _ _ _ 0 k); [apply gives_superblock_init; lia| |lia].
    intros ? <-. by rewrite Es.
Qed.

Lemma gives_FS_probe : 512 <= blk_size -> mount_ok (ext2_partition MAX_MBR_PARTITIONS 0) ->
  exists k, gives disk (FS_probe (ext2_init (D := D) [])) (eq (mount_result (ext2_partition MAX_MBR_PARTITIONS 0))) k.
Proof.
  intros Hbs Hok. destruct (gives_probe_parts MAX_MBR_PARTITIONS 0) as [k G]; [done|done|done|].
  exists (1 + k). intros s Hs.
  pose proof (disk_block_length 0 (ex_intro (fun d => dev_holds d disk) (dev s) Hs)) as Hlen. revert s Hs.
  unfold ext2_init, FS_register. cbn [FS_probe].
  eapply (gives_bind _ _ _ (eq (mount_result (ext2_partition MAX_MBR_PARTITIONS 0))) _ (1 + k) 0); [|intros ? <-; by destruct (mount_result _); apply gives_ret|lia].
  unfold ext2_probe. apply gives_kmalloc_then.
  eapply (gives_bind _ _ _ (fun '(_, mbr) => mbr = disk_mbr) _ 0 k); [| |lia].
  - intros [d l] Hs. destruct (read_block_law d disk 0 Hs) as (d' & r & E & _ & Hs'); [done|].
    exists (r, disk_mbr), (mkExt2 d' l). cbn [dev live_blocks]. repeat split; try done; [|lia].
    unfold devop. rewrite (zoom_ret _ _ _ (r, disk_mbr) d'); [done|]. cbn [dev]. unfold mbr_init. rewrite (bind_ret _ _ _ _ _ E).
    by rewrite Hlen, (proj2 (Z.ltb_ge _ _)) by lia.
  - intros [? ?] ->. exact G.
Qed.

(** C15: with ext2 registered, probing a device mounts the file system of the first
    partition, before an empty entry, that carries the ext2 signature, with inode 2 as
    its root; a device without one is refused. *)
Theorem FS_probe_correct s : dev_holds (dev s) disk -> 512 <= blk_size ->
  mount_ok (ext2_partition MAX_MBR_PARTITIONS 0) ->
  exists s', FS_probe (ext2_init []) s = Ret (mount_result (ext2_partition MAX_MBR_PARTITIONS 0)) s' /\
    dev_holds (dev s') disk.
Proof.
  intros Hs Hbs Hok. destruct (gives_FS_probe Hbs Hok) as [k G].
  destruct (G s Hs) as (? & s' & E & <- & Hs' & _). by exists s'.
Qed.

End mounting.

(** ** A small file system, for the witnesses

    512-byte sectors, one partition from sector 63, blocks of one kilobyte: the
    inode table in block 5, the root directory (inode 2) in block 20, [/boot]
    (inode 12) a file of 2000 bytes in blocks 21 and 22. *)
Module SmallFs.
Import RamDisk.

Definition zeros (n : nat) : list Z := repeat 0 n.
(** One sector: the bytes given, padded with zeros. *)
Definition sector (l : list Z) : list Z := take 512 (((fun b => b mod 256) <$> l) ++ zeros 512).

Definition mbr_bytes : list Z :=
  zeros 446 ++ ([128; 0; 0; 0; 0x83; 0; 0; 0] ++ enc32 63 ++ enc32 1000) ++ zeros 48 ++ enc16 0xAA55.
Definition sb_bytes : list Z :=
  enc32 16 ++ enc32 100 ++ zeros 16 ++ enc32 0 ++ zeros 4 ++ enc32 8192 ++ zeros 4 ++ enc32 16 ++ zeros 12
  ++ enc16 0xEF53 ++ zeros 30 ++ enc32 128.
Definition group_bytes : list Z := zeros 8 ++ enc32 5.
Definition inode_bytes (mode size : Z) (blocks : list Z) : list Z :=
  enc16 mode ++ enc16 0 ++ enc32 size ++ zeros 32 ++ concat (enc32 <$> blocks)
  ++ zeros (48 - 4 * length blocks) ++ zeros 40.
Definition root_entries : list dirent :=
  [mkDirent 2 [46] 2 [0; 0; 0]; mkDirent 12 [98; 111; 111; 116] 1 (zeros 1000)].

Definition small_fs : Z -> list Z := fun n => sector
  (if n =? 0 then mbr_bytes else if n =? 65 then sb_bytes else if n =? 67 then group_bytes
   else if n =? 73 then zeros 128 ++ inode_bytes 0x41ED 1024 [20]
   else if n =? 75 then zeros 384 ++ inode_bytes 0x81A4 2000 [21; 22]
   else if n =? 103 then take 512 (dir_block root_entries [])
   else if n =? 104 then drop 512 (dir_block root_entries [])
   else if n =? 105 then repeat 65 512 else if n =? 106 then repeat 66 512
   else if n =? 107 then repeat 67 512 else if n =? 108 then repeat 68 512 else []).

Lemma small_fs_bytes n : Forall is_byte (small_fs n).
Proof.
  apply Forall_take, Forall_app. split.
  - apply Forall_fmap, Forall_true. intros b. apply Z.mod_pos_bound. lia.
  - apply Forall_forall. intros b Hb. apply list_elem_of_In, repeat_spec in Hb as ->. done.
Qed.

Lemma small_fs_holds : dev_holds small_fs small_fs.
Proof.
  split; [done|]. intros n. unfold small_fs, sector, zeros.
  rewrite length_take, length_app, repeat_length. lia.
Qed.

Definition fs0 : ext2 ram := mkExt2 small_fs 0.
Definition vsb0 : Ext2VfsSuperBlock := mounted small_fs 0.
Definition root0 : Ext2VfsInode := inode_at small_fs vsb0 5 2.
Definition boot0 : Ext2VfsInode := inode_at small_fs vsb0 5 12.

Lemma vsb0_ok : vsb_ok vsb0.
Proof. split; [|split; [vm_compute; done|vm_compute; split; done]]. by apply (part_ok_mbr small_fs small_fs_bytes). Qed.
Lemma sb0_ok : sb_ok vsb0.
Proof.
  split; try (vm_compute; (done || (split; done)));
    [left; vm_compute; done|exact (small_fs_bytes 67)].
Qed.
Lemma inode0_ok n : ext_inode_ok (ext_in (inode_at small_fs vsb0 5 n)).
Proof. apply decode_inode_ok, forall_byte_drop, sectors_bytes, small_fs_bytes. Qed.

End SmallFs.

Import RamDisk SmallFs.

Lemma read_inode_block_correct_witness :
  exists s', read_inode_block vsb0 boot0 1 (zeros 1024) fs0 = Ret (inode_block small_fs vsb0 (ext_in boot0) 1) s' /\
    dev_holds (dev s') small_fs /\ live_blocks s' = live_blocks fs0.
Proof.
  apply (read_inode_block_correct small_fs small_fs_bytes vsb0 vsb0_ok boot0 1 (zeros 1024) fs0
    small_fs_holds (inode0_ok 12)); [vm_compute; split; done|vm_compute; done].
Defined.


Lemma read_inode_correct_witness :
  exists s', read_inode vsb0 12 fs0 = Ret (find_inode small_fs vsb0 12) s' /\ dev_holds (dev s') small_fs /\
    live_blocks s' = live_blocks fs0 + inode_cost (find_inode small_fs vsb0 12) /\
    (forall v, find_inode small_fs vsb0 12 = Some v -> ino v = 12 /\ ext_inode_ok (ext_in v)).
Proof.
  apply (read_inode_correct small_fs small_fs_bytes vsb0 vsb0_ok 12 fs0 sb0_ok); [vm_compute; split; done|exact small_fs_holds].
Defined.


Lemma FS_probe_correct_witness :
  exists s', FS_probe (ext2_init []) fs0 = Ret (mount_result small_fs (Some 0)) s' /\ dev_holds (dev s') small_fs.
Proof.
  apply (FS_probe_correct small_fs small_fs_bytes fs0 small_fs_holds); [vm_compute; done|].
  intros p E. assert (p = 0) as -> by (vm_compute in E; congruence).
  split; [exact vsb0_ok|]. split; [exact sb0_ok|]. split; vm_compute; done.
Defined.
