(* ===== verification/Kmain.v ===== *)
(** * Kmain: the kernel's threads (src/src/kmain.c)

    [drive_init] finds the disk, mounts its file system, looks [/boot/kernel] up and
    prints the MD5 digest of the file; it puts the driver, the file system, the string
    routines and the digest together, on any machine for the driver. DiskBoot.v runs it on
    the whole kernel. *)

From S2P Require Import Prelude Ports Interrupts Printk Md5 Strings Disk Ata Ext2.

(** The cursor of the text screen is turned off. *)
Definition disable_cursor : M (list io) unit :=
  outb 0x3D4 0x0A ;;
  outb 0x3D5 0x20.

(** ** Looking a name up *)

(** The arguments of a callback's [strcmp] in memory: the entry's name, which [readdir]
    copied and terminated, and the literal. *)
Definition NAME_AT : Z := 0x1000.
Definition LITERAL_AT : Z := 0x2000.
Definition string_at (p : Z) (l : list Z) : Strings.bytes := list_to_map (zip (seqZ p (Z.of_nat (length l) + 1)) (l ++ [0])).
Definition two_strings (name literal : list Z) : Strings.bytes := string_at NAME_AT name ∪ string_at LITERAL_AT literal.

Definition strcmp_names (name literal : list Z) : option Z :=
  match strcmp NAME_AT LITERAL_AT (two_strings name literal) with Ret r _ => Some r | _ => None end.

(** ** [drive_init], given a device *)

(** The file system and what was printed. *)
Record main (D : Type) := mkMain { m_fs : ext2 D; m_out : list (string * list Z) }.
Arguments mkMain {D}. Arguments m_fs {D}. Arguments m_out {D}.

Section threads.
Context {D : Type} `{BlockDevice D}.
Abbreviation T := (M (main D)).

Definition fsop {A} (m : M (ext2 D) A) : T A := zoom m_fs (fun f s => mkMain f (m_out s)) m.
Definition kprint (fmt : string) (args : list Z) : T unit := modify (fun s => mkMain (m_fs s) (m_out s ++ [(fmt, args)])).

(** A pointer that is followed. *)
Definition nonnull {A} (p : option A) : T A := match p with Some a => mret a | None => fault end.

(** The callbacks; [ino] is what their argument points to. *)
Definition readdir_name (literal filename : list Z) (inode : option Ext2VfsInode) (i : Z) : T Z :=
  r ← nonnull (strcmp_names filename literal);
  if r =? 0 then inode ← nonnull inode; mret (ino inode) else mret i.
Definition readdir_boot := readdir_name (Md5.bytes "boot").
Definition readdir_kern := readdir_name (Md5.bytes "kernel").

(** [readdir] with a callback: its calls in order. *)
Fixpoint visit (cb : list Z -> option Ext2VfsInode -> Z -> T Z) (calls : list entry_call) (i : Z) : T Z :=
  match calls with
  | [] => mret i
  | (name, inode) :: calls => i ← cb name inode i; visit cb calls i
  end.

Definition READ_SIZE : Z := 7000.

(** The loop that reads the file; [kmalloc] is called before each read. *)
Fixpoint digest_loop (fuel : nat) (sb : Ext2VfsSuperBlock) (file : Ext2File) (ctx : MD5_CTX) : T MD5_CTX :=
  match fuel with
  | O => no_fuel
  | S fuel =>
      fsop kmalloc_block ;;
      '(len, data, file) ← fsop (ext2_file_read sb file READ_SIZE);
      if len =? 0 then mret ctx
      else
        ctx ← nonnull (MD5Update ctx (take (Z.to_nat len) data));
        digest_loop fuel sb file ctx
  end.

Fixpoint print_digest (digest : list Z) : T unit :=
  match digest with
  | [] => mret tt
  | d :: digest =>
      (if d <? 16 then kprint "0" [] else mret tt : T unit) ;;
      kprint "%x" [d] ;;
      print_digest digest
  end.

(** From [FS_probe] on; [stack_ino] and [stack_ctx] are the uninitialized variables and
    [sb_addr] the address that is printed. *)
Definition drive_digest (fuel : nat) (sb_addr stack_ino : Z) (stack_ctx : MD5_CTX) : T unit :=
  found ← fsop (FS_probe (ext2_init []));
  kprint ("sb: %lx" +:+ newline) [match found with Some _ => sb_addr | None => 0 end] ;;
  '(sb, root) ← nonnull found;
  root_inode ← nonnull root;
  '(_, calls) ← fsop (readdir sb root_inode);
  i ← visit readdir_boot calls stack_ino;
  inode ← fsop (read_inode sb i);
  inode ← nonnull inode;
  '(_, calls) ← fsop (readdir sb inode);
  i ← visit readdir_kern calls i;
  inode ← fsop (read_inode sb i);
  inode ← nonnull inode;
  let ctx := MD5Init stack_ctx in
  file ← fsop (ext2_file_open inode);
  ctx ← digest_loop fuel sb file ctx;
  '(digest, _) ← nonnull (MD5Final ctx);
  print_digest digest ;;
  kprint newline [].

End threads.

(** ** What it finds *)

(** A file name: nonzero chars, at most 255. *)
Definition name_ok (l : list Z) : Prop := Forall (fun b => is_char b /\ b <> 0) l /\ (length l < 256)%nat.

Lemma string_at_bytes p l : bytes_at (string_at p l) p (l ++ [0]) /\
  forall q, is_Some (string_at p l !! q) -> p <= q < p + Z.of_nat (length l) + 1.
Proof.
  unfold string_at. set (ks := seqZ p (Z.of_nat (length l) + 1)).
  assert (Hl : length ks = length (l ++ [0])) by (subst ks; rewrite length_seqZ, length_app; cbn; lia).
  assert (Hk : (zip ks (l ++ [0])).*1 = ks) by (apply fst_zip; lia).
  split.
  - intros i b Hi. apply elem_of_list_to_map_1; [rewrite Hk; apply NoDup_seqZ|].
    apply list_elem_of_lookup. exists i. apply lookup_zip_with_Some. exists (p + Z.of_nat i), b. split; [done|]. split; [|done].
    apply lookup_seqZ. apply lookup_lt_Some in Hi. rewrite length_app in Hi. cbn in Hi. lia.
  - intros q [b Hq]. apply elem_of_list_to_map_2 in Hq.
    assert (Hin : q ∈ ks) by (rewrite <- Hk; exact (list_elem_of_fmap_2 fst _ _ Hq)).
    apply elem_of_seqZ in Hin. lia.
Qed.

Lemma strcmp_names_value name literal : name_ok name -> name_ok literal ->
  strcmp_names name literal = Some (strcmp_value name literal).
Proof.
  intros [Hn Hnl] [Hl Hll]. destruct (string_at_bytes NAME_AT name) as [Bn _]. destruct (string_at_bytes LITERAL_AT literal) as [Bl Dl].
  unfold strcmp_names. rewrite (strcmp_ret _ _ name literal); [done| |]; split; try done.
  - intros i b Hi. apply lookup_union_Some_l. by apply Bn.
  - intros i b Hi. unfold two_strings. rewrite lookup_union_r; [by apply Bl|].
    apply eq_None_not_Some. intros Hs. apply string_at_bytes in Hs.
    apply lookup_lt_Some in Hi. unfold NAME_AT, LITERAL_AT in Hs. rewrite length_app in Hi. cbn in Hi. lia.
Qed.

Section found.
Context {D : Type} `{BlockDeviceLaws D}.
Context (disk : Z -> list Z) (Hdisk : forall n, Forall is_byte (disk n)).
Context (sb : Ext2VfsSuperBlock) (Hvsb : vsb_ok sb) (Hsb : sb_ok sb).
Implicit Types (s : main D).

(** The last entry that compares equal to [literal], as [strcmp] has it; [i] if there is
    none. An entry that does must have an inode. *)
Fixpoint looked_up (literal : list Z) (es : list dirent) (i : Z) : option Z :=
  match es with
  | [] => Some i
  | e :: es =>
      if strcmp_value (d_name e) literal =? 0
      then match find_inode disk sb (d_ino e) with Some v => looked_up literal es (ino v) | None => None end
      else looked_up literal es i
  end.

(** A directory with these blocks of entries. *)
Definition directory (v : Ext2VfsInode) (blocks : list (list dirent * list Z)) : Prop :=
  Z.land (st_mode v) 0x4000 <> 0 /\ Z.of_nat (length blocks) = blocks_of sb (st_size v) /\
  Z.of_nat (length blocks) <= direct_span sb /\ dir_on_disk disk sb (ext_in v) blocks 0 /\
  Forall (fun e => name_ok (d_name e)) (concat blocks.*1).

Lemma fsop_ret {A} (m : M (ext2 D) A) a k s : gives disk m (eq a) k -> dev_holds (dev (m_fs s)) disk ->
  exists fs, fsop m s = Ret a (mkMain fs (m_out s)) /\ dev_holds (dev fs) disk.
Proof.
  intros G Hs. destruct (G (m_fs s) Hs) as (? & fs & E & <- & Hs' & _). exists fs. split; [|done].
  exact (zoom_ret m_fs (fun f s => mkMain f (m_out s)) m a fs s E).
Qed.
Lemma gives_kmalloc_block : gives disk (kmalloc_block (D := D)) (eq tt) 1.
Proof. intros s Hs. exists tt, (mkExt2 (dev s) (live_blocks s + 1)). by repeat split. Qed.

Lemma bind_kprint {B} fmt args (f : unit -> M (main D) B) s : (kprint fmt args ≫= f) s = f tt (mkMain (m_fs s) (m_out s ++ [(fmt, args)])).
Proof. done. Qed.
Lemma bind_nonnull {A B} (a : A) (f : A -> M (main D) B) s : (nonnull (Some a) ≫= f) s = f a s.
Proof. done. Qed.

Lemma readdir_name_ret literal name o i s : name_ok name -> name_ok literal ->
  readdir_name literal name o i s = (if strcmp_value name literal =? 0 then v ← nonnull o; mret (ino v) else mret i) s.
Proof. intros Hn Hl. unfold readdir_name. by rewrite strcmp_names_value. Qed.

Lemma visit_ret literal es : forall i i' s, name_ok literal -> Forall (fun e => name_ok (d_name e)) es -> looked_up literal es i = Some i' ->
  visit (readdir_name literal) (entry_seen disk sb <$> es) i s = Ret i' s.
Proof.
  induction es as [|e es IH]; intros i i' s Hl Hn Hu; cbn [fmap list_fmap visit looked_up] in *.
  { by injection Hu as <-. }
  apply Forall_cons in Hn as [He Hn]. unfold entry_seen. unfold mbind at 1, M_bind at 1.
  rewrite readdir_name_ret by done.
  destruct (strcmp_value (d_name e) literal =? 0); [|by apply IH].
  destruct (find_inode disk sb (d_ino e)) as [v|]; [|done]. by apply IH.
Qed.


(** *** Reading the file *)

(** The reads of [digest_loop] that start in the file stop where they should: each ends
    inside the file or beyond its last block and leaves the block it starts in. Most
    sizes are so, see [ext2_file_read] in Ext2.v. *)
Definition reads_ok (size : Z) : Prop := forall c, 0 <= c < size -> c mod READ_SIZE = 0 ->
  first_fits sb size c READ_SIZE /\ read_stops sb size c READ_SIZE.

Lemma gives_read_at_end f len : st_size (f_inode f) <= cursor f ->
  gives disk (ext2_file_read (D := D) sb f len) (eq (0, [], f)) 1.
Proof.
  intros Hc. unfold ext2_file_read. apply gives_kmalloc_then.
  eapply (gives_bind _ _ _ (eq (0, cursor f, [])) _ 0 0); [|intros ? <-; destruct f; by apply gives_ret|done].
  destruct (Z.to_nat len); cbn [file_read_loop]; rewrite (proj2 (Z.ltb_ge (cursor f) _)), andb_false_r by lia; by apply gives_ret.
Qed.

Lemma file_bytes_length x c n : length (file_bytes disk sb x c n) = n.
Proof. unfold file_bytes. by rewrite length_fmap, length_seq. Qed.

Lemma digest_loop_ret v : let size := st_size v in let x := ext_in v in
  ext_inode_ok x -> size <= direct_span sb * block_size sb -> size + READ_SIZE < 2 ^ 31 -> reads_ok size ->
  forall fuel k ctx s, let c := Z.min (READ_SIZE * k) size in
  0 <= k -> 0 <= size -> size - c <= READ_SIZE * (Z.of_nat fuel - 1) -> dev_holds (dev (m_fs s)) disk ->
  md5_rep ctx (file_bytes disk sb x 0 (Z.to_nat c)) ->
  exists ctx' fs, digest_loop fuel sb (mkFile v c) ctx s = Ret ctx' (mkMain fs (m_out s)) /\ dev_holds (dev fs) disk /\
    md5_rep ctx' (file_bytes disk sb x 0 (Z.to_nat size)).
Proof.
  intros size x Hx Hsz Hov Hok. induction fuel as [|fuel IH]; intros k ctx s c Hk H0s Hf Hs Hr; cbn [digest_loop].
  { unfold READ_SIZE in *. lia. }
  destruct (fsop_ret _ _ _ s gives_kmalloc_block Hs) as (fs1 & E1 & Hs1). rewrite (bind_ret _ _ _ _ _ E1).
  set (s1 := mkMain fs1 (m_out s)) in *. change (dev_holds (dev (m_fs s1)) disk) in Hs1.
  destruct (Z.le_gt_cases size c) as [Hge|Hlt].
  - destruct (fsop_ret _ _ _ s1 (gives_read_at_end (mkFile v c) READ_SIZE Hge) Hs1) as (fs2 & E2 & Hs2). rewrite (bind_ret _ _ _ _ _ E2).
    exists ctx, fs2. split; [reflexivity|]. split; [done|]. assert (Hcs : c = size) by lia. by rewrite Hcs in Hr.
  - assert (Hc : c = READ_SIZE * k) by lia. assert (Hc0 : 0 <= c) by (unfold READ_SIZE in *; lia).
    destruct (Hok c) as [Hff Hrs]; [lia|rewrite Hc, Z.mul_comm; by apply Z.mod_mul|].
    set (e := read_end size c READ_SIZE). assert (He : e = Z.min (READ_SIZE * (k + 1)) size) by (unfold e, read_end, READ_SIZE in *; lia).
    pose proof (gives_file_read disk Hdisk sb Hvsb (mkFile v c) READ_SIZE Hx Hsz Hc0 ltac:(done) ltac:(cbn; lia) Hff Hrs) as G.
    destruct (fsop_ret _ _ _ s1 G Hs1) as (fs2 & E2 & Hs2). rewrite (bind_ret _ _ _ _ _ E2).
    cbn [f_inode cursor m_out]. fold size x e. assert (Hn : 0 < e - c <= READ_SIZE) by (unfold READ_SIZE in *; lia).
    rewrite (proj2 (Z.eqb_neq (e - c) 0)) by lia. rewrite take_ge by (rewrite file_bytes_length; lia).
    destruct (MD5Update_rep ctx _ (file_bytes disk sb x c (Z.to_nat (e - c))) Hr) as (ctx1 & -> & Hr1).
    { unfold fits32. rewrite file_bytes_length. unfold READ_SIZE in *. lia. }
    rewrite bind_nonnull, He. apply (IH (k + 1) ctx1 (mkMain fs2 (m_out s1))); [lia|done|unfold READ_SIZE in *; lia|done|].
    rewrite <- He. replace (Z.to_nat e) with (Z.to_nat c + Z.to_nat (e - c))%nat by lia.
    rewrite file_bytes_app. by replace (0 + Z.of_nat (Z.to_nat c)) with c by lia.
Qed.

(** *** The digest *)

(** What is printed of it. *)
Definition digest_lines (digest : list Z) : list (string * list Z) :=
  concat ((fun d => (if d <? 16 then [("0"%string, [])] else []) ++ [("%x"%string, [d])]) <$> digest).

Lemma print_digest_ret digest s : print_digest (D := D) digest s = Ret tt (mkMain (m_fs s) (m_out s ++ digest_lines digest)).
Proof.
  revert s. induction digest as [|d digest IH]; intros [f o]; cbn [print_digest].
  - unfold digest_lines. cbn. by rewrite app_nil_r.
  - unfold kprint. destruct (d <? 16) eqn:E; [rewrite bind_modify|rewrite bind_mret]; rewrite bind_modify, IH;
      cbn [m_fs m_out]; unfold digest_lines; rewrite fmap_cons; cbn [concat]; rewrite E, <- !app_assoc; done.
Qed.
End found.

(** The text of printed lines: [printk] onto a list of chars. *)
Definition put_text (c : Z) : M (list Z) unit := modify (fun t => t ++ [c]).
Definition line_text (l : string * list Z) : list Z :=
  match Printk.printk put_text put_text (Md5.bytes l.1) (VInt <$> l.2) [] with Ret _ t => t | _ => [] end.
Definition text_of (lines : list (string * list Z)) : list Z := concat (line_text <$> lines).

Lemma byte_text d : is_byte d ->
  text_of ((if d <? 16 then [("0"%string, [])] else []) ++ [("%x"%string, [d])]) = Md5.bytes (hex_digit (d / 16) +:+ hex_digit (d mod 16)).
Proof.
  intros Hd.
  assert (Hall : forallb (fun n => bool_decide (text_of ((if Z.of_nat n <? 16 then [("0"%string, [])] else []) ++ [("%x"%string, [Z.of_nat n])])
    = Md5.bytes (hex_digit (Z.of_nat n / 16) +:+ hex_digit (Z.of_nat n mod 16)))) (seq 0 256) = true) by (vm_compute; reflexivity).
  rewrite forallb_forall in Hall. unfold is_byte in Hd. specialize (Hall (Z.to_nat d) ltac:(apply in_seq; lia)).
  rewrite Z2Nat.id in Hall by lia. by apply bool_decide_eq_true in Hall.
Qed.

Lemma string_app_assoc (s1 s2 s3 : string) : (s1 +:+ s2) +:+ s3 = s1 +:+ (s2 +:+ s3).
Proof. induction s1 as [|a s1 IH]; [done|]. change (String a ((s1 +:+ s2) +:+ s3) = String a (s1 +:+ (s2 +:+ s3))). by rewrite IH. Qed.
Lemma bytes_app s1 s2 : Md5.bytes (s1 +:+ s2) = Md5.bytes s1 ++ Md5.bytes s2.
Proof.
  unfold Md5.bytes. rewrite <- fmap_app. f_equal. induction s1 as [|a s1 IH]; [done|].
  change (a :: String.list_ascii_of_string (s1 +:+ s2) = a :: (String.list_ascii_of_string s1 ++ String.list_ascii_of_string s2)).
  f_equal. exact IH.
Qed.

(** Two hexadecimal digits a byte. *)
Lemma digest_text digest : Forall is_byte digest -> text_of (digest_lines digest) = Md5.bytes (hex digest).
Proof.
  induction 1 as [|d digest Hd _ IH]; [done|].
  transitivity (Md5.bytes (hex_digit (d / 16) +:+ hex_digit (d mod 16)) ++ Md5.bytes (hex digest)).
  - rewrite <- IH, <- (byte_text d Hd). unfold text_of, digest_lines. rewrite fmap_cons. cbn [concat].
    by rewrite fmap_app, concat_app.
  - rewrite <- bytes_app. by rewrite string_app_assoc.
Qed.

(** ** [/boot/kernel] *)

Section kernel_file.
Context {D : Type} `{BlockDeviceLaws D}.
Context (disk : Z -> list Z) (Hdisk : forall n, Forall is_byte (disk n)).

(** The disk has an ext2 file system with the directory [boot] in its root - or whatever
    the code's [strcmp] takes for that - and in it the file [kernel]. *)
Record kernel_on_disk (p stack_ino : Z) (kernel : Ext2VfsInode) : Prop := {
  kd_part : ext2_partition disk MAX_MBR_PARTITIONS 0 = Some p;
  kd_mount : mount_ok disk (Some p);
  kd_path : exists root root_blocks i boot boot_blocks j,
    find_inode disk (mounted disk p) 2 = Some root /\ directory disk (mounted disk p) root root_blocks /\
    looked_up disk (mounted disk p) (Md5.bytes "boot") (concat root_blocks.*1) stack_ino = Some i /\ in_range 64 i /\
    find_inode disk (mounted disk p) i = Some boot /\ directory disk (mounted disk p) boot boot_blocks /\
    looked_up disk (mounted disk p) (Md5.bytes "kernel") (concat boot_blocks.*1) i = Some j /\ in_range 64 j /\
    find_inode disk (mounted disk p) j = Some kernel }.

(** The kernel file's bytes. *)
Definition content (p : Z) (kernel : Ext2VfsInode) : list Z :=
  file_bytes disk (mounted disk p) (ext_in kernel) 0 (Z.to_nat (st_size kernel)).

Lemma found_inode_ok sb n v : find_inode disk sb n = Some v -> ext_inode_ok (ext_in v) /\ ino v = n /\ 0 <= st_size v.
Proof.
  unfold find_inode. cbv zeta. destruct (_ || _); [done|]. intros [= <-].
  unfold inode_at. cbv zeta. set (b := drop (A := Z) _ _).
  assert (Hb : Forall is_byte b) by apply forall_byte_drop, sectors_bytes, Hdisk.
  split; [by apply decode_inode_ok|]. split; [done|]. cbn [st_size].
  pose proof (le32_range 4 b Hb) as H4. pose proof (le32_range 108 b Hb) as H108. unfold in_range in *. cbn [size_low size_high decode_inode]. lia.
Qed.

(** A directory is listed and a name looked up in it. *)
Lemma directory_ret sb literal dir blocks i i' s :
  vsb_ok sb -> sb_ok sb -> ext_inode_ok (ext_in dir) -> directory disk sb dir blocks -> name_ok literal ->
  looked_up disk sb literal (concat blocks.*1) i = Some i' -> dev_holds (dev (m_fs s)) disk ->
  exists fs calls, fsop (readdir sb dir) s = Ret (true, calls) (mkMain fs (m_out s)) /\ dev_holds (dev fs) disk /\
    forall s', visit (D := D) (readdir_name literal) calls i s' = Ret i' s'.
Proof.
  intros Hv Hsb Hx (Hm & Hn & Hsp & Hd & Hnames) Hl Hu Hs.
  destruct (fsop_ret disk _ _ _ s (gives_readdir disk Hdisk sb Hv dir blocks Hsb Hx Hm Hn Hsp Hd) Hs) as (fs & E & Hs').
  exists fs, (entry_seen disk sb <$> concat blocks.*1). split; [done|]. split; [done|]. intros s'.
  exact (visit_ret disk sb literal _ i i' s' Hl Hnames Hu).
Qed.

Lemma literal_ok : name_ok (Md5.bytes "boot") /\ name_ok (Md5.bytes "kernel").
Proof. split; (split; [repeat constructor; vm_compute; congruence|cbn; lia]). Qed.

(** With a file system that has [/boot/kernel] on any device that works, and a file the
    reads of which stop where they should, [drive_digest] finds the file through both
    directories and prints its digest. *)
Lemma drive_digest_ret p kernel fuel sb_addr stack_ino stack_ctx s :
  let sb := mounted disk p in
  dev_holds (dev (m_fs s)) disk -> 512 <= blk_size -> kernel_on_disk p stack_ino kernel ->
  length (buffer stack_ctx) = 64%nat ->
  st_size kernel <= direct_span sb * block_size sb -> st_size kernel + READ_SIZE < 2 ^ 31 -> reads_ok sb (st_size kernel) ->
  st_size kernel <= READ_SIZE * (Z.of_nat fuel - 1) ->
  exists s', drive_digest fuel sb_addr stack_ino stack_ctx s = Ret tt s' /\ dev_holds (dev (m_fs s')) disk /\
    m_out s' = m_out s ++ [("sb: %lx" +:+ newline, [sb_addr])] ++ digest_lines (md5_spec (content p kernel)) ++ [(newline, [])].
Proof.
  intros sb Hs Hbs [Hpart Hmount Hpath] Hctx Hsz Hov Hreads Hf.
  destruct Hpath as (root & rb & i & boot & bb & j & Eroot & Droot & Ui & Ri & Eboot & Dboot & Uj & Rj & Ekernel).
  destruct (Hmount p eq_refl) as (Hv & Hsb & _). fold sb in Hv, Hsb, Eroot, Droot, Ui, Eboot, Dboot, Uj, Ekernel.
  destruct literal_ok as [Lb Lk].
  destruct (gives_FS_probe disk Hdisk Hbs) as [k G]; [by rewrite Hpart|]. rewrite Hpart in G.
  assert (Hres : mount_result disk (Some p) = Some (sb, Some root)) by (cbn; fold sb; by rewrite Eroot).
  rewrite Hres in G. unfold drive_digest. destruct (fsop_ret disk _ _ _ s G Hs) as (f1 & E1 & Hs1). rewrite (bind_ret _ _ _ _ _ E1).
  rewrite bind_kprint. cbn [m_fs m_out]. set (s1 := mkMain f1 _). change (dev_holds (dev (m_fs s1)) disk) in Hs1.
  rewrite bind_nonnull, bind_nonnull.
  destruct (directory_ret sb _ root rb stack_ino i s1 Hv Hsb (proj1 (found_inode_ok _ _ _ Eroot)) Droot Lb Ui Hs1) as (f2 & calls2 & E2 & Hs2 & V2).
  rewrite (bind_ret _ _ _ _ _ E2), (bind_ret _ _ _ _ _ (V2 _)). set (s2 := mkMain f2 (m_out s1)). change (dev_holds (dev (m_fs s2)) disk) in Hs2.
  destruct (fsop_ret disk _ _ _ s2 (gives_read_inode disk Hdisk sb Hv i Hsb Ri) Hs2) as (f3 & E3 & Hs3).
  rewrite (bind_ret _ _ _ _ _ E3), Eboot, bind_nonnull. set (s3 := mkMain f3 (m_out s2)). change (dev_holds (dev (m_fs s3)) disk) in Hs3.
  destruct (directory_ret sb _ boot bb i j s3 Hv Hsb (proj1 (found_inode_ok _ _ _ Eboot)) Dboot Lk Uj Hs3) as (f4 & calls4 & E4 & Hs4 & V4).
  rewrite (bind_ret _ _ _ _ _ E4), (bind_ret _ _ _ _ _ (V4 _)). set (s4 := mkMain f4 (m_out s3)). change (dev_holds (dev (m_fs s4)) disk) in Hs4.
  destruct (fsop_ret disk _ _ _ s4 (gives_read_inode disk Hdisk sb Hv j Hsb Rj) Hs4) as (f5 & E5 & Hs5).
  rewrite (bind_ret _ _ _ _ _ E5), Ekernel, bind_nonnull. cbv zeta. set (s5 := mkMain f5 (m_out s4)). change (dev_holds (dev (m_fs s5)) disk) in Hs5.
  assert (G6 : gives disk (ext2_file_open (D := D) kernel) (eq (mkFile kernel 0)) 1) by (apply gives_kmalloc_then; by apply gives_ret).
  destruct (fsop_ret disk _ _ _ s5 G6 Hs5) as (f6 & E6 & Hs6). rewrite (bind_ret _ _ _ _ _ E6). set (s6 := mkMain f6 (m_out s5)).
  destruct (found_inode_ok sb j kernel Ekernel) as (Hx & _ & H0s).
  destruct (digest_loop_ret disk Hdisk sb Hv kernel Hx Hsz Hov Hreads fuel 0 (MD5Init stack_ctx) s6) as (ctx & f7 & E7 & Hs7 & Hr7);
    [done|done|rewrite Z.mul_0_r, (Z.min_l 0 _ H0s); lia|exact Hs6|rewrite Z.mul_0_r, (Z.min_l 0 _ H0s); by apply MD5Init_rep|].
  rewrite Z.mul_0_r, Z.min_l in E7 by done. rewrite (bind_ret _ _ _ _ _ E7), (MD5Final_digest _ _ Hr7), bind_nonnull.
  rewrite (bind_ret _ _ _ _ _ (print_digest_ret _ _)). eexists. split; [reflexivity|]. split; [exact Hs7|].
  change (m_out s6) with (m_out s ++ [("sb: %lx" +:+ newline, [sb_addr])]). cbn [m_out m_fs]. by rewrite <- !app_assoc.
Qed.
End kernel_file.

(** ** On the disk *)

(** The bytes of a disk of words. *)
Definition disk_bytes (sectors : Z -> list Z) (n : Z) : list Z := concat (word_bytes <$> sectors (n mod 2 ^ 48)).
Lemma disk_bytes_ok sectors n : Forall is_byte (disk_bytes sectors n).
Proof.
  unfold disk_bytes. apply Forall_concat, Forall_fmap, Forall_true. intros w. unfold word_bytes, enc16, byte_of, is_byte; cbn.
  repeat constructor; apply Z.mod_pos_bound; lia.
Qed.

Section disk_thread.
Context {W : Type} `{HasAta W} `{Hardware} `{!AtaEnv W} `{!AtaStatics}.
Context (fuel : nat).
#[local] Instance drive_device : BlockDevice (irq_state W) := ata_device fuel.

(** Without a PATA disk [FS_probe] gets a null device, which the probe of ext2 follows. *)
Definition drive_init (reads : nat) (sb_addr stack_ino : Z) (stack_ctx : MD5_CTX) : M (main (irq_state W)) unit :=
  dev ← fsop (devop (ata_probe fuel PRIM_IO_BASE PRIM_CTL_BASE 0 IRQ14));
  match dev with
  | Some a =>
      fsop (devop (modify (fun s => set_world (set_ata a (world s)) s))) ;;
      drive_digest reads sb_addr stack_ino stack_ctx
  | None => fault
  end.

Context `{!QuietWait W} (sectors : Z -> list Z) (count : Z) (patience : nat).
Context `{!GoodDrive sectors patience} `{!PataDrive count patience} (Hfuel : (patience < fuel)%nat).
#[local] Instance drive_device_laws : BlockDeviceLaws (irq_state W) := ata_device_laws sectors patience fuel Hfuel.

(** What [ata_probe] finds. *)
Definition found_drive : ATABlockDevice := mkAta BLOCK_SIZE count PRIM_IO_BASE PRIM_CTL_BASE 0 IRQ14 0 0 ∅.
(** Once the disk is found the thread may wait for it. *)
Definition can_wait (s : irq_state W) : Prop :=
  forall tr, qw_ok (set_world (set_ata found_drive (world (probed count tr s))) (probed count tr s)).

(** On a machine whose primary channel has a PATA drive that works, holding a file
    system with [/boot/kernel], the disk thread prints the MD5 digest of that file, two
    hexadecimal digits a byte ([digest_text]): detection, IDENTIFY, the request queue, the
    interrupt driven reads, the partition table, the superblock, both directories, the
    inodes, the blocks of the file and the digest work together, nothing is faulted on, and
    the disk is ready for the next read. The reads of the file have to stop where they
    should ([reads_ok]). What a wait for the drive is, is left to the machine
    ([QuietWait]); DiskBoot.v runs the thread on the whole kernel. *)
Lemma drive_init_ret s p kernel reads sb_addr stack_ino stack_ctx :
  let sb := mounted (disk_bytes sectors) p in
  no_transfer (ports (dev (m_fs s))) -> can_wait (dev (m_fs s)) -> kernel_on_disk (disk_bytes sectors) p stack_ino kernel ->
  length (buffer stack_ctx) = 64%nat ->
  st_size kernel <= direct_span sb * block_size sb -> st_size kernel + READ_SIZE < 2 ^ 31 -> reads_ok sb (st_size kernel) ->
  st_size kernel <= READ_SIZE * (Z.of_nat reads - 1) ->
  exists s', drive_init reads sb_addr stack_ino stack_ctx s = Ret tt s' /\ holds sectors (dev (m_fs s')) (disk_bytes sectors) /\
    m_out s' = m_out s ++ [("sb: %lx" +:+ newline, [sb_addr])] ++ digest_lines (md5_spec (content (disk_bytes sectors) p kernel)) ++ [(newline, [])].
Proof.
  intros sb Hn Hw Hk Hctx Hsz Hov Hreads Hf. destruct s as [[d live] out]. unfold drive_init.
  destruct (ata_probe_ret count patience fuel Hfuel d Hn) as (tr & E1 & Hn1). cbn [dev m_fs] in Hn, Hw.
  specialize (Hw tr). set (d1 := probed count tr d) in *.
  assert (E1' : fsop (devop (ata_probe fuel PRIM_IO_BASE PRIM_CTL_BASE 0 IRQ14)) (mkMain (mkExt2 d live) out)
    = Ret (Some found_drive) (mkMain (mkExt2 d1 live) out)).
  { unfold fsop, devop, zoom. cbn [m_fs dev]. by rewrite E1. }
  rewrite (bind_ret _ _ _ _ _ E1'). set (d2 := set_world (set_ata found_drive (world d1)) d1) in *.
  assert (E2 : fsop (devop (modify (fun s => set_world (set_ata found_drive (world s)) s))) (mkMain (mkExt2 d1 live) out)
    = Ret tt (mkMain (mkExt2 d2 live) out)) by done.
  rewrite (bind_ret _ _ _ _ _ E2).
  destruct (drive_digest_ret (disk_bytes sectors) (disk_bytes_ok sectors) p kernel reads sb_addr stack_ino stack_ctx (mkMain (mkExt2 d2 live) out))
    as (s' & E & Hs' & Hout); try done.
  2: { by exists s'. }
  change (holds sectors d2 (disk_bytes sectors)). unfold holds. subst d2. cbn [world set_world ports]. rewrite ata_set.
  split; [done|]. split; [done|]. split; [split; [done|split; [apply NoDup_nil_2|done]]|]. split; [done|]. split; [|done].
  unfold idle. change (ports d1) with tr. by rewrite Hn1.
Qed.
End disk_thread.

(** ** A disk with [/boot/kernel], for the witness

    The disk of Ext2.v with [/boot] (inode 12) a directory in block 21 and in it
    [kernel] (inode 13), 2000 bytes in blocks 22 and 23. *)
Module KernelDisk.
Import SmallFs AtaDemo.

Definition names (l : list (Z * list Z)) : list dirent := (fun '(i, n) => mkDirent i n 1 []) <$> l.
Definition kd_root_entries : list dirent :=
  [mkDirent 2 [46] 2 (zeros 3); mkDirent 12 (Md5.bytes "boot") 2 (zeros 1000)].
Definition kd_boot_entries : list dirent :=
  [mkDirent 12 [46] 2 (zeros 3); mkDirent 13 (Md5.bytes "kernel") 1 (zeros 998)].

Definition kernel_fs : Z -> list Z := fun n => sector
  (if n =? 0 then mbr_bytes else if n =? 65 then sb_bytes else if n =? 67 then group_bytes
   else if n =? 73 then zeros 128 ++ inode_bytes 0x41ED 1024 [20]
   else if n =? 75 then zeros 384 ++ inode_bytes 0x41ED 1024 [21]
   else if n =? 76 then inode_bytes 0x81A4 2000 [22; 23]
   else if n =? 103 then take 512 (dir_block kd_root_entries [])
   else if n =? 104 then drop 512 (dir_block kd_root_entries [])
   else if n =? 105 then take 512 (dir_block kd_boot_entries [])
   else if n =? 106 then drop 512 (dir_block kd_boot_entries [])
   else if n =? 107 then repeat 65 512 else if n =? 108 then repeat 66 512
   else if n =? 109 then repeat 67 512 else if n =? 110 then repeat 68 512 else []).

(** Its words. *)
Fixpoint words_of (l : list Z) : list Z :=
  match l with a :: b :: l => u16 (a + 2 ^ 8 * b) :: words_of l | _ => [] end.
Definition kernel_sectors (n : Z) : list Z := words_of (kernel_fs n).

Lemma words_of_ok l : length (words_of l) = (length l / 2)%nat /\ Forall (in_range 16) (words_of l).
Proof.
  assert (H : forall n l, (length l <= n)%nat -> length (words_of l) = (length l / 2)%nat /\ Forall (in_range 16) (words_of l)).
  { clear l. induction n as [|n IH]; intros [|a [|b l]] Hl; try (by split); cbn [length] in Hl; try lia.
    destruct (IH l ltac:(lia)) as [E F]. split.
    - cbn [words_of length]. rewrite E. change (S (S (length l))) with (2 + length l)%nat.
      replace (2 + length l)%nat with (length l + 1 * 2)%nat by lia. rewrite Nat.div_add by lia. lia.
    - constructor; [apply (wrap_range 16); lia|done]. }
  by apply (H (length l)).
Qed.
Lemma kernel_sectors_ok n : length (kernel_sectors n) = 256%nat /\ Forall (in_range 16) (kernel_sectors n).
Proof.
  destruct (words_of_ok (kernel_fs n)) as [E F]. split; [|done]. unfold kernel_sectors. rewrite E.
  unfold kernel_fs, sector, zeros. rewrite length_take, length_app, repeat_length.
  replace (512 `min` _)%nat with 512%nat by lia. done.
Qed.

Definition kd_disk : Z -> list Z := disk_bytes kernel_sectors.

Definition kd_drive : Hardware := drive_with kernel_sectors.
Definition kd_env : AtaEnv ATABlockDevice := woken_by kd_drive.
Definition kd_statics : AtaStatics := {| read_block_handler_addr := 0x102000; ata_addr := 0x200000 |}.
Definition kd_machine : main (irq_state ATABlockDevice) := mkMain (mkExt2 ata0 0) [].
Definition kd_patience : (2 < 3)%nat := le_n 3.

(** [/boot/kernel]. *)
Definition kd_file : Ext2VfsInode :=
  Eval vm_compute in @inode_at _ (@drive_device _ _ kd_drive kd_env 3) kd_disk (@mounted _ (@drive_device _ _ kd_drive kd_env 3) kd_disk 0) 5 13.

Section on_machine.
Context {W : Type} `{HasAta W} `{Hardware} `{!AtaEnv W} (fuel : nat).
#[local] Instance kd_dev : BlockDevice (irq_state W) := drive_device fuel.
Definition kd_vsb : Ext2VfsSuperBlock := mounted kd_disk 0.
Definition kd_inode (n : Z) : Ext2VfsInode := inode_at kd_disk kd_vsb 5 n.

Lemma kd_mounts : mount_ok kd_disk (Some 0).
Proof.
  intros p [= <-]. fold kd_vsb. split; [|split; [|split; [vm_compute; congruence|vm_compute; congruence]]].
  - split; [by apply (part_ok_mbr kd_disk (disk_bytes_ok kernel_sectors))|]. split; vm_compute; [done|by split].
  - split; try (vm_compute; (done || (split; done))); [left; vm_compute; congruence|exact (disk_bytes_ok kernel_sectors 67)].
Qed.

Lemma one_block_dir dir es : Z.land (st_mode dir) 0x4000 <> 0 -> blocks_of kd_vsb (st_size dir) = 1 ->
  Forall dirent_ok es -> inode_block kd_disk kd_vsb (ext_in dir) 0 = dir_block es [] ->
  Forall (fun e => name_ok (d_name e)) es -> directory kd_disk kd_vsb dir [(es, [])].
Proof.
  intros Hm Hb Hes Hd Hn. split; [done|]. split; [by rewrite Hb|]. split; [vm_compute; congruence|]. split.
  - intros [|i] b Hi; [|done]. injection Hi as <-. split; [split; [done|by left]|exact Hd].
  - cbn. by rewrite app_nil_r.
Qed.

Lemma kd_kernel : kernel_on_disk kd_disk 0 999 kd_file.
Proof.
  split; [vm_compute; reflexivity|exact kd_mounts|]. fold kd_vsb.
  exists (kd_inode 2), [(kd_root_entries, [])], 12, (kd_inode 12), [(kd_boot_entries, [])], 13.
  assert (Hn : forall l, Forall (fun b => 0 < b < 128) l -> (length l < 256)%nat -> name_ok l).
  { intros l Hl Hlen. split; [|done]. eapply Forall_impl; [exact Hl|]. intros b Hb. cbv beta in Hb. unfold is_char, in_range. lia. }
  split; [vm_compute; reflexivity|]. split.
  { apply one_block_dir; [vm_compute; congruence|vm_compute; reflexivity| |vm_compute; reflexivity|].
    - repeat constructor; vm_compute; (done || lia || congruence).
    - repeat apply Forall_cons_2; try apply Forall_nil_2; apply Hn; vm_compute; repeat constructor. }
  split; [vm_compute; reflexivity|]. split; [unfold in_range; lia|]. split; [vm_compute; reflexivity|]. split.
  { apply one_block_dir; [vm_compute; congruence|vm_compute; reflexivity| |vm_compute; reflexivity|].
    - repeat constructor; vm_compute; (done || lia || congruence).
    - repeat apply Forall_cons_2; try apply Forall_nil_2; apply Hn; vm_compute; repeat constructor. }
  split; [vm_compute; reflexivity|]. split; [unfold in_range; lia|]. vm_compute; reflexivity.
Qed.

Lemma kd_reads : reads_ok kd_vsb (st_size kd_file).
Proof.
  change (st_size kd_file) with 2000. intros c Hc Hm. unfold READ_SIZE in *. rewrite Z.mod_small in Hm by lia. subst c.
  split; [by left|right; vm_compute; congruence].
Qed.
End on_machine.
End KernelDisk.

Import AtaDemo KernelDisk.

(** Where waiting is the drive's interrupt and nothing else. *)
Example kd_prints :
  exists s', @drive_init ATABlockDevice just_ata kd_drive kd_env kd_statics 3 2 0x300000 999 zero_ctx kd_machine = Ret tt s' /\
    holds kernel_sectors (dev (m_fs s')) kd_disk /\
    m_out s' = [] ++ [("sb: %lx" +:+ newline, [0x300000])] ++
      digest_lines (md5_spec (@content _ (@kd_dev ATABlockDevice just_ata kd_drive kd_env 3) kd_disk 0 kd_file)) ++ [(newline, [])].
Proof.
  apply (@drive_init_ret ATABlockDevice just_ata kd_drive kd_env kd_statics 3 (woken_quiet kd_drive) kernel_sectors ones_count 2
    (drive_with_good kd_drive kernel_sectors (drive_among_has _ _) kernel_sectors_ok) (drive_with_pata kd_drive kernel_sectors (drive_among_has _ _) 2) kd_patience kd_machine 0 kd_file 2 0x300000 999 zero_ctx).
  - reflexivity.
  - done.
  - apply kd_kernel.
  - reflexivity.
  - vm_compute. congruence.
  - vm_compute. congruence.
  - exact (@kd_reads ATABlockDevice just_ata kd_drive kd_env 3).
  - vm_compute. congruence.
Qed.
