(* ===== verification/Boot.v ===== *)
(** * Boot: [kmain] (src/src/kmain.c)

    The kernel as one machine: the interrupt state of Interrupts.v, whose world holds the
    console of Printk.v, the keyboard's ring, the scheduler of Processes.v on the heap of
    KernelThreads.v and the device of the disk driver.
    [kmain] runs every initialization on it, in order, starts the two threads and stays
    in its loop. *)

From S2P Require Import Prelude Multiboot Frames PageTable VirtPages Kmalloc HeapPages KernelHeap MemTest.
From S2P Require Import Ata.
From S2P Require Import ProcQueue Processes KernelThreads.
From S2P Require Import RingBuffer Ports Interrupts RingDev Vga Serial Printk Kmain.

(** ** The machine *)

Record kworld := mkKW { kw_con : console; kw_keys : RingBuffer; kw_sched : sched (heap mm); kw_ata : ATABlockDevice }.
Definition set_kw_con (c : console) (w : kworld) : kworld := mkKW c (kw_keys w) (kw_sched w) (kw_ata w).
Definition set_kw_keys (r : RingBuffer) (w : kworld) : kworld := mkKW (kw_con w) r (kw_sched w) (kw_ata w).
Definition set_kw_sched (p : sched (heap mm)) (w : kworld) : kworld := mkKW (kw_con w) (kw_keys w) p (kw_ata w).
Definition set_kw_ata (a : ATABlockDevice) (w : kworld) : kworld := mkKW (kw_con w) (kw_keys w) (kw_sched w) a.

(** The ring of the serial line. *)
#[export] Instance kworld_ring : HasRing kworld.
Proof.
  refine {| ring w := con_ring (kw_con w);
            set_ring r w := set_kw_con (mkCon r (con_screen (kw_con w))) w |}; [done|by intros [[] ? ? ?]|done].
Defined.

Abbreviation K := (M (irq_state kworld)).

(** Addresses the linker gives to handlers and threads. *)
Class KernelStatics := {
  noop_handler_addr : Z; kexit_handler_addr : Z; page_fault_handler_addr : Z;
  keyboard_io_addr : Z; drive_init_addr : Z;
  handlers_apart : noop_handler_addr <> 0 /\ kexit_handler_addr <> 0 /\ noop_handler_addr <> kexit_handler_addr }.

Section kernel.
Context `{Hardware} `{Statics} `{SerialStatics} `{PoolsAt} `{StaticsLow} `{KernelStatics}.

(** *** Parts of the machine *)

(** The screen works with the machine's interrupt flag. *)
Definition vgaop {A} (m : M vga A) : K A :=
  zoom (fun s => set_vga_ints (ints s) (con_screen (kw_con (world s))))
    (fun v s => set_ints (vga_ints v) (set_world (set_kw_con (mkCon (con_ring (kw_con (world s))) v) (world s)) s)) m.

Definition heapop {A} (m : M (heap mm) A) : K A :=
  zoom (fun s => alloc (kw_sched (world s)))
    (fun h s => set_world (set_kw_sched (set_alloc h (kw_sched (world s))) (world s)) s) m.

(** The scheduler's view of vectors 0x80 and 0x81 is the interrupt table, and its flag
    is the machine's. *)
Definition entry_of (h : Processes.handler) : IRQTableEntry :=
  match h with
  | H_null => mkEntry 0 0
  | H_noop => mkEntry 0 noop_handler_addr
  | H_kexit => mkEntry 0 kexit_handler_addr
  end.
Definition handler_in (t : list IRQTableEntry) (n : nat) : Processes.handler :=
  match t !! n with
  | Some e => if Interrupts.handler e =? noop_handler_addr then H_noop
              else if Interrupts.handler e =? kexit_handler_addr then H_kexit else H_null
  | None => H_null
  end.
Definition sched_of (s : irq_state kworld) : sched (heap mm) :=
  set_if (ints s) (set_irqs (handler_in (irq_table s) 0x80) (handler_in (irq_table s) 0x81) (kw_sched (world s))).
Definition with_sched (p : sched (heap mm)) (t : list IRQTableEntry) : list IRQTableEntry :=
  <[0x80%nat := entry_of (irq80 p)]> (<[0x81%nat := entry_of (irq81 p)]> t).
Definition put_sched (p : sched (heap mm)) (s : irq_state kworld) : irq_state kworld :=
  set_irq_table (with_sched p (irq_table s)) (set_ints (int_flag p) (set_world (set_kw_sched p (world s)) s)).
Definition schedop {A} (m : M (sched (heap mm)) A) : K A := zoom sched_of put_sched m.

(** *** [kmain] *)

(** The initializations; [memtest] is whether the kernel is built with [MMU_MEMTEST]. *)
Definition kmain_init (memtest : bool) (boot : Z -> Z) (multiboot_tag_addr : Z) (fuel_tags fuel : nat) : K unit :=
  portop disable_cursor ;;
  vgaop VGA_clear ;;
  GDT_setup ;;
  IRQ_init ;;
  SER_init ;;
  heapop (vmop (zoom regions set_regions (multiboot_tags_parse_to_mem_regions fuel_tags boot multiboot_tag_addr))) ;;
  (if memtest then heapop (vmop MMU_memtest) else mret tt) ;;
  _ ← heapop (vmop (init_page_table fuel));
  MMU_alloc_init page_fault_handler_addr ;;
  heapop init_alloc.

(** [es] is what happens once the first thread runs: operations of threads and interrupts,
    and turns of the loop ([main_turn]). *)
Definition kmain (memtest : bool) (boot : Z -> Z) (multiboot_tag_addr : Z) (fuel_tags fuel : nat) (es : list kevent) : K unit :=
  kmain_init memtest boot multiboot_tag_addr fuel_tags fuel ;;
  schedop (start_threads keyboard_io_addr drive_init_addr ;; run_events es).

(** ** Lemmas *)

Lemma runs_zoom {S T A} (get : T -> S) (put : S -> T -> T) (m : M S A) t (Q : A -> T -> Prop) (Hh : string -> T -> Prop) :
  runs m (get t) (fun a s => Q a (put s t)) (fun msg s => Hh msg (put s t)) -> runs (zoom get put m) t Q Hh.
Proof. unfold runs, zoom. by destruct (m (get t)). Qed.

Lemma handler_of_entry h t n : (n < length t)%nat -> handler_in (<[n := entry_of h]> t) n = h.
Proof.
  intros Hn. unfold handler_in. rewrite list_lookup_insert_eq by done.
  destruct handlers_apart as (Hz & Hk & Hne). destruct h; cbn [entry_of Interrupts.handler].
  - by rewrite (proj2 (Z.eqb_neq 0 _)), (proj2 (Z.eqb_neq 0 _)) by done.
  - by rewrite Z.eqb_refl.
  - by rewrite (proj2 (Z.eqb_neq kexit_handler_addr _)), Z.eqb_refl by done.
Qed.

(** The machine's scheduler is the one put there. *)
Lemma sched_of_put p s : length (irq_table s) = 256%nat -> sched_of (put_sched p s) = p.
Proof.
  intros Hl. unfold sched_of, put_sched, with_sched. cbn [irq_table set_irq_table ints set_ints world set_world kw_sched].
  rewrite handler_of_entry by (rewrite length_insert; lia). unfold handler_in at 1.
  rewrite list_lookup_insert_ne by done. fold (handler_in (<[129%nat := entry_of (irq81 p)]> (irq_table s)) 129).
  rewrite handler_of_entry by lia. by destruct p.
Qed.

(** The machine when [kmain] is called: the statics are zero. *)
Record power_on (qs : list Z) (s : irq_state kworld) : Prop := {
  po_top : top s = 0;
  po_gdt : length (table s) = 8%nat;
  po_idt : length (idt s) = 256%nat;
  po_screen : length (VGA_buf (con_screen (kw_con (world s)))) = 2000%nat /\ VGA_cursor (con_screen (kw_con (world s))) = 0;
  po_ring : length (buff (ring (world s))) = 16%nat;
  po_sched : kw_sched (world s) = boot_sched qs (mkHeap [] (boot_mm [])) }.

(** The descriptor tables, the controllers and the console are up. *)
Record machine_up (s : irq_state kworld) : Prop := {
  mu_gates : forall i, 0 <= i < 256 -> exists d, idt s !! Z.to_nat i = Some d /\
    gate_is d (kernel_desc_offset s) (isr_stub_table i) (ist_of i);
  mu_desc : kernel_desc_offset s = 8;
  mu_gdt : exists code lo hi, take 4 (table s) = [0; code; lo; hi] /\ is_kernel_code code /\
    tss_desc_is (lo + 2 ^ 64 * hi) tss_addr;
  mu_tss : cpu_tr s = 16 /\ interrupt_stack_table (tss s) = [DF_stack; PF_stack; GP_stack; EX_stack; 0; 0; 0];
  mu_regs : cpu_gdtr s = mkReg 31 gdt_addr /\ cpu_idtr s = mkReg 4095 idt_addr;
  mu_masks : forall l, 0 <= l < 16 -> masked (ports s) l = negb (l =? IRQ4);
  mu_screen : Vga.shows (con_screen (kw_con (world s))) blank_term;
  mu_ring : waiting s [] }.

(** Nothing else has a say in it. *)
Lemma machine_up_same s s' : machine_up s -> idt s' = idt s -> kernel_desc_offset s' = kernel_desc_offset s ->
  table s' = table s -> tss s' = tss s -> cpu_tr s' = cpu_tr s -> cpu_gdtr s' = cpu_gdtr s -> cpu_idtr s' = cpu_idtr s ->
  ports s' = ports s -> kw_con (world s') = kw_con (world s) -> machine_up s'.
Proof.
  intros [Hg Hd Ht Hs Hr Hm Hv [Hw _]] E1 E2 E3 E4 E5 E6 E7 E8 E9.
  split; rewrite ?E1, ?E2, ?E3, ?E4, ?E5, ?E6, ?E7, ?E8, ?E9; try done.
  split; [|constructor]. cbn in Hw |- *. by rewrite E9.
Qed.

(** The interrupt table after [SER_init], and with the page fault handler. *)
Definition serial_table : list IRQTableEntry :=
  <[Z.to_nat (IRQ_BASE + IRQ4) := mkEntry serial_ring_addr serial_handler_addr]> (repeat (mkEntry 0 0) 256).
Definition boot_table : list IRQTableEntry := <[Z.to_nat PF_INT := mkEntry 0 page_fault_handler_addr]> serial_table.

Lemma boot_table_length : length boot_table = 256%nat.
Proof. unfold boot_table, serial_table. by rewrite !length_insert, repeat_length. Qed.

Lemma boot_table_null : handler_in boot_table 0x80 = H_null /\ handler_in boot_table 0x81 = H_null.
Proof.
  destruct handlers_apart as (Hz & Hk & _).
  assert (Hnull : forall n t, t !! n = Some (mkEntry 0 0) -> handler_in t n = H_null).
  { intros n t E. unfold handler_in. rewrite E. cbn [Interrupts.handler].
    by rewrite (proj2 (Z.eqb_neq 0 _)), (proj2 (Z.eqb_neq 0 _)) by done. }
  split; apply Hnull; unfold boot_table, serial_table; by rewrite !list_lookup_insert_ne by done.
Qed.

(** *** The devices *)

Definition devices_init : K unit :=
  portop disable_cursor ;; vgaop VGA_clear ;; GDT_setup ;; IRQ_init ;; SER_init.

Lemma devices_up s qs : power_on qs s -> pic_reads_back -> in_range 64 tss_addr -> (forall i, in_range 64 (isr_stub_table i)) ->
  runs devices_init s
    (fun _ s' => machine_up s' /\ ints s' = true /\ irq_table s' = serial_table /\ kw_sched (world s') = kw_sched (world s))
    (fun msg _ => msg = "serial chip fault!"%string).
Proof.
  intros [Ht Hg Hi [Hv Hcur] Hr Hs] Hp Htss Hstub. unfold devices_init.
  eapply runs_bind_ret; [apply (zoom_ret ports set_ports); reflexivity|]. set (s1 := set_ports _ s).
  eapply runs_bind_ret; [unfold vgaop; apply zoom_ret, VGA_clear_zero, Hv|]. set (s2 := set_ints _ _).
  destruct (boot_descriptor_tables s2) as (s3 & code & lo & hi & E & Hgates & Htab & Hd & Hcode & Htr & Htd & Hist & Hgr & Hir & Htbl & Hm1 & Hm2 & Hint & _ & Hw); [done..|].
  apply runs_assoc. eapply runs_bind_ret; [exact E|].
  eapply runs_conseq; [apply (SER_init_ret s3); by rewrite Hw| |done].
  intros _ s4 (r & tr & Hrep & -> & Hmask). cbn [ints irq_table world set_printed set_ports set_irq_table set_world kw_sched set_ring].
  split; [|by rewrite Htbl, Hw]. split; cbn [idt kernel_desc_offset table cpu_tr tss cpu_gdtr cpu_idtr ports world set_printed set_ports set_irq_table set_world].
  - exact Hgates.
  - exact Hd.
  - by exists code, lo, hi.
  - done.
  - done.
  - intros l Hl. rewrite Hmask by done. unfold masked. rewrite Hm1, Hm2.
    replace (if l <? 8 then _ else _) with true; [by rewrite andb_true_r|].
    destruct (Z.ltb_spec l 8); symmetry; change 0xff with (Z.ones 8); rewrite wrap_ones, Z.land_diag by lia;
      apply Z.ones_spec_low; lia.
  - rewrite Hw. cbn [world set_ring kworld_ring kw_con set_kw_con con_screen s2 s1 set_ints set_world set_ports].
    unfold set_cells. cbn [VGA_cursor set_vga_ints vga_ints]. rewrite Hcur. by destruct boot_shows.
  - split; [cbn; exact Hrep|constructor].
Qed.

(** *** Memory *)

Definition with_heap (h : heap mm) (s : irq_state kworld) : irq_state kworld :=
  set_world (set_kw_sched (set_alloc h (kw_sched (world s))) (world s)) s.

Lemma heapop_runs {A} (m : M (heap mm) A) s (Q : A -> irq_state kworld -> Prop) (P : string -> Prop) :
  runs m (alloc (kw_sched (world s))) (fun a h => Q a (with_heap h s)) (fun msg _ => P msg) ->
  runs (heapop m) s Q (fun msg _ => P msg).
Proof. intros Hm. by apply runs_zoom. Qed.

Lemma vmop_runs {A} (m : M mm A) (h : heap mm) (Q : A -> heap mm -> Prop) (P : string -> Prop) :
  runs m (vm h) (fun a v => Q a (mkHeap (pools h) v)) (fun msg _ => P msg) ->
  runs (vmop m) h Q (fun msg _ => P msg).
Proof. intros Hm. by apply runs_zoom. Qed.

(** Why [kmain] may stop. *)
Definition boot_failure (memtest : bool) (msg : string) : Prop :=
  msg = "ALLOCATOR OUT OF MEMORY!!!"%string \/ msg = "serial chip fault!"%string \/
  (memtest = true /\ (msg = "Assertion Failed: " +:+ TEXT_ORDER \/ msg = "Assertion Failed: " +:+ TEXT_CAPACITY)%string).

Definition memory_init (memtest : bool) (boot : Z -> Z) (multiboot_tag_addr : Z) (fuel_tags fuel : nat) : K unit :=
  heapop (vmop (zoom regions set_regions (multiboot_tags_parse_to_mem_regions fuel_tags boot multiboot_tag_addr))) ;;
  (if memtest then heapop (vmop MMU_memtest) else mret tt) ;;
  _ ← heapop (vmop (init_page_table fuel));
  MMU_alloc_init page_fault_handler_addr ;;
  heapop init_alloc.

Lemma memory_up memtest boot addr fuel_tags fuel mems elfs rs s :
  boot_tags boot addr fuel_tags mems elfs -> bootable mems elfs rs fuel ->
  alloc (kw_sched (world s)) = mkHeap [] (boot_mm []) ->
  runs (memory_init memtest boot addr fuel_tags fuel) s
    (fun _ s' => exists h, heap_inv h empty_ghost /\ ps_room (vm h) = HEAP_ROOM /\
       s' = set_irq_table (<[Z.to_nat PF_INT := mkEntry 0 page_fault_handler_addr]> (irq_table s)) (with_heap h s))
    (fun msg _ => boot_failure memtest msg).
Proof.
  intros Htags Hboot Ha. unfold memory_init.
  assert (Hparse : vmop (zoom regions set_regions (multiboot_tags_parse_to_mem_regions fuel_tags boot addr)) (mkHeap [] (boot_mm [])) =
    Ret tt (mkHeap [] (boot_mm rs))).
  { unfold vmop. erewrite zoom_ret; [|apply zoom_ret; rewrite (parse_boot_tags _ _ _ _ _ _ Htags); apply Hboot]. done. }
  eapply runs_bind_ret; [unfold heapop; apply zoom_ret; rewrite Ha; exact Hparse|].
  fold (with_heap (mkHeap [] (boot_mm rs)) s).
  eapply (runs_bind _ _ _ _ (fun _ s1 => exists v, ready_mm v fuel /\ s1 = with_heap (mkHeap [] v) s)).
  { destruct memtest; [|apply runs_ret; exists (boot_mm rs); split; [by eapply bootable_ready|done]].
    apply heapop_runs, vmop_runs. eapply runs_conseq; [by eapply memtest_ready| |].
    - cbn beta. intros ? v Hv. by exists v.
    - intros msg _ [?|[?|?]]; [by left|right; right; auto..]. }
  intros _ s1 (v & Hv & ->). destruct (ready_boots v fuel Hv) as (root & v1 & h & Hrun & Hh & Hi & Hroom).
  assert (Hpt : vmop (init_page_table fuel) (mkHeap [] v) = Ret root (mkHeap [] v1))
    by (unfold vmop; by erewrite zoom_ret by exact Hrun).
  eapply runs_bind_ret; [unfold heapop; apply zoom_ret; exact Hpt|].
  eapply runs_bind_ret; [reflexivity|].
  unfold runs, heapop. erewrite zoom_ret; [|exact Hh]. by exists h.
Qed.

(** *** Both *)

Lemma kmain_init_split memtest boot addr fuel_tags fuel s Q P :
  runs (devices_init ;; memory_init memtest boot addr fuel_tags fuel) s Q P ->
  runs (kmain_init memtest boot addr fuel_tags fuel) s Q P.
Proof.
  unfold runs. enough ((devices_init ;; memory_init memtest boot addr fuel_tags fuel) s =
    kmain_init memtest boot addr fuel_tags fuel s) as -> by done.
  unfold devices_init, kmain_init. fold (memory_init memtest boot addr fuel_tags fuel).
  unfold mbind, M_bind. by repeat match goal with
    |- context [match ?m ?s with Ret _ _ => _ | _ => _ end] => destruct (m s) as [?a ?s'| | |] end.
Qed.

(** All the initializations. *)
Lemma kmain_init_runs memtest boot addr fuel_tags fuel mems elfs rs qs s :
  power_on qs s -> boot_tags boot addr fuel_tags mems elfs -> bootable mems elfs rs fuel ->
  pic_reads_back -> in_range 64 tss_addr -> (forall i, in_range 64 (isr_stub_table i)) ->
  runs (kmain_init memtest boot addr fuel_tags fuel) s
    (fun _ s2 => machine_up s2 /\ irq_table s2 = boot_table /\
       exists h, heap_inv h empty_ghost /\ ps_room (vm h) = HEAP_ROOM /\ kw_sched (world s2) = boot_sched qs h)
    (fun msg _ => boot_failure memtest msg).
Proof.
  intros Hpo Htags Hboot Hp Htss Hstub. apply kmain_init_split. eapply runs_bind.
  { eapply runs_conseq; [by apply (devices_up s qs)|intros ? ? X; exact X|]. intros msg _ ->. by right; left. }
  intros _ s1 (Hup & _ & Htbl & Hw). rewrite (po_sched _ _ Hpo) in Hw.
  eapply runs_conseq; [eapply (memory_up memtest boot addr fuel_tags fuel mems elfs rs s1); [done..|by rewrite Hw]| |done].
  intros _ s2 (h & Hh & Hroom & ->). split; [by eapply machine_up_same|].
  split; [cbn [irq_table set_irq_table]; by rewrite Htbl|]. exists h. split; [done|]. split; [done|].
  unfold with_heap. cbn [world set_irq_table set_world kw_sched set_kw_sched]. by rewrite Hw.
Qed.

(** The scheduler of a machine that is up. *)
Lemma sched_of_boot s qs h : irq_table s = boot_table -> kw_sched (world s) = boot_sched qs h ->
  sched_of s = set_if (ints s) (set_irqs H_null H_null (boot_sched qs h)).
Proof. intros Htbl Hw. unfold sched_of. rewrite Htbl, Hw. by destruct boot_table_null as [-> ->]. Qed.

(** ** The kernel boots *)


End kernel.

(** ** A machine that boots, for the witness *)

Module BootDemo.
Import KernelHeap.Small SerialDemo IrqDemo.
#[local] Existing Instances slow_uart low_statics low_statics_low.
#[export] Instance demo_serial : SerialStatics := {| serial_handler_addr := 0x102000; serial_ring_addr := 0x110000 |}.
#[export] Instance demo_kernel : KernelStatics.
Proof.
  refine {| noop_handler_addr := 0x102100; kexit_handler_addr := 0x102200; page_fault_handler_addr := 0x102300;
            keyboard_io_addr := 0x102400; drive_init_addr := 0x102500 |}; done.
Defined.

(** The boot information of [small_mems] and [small_elfs]. *)
Definition TAGS_AT : Z := 0x7000.
Definition small_tags : list Z :=
  le 4 152 ++ le 4 0 ++
  le 4 6 ++ le 4 40 ++ le 4 24 ++ le 4 0 ++ le 8 0 ++ le 8 262144 ++ le 4 1 ++ le 4 0 ++
  le 4 9 ++ le 4 84 ++ le 4 1 ++ le 4 64 ++ le 4 0 ++
  le 4 0 ++ le 4 1 ++ le 8 0 ++ le 8 65536 ++ le 8 0 ++ le 8 5000 ++ le 4 0 ++ le 4 0 ++ le 8 0 ++ le 8 0 ++
  le 4 0 ++ le 4 0 ++ le 4 8.
Definition small_boot : Z -> Z := bytes_at TAGS_AT small_tags.

Lemma small_boot_tags : boot_tags small_boot TAGS_AT 3 small_mems small_elfs.
Proof.
  split. exists [TAGS_AT + 8; TAGS_AT + 48], (TAGS_AT + 8), (TAGS_AT + 48). split; [|split; [cbn; lia|split; [|eval_fact]]].
  - do 2 (apply tag_list_cons; [vm_compute; reflexivity|]; vm_compute (next_tag _ _)).
    apply tag_list_end. vm_compute. reflexivity.
  - repeat constructor; vm_compute; done.
Qed.

(** Zeroed statics, a screen with something on it. *)
Definition machine0 : irq_state kworld :=
  mkIrq (repeat 0 8) 0 0 (repeat 0 256) (repeat (mkEntry 0 0) 256) (mkTss [] [] 0) (mkReg 0 0) (mkReg 0 0) 0 false [] []
    (mkKW (mkCon zero_ring (mkVga (repeat 0x0741 2000) 0 false)) zero_ring (boot_sched [disk_queue] (mkHeap [] (boot_mm [])))
       (mkAta 0 0 0 0 0 0 0 0 ∅)).

Lemma machine0_on : power_on [disk_queue] machine0.
Proof. by split. Qed.

(** It comes up, memory test included, the threads run and the source thread waits. *)
Example machine0_boots :
  match kmain true small_boot TAGS_AT 3 64 two_threads machine0 with
  | Ret _ s => bool_decide (cur_proc (kw_sched (world s)) = source_proc) &&
               bool_decide (Interrupts.handler <$> irq_table s !! 14%nat = Some 0x102300)
  | _ => false
  end = true.
Proof. vm_compute. reflexivity. Qed.
End BootDemo.

Import BootDemo KernelHeap.Small SerialDemo IrqDemo.
#[local] Existing Instances slow_uart low_statics low_statics_low demo_statics.

