(* ===== verification/KernelWait.v ===== *)
(** * KernelWait: a thread that waits, on the whole kernel (src/src/processes.c,
    src/src/interrupts.c, src/src/kmain.c)

    What the waits of the keyboard's thread (KeyboardWait.v) and of the disk's (DiskWait.v)
    share on the machine of Boot.v: the handlers the interrupt table leads to, the turn of
    [kmain]'s loop that halts until an interrupt, and the queues before, during and after
    it, while one thread waits and no other runs. *)

From S2P Require Import Prelude Multiboot Frames PageTable VirtPages Kmalloc HeapPages KernelHeap MemTest.
From S2P Require Import Ata.
From S2P Require Import ProcQueue Processes KernelThreads.
From S2P Require Import RingBuffer Ports Interrupts RingDev Vga Serial Printk Keycodes Ps2 Echo Kmain Boot.

(** ** The scheduler's side *)

Section switch.
Context {A : Type} `{AllocatorLaws A} `{ProcStatics}.
Implicit Types (s : sched A).

(** Where the switch leads is where [next_proc] points. *)
Lemma context_switch_next s s' : context_switch s = Ret tt s' -> next_proc s' = cur_proc s'.
Proof.
  unfold context_switch. mstep. destruct (Z.eqb_spec (cur_proc s) (next_proc s)) as [E|_]; [by intros [= <-]|].
  intros ([] & s1 & _ & E)%bind_Ret_inv. rewrite bind_gets in E. apply bind_Ret_inv in E as ([] & s2 & _ & E).
  rewrite bind_gets in E. apply bind_Ret_inv in E as (n & s3 & En & E). apply bind_Ret_inv in E as (c & s4 & Ec & E).
  rewrite bind_modify in E. injection E as <-. cbn [next_proc cur_proc set_cur set_rsp_reg].
  unfold get_ctx in Ec. rewrite bind_gets in Ec. destruct (ctxs s3 !! context n); [|done]. injection Ec as _ <-.
  unfold qop, zoom in En. destruct (get_node (next_proc s2) (qs s2)); [|done..]. by injection En as _ <-.
Qed.

Lemma yield_next s s' : yield s = Ret tt s' -> next_proc s' = cur_proc s'.
Proof.
  unfold yield, int80. intros ([] & s1 & _ & E)%bind_Ret_inv. rewrite bind_gets in E.
  apply bind_Ret_inv in E as ([] & s2 & _ & E). by apply context_switch_next in E.
Qed.

Lemma block_on_next s s' q ei : q <> 0 -> PROC_block_on q ei s = Ret tt s' -> next_proc s' = cur_proc s'.
Proof.
  intros Hq. unfold PROC_block_on. rewrite (proj2 (Z.eqb_neq _ _) Hq), bind_gets.
  intros ([] & s1 & _ & E)%bind_Ret_inv. apply bind_Ret_inv in E as ([] & s2 & _ & E).
  apply bind_Ret_inv in E as ([] & s3 & _ & E). by apply yield_next in E.
Qed.

(** An interrupt that does not ask for a switch does not switch. *)
Lemma context_switch_same s : next_proc s = cur_proc s -> context_switch s = Ret tt s.
Proof. intros E. unfold context_switch. mstep. by rewrite E, Z.eqb_refl. Qed.

(** [PROC_unblock_all], also while no thread runs. *)
Lemma unblock_all_inv m : forall fuel s L Q l q, sched_inv s L Q -> Q !! avail_procs = Some l -> q <> avail_procs ->
  Q !! q = Some m -> (length m <= fuel)%nat ->
  exists s', PROC_unblock_all fuel q s = Ret tt s' /\ s' = set_qs (qs s') s /\
    sched_inv s' L (<[avail_procs := l ++ m]> (<[q := []]> Q)).
Proof.
  induction m as [|x m IH]; intros fuel s L Q l q Hi Hl Hqa Hq Hfuel;
    pose proof (si_queues _ _ _ Hi) as Hrep; pose proof (qr_head _ _ Hrep _ _ Hq) as Hh.
  - exists s. rewrite app_nil_r. split; [|split; [by destruct s|]].
    + destruct fuel; cbn [PROC_unblock_all]; by rewrite (get_head_qs _ 0).
    + by rewrite (insert_id Q q), insert_id by done.
  - destruct fuel as [|fuel]; [cbn in Hfuel; lia|]. cbn [length] in Hfuel.
    destruct (unblock_head_inv s L Q l q x m Hi Hl Hqa Hq) as (s1 & Hs1 & E1 & _ & Hi1 & _).
    destruct (IH fuel s1 L _ (l ++ [x]) q Hi1 (lookup_insert_eq _ _ _) Hqa) as (s2 & Hs2 & E2 & Hi2); [|lia|].
    { rewrite lookup_insert_ne by done. apply lookup_insert_eq. }
    exists s2. split; [|split; [rewrite E2 at 1; by rewrite E1|]].
    + cbn [PROC_unblock_all]. rewrite (get_head_qs _ x) by done.
      rewrite (proj2 (Z.eqb_neq _ _)) by (apply (queue_not_null _ _ _ _ x Hrep Hq); left).
      cbn [negb]. by rewrite (bind_ret _ _ _ _ _ Hs1).
    + rewrite <- app_assoc in Hi2. cbn [app] in Hi2.
      by rewrite (insert_insert_ne _ q avail_procs), (insert_insert_eq _ avail_procs), (insert_insert_eq _ q) in Hi2 by done.
Qed.

End switch.

(** ** The machine's side *)

(** The queue of the keyboard's ring, the request of the disk and its queue, and the
    address of the keyboard's handler. *)
Definition REQ_QUEUE : Z := 8.
Class WaitStatics `{ProcStatics} `{!AtaStatics} := {
  kb_queue : Z; ata_req : Z; kb_handler_addr : Z;
  ata_queue : Z := ata_req + REQ_QUEUE;
  queues_not_null : kb_queue <> 0 /\ ata_queue <> 0 /\ ata_req <> 0;
  queues_apart : kb_queue <> avail_procs /\ ata_queue <> avail_procs /\ ata_queue <> kb_queue;
  handlers_not_null : kb_handler_addr <> 0 /\ read_block_handler_addr <> 0 /\ read_block_handler_addr <> kb_handler_addr }.

(** The keyboard's ring of the kernel; the console is another part of the world. *)
#[export] Instance keys_ring : HasRing kworld.
Proof. refine {| ring := kw_keys; set_ring := set_kw_keys |}; [done|by intros []|done]. Defined.
#[export] Instance kernel_console : HasConsole kworld.
Proof. by refine {| con := kw_con; set_con := set_kw_con |}. Defined.

(** The queue in a request is one of the scheduler's: its head is read and written
    there. *)
Definition with_heads (h : gmap Z Z) (a : ATABlockDevice) : ATABlockDevice :=
  set_reqs (map_imap (fun p r => Some (mkReq (blk_num r) (default 0 (h !! (p + REQ_QUEUE))) (Ata.next r))) (reqs a)) a.
Definition request_heads (a : ATABlockDevice) : gmap Z Z := kmap (fun p => p + REQ_QUEUE) (queue_head <$> reqs a).
Definition kernel_ata (w : kworld) : ATABlockDevice := with_heads (heads (qs (kw_sched w))) (kw_ata w).
Definition set_kernel_ata (a : ATABlockDevice) (w : kworld) : kworld :=
  let q := qs (kw_sched w) in
  set_kw_ata a (set_kw_sched (set_qs (mkQueues (nodes q) (request_heads a ∪ heads q)) (kw_sched w)) w).

Lemma with_heads_lookup h a p :
  reqs (with_heads h a) !! p = (fun r => mkReq (blk_num r) (default 0 (h !! (p + REQ_QUEUE))) (Ata.next r)) <$> reqs a !! p.
Proof. cbn [with_heads reqs set_reqs]. rewrite map_lookup_imap. by destruct (reqs a !! p). Qed.
#[local] Instance req_queue_inj : Inj (=) (=) (fun p => p + REQ_QUEUE).
Proof. intros p q. unfold REQ_QUEUE. lia. Qed.
Lemma request_heads_lookup a p : request_heads a !! (p + REQ_QUEUE) = queue_head <$> reqs a !! p.
Proof. unfold request_heads. rewrite (lookup_kmap (fun p => p + REQ_QUEUE)). apply lookup_fmap. Qed.

Lemma ata_eq a a' : a' = set_reqs (reqs a') a -> (forall p, reqs a !! p = reqs a' !! p) -> a = a'.
Proof. intros -> E. cbn [reqs set_reqs] in E. apply map_eq in E. destruct a; cbn in *. by rewrite E. Qed.

#[export] Instance kernel_disk : HasAta kworld.
Proof.
  refine {| ata := kernel_ata; set_ata := set_kernel_ata |}. intros a w. symmetry. apply ata_eq; [by destruct a|]. intros p.
  unfold kernel_ata. cbn [set_kernel_ata set_kw_ata set_kw_sched kw_ata kw_sched qs set_qs heads]. rewrite with_heads_lookup.
  destruct (reqs a !! p) as [r|] eqn:E; [|done]. cbn [fmap option_fmap option_map]. f_equal.
  rewrite (lookup_union_Some_l _ _ _ (queue_head r)); [by destruct r|]. by rewrite request_heads_lookup, E.
Defined.

(** Requests whose queues have the heads they are said to have. *)
Definition heads_agree (a : ATABlockDevice) (w : kworld) : Prop :=
  forall p r, reqs a !! p = Some r -> heads (qs (kw_sched w)) !! (p + REQ_QUEUE) = Some (queue_head r).
Lemma set_kernel_ata_agree a w : heads_agree a w -> set_kernel_ata a w = set_kw_ata a w.
Proof.
  intros Ha. unfold set_kernel_ata. cbv zeta. set (q := qs (kw_sched w)).
  replace (request_heads a ∪ heads q) with (heads q).
  { replace (mkQueues (nodes q) (heads q)) with q by (by destruct q). subst q. by destruct w as [? ? [] ?]. }
  symmetry. apply map_eq. intros k. apply option_eq. intros x. rewrite lookup_union_Some_raw. split; [|].
  - intros [Hk|[_ Hk]]; [|done]. unfold request_heads in Hk. rewrite (lookup_kmap_Some (fun p => p + REQ_QUEUE)) in Hk.
    destruct Hk as (p & -> & Hp). rewrite lookup_fmap in Hp. destruct (reqs a !! p) as [r|] eqn:E; [|done]. injection Hp as <-. exact (Ha _ _ E).
  - intros Hk. destruct (request_heads a !! k) as [y|] eqn:E; [left|by right]. f_equal.
    unfold request_heads in E. rewrite (lookup_kmap_Some (fun p => p + REQ_QUEUE)) in E. destruct E as (p & -> & Hp).
    rewrite lookup_fmap in Hp. destruct (reqs a !! p) as [r|] eqn:E; [|done]. injection Hp as <-. pose proof (Ha _ _ E) as Hx. fold q in Hx. congruence.
Qed.

Lemma with_heads_twice h h' a : with_heads h (with_heads h' a) = with_heads h a.
Proof.
  symmetry. apply ata_eq; [done|]. intros p. rewrite !with_heads_lookup. by destruct (reqs a !! p).
Qed.
Lemma with_heads_same h h' a : (forall p, is_Some (reqs a !! p) -> h !! (p + REQ_QUEUE) = h' !! (p + REQ_QUEUE)) ->
  with_heads h a = with_heads h' a.
Proof.
  intros E. apply ata_eq; [done|]. intros p. rewrite !with_heads_lookup. destruct (reqs a !! p) as [r|] eqn:Er; [|done].
  cbn. by rewrite E.
Qed.
Lemma agree_self w : (forall p, is_Some (reqs (kw_ata w) !! p) -> is_Some (heads (qs (kw_sched w)) !! (p + REQ_QUEUE))) ->
  heads_agree (kernel_ata w) w.
Proof.
  intros Hh p r. unfold kernel_ata. rewrite with_heads_lookup. destruct (reqs (kw_ata w) !! p) as [r0|] eqn:E; [|done].
  intros [= <-]. cbn [queue_head]. destruct (Hh p) as [x ->]; [by exists r0|done].
Qed.

Section kernel.
Context `{Hardware} `{Statics} `{SerialStatics} `{PoolsAt} `{StaticsLow} `{KernelStatics} `{!AtaStatics} `{!WaitStatics}.
Context (fuel : nat).

(** Waking the threads of a queue, as many as there are. *)
#[export] Instance kernel_kbd : KeyboardEnv kworld := {|
  unblock_all q := schedop (n ← gets (fun p => size (nodes (qs p))); PROC_unblock_all n q);
  keyboard_queue := kb_queue;
  ps2_irq_handler_addr := kb_handler_addr |}.

(** The disk's handler wakes the first thread of a request; it does not wait itself. *)
Definition wake_request (p : Z) : K unit := schedop (PROC_unblock_head (p + REQ_QUEUE)).
Definition handler_env : AtaEnv kworld :=
  {| new_req := fun _ => ata_req; block_on := fun _ => fault; unblock_head := wake_request |}.

(** The code at the addresses of the handlers. *)
Definition kernel_call (h number error_code a : Z) : K unit :=
  if h =? kb_handler_addr then ps2_irq_handler fuel number
  else if h =? read_block_handler_addr then read_block_handler (H1 := handler_env) number
  else if h =? serial_handler_addr then serial_transmit_ready_handler (H := kworld_ring) number
  else if h =? page_fault_handler_addr then heapop (vmop page_fault_handler)
  else if h =? noop_handler_addr then mret tt
  else if h =? kexit_handler_addr then schedop kexit_handler
  else fault.

(** An interrupt: the handler by the table, and the switch at the end of the stub. *)
Definition interrupt (number : Z) : K unit :=
  irq_handler kernel_call number 0 ;;
  schedop context_switch.

(** A turn of [kmain]'s loop that comes to the halt, where [number] interrupts. *)
Definition halted_turn (number : Z) : K unit :=
  schedop PROC_run_resumed ;;
  unblocked ← schedop PROC_has_unblocked;
  (if (unblocked : bool) then mret tt else STI ;; interrupt number) ;;
  _ ← schedop PROC_run;
  mret tt.

(** *** The queues around a wait *)

Implicit Types (p : sched (heap mm)) (Q : gmap Z (list Z)).

(** [x] runs and no other thread can; none runs, and [l] can. *)
Definition alone (x : Z) Q p : Prop := exists L, running p L Q [x] /\ cur_proc p = x.
Definition parked (l : list Z) Q p : Prop :=
  exists L, sched_inv p L Q /\ Q !! avail_procs = Some l /\ cur_proc p = source_proc /\ next_proc p = source_proc.

Lemma alone_if x Q b p : alone x Q p -> alone x Q (set_if b p).
Proof. intros (L & [[[] ? ? ?] ?] & ?). exists L. split; [|done]. split; [|done]. by split; [split|..]. Qed.
Lemma parked_if l Q b p : parked l Q p -> parked l Q (set_if b p).
Proof. intros (L & [] & ?). exists L. by split; [split|]. Qed.
Lemma parked_resumed l Q p : parked l Q p -> parked l Q (set_irqs H_null H_null p).
Proof. intros (L & [] & ?). exists L. by split; [split|]. Qed.

(** The thread that runs alone blocks: none runs. *)
Lemma alone_blocks x Q q w p : alone x Q p -> q <> avail_procs -> q <> 0 -> Q !! q = Some w ->
  exists p', PROC_block_on q true p = Ret tt p' /\ parked [] (<[avail_procs := []]> (<[q := w ++ [x]]> Q)) p'.
Proof.
  intros (L & [Hr _] & Hc) Hqa Hq0 Hq. subst x. change [cur_proc p] with ([] ++ cur_proc p :: []) in Hr.
  destruct (block_on_ret p L Q [] [] q w true Hr Hqa Hq0 Hq) as (p' & E & [Hr' _] & Hc' & _).
  exists p'. split; [done|]. exists L. split; [apply Hr'|]. split; [apply lookup_insert_eq|]. split; [exact Hc'|].
  transitivity (cur_proc p'); [by eapply block_on_next|exact Hc'].
Qed.

(** One of two threads blocks: the other runs alone. *)
Lemma pair_blocks x y L Q q w p : running p L Q [y; x] -> cur_proc p = x -> q <> avail_procs -> q <> 0 -> Q !! q = Some w ->
  exists p', PROC_block_on q true p = Ret tt p' /\ alone y (<[avail_procs := [y]]> (<[q := w ++ [x]]> Q)) p'.
Proof.
  intros [Hr _] <- Hqa Hq0 Hq. change [y; cur_proc p] with ([y] ++ cur_proc p :: []) in Hr.
  destruct (block_on_ret p L Q [y] [] q w true Hr Hqa Hq0 Hq) as (p' & E & Hr' & Hc' & _).
  exists p'. split; [done|]. by exists L.
Qed.

Lemma parked_idle Q p : parked [] Q p -> PROC_has_unblocked p = Ret false p.
Proof.
  intros (L & Hi & Hl & _). unfold PROC_has_unblocked.
  by rewrite (get_head_qs _ 0) by (apply (qr_head _ _ (si_queues _ _ _ Hi) _ _ Hl)).
Qed.

(** A handler wakes the threads of a queue, or its first. *)
Lemma parked_wakes Q q w p : parked [] Q p -> q <> avail_procs -> Q !! q = Some w ->
  exists p', (n ← gets (fun p => size (nodes (qs p))); PROC_unblock_all n q) p = Ret tt p' /\
    parked w (<[avail_procs := w]> (<[q := []]> Q)) p'.
Proof.
  intros (L & Hi & Hl & Hc & Hn) Hqa Hq. rewrite bind_gets.
  destruct (unblock_all_inv w (size (nodes (qs p))) p L Q [] q Hi Hl Hqa Hq) as (p' & E & Ep & Hi').
  { by apply (queue_size p Q q); [apply Hi|]. }
  exists p'. split; [done|]. exists L. split; [exact Hi'|]. split; [apply lookup_insert_eq|]. by rewrite Ep.
Qed.
Lemma parked_wakes_head Q q x w p : parked [] Q p -> q <> avail_procs -> Q !! q = Some (x :: w) ->
  exists p', PROC_unblock_head q p = Ret tt p' /\ parked [x] (<[avail_procs := [x]]> (<[q := w]> Q)) p'.
Proof.
  intros (L & Hi & Hl & Hc & Hn) Hqa Hq.
  destruct (unblock_head_inv p L Q [] q x w Hi Hl Hqa Hq) as (p' & E & Ep & _ & Hi' & _).
  exists p'. split; [done|]. exists L. split; [exact Hi'|]. split; [apply lookup_insert_eq|]. by rewrite Ep.
Qed.

Lemma parked_switch l Q p : parked l Q p -> context_switch p = Ret tt p.
Proof. intros (L & _ & _ & Hc & Hn). apply context_switch_same. congruence. Qed.

Lemma parked_runs x Q p : parked [x] Q p -> exists p', PROC_run p = Ret true p' /\ alone x (<[avail_procs := [x]]> Q) p'.
Proof.
  intros (L & Hi & Hl & _ & _).
  destruct (PROC_run_ret p L Q [x] Hi Hl (source_in_no_queue p L Q Hi)) as (p' & E & Hc & Hr & _).
  exists p'. split; [done|]. by exists L.
Qed.

(** The head of a queue. *)
Lemma parked_head l Q q w p : parked l Q p -> Q !! q = Some w -> heads (qs p) !! q = Some (hd 0 w).
Proof. intros (L & Hi & _) Hq. by apply (qr_head _ _ (si_queues _ _ _ Hi)). Qed.
Lemma alone_head x Q q w p : alone x Q p -> Q !! q = Some w -> heads (qs p) !! q = Some (hd 0 w).
Proof. intros (L & [Hr _] & _) Hq. by apply (qr_head _ _ (si_queues _ _ _ (rd_inv _ _ _ _ Hr))). Qed.

(** *** The machine around them *)

Implicit Types (s : irq_state kworld).

(** Only the scheduler did something: the interrupt table is the same but for its two
    vectors. *)
Record sched_only s s' : Prop := {
  so_table : length (irq_table s') = length (irq_table s);
  so_entry : forall n, n <> 0x80%nat -> n <> 0x81%nat -> irq_table s' !! n = irq_table s !! n;
  so_ports : ports s' = ports s;
  so_keys : kw_keys (world s') = kw_keys (world s);
  so_con : kw_con (world s') = kw_con (world s);
  so_ata : kw_ata (world s') = kw_ata (world s) }.
Lemma sched_only_trans s1 s2 s3 : sched_only s1 s2 -> sched_only s2 s3 -> sched_only s1 s3.
Proof. intros [] []. split; try congruence. intros n Ha Hb. rewrite <- so_entry0 by done. auto. Qed.
Lemma sched_only_if b s : sched_only s (set_ints b s).
Proof. by split. Qed.

Lemma schedop_step {A} (m : M (sched (heap mm)) A) s a p : length (irq_table s) = 256%nat -> m (sched_of s) = Ret a p ->
  exists s', schedop m s = Ret a s' /\ sched_of s' = p /\ sched_only s s'.
Proof.
  intros Hl E. exists (put_sched p s). split; [by apply (zoom_ret sched_of put_sched)|]. split; [by apply sched_of_put|].
  unfold put_sched, with_sched. split; cbn [irq_table set_irq_table]; try done; [by rewrite !length_insert|].
  intros n Ha Hb. by rewrite !list_lookup_insert_ne by (by apply not_eq_sym).
Qed.

(** Parts of the machine that the scheduler does not see. *)
Lemma sched_of_same s s' : irq_table s' = irq_table s -> kw_sched (world s') = kw_sched (world s) ->
  sched_of s' = set_if (ints s') (sched_of s).
Proof. intros E1 E2. unfold sched_of. by rewrite E1, E2. Qed.

(** *** A wait

    From the thread's block to its next turn: [Pre] holds of what is not the scheduler's
    when the interrupt comes and the handler, which wakes the thread, leaves [Post]. *)
Lemma halted_turn_ret x Q s number (Post : irq_state kworld -> Prop) Q' :
  parked [] Q (sched_of s) -> length (irq_table s) = 256%nat ->
  (forall s1, sched_only s s1 -> parked [] Q (sched_of s1) -> ints s1 = true ->
     exists s2, irq_handler kernel_call number 0 s1 = Ret tt s2 /\ parked [x] Q' (sched_of s2) /\
       length (irq_table s2) = 256%nat /\ forall s', sched_only s2 s' -> Post s') ->
  exists s', halted_turn number s = Ret tt s' /\ alone x (<[avail_procs := [x]]> Q') (sched_of s') /\
    length (irq_table s') = 256%nat /\ Post s'.
Proof.
  intros P0 Hl Hirq. unfold halted_turn.
  destruct (schedop_step PROC_run_resumed s tt _ Hl eq_refl) as (s1 & E1 & Hs1 & O1).
  assert (P1 : parked [] Q (sched_of s1)) by (rewrite Hs1; by apply parked_resumed).
  rewrite (bind_ret _ _ _ _ _ E1). assert (Hl1 : length (irq_table s1) = 256%nat) by (rewrite (so_table _ _ O1); done).
  destruct (schedop_step _ s1 _ _ Hl1 (parked_idle _ _ P1)) as (s2 & E2 & Hs2 & O2). rewrite <- Hs2 in P1.
  rewrite (bind_ret _ _ _ _ _ E2). set (s3 := set_ints true s2).
  assert (P3 : parked [] Q (sched_of s3)) by (rewrite (sched_of_same s2 s3) by done; by apply parked_if).
  destruct (Hirq s3) as (s4 & E4 & P4 & Hl4 & Hpost); [|done|done|].
  { eapply sched_only_trans; [exact O1|]. eapply sched_only_trans; [exact O2|apply sched_only_if]. }
  destruct (schedop_step _ s4 tt _ Hl4 (parked_switch _ _ _ P4)) as (s5 & E5 & Hs5 & O5). rewrite <- Hs5 in P4.
  assert (Ei : (STI ;; interrupt number) s2 = Ret tt s5) by (unfold STI, interrupt; rewrite bind_modify; fold s3; by rewrite (bind_ret _ _ _ _ _ E4)).
  rewrite (bind_ret _ _ _ _ _ Ei). assert (Hl5 : length (irq_table s5) = 256%nat) by (rewrite (so_table _ _ O5); done).
  destruct (parked_runs x Q' _ P4) as (p6 & B6 & P6).
  destruct (schedop_step _ s5 _ _ Hl5 B6) as (s6 & E6 & Hs6 & O6). exists s6.
  rewrite (bind_ret _ _ _ _ _ E6). split; [done|]. split; [by rewrite Hs6|].
  split; [by rewrite (so_table _ _ O6)|]. apply Hpost. by eapply sched_only_trans.
Qed.

(** The thread blocks, and then the turn of the loop. *)
Lemma blocked_turn_ret x Q s q w number (Post : irq_state kworld -> Prop) Q' :
  alone x Q (sched_of s) -> length (irq_table s) = 256%nat -> q <> avail_procs -> q <> 0 -> Q !! q = Some w ->
  (forall s1, sched_only s s1 -> parked [] (<[avail_procs := []]> (<[q := w ++ [x]]> Q)) (sched_of s1) -> ints s1 = true ->
     exists s2, irq_handler kernel_call number 0 s1 = Ret tt s2 /\ parked [x] Q' (sched_of s2) /\
       length (irq_table s2) = 256%nat /\ forall s', sched_only s2 s' -> Post s') ->
  exists s', (schedop (PROC_block_on q true) ;; halted_turn number) s = Ret tt s' /\
    alone x (<[avail_procs := [x]]> Q') (sched_of s') /\ length (irq_table s') = 256%nat /\ Post s'.
Proof.
  intros Ha Hl Hqa Hq0 Hq Hirq. destruct (alone_blocks x Q q w _ Ha Hqa Hq0 Hq) as (p1 & B1 & P1).
  destruct (schedop_step _ s tt p1 Hl B1) as (s1 & E1 & Hs1 & O1). rewrite <- Hs1 in P1.
  rewrite (bind_ret _ _ _ _ _ E1). eapply halted_turn_ret; [exact P1|by rewrite (so_table _ _ O1)|].
  intros s2 O2. apply Hirq. by eapply sched_only_trans.
Qed.

End kernel.
