(* ===== verification/KeyboardWait.v ===== *)
(** * KeyboardWait: a thread that waits for the keyboard (src/src/ring_buffer.c,
    src/src/ps2.c, src/src/processes.c, src/src/interrupts.c, src/src/kmain.c)

    On the machine of Boot.v the keyboard's thread blocks when its ring is empty, the
    source thread halts in [kmain]'s loop, a key interrupts it, the interrupt table leads
    to the keyboard's handler, which fills the ring and wakes the thread, and the loop lets
    it run again (KernelWait.v). This discharges for the whole kernel what Echo.v asks of a
    [Reader]. *)

From S2P Require Import Prelude Multiboot Frames PageTable VirtPages Kmalloc HeapPages KernelHeap MemTest.
From S2P Require Import Ata.
From S2P Require Import ProcQueue Processes KernelThreads.
From S2P Require Import RingBuffer Ports Interrupts RingDev Vga Serial Printk Keycodes Ps2 Echo Kmain Boot KernelWait.

Section kernel.
Context `{Hardware} `{Statics} `{SerialStatics} `{PoolsAt} `{StaticsLow} `{KernelStatics} `{!AtaStatics} `{!WaitStatics}.
Context (fuel : nat).

(** The disk's thread, when it is its turn: it goes on to its first read, and waits for the disk. *)
Definition disk_thread_waits : M (sched (heap mm)) unit :=
  cur ← gets cur_proc;
  if cur =? source_proc then mret tt else PROC_block_on ata_queue true.

(** [PROC_block_on(state->blocked, true)] until it returns, while the disk does not answer. *)
Definition keyboard_wait : K unit :=
  schedop (PROC_block_on kb_queue true ;; disk_thread_waits) ;;
  halted_turn fuel PS2_INTERRUPT_NUM.

(** *** The queues *)

Implicit Types (p : sched (heap mm)) (Q : gmap Z (list Z)).

(** [w] wait for the keyboard. *)
Definition for_keys (w : list Z) Q : Prop := Q !! kb_queue = Some w /\ is_Some (Q !! ata_queue).
(** [x] runs; only the disk's thread may also be able to. *)
Definition at_cpu (x : Z) p : Prop :=
  exists L Q l, running p L Q l /\ cur_proc p = x /\ (l = [x] \/ exists y, l = [y; x]) /\ for_keys [] Q.

Lemma at_cpu_if x b p : at_cpu x p -> at_cpu x (set_if b p).
Proof. intros (L & Q & l & [[[] ? ? ?] ?] & ?). exists L, Q, l. split; [|done]. split; [|done]. by split; [split|..]. Qed.
Lemma alone_at_cpu x Q p : alone x Q p -> for_keys [] Q -> at_cpu x p.
Proof. intros (L & Hr & Hc) Hq. exists L, Q, [x]. split; [done|]. split; [done|]. split; [by left|done]. Qed.

Lemma for_keys_avail w Q l : for_keys w Q -> for_keys w (<[avail_procs := l]> Q).
Proof.
  destruct queues_apart as (Hka & Haa & _). intros [Hk Ha]. split; rewrite lookup_insert_ne by (by apply not_eq_sym); done.
Qed.
Lemma for_keys_set w v Q : for_keys w Q -> for_keys v (<[kb_queue := v]> Q).
Proof.
  destruct queues_apart as (_ & _ & Hak). intros [_ Ha]. split; [apply lookup_insert_eq|].
  by rewrite lookup_insert_ne by (by apply not_eq_sym).
Qed.
Lemma for_keys_disk w v Q : for_keys w Q -> for_keys w (<[ata_queue := v]> Q).
Proof.
  destruct queues_apart as (_ & _ & Hak). intros [Hk _]. split; [by rewrite lookup_insert_ne|]. rewrite lookup_insert_eq. by eexists.
Qed.

(** The thread waits, and the disk's thread after it. *)
Lemma block_parks x p : at_cpu x p ->
  exists p' Q, (PROC_block_on kb_queue true ;; disk_thread_waits) p = Ret tt p' /\ parked [] Q p' /\ for_keys [x] Q.
Proof.
  destruct queues_not_null as (Hk0 & Ha0 & _), queues_apart as (Hka & Haa & Hak).
  intros (L & Q & l & Hr & Hc & Hl & Hq).
  assert (Hn : forall Q, for_keys [] Q -> Q !! kb_queue = Some []) by (by intros ? []). destruct Hl as [->|[y ->]].
  - assert (Ha : alone x Q p) by by exists L.
    destruct (alone_blocks x Q kb_queue [] p Ha Hka Hk0 (Hn _ Hq)) as (p1 & E1 & P1). rewrite (bind_ret _ _ _ _ _ E1).
    exists p1. eexists. split; [|split; [exact P1|by eapply for_keys_avail, for_keys_set]].
    destruct P1 as (? & _ & _ & E & _). unfold disk_thread_waits. by rewrite bind_gets, E, Z.eqb_refl.
  - destruct (pair_blocks x y L Q kb_queue [] p Hr Hc Hka Hk0 (Hn _ Hq)) as (p1 & E1 & A1). rewrite (bind_ret _ _ _ _ _ E1).
    cbn [app] in A1. set (Q1 := <[avail_procs := [y]]> _) in A1.
    assert (Hq1 : for_keys [x] Q1) by (by eapply for_keys_avail, for_keys_set).
    assert (Hy : cur_proc p1 = y /\ y <> source_proc).
    { destruct A1 as (L1 & Hr1 & Hc1). split; [done|]. intros ->. apply (source_in_no_queue p1 L1 Q1); [apply Hr1|].
      apply (in_queue_lookup _ avail_procs [source_proc]); [apply Hr1|left]. }
    destruct (proj2 Hq1) as [m Hm], Hy as [Hc1 Hy].
    destruct (alone_blocks y Q1 ata_queue m p1 A1 Haa Ha0 Hm) as (p2 & E2 & P2).
    exists p2. eexists. split; [|split; [exact P2|by apply for_keys_avail, for_keys_disk]].
    unfold disk_thread_waits. by rewrite bind_gets, Hc1, (proj2 (Z.eqb_neq _ _) Hy).
Qed.

(** *** The machine around them *)

Implicit Types (s : irq_state kworld).

(** The keyboard is set up: its handler in the table, its ring with the queue. *)
Record wired s : Prop := {
  wr_table : length (irq_table s) = 256%nat;
  wr_entry : irq_table s !! Z.to_nat PS2_INTERRUPT_NUM = Some (mkEntry 0 kb_handler_addr);
  wr_queue : blocked (kw_keys (world s)) = kb_queue }.

Lemma wired_sched s s' : wired s -> sched_only s s' -> wired s'.
Proof. intros [Hl He Hb] [Hl' He' _ Hk _ _]. split; [by rewrite Hl'|by rewrite He'|by rewrite Hk]. Qed.

Lemma typing_sched k0 all s s' keys q : typing k0 all s keys q -> sched_only s s' -> typing k0 all s' keys q.
Proof.
  intros ([Hr Hc] & Ha & Hk) [_ _ Hp Hq _ _]. split; [split; [|done]|split; [done|by rewrite Hp]].
  cbn [ring keys_ring] in *. by rewrite Hq.
Qed.

Lemma only_chars_sched s s' : only_chars s s' -> sched_of s' = sched_of s /\ ports s' = ports s /\
  kw_con (world s') = kw_con (world s) /\ (wired s -> wired s').
Proof. intros (r & -> & Hb). split; [done|]. split; [done|]. split; [done|]. intros [Hl He Hq]. split; [done|done|]. by rewrite <- Hq. Qed.

Context (k0 : ctl) (all : list Z) (patience : nat) `{!Typing k0 all patience} (Hfuel : (patience < fuel)%nat).

Lemma ring_get s : ringop (gets id) s = Ret (ring (world s)) s.
Proof. unfold ringop, zoom, gets, id. cbn. f_equal. by destruct s as [? ? ? ? ? ? ? ? ? ? ? ? []]. Qed.

(** The console and what was sent over the line are the same. *)
Definition same_console s s' : Prop :=
  kw_con (world s') = kw_con (world s) /\ sent_on COM1 (ports s') = sent_on COM1 (ports s).
Lemma same_console_trans s1 s2 s3 : same_console s1 s2 -> same_console s2 s3 -> same_console s1 s3.
Proof. intros [] []. split; congruence. Qed.
Lemma same_console_sched s s' : sched_only s s' -> same_console s s'.
Proof. intros [_ _ E _ ? _]. split; [done|by rewrite E]. Qed.

(** The keyboard's handler, on the whole machine, while no thread runs and [x] waits for it. *)
Lemma key_handler_ret s k keys q x Q : typing k0 all s (k :: keys) q -> wired s -> parked [] Q (sched_of s) -> for_keys [x] Q ->
  exists s', kernel_call fuel kb_handler_addr PS2_INTERRUPT_NUM 0 0 s = Ret tt s' /\ typing k0 all s' keys (deposit k q) /\
    wired s' /\ parked [x] (<[avail_procs := [x]]> (<[kb_queue := []]> Q)) (sched_of s') /\ same_console s s'.
Proof.
  intros ([Hr Hc] & Ha & n & Hat & Hk) Hw Hpark [Hkb _]. destruct (next_key all n k keys Hk) as [Hkey Hk'].
  destruct (key_block_ret k0 all patience fuel Hfuel (ports s) n Hat) as (tr & E & Hn). pose proof (mute_read_block fuel _ _ _ E) as Hmute.
  rewrite Hkey in E. set (s1 := set_ports tr s).
  destruct (deposit_ret s1 q k) as (s2 & E2 & Hoc & [Hr2 Hc2] & Ha2); [by split|done|].
  destruct (only_chars_sched s1 s2 Hoc) as (Es2 & Ep2 & Ec2 & Hw2).
  assert (Hw1 : wired s1) by (destruct Hw; by split). specialize (Hw2 Hw1).
  assert (Hs2 : sched_of s2 = sched_of s) by (by rewrite Es2). rewrite <- Hs2 in Hpark.
  destruct (parked_wakes Q kb_queue [x] (sched_of s2) Hpark (proj1 queues_apart) Hkb) as (p & Ew & Hp).
  destruct (schedop_step _ s2 tt p (wr_table _ Hw2) Ew) as (s3 & E3 & Hs3 & O3). pose proof (wired_sched _ _ Hw2 O3) as Hw3.
  destruct O3 as [_ _ Hp3 Hk3 Hc3 _].
  exists (set_ports (ports s3 ++ [Outb PIC2_COMMAND PIC_EOI; Outb PIC1_COMMAND PIC_EOI]) s3).
  assert (Hports : ports s3 = tr) by (by rewrite Hp3, Ep2).
  split; [|split; [|split; [by destruct Hw3|split; [by rewrite <- Hs3 in Hp|]]]].
  - unfold kernel_call. rewrite Z.eqb_refl. unfold ps2_irq_handler.
    rewrite (bind_ret _ _ _ _ _ (zoom_ret ports set_ports _ _ _ s E)). fold s1. rewrite (bind_ret _ _ _ _ _ E2).
    rewrite (bind_ret _ _ _ _ _ (ring_get s2)). change (ring (world s2)) with (kw_keys (world s2)). rewrite (wr_queue _ Hw2).
    cbn [unblock_all kernel_kbd]. rewrite (bind_ret _ _ _ _ _ E3). apply (zoom_ret ports set_ports), PIC_sendEOI_vector. done.
  - split; [split; [|done]|split; [done|]].
    + cbn [ring keys_ring world set_ports] in *. by rewrite Hk3.
    + exists (S n). split; [|done]. cbn [ports set_ports]. rewrite Hports. by apply at_key_eoi.
  - split; cbn [world ports set_ports]; [by rewrite Hc3, Ec2|]. rewrite Hports, sent_on_app, Hmute. cbn. by rewrite app_nil_r.
Qed.

(** The keyboard's interrupt while no thread runs. *)
Lemma key_interrupt s k keys q x Q : typing k0 all s (k :: keys) q -> wired s -> parked [] Q (sched_of s) -> for_keys [x] Q ->
  exists s', irq_handler (kernel_call fuel) PS2_INTERRUPT_NUM 0 s = Ret tt s' /\ typing k0 all s' keys (deposit k q) /\ wired s' /\
    parked [x] (<[avail_procs := [x]]> (<[kb_queue := []]> Q)) (sched_of s') /\ same_console s s'.
Proof.
  intros Ht Hw Hpark Hq. set (s0 := set_ints false s).
  destruct (key_handler_ret s0 k keys q x Q) as (s1 & E1 & Ht1 & Hw1 & P1 & Hc1); [| | |done|].
  { destruct Ht as ([] & ? & ?). by split. } { by destruct Hw. } { rewrite (sched_of_same s s0) by done. by apply parked_if. }
  exists (set_ints true s1). split; [|split; [destruct Ht1 as ([] & ? & ?); by split|split; [by destruct Hw1|split; [|exact Hc1]]]].
  - unfold irq_handler, CLI, STI. rewrite bind_modify.
    change ((PS2_INTERRUPT_NUM <? 0) || (PS2_INTERRUPT_NUM >=? IDT_MAX_DESCRIPTORS)) with false. cbv iota.
    rewrite bind_gets. unfold id. cbn [irq_table set_ints]. rewrite (wr_entry _ Hw). cbn [Interrupts.handler arg].
    rewrite (proj2 (Z.eqb_neq kb_handler_addr 0) (proj1 handlers_not_null)). by rewrite (bind_ret _ _ _ _ _ E1).
  - rewrite (sched_of_same s1 (set_ints true s1)) by done. by apply parked_if.
Qed.

(** *** Waiting *)

(** The thread [x] runs, alone; [keys] are to come and [q] waits in its ring. *)
Record reading (x : Z) s (keys q : list Z) : Prop := {
  rg_typing : typing k0 all s keys q;
  rg_wired : wired s;
  rg_cpu : at_cpu x (sched_of s) }.

(** The thread blocks, the source thread halts, the key comes, and the thread runs again. *)
Lemma keyboard_wait_ret x s k keys q : reading x s (k :: keys) q ->
  exists s', keyboard_wait s = Ret tt s' /\ reading x s' keys (deposit k q) /\ same_console s s'.
Proof.
  intros [Ht Hw Hcpu]. destruct (block_parks x _ Hcpu) as (p1 & Q & B1 & P1 & Hq).
  destruct (schedop_step _ s tt p1 (wr_table _ Hw) B1) as (s1 & E1 & Hs1 & O1). rewrite <- Hs1 in P1.
  destruct (halted_turn_ret fuel x Q s1 PS2_INTERRUPT_NUM
      (fun s' => typing k0 all s' keys (deposit k q) /\ wired s' /\ same_console s s')
      (<[avail_procs := [x]]> (<[kb_queue := []]> Q)) P1) as (s' & E & Ha & _ & Ht' & Hw' & Hc').
  - rewrite (so_table _ _ O1). apply Hw.
  - intros s2 O2 P2 _. pose proof (sched_only_trans _ _ _ O1 O2) as O.
    destruct (key_interrupt s2 k keys q x Q (typing_sched _ _ _ _ _ _ Ht O) (wired_sched _ _ Hw O) P2 Hq) as (s3 & E3 & Ht3 & Hw3 & P3 & Hc3).
    exists s3. split; [done|]. split; [done|]. split; [apply Hw3|]. intros s' O'. split; [by eapply typing_sched|].
    split; [by eapply wired_sched|]. eapply same_console_trans; [by apply same_console_sched|].
    eapply same_console_trans; [exact Hc3|by apply same_console_sched].
  - exists s'. unfold keyboard_wait. rewrite (bind_ret _ _ _ _ _ E1). split; [exact E|]. split; [|exact Hc']. split; [done..|].
    eapply alone_at_cpu; [exact Ha|]. by eapply for_keys_avail, for_keys_avail, for_keys_set.
Qed.

Lemma reading_chars x s s' keys q keys' q' : reading x s keys q -> only_chars s s' -> typing k0 all s' keys' q' -> reading x s' keys' q'.
Proof.
  intros [_ Hw Hcpu] Hoc Ht. destruct (only_chars_sched s s' Hoc) as (Es & _ & _ & Hw'). split; [done|auto|by rewrite Es].
Qed.
Lemma reading_ints x b s keys q : reading x s keys q -> reading x (set_ints b s) keys q.
Proof.
  intros [([] & ? & ?) [] Hcpu]. split; [by split|by split|]. rewrite (sched_of_same s) by done. by apply at_cpu_if.
Qed.
Lemma same_console_chars s s' : only_chars s s' -> same_console s s'.
Proof. intros Hoc. destruct (only_chars_sched s s' Hoc) as (_ & E & ? & _). split; [done|by rewrite E]. Qed.

Lemma block_next_ret x n : forall s keys q c keys' q', reading x s keys q -> (length keys <= n)%nat ->
  await keys q = Some (c, keys', q') ->
  exists s', block_next_loop (replicate n keyboard_wait) s = Ret c s' /\ reading x s' keys' q' /\ 0 <= c < 128 /\
    (length keys' <= length keys)%nat /\ same_console s s'.
Proof.
  induction n as [|n IH]; intros s keys q c keys' q' Hr Hn Ha; (destruct q as [|c0 q];
    [|rewrite await_waiting in Ha; injection Ha as <- <- <-;
      match goal with |- context [block_next_loop ?w s] =>
        destruct (take_ret k0 all s keys c0 q w (rg_typing _ _ _ _ Hr)) as (s' & E & Ht & Hc & Hoc) end;
      exists s'; split; [exact E|]; split; [by eapply reading_chars|]; split; [done|]; split; [done|by apply same_console_chars]]).
  - destruct keys; [done|cbn in Hn; lia].
  - destruct keys as [|k keys]; [done|]. cbn [await length replicate block_next_loop] in *.
    pose proof (ring_get s) as Eg.
    destruct (rg_typing _ _ _ _ Hr) as ([Hrep _] & _ & _).
    rewrite (bind_ret _ _ _ _ _ Eg), (rep_empty _ _ Hrep), bool_decide_true by done.
    destruct (keyboard_wait_ret x s k keys [] Hr) as (s1 & E1 & Hr1 & Hc1).
    rewrite (bind_ret _ _ _ _ _ E1). unfold CLI. rewrite bind_modify.
    destruct (IH (set_ints false s1) keys (deposit k []) c keys' q' (reading_ints _ _ _ _ _ Hr1) ltac:(lia) Ha)
      as (s' & E & Hr' & Hc & Hl & Hco).
    exists s'. split; [exact E|]. split; [done|]. split; [done|]. split; [lia|]. by eapply same_console_trans.
Qed.

(** The keyboard's thread of the kernel is a reader. *)
#[local] Instance kernel_reader (x : Z) : Reader kworld keyboard_wait.
Proof.
  refine {| rd_state := reading x |}.
  - intros n s keys q c keys' q' Hr Hn Ha.
    destruct (block_next_ret x n (set_ints false s) keys q c keys' q' (reading_ints _ _ _ _ _ Hr) Hn Ha) as (s' & E & Hr' & Hc & Hl & Hco).
    exists (set_ints true s'). split; [|split; [by apply reading_ints|split; [done|exact Hco]]].
    unfold getc, ring_block_next, CLI, STI. rewrite <- bind_assoc, bind_modify.
    rewrite <- bind_assoc, (bind_ret _ _ _ _ _ E). rewrite <- bind_assoc, bind_modify. rewrite bind_mret. unfold mret, M_ret. f_equal.
    unfold sint. rewrite wrap_small by (unfold in_range; lia).
    by rewrite (proj2 (Z.ltb_lt _ _)) by (change (2 ^ (8 - 1)) with 128; lia).
  - intros s s1 keys q [Ht [Hl He Hb] Hcpu] Etab Eints Htr. split; [by apply typing_print| |].
    + split; cbn [irq_table put_console around world]; rewrite ?Etab; done.
    + rewrite (sched_of_same s) by (done || exact Etab). by apply at_cpu_if.
Defined.


(** ** What is typed is shown, by the whole kernel *)

(** Typing at the kernel. The keyboard's thread runs, chars [q] wait in its ring
    and keys [keys] are to come. [rounds] turns of its loop return: where no char waits the
    thread blocks, the disk's thread goes on until it waits too, the source thread finds
    nothing to run and halts, the key's interrupt
    goes through the interrupt table to the keyboard's handler, which puts the char in
    the ring and wakes the thread, and the turn of [kmain]'s loop runs it. *)
Lemma keyboard_thread_echoes x rounds n s keys q t ql out keys' q' :
  reading x s keys q -> con_shows (console_of s) t ql -> Forall Printk.plain_char q -> (length keys <= n)%nat ->
  kb_spec (replicate rounds Getc) keys q = Some (out, keys', q') ->
  (exists s' ql' acc, echo_loop rounds (replicate n keyboard_wait) s = Ret tt s' /\
     reading x s' keys' q' /\ con_shows (console_of s') (fold_left tput out t) ql' /\
     sent_on COM1 (ports s') ++ ql' = sent_on COM1 (ports s) ++ ql ++ acc /\ acc `sublist_of` out) /\
  length out = rounds /\ exists used, keys = used ++ keys' /\ out ++ q' = q ++ text used.
Proof.
  intros Hr Hc Hp Hn Hs. assert (Hd : at_desk (Reader0 := kernel_reader x) keyboard_wait s keys q t ql) by by split.
  destruct (keyboard_echoes keyboard_wait rounds n s keys q t ql out keys' q' Hd Hn Hs) as [(s' & ql' & acc & E & [] & Hl) Hrest].
  split; [|done]. by exists s', ql', acc.
Qed.

End kernel.
