(* ===== verification/KeyboardBoot.v ===== *)
(** * KeyboardBoot: from power on to what is typed (src/src/kmain.c, src/src/ps2.c)

    [kmain] initializes the kernel of Boot.v and starts its two threads; the keyboard's
    runs [keyboard_io], which initializes the keyboard (Ps2.v) and then reads and prints
    (Echo.v), waiting as in KeyboardWait.v. *)

From S2P Require Import Prelude Multiboot Frames PageTable VirtPages Kmalloc HeapPages KernelHeap MemTest.
From S2P Require Import Ata.
From S2P Require Import ProcQueue Processes KernelThreads.
From S2P Require Import RingBuffer Ports Interrupts RingDev Vga Serial Printk Keycodes Ps2 Echo Kmain Boot KernelWait KeyboardWait.

#[local] Existing Instances keys_ring kernel_console kernel_kbd.

Section kernel.
Context `{Hardware} `{Statics} `{SerialStatics} `{PoolsAt} `{StaticsLow} `{KernelStatics} `{!AtaStatics} `{!WaitStatics}.

(** ** Booting leaves the keyboard and the disk alone

    It accesses other ports, gives the disk no command, over the line it sends [l], and the
    keyboard's ring stays. *)

Definition disk_command (e : io) : Prop := match e with Outb p _ => p = PRIM_IO_BASE + REG_CMD | _ => False end.
Definition elsewhere (e : io) : Prop := ~ kbd_access e /\ ~ disk_command e.
Definition port_away {A} (l : list Z) (m : M (list io) A) : Prop :=
  forall tr a tr', m tr = Ret a tr' -> exists t, tr' = tr ++ t /\ Forall elsewhere t /\ sent_on COM1 t = l.
Definition away {A} (l : list Z) (m : K A) : Prop :=
  forall s a s', m s = Ret a s' -> kw_keys (world s') = kw_keys (world s) /\
    exists t, ports s' = ports s ++ t /\ Forall elsewhere t /\ sent_on COM1 t = l.

Lemma port_away_bind {A B} l1 l2 (m : M (list io) A) (k : A -> M (list io) B) :
  port_away l1 m -> (forall a, port_away l2 (k a)) -> port_away (l1 ++ l2) (m ≫= k).
Proof.
  intros Hm Hk tr b tr' (a & tr1 & E1 & E2)%bind_Ret_inv.
  destruct (Hm _ _ _ E1) as (t1 & -> & F1 & S1), (Hk _ _ _ _ E2) as (t2 & -> & F2 & S2).
  exists (t1 ++ t2). rewrite app_assoc, sent_on_app, S1, S2. split; [done|]. split; [by apply Forall_app|done].
Qed.
Lemma port_away_ret {A} (a : A) : port_away [] (mret a).
Proof. intros tr b tr' [= _ ->]. exists []. by rewrite app_nil_r. Qed.
Lemma port_away_inb p : p <> PS2_DATA_PORT -> p <> PS2_STATUS_COMMAND_PORT -> port_away [] (inb p).
Proof. intros H1p H2p tr v tr' [= _ <-]. eexists [_]. split; [done|]. split; [|done]. apply Forall_singleton. split; [by intros [->| ->]|by intros []]. Qed.
Lemma port_away_outb p v : p <> PS2_DATA_PORT -> p <> PS2_STATUS_COMMAND_PORT -> p <> PRIM_IO_BASE + REG_CMD ->
  port_away (if p =? COM1 then [u8 v] else []) (outb p v).
Proof.
  intros H1p H2p H3p tr a tr' [= _ <-]. eexists [_]. split; [done|]. split; [apply Forall_singleton; split; [by intros [->| ->]|exact H3p]|].
  cbn. by destruct (p =? COM1).
Qed.

Lemma away_bind {A B} l1 l2 (m : K A) (k : A -> K B) : away l1 m -> (forall a, away l2 (k a)) -> away (l1 ++ l2) (m ≫= k).
Proof.
  intros Hm Hk s b s' (a & s1 & E1 & E2)%bind_Ret_inv.
  destruct (Hm _ _ _ E1) as (K1 & t1 & P1 & F1 & S1), (Hk _ _ _ _ E2) as (K2 & t2 & P2 & F2 & S2).
  split; [congruence|]. exists (t1 ++ t2). rewrite P2, P1, app_assoc, sent_on_app, S1, S2.
  split; [done|]. split; [by apply Forall_app|done].
Qed.
Lemma away_port {A} l (m : M (list io) A) : port_away l m -> away l (portop m).
Proof.
  intros Hm s a s'. unfold portop, zoom. destruct (m (ports s)) as [b tr| | |] eqn:E; [|done..].
  intros [= <- <-]. split; [done|]. by apply Hm in E.
Qed.
(** What does not touch the ports or the keyboard's ring. *)
Definition inside {A} (m : K A) : Prop :=
  forall s a s', m s = Ret a s' -> kw_keys (world s') = kw_keys (world s) /\ ports s' = ports s.
Lemma away_inside {A} (m : K A) : inside m -> away [] m.
Proof. intros Hm s a s' E. destruct (Hm _ _ _ E) as [-> ->]. split; [done|]. exists []. by rewrite app_nil_r. Qed.
Lemma inside_bind {A B} (m : K A) (k : A -> K B) : inside m -> (forall a, inside (k a)) -> inside (m ≫= k).
Proof. intros Hm Hk s b s' (a & s1 & E1 & E2)%bind_Ret_inv. destruct (Hm _ _ _ E1), (Hk _ _ _ _ E2). split; congruence. Qed.
Lemma inside_ret {A} (a : A) : inside (mret a).
Proof. by intros s b s' [= _ ->]. Qed.
Lemma inside_gets {A} (f : irq_state kworld -> A) : inside (gets f).
Proof. by intros s b s' [= _ ->]. Qed.
Lemma inside_modify f : (forall s, kw_keys (world (f s)) = kw_keys (world s) /\ ports (f s) = ports s) -> inside (modify f).
Proof. intros Hf s b s' [= _ <-]. apply Hf. Qed.
Lemma inside_zoom {S A} (get : irq_state kworld -> S) put (m : M S A) :
  (forall x s, kw_keys (world (put x s)) = kw_keys (world s) /\ ports (put x s) = ports s) -> inside (zoom get put m).
Proof. intros Hp s a s'. unfold zoom. destruct (m (get s)); [|done..]. intros [= _ <-]. apply Hp. Qed.
Lemma inside_fault {A} : inside (@fault (irq_state kworld) A).
Proof. done. Qed.
Lemma inside_panic {A} msg args : inside (@panic (irq_state kworld) A msg args).
Proof. done. Qed.

Ltac insides := repeat first
  [ apply inside_bind; [|intros ?] | apply inside_ret | apply inside_gets | apply inside_fault | apply inside_panic
  | apply inside_modify; intros ?; by split | apply inside_zoom; intros ? ?; by split
  | match goal with |- inside (if ?b then _ else _) => destruct b end ].

Lemma inside_push d : inside (GDT_push_dq d).
Proof. unfold GDT_push_dq. insides. Qed.
Lemma inside_push_all l : inside (GDT_push_all l).
Proof. induction l as [|d l IH]; cbn [GDT_push_all]; [insides|]. apply inside_bind; [apply inside_push|intros _; exact IH]. Qed.
Lemma inside_GDT_setup : inside GDT_setup.
Proof. unfold GDT_setup, GDT_load. do 2 (apply inside_bind; [apply inside_push|intros ?]). insides. Qed.
Lemma inside_tss : inside IRQ_init_tss.
Proof.
  unfold IRQ_init_tss, GDT_push, GDT_load. cbv zeta. apply inside_bind; [insides|intros _].
  apply inside_bind; [|intros ?; insides]. apply inside_bind; [insides|intros ?].
  apply inside_bind; [apply inside_push_all|intros ?; insides].
Qed.
Lemma inside_fill n : forall i, inside (fill_idt n i).
Proof.
  induction n as [|n IH]; intros i; cbn [fill_idt]; [insides|]. apply inside_bind; [insides|intros s].
  destruct (idt s !! Z.to_nat i); [|insides]. apply inside_bind; [insides|intros _; apply IH].
Qed.
Lemma inside_handler_set n h a : inside (IRQ_handler_set n h a : K unit).
Proof. unfold IRQ_handler_set. insides. Qed.

(** Writes to the devices of the boot. *)
Ltac port_aways := repeat match goal with
  | |- port_away ?l (_ ≫= _) => apply (port_away_bind [] l); [|intros ?]
  | |- port_away _ (mret _) => apply port_away_ret
  | |- port_away _ (inb _) => apply port_away_inb; done
  | |- port_away _ (outb ?p _) => exact (port_away_outb p _ ltac:(done) ltac:(done) ltac:(done))
  end.

Lemma port_away_remap n : port_away [] (PIC_remap n).
Proof. unfold PIC_remap. port_aways. Qed.
Lemma port_away_mask : port_away [] (IRQ_clear_mask IRQ4).
Proof. unfold IRQ_clear_mask. cbn. port_aways. Qed.
Lemma port_away_cursor : port_away [] disable_cursor.
Proof. unfold disable_cursor. port_aways. Qed.
Lemma port_away_serial :
  port_away [0xAE] (outbs [(COM1 + 1, 0x00); (COM1 + 3, 0x03); (COM1 + 2, 0xC7); (COM1 + 4, 0x0B); (COM1 + 4, 0x1E); (COM1 + 0, 0xAE)]).
Proof.
  intros tr a tr'. rewrite outbs_ret. intros [= _ <-]. eexists. split; [done|]. split; [|done].
  repeat constructor; (by intros [|]) || (intros E; discriminate E).
Qed.

Lemma away_IRQ_init : away [] IRQ_init.
Proof.
  unfold IRQ_init. apply (away_bind [] []); [apply away_inside; unfold CLI; insides|intros _].
  apply (away_bind [] []); [apply away_inside, inside_tss|intros _].
  apply (away_bind [] []); [apply away_port, port_away_remap|intros _].
  apply (away_bind [] []); [apply away_inside, inside_fill|intros _].
  apply away_inside. cbv zeta. unfold print, STI. insides.
Qed.

Lemma away_SER_init : away [0xAE] (SER_init (H := kworld_ring)).
Proof.
  unfold SER_init. apply (away_bind [] [0xAE]); [apply away_inside; unfold ringop; insides|intros _].
  apply (away_bind [0xAE] []); [apply away_port, port_away_serial|intros _].
  apply (away_bind [] []); [apply away_port; port_aways|intros echo].
  destruct (negb _); [apply away_inside; insides|].
  apply (away_bind [] []); [apply away_inside, inside_handler_set|intros _].
  apply (away_bind [] []); [apply away_port, port_away_mask|intros _].
  do 2 (apply (away_bind [] []); [apply away_port; port_aways|intros _]).
  apply away_inside. unfold print. insides.
Qed.

Lemma away_kmain_init memtest boot addr fuel_tags fuel : away [0xAE] (kmain_init memtest boot addr fuel_tags fuel).
Proof.
  unfold kmain_init. apply (away_bind [] [0xAE]); [apply away_port, port_away_cursor|intros _].
  apply (away_bind [] [0xAE]); [apply away_inside; unfold vgaop; insides|intros _].
  apply (away_bind [] [0xAE]); [apply away_inside, inside_GDT_setup|intros _].
  apply (away_bind [] [0xAE]); [apply away_IRQ_init|intros _].
  apply (away_bind [0xAE] []); [apply away_SER_init|intros _].
  apply away_inside. unfold heapop, MMU_alloc_init. apply inside_bind; [insides|intros _].
  apply inside_bind; [insides|intros _]. apply inside_bind; [insides|intros _].
  apply inside_bind; [apply inside_handler_set|intros _; insides].
Qed.

(** ** The keyboard's thread *)

(** From power on until [rounds] turns of the loop in [keyboard_io] are over: the threads of [kmain] start
    and the keyboard's runs; [n] times at most it waits for a char. *)
Definition boot_and_read (memtest : bool) (boot : Z -> Z) (multiboot_tag_addr : Z) (fuel_tags fuel_mem : nat)
    (fuel : nat) (stack : list Z) (rounds n : nat) : K unit :=
  kmain_init memtest boot multiboot_tag_addr fuel_tags fuel_mem ;;
  schedop (start_threads keyboard_io_addr drive_init_addr) ;;
  keyboard_io fuel stack rounds (replicate n (keyboard_wait fuel)).

(** The threads start, the keyboard's [x] first; the disk's [y] is next. *)
Definition started (x y : Z) (p : sched (heap mm)) : Prop :=
  exists L Q, running p L Q [y; x] /\ cur_proc p = x /\ for_keys [] Q /\ Q !! ata_queue = Some [].
Lemma started_at_cpu x y p : started x y p -> at_cpu x p.
Proof. intros (L & Q & Hr & Hc & Hq & _). exists L, Q, [y; x]. split; [done|]. split; [done|]. split; [right; by exists y|done]. Qed.

Lemma threads_start s qs h : irq_table s = boot_table -> kw_sched (world s) = boot_sched qs h ->
  heap_inv h empty_ghost -> ps_room (vm h) = HEAP_ROOM -> kb_queue ∈ qs -> ata_queue ∈ qs ->
  runs (schedop (start_threads keyboard_io_addr drive_init_addr)) s
    (fun _ s' => exists x y p, started x y p /\ s' = put_sched p s) (fun msg _ => al_oom msg).
Proof.
  intros Ht Hw Hh Hroom Hk Ha. pose proof (sched_of_boot s qs h Ht Hw) as Es. destruct queues_apart as (Hka & Haa & _).
  assert (Hnone : forall q, q ∈ qs -> no_threads qs !! q = Some []).
  { intros q Hq. apply lookup_gset_to_gmap_Some. split; [|done]. apply elem_of_list_to_set. by right. }
  apply runs_zoom. eapply runs_conseq; [apply (start_threads_run (sched_of s) qs)| |done].
  - rewrite Es. by apply inv_flags, boot_sched_inv, empty_owns.
  - rewrite Es. change (al_room _) with (ps_room (vm h)). rewrite Hroom. vm_compute. congruence.
  - intros _ p (L & x & y & Hr & Hc & _). exists x, y, p. split; [|done]. eexists L, _. split; [exact Hr|].
    split; [done|]. split; [apply for_keys_avail; split; [by apply Hnone|rewrite Hnone by done; by eexists]|].
    rewrite lookup_insert_ne by done. by apply Hnone.
Qed.

(** Initializing the keyboard sends nothing over the line. *)
Lemma init_access_silent tr : Forall init_access tr -> sent_on COM1 tr = [].
Proof.
  induction 1 as [|e tr He _ IH]; [done|]. unfold sent_on in *. cbn [omap list_omap]. rewrite IH.
  destruct e as [q v|q v|q v|q v]; try done. by destruct He as [[-> | ->] | ->].
Qed.

(** Nor does it give the disk a command. *)
Lemma init_access_no_command tr : Forall init_access tr -> Forall (fun e => ~ disk_command e) tr.
Proof.
  intros Ht. eapply Forall_impl; [exact Ht|]. intros e He. destruct e as [p v|p v|p v|p v]; try by intros [].
  intros Hp. cbn in Hp. subst p. destruct He as [[E|E]|E]; discriminate E.
Qed.

Section reads.
Context (k0 : ctl) (all : list Z) (patience fuel : nat) `{!GoodController k0 patience} `{!Typing k0 all patience}.
Context (Hfuel : Z.of_nat patience < PS2_READ_DATA_RESONABLE_TIMEOUT <= Z.of_nat fuel).

(** The keyboard's thread initializes the keyboard and is ready to read. *)
Lemma keyboard_up x y p s stack l cfg o : started x y p -> irq_table s = boot_table ->
  length (buff (kw_keys (world s))) = 16%nat -> (2 <= length stack)%nat ->
  ctl_of k0 (ports s) = mkCtl l cfg false o -> l = [] \/ (length l = 1%nat /\ patience = 0%nat) -> in_range 8 cfg ->
  exists s', ps2_initialize fuel stack (put_sched p s) = Ret tt s' /\ reading k0 all x s' all [] /\
    started x y (sched_of s') /\ kw_con (world s') = kw_con (world s) /\
    exists t, ports s' = ports s ++ t /\ Forall init_access t.
Proof.
  intros Hx Ht Hb Hst Hk Hl Hcfg. set (s1 := put_sched p s).
  assert (Hf : (patience < fuel)%nat) by lia.
  destruct (keyboard_initialized k0 patience fuel Hf s1 stack l cfg o) as
    (s' & cfg' & E & Hk' & _ & _ & _ & _ & _ & _ & Hwait & Hblk & (r & tr & pr & -> & Htr) & _); [done..|].
  exists (set_irq_table (<[Z.to_nat PS2_INTERRUPT_NUM := mkEntry 0 ps2_irq_handler_addr]> (irq_table s1))
    (set_world (set_ring r (world s1)) (set_printed pr (set_ports (ports s1 ++ tr) s1)))).
  split; [exact E|].
  assert (Hlen : length (irq_table s1) = 256%nat).
  { subst s1. unfold put_sched, with_sched. cbn [irq_table set_irq_table]. rewrite !length_insert, Ht. apply boot_table_length. }
  assert (Hp : sched_of s1 = p) by (apply sched_of_put; rewrite Ht; apply boot_table_length).
  match goal with |- reading _ _ _ ?s' _ _ /\ _ => assert (Es : sched_of s' = p) end.
  { rewrite <- Hp. unfold sched_of, handler_in. cbn [irq_table set_irq_table set_world world ints kw_sched set_ring keys_ring set_kw_keys set_printed set_ports].
    by rewrite !list_lookup_insert_ne by done. }
  rewrite Es. split; [split|split; [done|split; [done|by exists tr]]].
  - split; [done|]. split; [constructor|]. exists 0%nat. split; [|done]. unfold at_key. by rewrite Hk'.
  - split; cbn [irq_table set_irq_table set_world world]; [by rewrite length_insert| |exact Hblk].
    apply list_lookup_insert_eq. change (Z.to_nat PS2_INTERRUPT_NUM) with 33%nat. rewrite Hlen. lia.
  - rewrite Es. by eapply started_at_cpu.
Qed.

(** From power on until the keyboard's thread reads: it runs, the disk's can, the screen is
    blank and the disk was given no command. *)
Definition up_to_reading (memtest : bool) (boot : Z -> Z) (multiboot_tag_addr : Z) (fuel_tags fuel_mem : nat) (stack : list Z) : K unit :=
  kmain_init memtest boot multiboot_tag_addr fuel_tags fuel_mem ;;
  schedop (start_threads keyboard_io_addr drive_init_addr) ;;
  ps2_initialize fuel stack.

Lemma up_to_reading_runs memtest boot addr fuel_tags fuel_mem mems elfs rs qs s l cfg o stack :
  power_on qs s -> boot_tags boot addr fuel_tags mems elfs -> bootable mems elfs rs fuel_mem ->
  pic_reads_back -> in_range 64 tss_addr -> (forall i, in_range 64 (isr_stub_table i)) ->
  kb_queue ∈ qs -> ata_queue ∈ qs -> length (buff (kw_keys (world s))) = 16%nat -> (2 <= length stack)%nat ->
  ctl_of k0 (ports s) = mkCtl l cfg false o -> l = [] \/ (length l = 1%nat /\ patience = 0%nat) -> in_range 8 cfg ->
  runs (up_to_reading memtest boot addr fuel_tags fuel_mem stack) s
    (fun _ s' => exists x y t, reading k0 all x s' all [] /\ started x y (sched_of s') /\
       con_shows (console_of s') blank_term [] /\ ports s' = ports s ++ t /\
       Forall (fun e => ~ disk_command e) t /\ sent_on COM1 t = [0xAE])
    (fun msg _ => boot_failure memtest msg).
Proof.
  intros Hpo Htags Hboot Hpic Htss Hstub Hkq Haq Hring Hst Hk Hl Hcfg. unfold up_to_reading. eapply runs_bind.
  { pose proof (kmain_init_runs memtest boot addr fuel_tags fuel_mem mems elfs rs qs s Hpo Htags Hboot Hpic Htss Hstub) as Hinit.
    pose proof (away_kmain_init memtest boot addr fuel_tags fuel_mem s) as Haway.
    instantiate (1 := fun _ s1 => (machine_up s1 /\ irq_table s1 = boot_table /\
      exists h, heap_inv h empty_ghost /\ ps_room (vm h) = HEAP_ROOM /\ kw_sched (world s1) = boot_sched qs h) /\
      kw_keys (world s1) = kw_keys (world s) /\ exists t, ports s1 = ports s ++ t /\ Forall elsewhere t /\ sent_on COM1 t = [0xAE]).
    unfold runs in *. destruct (kmain_init _ _ _ _ _ s) as [[] s1| | |]; [|done..]. split; [done|]. by eapply Haway. }
  cbn beta. intros _ s1 ((Hup & Htab & h & Hh & Hroom & Hw) & Hkeys & t & Hp1 & Ht1 & Hsent1).
  apply Forall_and in Ht1 as [Htk Htd].
  eapply runs_bind; [eapply runs_conseq; [by apply (threads_start s1 qs h)|intros ? ? X; exact X|]|].
  { intros msg _ ->. by left. }
  cbn beta. intros _ s2 (x & y & p & Hx & ->).
  destruct (keyboard_up x y p s1 stack l cfg o Hx Htab) as (s3 & E3 & Hr3 & Hs3 & Hc3 & t3 & Hp3 & Ht3); [by rewrite Hkeys|done| |done..|].
  { by rewrite Hp1, ctl_of_other. }
  unfold runs. rewrite E3. exists x, y, (t ++ t3). split; [done|]. split; [done|]. split; [|split; [|split]].
  - destruct Hup as [_ _ _ _ _ _ Hv [Hq _]]. cbn in Hv, Hq. split; [|split; [|by constructor]]; cbn in *; by rewrite Hc3.
  - by rewrite Hp3, Hp1, app_assoc.
  - apply Forall_app. split; [done|]. by apply init_access_no_command.
  - by rewrite sent_on_app, Hsent1, (init_access_silent _ Ht3), app_nil_r.
Qed.

Lemma boot_and_read_split memtest boot addr fuel_tags fuel_mem stack rounds n s Q P :
  runs (up_to_reading memtest boot addr fuel_tags fuel_mem stack ;; echo_loop rounds (replicate n (keyboard_wait fuel))) s Q P ->
  runs (boot_and_read memtest boot addr fuel_tags fuel_mem fuel stack rounds n) s Q P.
Proof.
  unfold up_to_reading, boot_and_read, keyboard_io. unfold runs, mbind, M_bind.
  destruct (kmain_init _ _ _ _ _ s) as [? s1| | |]; [|done..]. destruct (schedop _ s1) as [? s2| | |]; done.
Qed.

End reads.

End kernel.

(** ** Someone at a machine *)

Module KeyDemo.
Import KernelHeap.Small SerialDemo IrqDemo BootDemo Ps2Demo.
#[local] Existing Instances low_statics low_statics_low.
#[export] Instance disk_statics : AtaStatics := {| read_block_handler_addr := 0x102700; ata_addr := 0x200000 |}.
#[export] Instance key_statics : WaitStatics.
Proof. by refine {| kb_queue := 69708; ata_req := disk_queue - REQ_QUEUE; kb_handler_addr := 0x102600 |}. Defined.

(** The controller of Ps2.v with a byte to flush, at which someone types "hi" and enter once the
    keyboard is initialized, and the UART of Serial.v. *)
#[export] Instance key_hw : Hardware := kbd_device at_power_on keys_hi slow_uart.
#[export] Instance key_good : GoodController at_power_on 0.
Proof. apply device_good. by split; [apply Forall_singleton|]. Qed.
#[export] Instance key_types : Typing at_power_on keys_hi 0.
Proof. apply device_types, keys_hi_bytes. Qed.
Lemma key_pic : pic_reads_back.
Proof. done. Qed.

(** Zeroed statics, as for the machine of Boot.v. *)
Definition key_queues : list Z := [disk_queue; kb_queue].
Definition machine1 : irq_state kworld :=
  set_world (set_kw_sched (boot_sched key_queues (mkHeap [] (boot_mm []))) (world machine0)) machine0.
Lemma machine1_on : power_on key_queues machine1.
Proof. by split. Qed.

(** It boots and its threads start. *)
Example machine1_boots :
  returns (kmain_init false small_boot TAGS_AT 3 64 ;; schedop (start_threads keyboard_io_addr drive_init_addr)) machine1 = true.
Proof. vm_compute. reflexivity. Qed.
End KeyDemo.

Import KernelHeap.Small SerialDemo IrqDemo BootDemo Ps2Demo KeyDemo.
#[local] Existing Instances low_statics low_statics_low.

