(* ===== verification/DiskWait.v ===== *)
(** * DiskWait: a thread that waits for the disk (src/src/block_device.c,
    src/src/processes.c, src/src/interrupts.c, src/src/kmain.c)

    On the machine of Boot.v the disk's thread blocks on the queue of its request, the
    source thread halts in [kmain]'s loop, the drive interrupts it, the interrupt table
    leads to the driver's handler, which wakes the thread, and the loop lets it run again
    (KernelWait.v). This discharges for the whole kernel what Ata.v asks of a wait
    ([QuietWait]), so that all that is proved over a block device holds on the kernel. *)

From S2P Require Import Prelude Multiboot Frames PageTable VirtPages Kmalloc HeapPages KernelHeap MemTest.
From S2P Require Import ProcQueue Processes KernelThreads.
From S2P Require Import RingBuffer Ports Interrupts RingDev Vga Serial Printk Keycodes Ps2 Echo Disk Ata Kmain Boot KernelWait.

(** The vector of the disk. *)
Definition DISK_INTERRUPT : Z := IRQ_BASE + IRQ14.

Section kernel.
Context `{Hardware} `{Statics} `{SerialStatics} `{PoolsAt} `{StaticsLow} `{KernelStatics} `{!AtaStatics} `{!WaitStatics}.
Context (fuel : nat).
Implicit Types (s : irq_state kworld) (Q : gmap Z (list Z)).

(** [PROC_block_on(&ata->req_head->block_queue, true)] until it returns; the block that
    [kmalloc] gives for a request is the same whenever none is in use. *)
Definition disk_wait (p : Z) : K unit :=
  schedop (PROC_block_on (p + REQ_QUEUE) true) ;;
  halted_turn fuel DISK_INTERRUPT.
Definition fresh_req (m : gmap Z ATARequest) : Z := if decide (m = ∅) then ata_req else fresh ({[0]} ∪ dom m : gset Z).
#[export] Instance kernel_env : AtaEnv kworld :=
  {| new_req := fresh_req; block_on := disk_wait; unblock_head := wake_request |}.

(** The disk is set up and its thread [x] runs; no other thread can. *)
Record disk_thread (x : Z) s : Prop := {
  dt_table : length (irq_table s) = 256%nat;
  dt_entry : irq_table s !! Z.to_nat DISK_INTERRUPT = Some (mkEntry ata_addr read_block_handler_addr);
  dt_reqs : forall p, is_Some (reqs (kw_ata (world s)) !! p) -> p = ata_req;
  dt_cpu : exists Q, alone x Q (sched_of s) /\ Q !! ata_queue = Some [] }.

Lemma fresh_req_spec m : fresh_req m <> 0 /\ m !! fresh_req m = None.
Proof.
  unfold fresh_req. destruct (decide (m = ∅)) as [->|]; [split; [apply queues_not_null|apply lookup_empty]|].
  pose proof (is_fresh ({[0]} ∪ dom m : gset Z)) as Hf. rewrite not_elem_of_union, not_elem_of_singleton, not_elem_of_dom in Hf. exact Hf.
Qed.

Lemma disk_thread_ints x b s : disk_thread x s -> disk_thread x (set_ints b s).
Proof.
  intros [? ? ? (Q & Ha & Hq)]. split; [done..|]. exists Q. split; [|done]. rewrite (sched_of_same s) by done. by apply alone_if.
Qed.
Lemma disk_thread_ports x tr s : disk_thread x s -> disk_thread x (set_ports tr s).
Proof. by intros []. Qed.

Lemma heads_sched s : heads (qs (sched_of s)) = heads (qs (kw_sched (world s))).
Proof. done. Qed.

(** The requests of the machine are those of the driver, with the heads of their queues. *)
Lemma kernel_reqs w p : is_Some (reqs (kernel_ata w) !! p) <-> is_Some (reqs (kw_ata w) !! p).
Proof. unfold kernel_ata. rewrite with_heads_lookup. apply fmap_is_Some. Qed.

(** What the driver does to its device does not reach the scheduler. *)
Lemma set_ata_apart a s : heads_agree a (world s) ->
  set_world (set_ata a (world s)) s = set_world (set_kw_ata a (world s)) s.
Proof. intros Ha. cbn [set_ata kernel_disk]. by rewrite set_kernel_ata_agree. Qed.

Lemma disk_thread_ata x a s : disk_thread x s ->
  (forall p r, reqs a !! p = Some r -> request_kept new_req (reqs (ata (world s))) p r) ->
  disk_thread x (set_world (set_ata a (world s)) s).
Proof.
  intros [Hl He Hr (Q & Ha & Hq)] Hk. pose proof (alone_head _ _ _ _ _ Ha Hq) as Hh. rewrite heads_sched in Hh.
  assert (Hreq : forall p r, reqs a !! p = Some r -> p = ata_req /\ queue_head r = 0).
  { intros p r E. specialize (Hk p r E). unfold request_kept in Hk. cbn [ata kernel_disk] in Hk.
    destruct (reqs (kernel_ata (world s)) !! p) as [r0|] eqn:E0.
    - assert (Ep : p = ata_req) by (apply Hr, kernel_reqs; by exists r0). split; [done|]. subst p. rewrite Hk.
      unfold kernel_ata in E0. rewrite with_heads_lookup in E0. destruct (reqs (kw_ata (world s)) !! ata_req); [|done].
      injection E0 as <-. cbn [queue_head]. change (ata_req + REQ_QUEUE) with ata_queue. by rewrite Hh.
    - destruct Hk as (Em & -> & ->). split; [|done]. cbn [new_req kernel_env]. rewrite Em. unfold fresh_req. by rewrite decide_True. }
  rewrite set_ata_apart.
  - split; [done|done| |by exists Q]. intros p [r E]. by eapply Hreq.
  - intros p r E. destruct (Hreq p r E) as [-> ->]. exact Hh.
Qed.

(** *** The interrupt *)

(** The driver's handler, while no thread runs and [x] waits for request [ata_req]. *)
Lemma disk_interrupt s x Q r : parked [] Q (sched_of s) -> Q !! ata_queue = Some [x] -> length (irq_table s) = 256%nat ->
  irq_table s !! Z.to_nat DISK_INTERRUPT = Some (mkEntry ata_addr read_block_handler_addr) ->
  ata_base (kw_ata (world s)) = PRIM_IO_BASE -> req_head (kw_ata (world s)) = ata_req ->
  (forall p, is_Some (reqs (kw_ata (world s)) !! p) -> p = ata_req) -> reqs (kw_ata (world s)) !! ata_req = Some r ->
  exists s' tr h, irq_handler (kernel_call fuel) DISK_INTERRUPT 0 s = Ret tt s' /\
    parked [x] (<[avail_procs := [x]]> (<[ata_queue := []]> Q)) (sched_of s') /\
    irq_table s' !! Z.to_nat DISK_INTERRUPT = Some (mkEntry ata_addr read_block_handler_addr) /\ length (irq_table s') = 256%nat /\
    kw_ata (world s') = with_heads h (kw_ata (world s)) /\ kw_con (world s') = kw_con (world s) /\
    ports s' = ports s ++ tr /\ Forall quiet tr.
Proof.
  intros Hp Hq Hl He Hb Hh Hr Er. set (s0 := set_ints false s).
  pose proof (parked_head _ _ _ _ _ Hp Hq) as Hhead. rewrite heads_sched in Hhead. cbn [hd] in Hhead.
  set (v := u8 (hw (ports s) (PRIM_IO_BASE + REG_STATUS))). set (s1 := set_ports (ports s ++ [Inb (PRIM_IO_BASE + REG_STATUS) v]) s0).
  assert (Hx : x <> 0).
  { destruct Hp as (L & Hi & _). apply (queue_not_null _ _ _ _ x (si_queues _ _ _ Hi) Hq). left. }
  set (h := heads (qs (kw_sched (world s)))) in *.
  assert (Ereq : reqs (kernel_ata (world s)) !! ata_req = Some (mkReq (blk_num r) x (Ata.next r))).
  { unfold kernel_ata. rewrite with_heads_lookup, Er. cbn. change (ata_req + REQ_QUEUE) with ata_queue. fold h. by rewrite Hhead. }
  set (s2 := set_world (set_kw_ata (with_heads h (kw_ata (world s))) (world s)) s1).
  assert (E2 : ataop (get_req ata_req) s1 = Ret (mkReq (blk_num r) x (Ata.next r)) s2).
  { assert (Eg : get_req ata_req (ata (world s1)) = Ret (mkReq (blk_num r) x (Ata.next r)) (ata (world s1))) by by apply get_req_ret.
    rewrite (ataop_ret _ s1 _ _ Eg).
    f_equal. rewrite set_ata_apart; [done|]. apply agree_self. intros p Hpr. rewrite (Hr p Hpr).
    fold h. change (ata_req + REQ_QUEUE) with ata_queue. by eexists. }
  assert (P2 : parked [] Q (sched_of s2)) by (rewrite (sched_of_same s s2) by done; by apply parked_if).
  destruct (parked_wakes_head Q ata_queue x [] _ P2) as (p3 & B3 & P3); [apply queues_apart|done|].
  destruct (schedop_step _ s2 tt p3 Hl B3) as (s3 & E3 & Hs3 & O3). rewrite <- Hs3 in P3.
  set (s4 := set_ports (ports s3 ++ [Outb PIC2_COMMAND PIC_EOI; Outb PIC1_COMMAND PIC_EOI]) s3).
  assert (E4 : kernel_call fuel read_block_handler_addr DISK_INTERRUPT 0 ata_addr s0 = Ret tt s4).
  { unfold kernel_call. destruct handlers_not_null as (_ & _ & Hne). rewrite (proj2 (Z.eqb_neq _ _) Hne), Z.eqb_refl.
    unfold read_block_handler, get_ata. rewrite bind_gets.
    change (ata_base (ata (world s0))) with (ata_base (kw_ata (world s))). rewrite Hb.
    assert (E1 : portop (inb (PRIM_IO_BASE + REG_STATUS)) s0 = Ret v s1) by done. rewrite (bind_ret _ _ _ _ _ E1).
    change (req_head (ata (world s0))) with (req_head (kw_ata (world s))). rewrite Hh, (bind_ret _ _ _ _ _ E2).
    cbn [queue_head]. rewrite (proj2 (Z.eqb_neq _ _) Hx). cbn [negb].
    assert (E3' : unblock_head (AtaEnv := handler_env) ata_req s2 = Ret tt s3) by exact E3. rewrite (bind_ret _ _ _ _ _ E3').
    by apply (zoom_ret ports set_ports), PIC_sendEOI_vector. }
  destruct O3 as [Ol Oe Op _ Oc Oa].
  exists (set_ints true s4), ([Inb (PRIM_IO_BASE + REG_STATUS) v] ++ [Outb PIC2_COMMAND PIC_EOI; Outb PIC1_COMMAND PIC_EOI]), h.
  split; [|split; [|split; [|split; [|split; [|split; [|split]]]]]].
  - unfold irq_handler, CLI, STI. rewrite bind_modify. fold s0.
    change ((DISK_INTERRUPT <? 0) || (DISK_INTERRUPT >=? IDT_MAX_DESCRIPTORS)) with false. cbv iota.
    rewrite bind_gets. unfold id. change (irq_table s0) with (irq_table s). rewrite He. cbn [Interrupts.handler arg].
    rewrite (proj2 (Z.eqb_neq _ _) (proj1 (proj2 handlers_not_null))). by rewrite (bind_ret _ _ _ _ _ E4).
  - rewrite (sched_of_same s3 (set_ints true s4)) by done. by apply parked_if.
  - change (irq_table s3 !! Z.to_nat DISK_INTERRUPT = Some (mkEntry ata_addr read_block_handler_addr)). by rewrite Oe.
  - exact (eq_trans Ol Hl).
  - exact Oa.
  - exact Oc.
  - change (ports s3 ++ [Outb PIC2_COMMAND PIC_EOI; Outb PIC1_COMMAND PIC_EOI] =
      ports s ++ [Inb (PRIM_IO_BASE + REG_STATUS) v] ++ [Outb PIC2_COMMAND PIC_EOI; Outb PIC1_COMMAND PIC_EOI]).
    rewrite Op, app_assoc. done.
  - repeat constructor; intros d; by destruct d.
Qed.

(** *** Waiting *)

Lemma disk_wait_ret x s : disk_thread x s -> primary (ata (world s)) -> req_head (ata (world s)) = ata_req ->
  is_Some (reqs (ata (world s)) !! ata_req) ->
  exists s' tr, disk_wait ata_req s = Ret tt s' /\ disk_thread x s' /\ ata (world s') = ata (world s) /\
    kw_con (world s') = kw_con (world s) /\ ports s' = ports s ++ tr /\ Forall quiet tr.
Proof.
  intros [Hl He Hr (Q & Ha & Hq)] (Hb & _) Hh [r Er]%kernel_reqs.
  pose proof (alone_head _ _ _ _ _ Ha Hq) as Hh0. rewrite heads_sched in Hh0.
  destruct queues_not_null as (_ & Ha0 & _), queues_apart as (_ & Haa & _).
  set (Q1 := <[avail_procs := []]> (<[ata_queue := [x]]> Q)).
  assert (Hq1 : Q1 !! ata_queue = Some [x]) by (unfold Q1; rewrite lookup_insert_ne by done; apply lookup_insert_eq).
  destruct (blocked_turn_ret fuel x Q s ata_queue [] DISK_INTERRUPT
    (fun s' => irq_table s' !! Z.to_nat DISK_INTERRUPT = Some (mkEntry ata_addr read_block_handler_addr) /\
       (exists h, kw_ata (world s') = with_heads h (kw_ata (world s))) /\ kw_con (world s') = kw_con (world s) /\
       exists tr, ports s' = ports s ++ tr /\ Forall quiet tr)
    (<[avail_procs := [x]]> (<[ata_queue := []]> Q1)) Ha Hl Haa Ha0 Hq) as (s' & E & Ha' & Hl' & He' & (h & Hk') & Hc' & tr & Hp' & Ht').
  - intros s1 [Ol Oe Op _ Oc Oa] P1 _. change ([] ++ [x]) with [x] in P1. fold Q1 in P1. change (ata_base (kw_ata (world s)) = PRIM_IO_BASE) in Hb.
    destruct (disk_interrupt s1 x Q1 r P1 Hq1) as (s2 & tr & h & E2 & P2 & He2 & Hl2 & Hk2 & Hc2 & Hp2 & Ht2);
      [by rewrite Ol|by rewrite Oe|by rewrite Oa|by rewrite Oa|by rewrite Oa|by rewrite Oa|].
    exists s2. split; [done|]. split; [done|]. split; [done|]. intros s' [_ Oe' Op' _ Oc' Oa'].
    split; [by rewrite Oe'|]. split; [exists h; by rewrite Oa', Hk2, Oa|]. split; [by rewrite Oc', Hc2|]. exists tr. by rewrite Op', Hp2, Op.
  - set (Q2 := <[avail_procs := [x]]> (<[avail_procs := [x]]> (<[ata_queue := []]> Q1))) in *.
    assert (Hq2 : Q2 !! ata_queue = Some []) by (unfold Q2; rewrite !lookup_insert_ne by done; apply lookup_insert_eq).
    pose proof (alone_head _ _ _ _ _ Ha' Hq2) as Hh2. rewrite heads_sched in Hh2.
    exists s', tr. split; [exact E|]. split; [|split; [|done]].
    + split; [done|done| |by exists Q2]. intros p. rewrite Hk', with_heads_lookup, fmap_is_Some. apply Hr.
    + cbn [ata kernel_disk]. unfold kernel_ata. rewrite Hk', with_heads_twice. apply with_heads_same. intros p Hp.
      rewrite (Hr p Hp). change (ata_req + REQ_QUEUE) with ata_queue. by rewrite Hh0, Hh2.
Qed.

(** The kernel is a machine for the driver; reading leaves the console [c] alone. *)
Definition can_read (x : Z) (c : console) s : Prop := disk_thread x s /\ kw_con (world s) = c.
#[export] Instance kernel_quiet (x : Z) (c : console) : QuietWait kworld.
Proof.
  refine {| qw_ok := can_read x c; qw_fresh := fresh_req_spec |}.
  - intros b s [Hd Hc]. split; [by apply disk_thread_ints|done].
  - intros tr s [Hd Hc]. split; [by apply disk_thread_ports|done].
  - intros a s [Hd Hc] Hk. split; [by apply disk_thread_ata|done].
  - intros p s [Hd Hc] Hp -> Hs. assert (Eh : req_head (ata (world s)) = ata_req) by (apply (dt_reqs _ _ Hd), kernel_reqs, Hs).
    rewrite Eh in *. destruct (disk_wait_ret x s Hd Hp Eh Hs) as (s' & tr & E & Hd' & Ea & Ec & Hrest).
    exists s', tr. split; [exact E|]. split; [split; [done|by rewrite Ec]|done].
Defined.

End kernel.
