(* ===== verification/DiskBoot.v ===== *)
(** * DiskBoot: from power on to the digest of the kernel (src/src/kmain.c,
    src/src/block_device.c, src/src/ext2.c)

    [kmain] initializes the kernel of Boot.v and starts its two threads; the keyboard's
    reads and waits, since nothing is typed, and the disk's runs [drive_init] (Kmain.v),
    waiting for the drive as in DiskWait.v. What it prints is shown on the console. *)

From S2P Require Import Prelude Multiboot Frames PageTable VirtPages Kmalloc HeapPages KernelHeap MemTest.
From S2P Require Import ProcQueue Processes KernelThreads.
From S2P Require Import RingBuffer Ports Interrupts RingDev Vga Serial Printk Keycodes Ps2 Echo.
From S2P Require Import Md5 Strings Disk Ata Ext2 Kmain Boot KernelWait KeyboardWait KeyboardBoot DiskWait.

(** ** Lines on the console *)

(** A line as the pieces of its format. *)
Definition line_pieces (l : string * list Z) (ps : list piece) : Prop :=
  Md5.bytes l.1 = concat (piece_fmt <$> ps) /\ VInt <$> l.2 = concat (piece_arg <$> ps) /\ Forall piece_ok ps /\ Forall piece_plain ps.

Lemma emit_text l : forall t, emit put_text put_text l t = Ret tt (t ++ (out_char <$> l)).
Proof.
  induction l as [|o l IH]; intros t; cbn [emit fmap list_fmap]; [by rewrite app_nil_r|].
  destruct o as [c|c]; cbn [out_char].
  all: assert (E : put_text c t = Ret tt (t ++ [c])) by done; by rewrite (bind_ret _ _ _ _ _ E), IH, <- app_assoc.
Qed.
Lemma pieces_text l ps outs : line_pieces l ps -> Forall2 piece_prints ps outs -> line_text l = out_char <$> concat outs.
Proof.
  intros (Ef & Ea & Hok & _) Hos. destruct (printk_correct put_text put_text ps Hok) as (outs' & Hos' & E).
  rewrite (pieces_print_unique ps outs outs') by done. unfold line_text. rewrite Ef, Ea, E.
  by rewrite (bind_ret _ _ _ _ _ (emit_text _ _)).
Qed.

Section show.
Context {W : Type} `{HasConsole W} `{Hardware}.

Fixpoint show_lines (lines : list (string * list Z)) : M (irq_state W) unit :=
  match lines with
  | [] => mret tt
  | l :: lines => _ ← conop (kernel_printk (Md5.bytes l.1) (VInt <$> l.2)); show_lines lines
  end.

Lemma show_line_ret l ps s t ql : line_pieces l ps -> con_shows (console_of s) t ql ->
  exists n s1 ql', conop (kernel_printk (Md5.bytes l.1) (VInt <$> l.2)) s = Ret n (put_console s1 s) /\
    con_shows (console_of (put_console s1 s)) (fold_left tput (line_text l) t) ql' /\
    irq_table s1 = irq_table s /\ ints s1 = ints s.
Proof.
  intros Hps Hcs. pose proof Hps as (Ef & Ea & Hok & Hpl).
  destruct (printk_console ps (console_of s) t ql Hcs Hok Hpl) as (outs & s1 & Hos & E & ql1 & acc & Hs1 & Hi & _ & _ & Ht & _).
  rewrite <- Ef, <- Ea in E. apply (zoom_ret console_of put_console) in E. eexists _, s1, ql1. split; [exact E|].
  rewrite (pieces_text l ps outs Hps Hos). split; [|done].
  destruct Hs1 as [Hv [Hr Hc]]. split; [|split; [|done]]; cbn [console_of put_console around world] in *; by rewrite con_set.
Qed.

Lemma show_lines_ret lines : forall s t ql, Forall (fun l => exists ps, line_pieces l ps) lines -> con_shows (console_of s) t ql ->
  exists s' ql', show_lines lines s = Ret tt s' /\ con_shows (console_of s') (fold_left tput (text_of lines) t) ql'.
Proof.
  induction lines as [|l lines IH]; intros s t ql Hl Hcs; cbn [show_lines]; [by exists s, ql|].
  apply Forall_cons in Hl as [[ps Hps] Hl]. destruct (show_line_ret l ps s t ql Hps Hcs) as (n & s1 & ql1 & E & Hs1 & _).
  rewrite (bind_ret _ _ _ _ _ E). destruct (IH _ _ ql1 Hl Hs1) as (s2 & ql2 & E2 & Hs2).
  exists s2, ql2. split; [exact E2|]. unfold text_of. rewrite fmap_cons. cbn [concat]. by rewrite fold_left_app.
Qed.
End show.

(** The lines of [drive_init] are such. *)
Definition sb_line (sb_addr : Z) : string * list Z := ("sb: %lx" +:+ Prelude.newline, [sb_addr]).
Lemma sb_line_pieces a : in_range 64 a -> line_pieces (sb_line a) [Text 115; Text 98; Text 58; Text 32; Hex Long a; Text 10].
Proof.
  intros Ha. split; [done|]. split; [done|]. split; repeat constructor; cbn; unfold in_range, Printk.plain_char in *; (lia || done || auto).
Qed.
Lemma newline_pieces : line_pieces (Prelude.newline, []) [Text 10].
Proof. split; [done|]. split; [done|]. split; repeat constructor; cbn; unfold in_range; lia. Qed.
Lemma digest_pieces digest : Forall is_byte digest -> Forall (fun l => exists ps, line_pieces l ps) (digest_lines digest).
Proof.
  induction 1 as [|d digest Hd _ IH]; [constructor|]. unfold digest_lines. rewrite fmap_cons. cbn [concat].
  apply Forall_app. split; [|exact IH]. apply Forall_app. split.
  - destruct (d <? 16); [|constructor]. apply Forall_singleton. exists [Text 48]. split; [done|]. split; [done|].
    split; repeat constructor; cbn; unfold in_range; lia.
  - apply Forall_singleton. exists [Hex Int d]. unfold is_byte in Hd. split; [done|]. split; [done|].
    split; repeat constructor; cbn; unfold in_range; (lia || done).
Qed.

(** ** The disk's thread *)

Section kernel.
Context `{Hardware} `{Statics} `{SerialStatics} `{PoolsAt} `{StaticsLow} `{KernelStatics} `{!AtaStatics} `{!WaitStatics}.
Context (fuel : nat).
#[local] Instance disk_env : AtaEnv kworld := kernel_env fuel.
Implicit Types (s : irq_state kworld).

(** The first [getc] of the keyboard's thread: nothing was typed, and it blocks. *)
Definition first_read : K unit :=
  CLI ;;
  r ← ringop (gets id);
  if consumer r =? producer r then schedop (PROC_block_on kb_queue true) else mret tt.

(** A thread that works on files, from no file system mounted on; what it prints. *)
Definition disk_main (m : M (main (irq_state kworld)) unit) : K (list (string * list Z)) := fun s =>
  match m (mkMain (mkExt2 s 0) []) with
  | Ret _ f => Ret (m_out f) (dev (m_fs f))
  | Halted msg args f => Halted msg args (dev (m_fs f))
  | Fault => Fault
  | NoFuel => NoFuel
  end.

(** From power on until the disk's thread is done. *)
Definition boot_and_digest (memtest : bool) (boot : Z -> Z) (multiboot_tag_addr : Z) (fuel_tags fuel_mem : nat)
    (stack : list Z) (reads : nat) (sb_addr stack_ino : Z) (stack_ctx : MD5_CTX) : K unit :=
  up_to_reading fuel memtest boot multiboot_tag_addr fuel_tags fuel_mem stack ;;
  first_read ;;
  lines ← disk_main (drive_init fuel reads sb_addr stack_ino stack_ctx);
  show_lines lines.

(** The keyboard's thread waits, and the disk's is left alone. *)
Lemma first_read_ret x y s : started x y (sched_of s) -> length (irq_table s) = 256%nat -> ring_rep (kw_keys (world s)) [] ->
  exists s' Q, first_read s = Ret tt s' /\ alone y Q (sched_of s') /\ Q !! ata_queue = Some [] /\ sched_only s s'.
Proof.
  intros (L & Q & Hr & Hc & [Hq _] & Ha) Hl Hrep. destruct queues_not_null as (Hk0 & _), queues_apart as (Hka & Haa & Hak).
  set (s0 := set_ints false s).
  assert (Hr0 : running (sched_of s0) L Q [y; x] /\ cur_proc (sched_of s0) = x).
  { rewrite (sched_of_same s s0) by done. destruct Hr as [[[] ? ? ?] ?]. split; [|done]. split; [|done]. by split; [split|..]. }
  destruct (pair_blocks x y L Q kb_queue [] _ (proj1 Hr0) (proj2 Hr0) Hka Hk0 Hq) as (p & B & A).
  destruct (schedop_step _ s0 tt p Hl B) as (s' & E & Hs' & O). exists s'. eexists. split; [|split; [rewrite Hs'; exact A|split]].
  - unfold first_read, CLI. rewrite bind_modify. fold s0. rewrite (bind_ret _ _ _ _ _ (ring_get s0)).
    change (ring (world s0)) with (kw_keys (world s)). by rewrite (rep_empty _ _ Hrep), bool_decide_true.
  - rewrite !lookup_insert_ne by (by apply not_eq_sym). done.
  - eapply sched_only_trans; [apply (sched_only_if false)|exact O].
Qed.

(** Once the drive is found its thread can wait for it. *)
Lemma found_can_read count y Q s : alone y Q (sched_of s) -> Q !! ata_queue = Some [] -> length (irq_table s) = 256%nat ->
  can_wait (QuietWait0 := kernel_quiet fuel y (kw_con (world s))) count s.
Proof.
  intros Ha Hq Hl tr. assert (Hag : heads_agree (found_drive count) (world s)) by done.
  change (can_read y (kw_con (world s)) (set_world (set_ata (found_drive count) (world s)) (probed count tr s))).
  cbn [set_ata kernel_disk]. rewrite set_kernel_ata_agree by done. split; [|done]. split.
  - unfold probed. cbn [irq_table set_world set_printed set_ports set_irq_table]. by rewrite length_insert.
  - unfold probed. cbn [irq_table set_world set_printed set_ports set_irq_table].
    apply list_lookup_insert_eq. rewrite Hl. vm_compute. lia.
  - intros p. cbn [world set_world kw_ata set_kw_ata found_drive reqs]. rewrite lookup_empty. by intros [].
  - exists Q. split; [|done].
    match goal with |- alone _ _ (sched_of ?s') => enough (sched_of s' = sched_of s) as -> by done end.
    unfold sched_of, handler_in, probed. cbn [irq_table set_world set_printed set_ports set_irq_table ints world kw_sched set_kw_ata].
    by rewrite !list_lookup_insert_ne by done.
Qed.

(** Without a command there is no transfer. *)
Lemma no_transfer_on tr t : no_transfer tr -> Forall (fun e => ~ disk_command e) t -> no_transfer (tr ++ t).
Proof.
  intros Hn Ht. revert tr Hn. induction Ht as [|e t He _ IH]; intros tr Hn; [by rewrite app_nil_r|].
  change (e :: t) with ([e] ++ t). rewrite app_assoc. apply IH. apply no_transfer_event; [done|].
  destruct e as [p v|p v|p v|p v]; try done. intros [= -> _]. by apply He.
Qed.

Section digest.
Context (k0 : ctl) (patience : nat) `{!GoodController k0 patience}.
Context (Hfuel : Z.of_nat patience < PS2_READ_DATA_RESONABLE_TIMEOUT <= Z.of_nat fuel).
Context (sectors : Z -> list Z) (count : Z) (drive_patience : nat).
Context `{!GoodDrive sectors drive_patience} `{!PataDrive count drive_patience} (Hdrive : (drive_patience < fuel)%nat).
#[local] Instance disk_device : BlockDevice (irq_state kworld) := drive_device fuel.

(** The disk's thread of the booted kernel, from where the keyboard's waits. *)
Lemma disk_thread_prints s y Q p kernel reads sb_addr stack_ino stack_ctx :
  let sb := mounted (disk_bytes sectors) p in
  alone y Q (sched_of s) -> Q !! ata_queue = Some [] -> length (irq_table s) = 256%nat -> no_transfer (ports s) ->
  kernel_on_disk (disk_bytes sectors) p stack_ino kernel -> length (buffer stack_ctx) = 64%nat ->
  st_size kernel <= direct_span sb * block_size sb -> st_size kernel + READ_SIZE < 2 ^ 31 -> reads_ok sb (st_size kernel) ->
  st_size kernel <= READ_SIZE * (Z.of_nat reads - 1) ->
  exists s', disk_main (drive_init fuel reads sb_addr stack_ino stack_ctx) s =
      Ret ([sb_line sb_addr] ++ digest_lines (md5_spec (content (disk_bytes sectors) p kernel)) ++ [(Prelude.newline, [])]) s' /\
    disk_thread y s' /\ kw_con (world s') = kw_con (world s).
Proof.
  intros sb Ha Hq Hl Hn Hk Hctx Hsz Hov Hreads Hf. unfold disk_main.
  destruct (drive_init_ret (QuietWait0 := kernel_quiet fuel y (kw_con (world s))) fuel sectors count drive_patience Hdrive
    (mkMain (mkExt2 s 0) []) p kernel reads sb_addr stack_ino stack_ctx) as (f & E & [[Hd Hc] _] & Ho);
    [done|by eapply found_can_read|done..|].
  assert (E' : drive_init fuel reads sb_addr stack_ino stack_ctx (mkMain (mkExt2 s 0) []) = Ret tt f) by exact E.
  rewrite E', Ho. by exists (dev (m_fs f)).
Qed.

End digest.

End kernel.

(** ** A machine with the disk of Kmain.v *)

Module DiskDemo.
Import KernelHeap.Small SerialDemo IrqDemo BootDemo AtaDemo KernelDisk Ps2Demo KeyDemo.
#[local] Existing Instances low_statics low_statics_low.

(** The keyboard of KeyboardBoot.v, at which nobody types, the drive and the UART. *)
#[export] Instance disk_hw : Hardware := kbd_device at_power_on [] (drive_among slow_uart kernel_sectors).
Definition disk_fuel : nat := Z.to_nat 20000.
#[export] Instance disk_good : GoodController at_power_on 0.
Proof. apply device_good. by split; [apply Forall_singleton|]. Qed.
Lemma disk_has_drive : has_drive disk_hw kernel_sectors.
Proof.
  intros tr port Hp. unfold disk_hw, kbd_device. unfold drive_port in Hp.
  destruct (Z.eqb_spec port PS2_STATUS_COMMAND_PORT) as [->|_]; [discriminate Hp|].
  destruct (Z.eqb_spec port PS2_DATA_PORT) as [->|_]; [discriminate Hp|]. by apply drive_among_has.
Qed.
Lemma disk_pic : @pic_reads_back disk_hw.
Proof. done. Qed.
#[export] Instance disk_drive : GoodDrive kernel_sectors 2.
Proof. apply drive_with_good; [exact disk_has_drive|exact kernel_sectors_ok]. Qed.
#[export] Instance disk_pata : PataDrive ones_count 2.
Proof. apply drive_with_pata with (secs := kernel_sectors). exact disk_has_drive. Qed.
Lemma disk_fuel_ok : Z.of_nat 0 < PS2_READ_DATA_RESONABLE_TIMEOUT <= Z.of_nat disk_fuel.
Proof. unfold disk_fuel. rewrite Z2Nat.id; done. Qed.
Lemma disk_patience : (2 < disk_fuel)%nat.
Proof. unfold disk_fuel. lia. Qed.
End DiskDemo.

Import KernelHeap.Small SerialDemo IrqDemo BootDemo AtaDemo KernelDisk Ps2Demo KeyDemo DiskDemo.
#[local] Existing Instances low_statics low_statics_low.

