(* ===== verification/TestThreads.v ===== *)
(** * TestThreads: the threads [kmain] has to try the scheduler (src/src/kmain.c)

    [test_thread1], [test_thread2] and [spinwaiter]; the lines that start them are comments
    in the source. Each prints and yields on the machine of Boot.v. *)

From S2P Require Import Prelude Multiboot Frames PageTable VirtPages Kmalloc HeapPages KernelHeap MemTest.
From S2P Require Import Ata.
From S2P Require Import ProcQueue Processes KernelThreads.
From S2P Require Import RingBuffer Ports Interrupts RingDev Vga Serial Printk Keycodes Ps2 Echo.
From S2P Require Import Md5 Kmain Boot KernelWait DiskBoot.

Section kernel.
Context `{Hardware} `{Statics} `{SerialStatics} `{PoolsAt} `{StaticsLow} `{KernelStatics} `{!AtaStatics} `{!WaitStatics}.
Implicit Types (s : irq_state kworld) (Q : gmap Z (list Z)).

(** [printk(fmt, i, arg); yield();] for the turns [i] up to [n]. *)
Fixpoint print_and_yield (fmt : string) (n : nat) (i arg : Z) : K unit :=
  match n with
  | O => mret tt
  | S n =>
      _ ← conop (kernel_printk (Md5.bytes fmt) [VInt i; VInt arg]);
      schedop yield ;;
      print_and_yield fmt n (i + 1) arg
  end.

Definition LINE1 : string := "Thread 1! (%lu - %lx)" +:+ Prelude.newline.
Definition LINE2 : string := "Thread 2! (%lu - %lx)" +:+ Prelude.newline.
Definition test_thread1 (arg : Z) : K unit := print_and_yield LINE1 10 0 arg.
Definition test_thread2 (arg : Z) : K unit := print_and_yield LINE2 5 0 arg.

(** Turns of the endless loop. *)
Fixpoint spinwaiter (rounds : nat) : K unit :=
  match rounds with
  | O => mret tt
  | S rounds => schedop yield ;; spinwaiter rounds
  end.

(** The only thread that can run goes on when it yields. *)
Lemma alone_yields x Q p : alone x Q p -> exists p', yield p = Ret tt p' /\ alone x (<[avail_procs := [x]]> Q) p'.
Proof.
  intros (L & [Hr Hin] & Hc).
  destruct (yield_ret p L Q [x] Hr) as (p' & E & Hr' & Hc' & _).
  - eapply ready_has_ctx; [exact Hr|]. right. eapply in_queue_avail; [exact Hr|]. rewrite Hc. left.
  - exists p'. split; [done|]. by exists L.
Qed.

(** The lines of a test thread. *)
Definition thread_lines (fmt : string) (n : nat) (i arg : Z) : list (string * list Z) :=
  (fun k => (fmt, [k; arg])) <$> seqZ i (Z.of_nat n).

Lemma printed_turns fmt x arg n : forall i s Q t ql, alone x Q (sched_of s) -> length (irq_table s) = 256%nat ->
  con_shows (console_of s) t ql -> Forall (fun l => exists ps, line_pieces l ps) (thread_lines fmt n i arg) ->
  exists s' Q' ql', print_and_yield fmt n i arg s = Ret tt s' /\ alone x Q' (sched_of s') /\
    con_shows (console_of s') (fold_left tput (text_of (thread_lines fmt n i arg)) t) ql'.
Proof.
  induction n as [|n IH]; intros i s Q t ql Ha Hl Hcs Hps; cbn [print_and_yield]; [by exists s, Q, ql|].
  unfold thread_lines in Hps |- *. rewrite seqZ_cons in Hps |- * by lia. replace (Z.pred (Z.of_nat (S n))) with (Z.of_nat n) in * by lia.
  change (Z.succ i) with (i + 1) in *. rewrite fmap_cons in Hps |- *. apply Forall_cons in Hps as [[ps Hp] Hps].
  destruct (show_line_ret _ ps s t ql Hp Hcs) as (r & c & ql1 & E1 & Hs1 & Et & Ei).
  rewrite (bind_ret _ _ _ _ _ E1). set (s1 := put_console c s) in *.
  assert (Ha1 : alone x Q (sched_of s1)).
  { rewrite (sched_of_same s s1) by (done || exact Et). by apply alone_if. }
  destruct (alone_yields x Q _ Ha1) as (p2 & B2 & A2).
  destruct (schedop_step yield s1 tt p2) as (s2 & E2 & Hs2 & O2); [exact (eq_trans (f_equal length Et) Hl)|exact B2|].
  rewrite (bind_ret _ _ _ _ _ E2). rewrite <- Hs2 in A2.
  destruct (IH (i + 1) s2 _ (fold_left tput (line_text (fmt, [i; arg])) t) ql1 A2) as (s3 & Q3 & ql3 & E3 & A3 & Hs3); [|  |exact Hps|].
  - rewrite (so_table _ _ O2). exact (eq_trans (f_equal length Et) Hl).
  - destruct O2 as [_ _ _ _ Oc _], Hs1 as [Hv Hw]. unfold con_shows, waiting in *. cbn [console_of around world con kernel_console] in *. by rewrite Oc.
  - exists s3, Q3, ql3. split; [exact E3|]. split; [exact A3|]. unfold text_of. cbn [fmap list_fmap concat]. by rewrite fold_left_app.
Qed.

Definition texts (l : list Z) : list piece := Text <$> l.
Definition line_of (title : string) (i arg : Z) : list piece :=
  texts (Md5.bytes title) ++ [Uns Long i] ++ texts (Md5.bytes " - ") ++ [Hex Long arg] ++ texts (Md5.bytes (")" +:+ Prelude.newline)).
Lemma test_line_pieces fmt title i arg : Forall (fun c => in_range 8 c /\ c <> 13 /\ c <> 37) (Md5.bytes title) ->
  fmt = title +:+ "%lu - %lx)" +:+ Prelude.newline -> in_range 64 i -> in_range 64 arg -> line_pieces (fmt, [i; arg]) (line_of title i arg).
Proof.
  intros Ht -> Hi Ha. unfold line_of, texts. assert (Hcat : forall l, concat (piece_fmt <$> (Text <$> l)) = l /\ concat (piece_arg <$> (Text <$> l)) = []).
  { induction l as [|c l [IH1 IH2]]; [done|]. rewrite !fmap_cons. cbn [concat piece_fmt piece_arg]. by rewrite IH1, IH2. }
  split; [|split; [|split]].
  - cbn [fst]. rewrite bytes_app, fmap_app, concat_app, (proj1 (Hcat _)). done.
  - cbn [snd]. rewrite !fmap_app, !concat_app, !(proj2 (Hcat _)). done.
  - apply Forall_app. split; [apply Forall_fmap; eapply Forall_impl; [exact Ht|]; by intros c (? & ? & ?)|].
    repeat constructor; cbn; unfold in_range in *; (done || lia).
  - apply Forall_app. split; [apply Forall_fmap; eapply Forall_impl; [exact Ht|]; by intros c (? & ? & ?)|].
    repeat constructor; cbn; unfold in_range in *; (done || lia).
Qed.

(** Alone, the test threads return, with their lines on the screen, in order. *)
Lemma test_threads_print s x Q t ql arg : alone x Q (sched_of s) -> length (irq_table s) = 256%nat ->
  con_shows (console_of s) t ql -> in_range 64 arg ->
  (exists s' Q' ql', test_thread1 arg s = Ret tt s' /\ alone x Q' (sched_of s') /\
     con_shows (console_of s') (fold_left tput (text_of (thread_lines LINE1 10 0 arg)) t) ql') /\
  (exists s' Q' ql', test_thread2 arg s = Ret tt s' /\ alone x Q' (sched_of s') /\
     con_shows (console_of s') (fold_left tput (text_of (thread_lines LINE2 5 0 arg)) t) ql').
Proof.
  intros Ha Hl Hcs Harg. assert (Hseq : forall fmt title n, (n <= 10)%nat -> Forall (fun c => in_range 8 c /\ c <> 13 /\ c <> 37) (Md5.bytes title) ->
    fmt = title +:+ "%lu - %lx)" +:+ Prelude.newline -> Forall (fun l => exists ps, line_pieces l ps) (thread_lines fmt n 0 arg)).
  { intros fmt title n Hn Ht Hf. apply Forall_fmap, Forall_forall. intros i Hi%elem_of_seqZ. exists (line_of title i arg).
    apply test_line_pieces; [done|done|unfold in_range; lia|done]. }
  assert (Ht : forall title, forallb (fun c => (0 <=? c) && (c <? 256) && negb (c =? 13) && negb (c =? 37)) (Md5.bytes title) = true ->
    Forall (fun c => in_range 8 c /\ c <> 13 /\ c <> 37) (Md5.bytes title)).
  { intros title E. apply Forall_forall. intros c Hc. rewrite forallb_forall in E. specialize (E c (proj1 (list_elem_of_In _ _) Hc)).
    unfold in_range. lia. }
  split; (eapply printed_turns; [done..|]).
  - apply (Hseq _ "Thread 1! ("); [lia|by apply Ht|done].
  - apply (Hseq _ "Thread 2! ("); [lia|by apply Ht|done].
Qed.

(** The spinning thread yields for ever. *)
Lemma spinwaiter_spins rounds : forall s x Q, alone x Q (sched_of s) -> length (irq_table s) = 256%nat ->
  exists s' Q', spinwaiter rounds s = Ret tt s' /\ alone x Q' (sched_of s') /\ kw_con (world s') = kw_con (world s).
Proof.
  induction rounds as [|rounds IH]; intros s x Q Ha Hl; cbn [spinwaiter]; [by exists s, Q|].
  destruct (alone_yields x Q _ Ha) as (p1 & B1 & A1). destruct (schedop_step _ s tt p1 Hl B1) as (s1 & E1 & Hs1 & O1).
  rewrite <- Hs1 in A1. rewrite (bind_ret _ _ _ _ _ E1). destruct (IH s1 x _ A1) as (s' & Q' & E & A & Ec); [by rewrite (so_table _ _ O1)|].
  exists s', Q'. split; [done|]. split; [done|]. by rewrite Ec, (so_con _ _ O1).
Qed.

End kernel.
